(** * TaskAdderNiceGUI: the in-page element-annotation overlay

    A shallow embedding of the two injected annotation scripts (the
    dual-role primary/secondary script and the single-lock script), of
    the helper functions they share and of the script that keeps links in
    the same tab, followed by the properties of the annotation state
    machine and of the link script.

    Conventions of the embedding:
    - the live DOM is a store of nodes addressed by node identities; JS
      reference equality [===] on nodes is equality of identities;
    - the global object [window] is a record of the fields the scripts
      read and write; an event handler is a function from the event object
      and the world to the mutated event object and world;
    - a JS call either returns or throws: [Completion];
    - strings are byte strings: [toLowerCase] and [trim] are their ASCII
      versions, and lengths count bytes;
    - the elements are HTML elements of an HTML document: the tag name is
      the upper-case local name, the type selector [a] selects the
      elements with tag name [A], and an attribute selector on [target]
      or [rel] compares values ASCII case-insensitively;
    - a plain object is the list of its own properties in the order in
      which JS lists them: array-index names in ascending order, then the
      other names in the order of their creation;
    - two parts of the page are kept beside the node store and are not
      nodes or attributes of it: the [style] elements that the setup
      appends to [head] (field [annotationStyles]) and the cursor that
      [setAnnotationMode] writes into the inline style of [body] (field
      [bodyCursor]). In a browser the first is a child node of [head] and
      the second is part of the [style] attribute of [body]; statements
      about the nodes and attributes of the store say nothing about
      them. *)

From Stdlib Require Import String Ascii List ZArith Lia Bool DecimalString DecimalNat Sorted.
From Stdlib Require Import Floats.SpecFloat.
From stdpp Require Import base gmap list strings.

Open Scope string_scope.
Open Scope list_scope.
Open Scope nat_scope.

(** ** JavaScript values and completions *)

Module JS.

Inductive Error := TypeError | RangeError.

Inductive Completion (A : Type) :=
| Return (a : A)
| Throw (e : Error).
Arguments Return {A} a.
Arguments Throw {A} e.

(** The values an untyped argument or a duck-typed property can hold.
    A number is an IEEE 754 binary64 value, by its sign, mantissa and
    exponent. Every object (arrays and functions included) is truthy. *)
Inductive Value :=
| Undefined
| Null
| Boolean (b : bool)
| Number (f : spec_float)
| Str (s : string)
| Object.

(** [!!x]: the ToBoolean coercion. *)
Definition toBoolean (x : Value) : bool :=
  match x with
  | Undefined | Null => false
  | Boolean b => b
  | Number (S754_zero _) | Number S754_nan => false
  | Number _ => true
  | Str s => negb (String.eqb s EmptyString)
  | Object => true
  end.

Definition quote : string := String "034"%char EmptyString.

Definition lowerChar (c : ascii) : ascii :=
  let n := nat_of_ascii c in
  if ((65 <=? n) && (n <=? 90))%nat then ascii_of_nat (n + 32) else c.

Fixpoint toLowerCase (s : string) : string :=
  match s with
  | EmptyString => EmptyString
  | String c r => String (lowerChar c) (toLowerCase r)
  end.

Definition isSpace (c : ascii) : bool :=
  let n := nat_of_ascii c in
  ((n =? 32) || ((9 <=? n) && (n <=? 13)))%nat.

Fixpoint trimStart (s : string) : string :=
  match s with
  | EmptyString => EmptyString
  | String c r => if isSpace c then trimStart r else s
  end.

Fixpoint trimEnd (s : string) : string :=
  match s with
  | EmptyString => EmptyString
  | String c r =>
      match trimEnd r with
      | EmptyString => if isSpace c then EmptyString else String c EmptyString
      | r' => String c r'
      end
  end.

Definition trim (s : string) : string := trimEnd (trimStart s).

(** [s.substring(0, n)] *)
Definition substring0 (n : nat) (s : string) : string := String.substring 0 n s.

(** Decimal rendering of a non-negative integer, as [+] does when it
    concatenates a number to a string. *)
Definition numberToString (n : nat) : string :=
  NilZero.string_of_uint (Nat.to_uint n).

(** String concatenation coerces [null] to the text null and
    [undefined] to the text undefined. *)
Definition nullToString (v : option string) : string :=
  match v with Some s => s | None => "null" end.

Definition undefinedToString (v : option string) : string :=
  match v with Some s => s | None => "undefined" end.

(** The array index that a property name is, if it is one: the canonical
    decimal numeral (no sign, no leading zero) of an integer from 0 to
    2^32 - 2. *)
Definition arrayIndex (k : string) : option N :=
  match NilZero.uint_of_string k with
  | Some d =>
      let n := N.of_uint d in
      if String.eqb (NilZero.string_of_uint (N.to_uint n)) k && (n <? 4294967295)%N
      then Some n
      else None
  | None => None
  end.

(** [k in o], for an own property. *)
Definition hasOwn (k : string) (o : list (string * string)) : bool :=
  existsb (fun p => String.eqb (fst p) k) o.

(** The value of an own property changes; its place stays. *)
Fixpoint updateOwn (k v : string) (o : list (string * string)) : list (string * string) :=
  match o with
  | [] => []
  | (k', v') :: r => if String.eqb k' k then (k, v) :: r else (k', v') :: updateOwn k v r
  end.

(** A new property with the array index [n] goes after the smaller
    array indices and before every other property. *)
Fixpoint insertIndex (n : N) (k v : string) (o : list (string * string))
  : list (string * string) :=
  match o with
  | [] => [(k, v)]
  | (k', v') :: r =>
      match arrayIndex k' with
      | Some m => if (m <? n)%N then (k', v') :: insertIndex n k v r else (k, v) :: o
      | None => (k, v) :: o
      end
  end.

(** Assignment [o[k] = v] of a string [v] on an object made by the
    literal [{}], given by its own properties in the order in which JS
    lists them (array indices in ascending order, then the other names
    in the order of their creation). The name [__proto__] is the
    accessor of [Object.prototype]: its setter ignores a value that is
    neither an object nor null, so the assignment creates no property.
    Every other name of [Object.prototype] is a writable data property,
    so the assignment creates an own property. *)
Definition objectSet (k v : string) (o : list (string * string)) : list (string * string) :=
  if String.eqb k "__proto__" then o
  else if hasOwn k o then updateOwn k v o
  else match arrayIndex k with
       | Some n => insertIndex n k v o
       | None => o ++ [(k, v)]
       end.

(** The order of own property names: [k] may come before [k']. *)
Definition keyBefore (k k' : string) : Prop :=
  match arrayIndex k, arrayIndex k' with
  | Some m, Some n => (m < n)%N
  | Some _, None => True
  | None, Some _ => False
  | None, None => True
  end.

End JS.

Import JS.

(** ** The DOM *)

Module DOM.

Definition NodeRef := nat.

(** What the scripts read from an element. [classList] is the ordered
    token set behind [element.classList]; [attributes] is the attribute
    list in document order. *)
Record Element := mkElement {
  tagName : string;
  id : string;
  classList : list string;
  attributes : list (string * string);
  textContent : string;
  value : Value;
  isContentEditable : bool
}.

(** An element, or another kind of node (text 3, comment 8, document 9,
    ...) which has neither [id] nor [tagName]. *)
Inductive NodeData :=
| ElementNode (e : Element)
| OtherNode (type : nat).

Record Node := mkNode {
  data : NodeData;
  parentNode : option NodeRef;
  childNodes : list NodeRef
}.

Definition ELEMENT_NODE : nat := 1.
Definition DOCUMENT_NODE : nat := 9.

Definition nodeType (n : Node) : nat :=
  match data n with
  | ElementNode _ => ELEMENT_NODE
  | OtherNode t => t
  end.

(** [node.id]: [None] is [undefined]. *)
Definition nodeId (n : Node) : option string :=
  match data n with
  | ElementNode e => Some (id e)
  | OtherNode _ => None
  end.

Definition nodeTagName (n : Node) : option string :=
  match data n with
  | ElementNode e => Some (tagName e)
  | OtherNode _ => None
  end.

Record Document := mkDocument {
  nodes : gmap NodeRef Node;
  body : NodeRef;
  bodyCursor : string;
  (** identities of the [style] elements with id annotation-styles that
      are attached under [head], in document order *)
  annotationStyles : list nat
}.

Definition elementOf (doc : Document) (r : NodeRef) : option Element :=
  match nodes doc !! r with
  | Some n => match data n with ElementNode e => Some e | OtherNode _ => None end
  | None => None
  end.

(** *** DOMTokenList operations and the class attribute *)

Definition serialize (tokens : list string) : string := String.concat " " tokens.

(** [element.className] *)
Definition className (e : Element) : string := serialize (classList e).

Definition hasAttribute (name : string) (attrs : list (string * string)) : bool :=
  existsb (fun a => String.eqb (fst a) name) attrs.

Fixpoint setAttribute (name v : string) (attrs : list (string * string)) : list (string * string) :=
  match attrs with
  | [] => [(name, v)]
  | (k, x) :: r => if String.eqb k name then (k, v) :: r else (k, x) :: setAttribute name v r
  end.

(** The update steps of a token list: the class attribute is rewritten
    with the serialized set, unless it is absent and the set is empty. *)
Definition updateTokens (tokens : list string) (e : Element) : Element :=
  {| tagName := tagName e;
     id := id e;
     classList := tokens;
     attributes :=
       if negb (hasAttribute "class" (attributes e)) && bool_decide (tokens = [])
       then attributes e
       else setAttribute "class" (serialize tokens) (attributes e);
     textContent := textContent e;
     value := value e;
     isContentEditable := isContentEditable e |}.

Definition tokensAdd (c : string) (tokens : list string) : list string :=
  if bool_decide (c ∈ tokens) then tokens else tokens ++ [c].

Definition tokensRemove (c : string) (tokens : list string) : list string :=
  filter (fun t => t ≠ c) tokens.

Definition onElement (f : Element → Element) (n : Node) : Node :=
  match data n with
  | ElementNode e =>
      {| data := ElementNode (f e); parentNode := parentNode n; childNodes := childNodes n |}
  | OtherNode _ => n
  end.

Definition updateElement (f : Element → Element) (r : NodeRef) (doc : Document) : Document :=
  {| nodes := alter (onElement f) r (nodes doc);
     body := body doc;
     bodyCursor := bodyCursor doc;
     annotationStyles := annotationStyles doc |}.

(** [r.classList.contains(c)], [r.classList.add(c)], [r.classList.remove(c)]
    for an element reference [r]: the targets of mouse events and the
    references the scripts keep are elements. On any other reference the
    token list is empty and inert. *)
Definition contains (r : NodeRef) (c : string) (doc : Document) : bool :=
  match elementOf doc r with
  | Some e => bool_decide (c ∈ classList e)
  | None => false
  end.

Definition add (r : NodeRef) (c : string) (doc : Document) : Document :=
  updateElement (fun e => updateTokens (tokensAdd c (classList e)) e) r doc.

Definition remove (r : NodeRef) (c : string) (doc : Document) : Document :=
  updateElement (fun e => updateTokens (tokensRemove c (classList e)) e) r doc.

(** *** Events

    The event object, as the listeners see it: its target, and the two
    flags that [preventDefault] (on a cancelable event) and
    [stopImmediatePropagation] set. The mouse and keyboard events that
    a browser dispatches to the listeners of the scripts (mouseover,
    mouseout, click, mousedown, keydown) are cancelable; a change event
    is not. *)

Record Event := mkEvent {
  target : NodeRef;
  defaultPrevented : bool;
  propagationStopped : bool
}.

(** [event.preventDefault()] on a cancelable event. *)
Definition preventDefault (ev : Event) : Event :=
  {| target := target ev; defaultPrevented := true; propagationStopped := propagationStopped ev |}.

(** [event.preventDefault()] on an event whose [cancelable] attribute is
    given: the call has no effect on an event that is not cancelable. *)
Definition preventDefaultOf (cancelable : bool) (ev : Event) : Event :=
  if cancelable then preventDefault ev else ev.

Definition stopImmediatePropagation (ev : Event) : Event :=
  {| target := target ev; defaultPrevented := defaultPrevented ev; propagationStopped := true |}.

End DOM.

Import DOM.

(** ** Helper functions shared by the two scripts *)

(** The loop of [getXPath] over [element.parentNode.childNodes]: the
    number of same-tag element siblings met before [element], or [None]
    when the loop ends without meeting it. A sibling that is not in the
    store matches nothing. *)
Fixpoint siblingIndex (doc : Document) (element : NodeRef) (tag : string)
    (siblings : list NodeRef) (ix : nat) : option nat :=
  match siblings with
  | [] => None
  | sibling :: rest =>
      if bool_decide (sibling = element) then Some ix
      else
        match nodes doc !! sibling with
        | Some s =>
            if (nodeType s =? 1)%nat && bool_decide (nodeTagName s = Some tag)
            then siblingIndex doc element tag rest (S ix)
            else siblingIndex doc element tag rest ix
        | None => siblingIndex doc element tag rest ix
        end
  end.

(** [getXPath], with the depth of the call stack bounded by [fuel]; a
    stack that overflows raises a [RangeError]. The [return] inside the
    loop is the [Some] case of [siblingIndex]. A reference that is not in
    the store reads as [undefined], so that a property access on it
    raises a [TypeError]; the same holds for [null.childNodes]. *)
Fixpoint getXPathRec (fuel : nat) (doc : Document) (element : NodeRef)
    : Completion (option string) :=
  match fuel with
  | O => Throw RangeError
  | S fuel' =>
      match nodes doc !! element with
      | None => Throw TypeError
      | Some n =>
          match data n with
          | OtherNode _ =>
              (* [undefined !== ''] *)
              Return (Some ("//*[@id=" +:+ quote +:+ undefinedToString None +:+ quote +:+ "]"))
          | ElementNode e =>
              if negb (String.eqb (id e) EmptyString)
              then Return (Some ("//*[@id=" +:+ quote +:+ id e +:+ quote +:+ "]"))
              else if bool_decide (element = body doc)
              then Return (Some "/html/body")
              else
                match parentNode n with
                | None => Throw TypeError
                | Some parent =>
                    match nodes doc !! parent with
                    | None => Throw TypeError
                    | Some p =>
                        match siblingIndex doc element (tagName e) (childNodes p) 0 with
                        | Some ix =>
                            match getXPathRec fuel' doc parent with
                            | Return path =>
                                Return (Some (nullToString path +:+ "/" +:+ toLowerCase (tagName e)
                                              +:+ "[" +:+ numberToString (ix + 1) +:+ "]"))
                            | Throw err => Throw err
                            end
                        | None => Return None
                        end
                    end
                end
          end
      end
  end.

(** The call stack is deep enough for every chain of distinct nodes. *)
Definition getXPath (doc : Document) (element : NodeRef) : Completion (option string) :=
  getXPathRec (S (size (nodes doc))) doc element.

Definition getAttributes (e : Element) : list (string * string) :=
  fold_left (fun result attr => objectSet (fst attr) (snd attr) result) (attributes e) [].

(** The record built at click time. *)
Record CapturedElementData := mkCaptured {
  c_tagName : string;
  c_id : string;
  c_className : string;
  c_textContent : string;
  c_value : Value;
  c_xpath : option string;
  c_attributes : list (string * string)
}.

(** The object literal of the click handlers, evaluated on the element
    referenced by [r]. *)
Definition capture (doc : Document) (r : NodeRef) : Completion CapturedElementData :=
  match elementOf doc r with
  | None => Throw TypeError
  | Some e =>
      match getXPath doc r with
      | Throw err => Throw err
      | Return xpath =>
          Return {| c_tagName := tagName e;
                    c_id := id e;
                    c_className := className e;
                    c_textContent := substring0 100 (trim (textContent e));
                    c_value := value e;
                    c_xpath := xpath;
                    c_attributes := getAttributes e |}
      end
  end.

(** ** The global object and the world *)

(** A function object created by a script; two closures are the same
    listener only when they are the same object. *)
Definition Closure := nat.

(** The fields that the scripts keep on [window]. *)

Module Window.

(** The annotation session: the fields both scripts keep on [window]
    (the two secondary arrays belong to the dual-role script only). *)
Record Session := mkSession {
  _annotationMode : bool;
  _selectedElement : option CapturedElementData;
  _elementLocked : bool;
  _currentHighlightedElement : option NodeRef;
  _lockedElement : option NodeRef;
  _secondaryActualElement : list NodeRef;
  _secondaryElements : list CapturedElementData
}.

(** The six listener references stored on [window]; [None] is
    [undefined]. *)
Record ListenerRefs := mkListenerRefs {
  _annotationMouseoverListener : option Closure;
  _annotationMouseoutListener : option Closure;
  _annotationClickListener : option Closure;
  _annotationKeydownListener : option Closure;
  _annotationSelectListener : option Closure;
  _annotationChangeListener : option Closure
}.

End Window.

Import Window.

(** An entry of the listener list of [window]: event type, callback,
    capture flag. *)
Record Registration := mkRegistration {
  r_type : string;
  r_callback : Closure;
  r_capture : bool
}.

#[global] Instance Registration_eq_dec : EqDecision Registration.
Proof. solve_decision. Defined.

Inductive LogArgument :=
| LogBoolean (b : bool)
| LogJSON (d : CapturedElementData).

(** What leaves the page: console lines and notification requests. *)
Inductive Effect :=
| ConsoleLog (text : string) (arg : option LogArgument)
| Fetch (url : string).

Record World := mkWorld {
  session : Session;
  refs : ListenerRefs;
  _annotationSetupDone : bool;
  document : Document;
  (** the listeners this script has attached to [window], in order *)
  registered : list Registration;
  output : list Effect;
  (** the next fresh object identity *)
  fresh : nat
}.

Definition withSession (f : Session → Session) (w : World) : World :=
  {| session := f (session w); refs := refs w; _annotationSetupDone := _annotationSetupDone w;
     document := document w; registered := registered w; output := output w; fresh := fresh w |}.

Definition withRefs (f : ListenerRefs → ListenerRefs) (w : World) : World :=
  {| session := session w; refs := f (refs w); _annotationSetupDone := _annotationSetupDone w;
     document := document w; registered := registered w; output := output w; fresh := fresh w |}.

Definition withDocument (f : Document → Document) (w : World) : World :=
  {| session := session w; refs := refs w; _annotationSetupDone := _annotationSetupDone w;
     document := f (document w); registered := registered w; output := output w;
     fresh := fresh w |}.

Definition withRegistered (f : list Registration → list Registration) (w : World) : World :=
  {| session := session w; refs := refs w; _annotationSetupDone := _annotationSetupDone w;
     document := document w; registered := f (registered w); output := output w;
     fresh := fresh w |}.

Definition setSetupDone (b : bool) (w : World) : World :=
  {| session := session w; refs := refs w; _annotationSetupDone := b;
     document := document w; registered := registered w; output := output w; fresh := fresh w |}.

Definition emit (e : Effect) (w : World) : World :=
  {| session := session w; refs := refs w; _annotationSetupDone := _annotationSetupDone w;
     document := document w; registered := registered w; output := output w ++ [e];
     fresh := fresh w |}.

(** A new object: its identity, and the world in which it is allocated. *)
Definition allocate (w : World) : nat * World :=
  (fresh w,
   {| session := session w; refs := refs w; _annotationSetupDone := _annotationSetupDone w;
      document := document w; registered := registered w; output := output w;
      fresh := S (fresh w) |}).

(** *** Assignments to the session fields *)

Definition setMode (b : bool) : World → World :=
  withSession (fun s =>
    {| _annotationMode := b; _selectedElement := _selectedElement s;
       _elementLocked := _elementLocked s;
       _currentHighlightedElement := _currentHighlightedElement s;
       _lockedElement := _lockedElement s;
       _secondaryActualElement := _secondaryActualElement s;
       _secondaryElements := _secondaryElements s |}).

Definition setSelectedElement (d : option CapturedElementData) : World → World :=
  withSession (fun s =>
    {| _annotationMode := _annotationMode s; _selectedElement := d;
       _elementLocked := _elementLocked s;
       _currentHighlightedElement := _currentHighlightedElement s;
       _lockedElement := _lockedElement s;
       _secondaryActualElement := _secondaryActualElement s;
       _secondaryElements := _secondaryElements s |}).

Definition setElementLocked (b : bool) : World → World :=
  withSession (fun s =>
    {| _annotationMode := _annotationMode s; _selectedElement := _selectedElement s;
       _elementLocked := b;
       _currentHighlightedElement := _currentHighlightedElement s;
       _lockedElement := _lockedElement s;
       _secondaryActualElement := _secondaryActualElement s;
       _secondaryElements := _secondaryElements s |}).

Definition setCurrentHighlightedElement (r : option NodeRef) : World → World :=
  withSession (fun s =>
    {| _annotationMode := _annotationMode s; _selectedElement := _selectedElement s;
       _elementLocked := _elementLocked s;
       _currentHighlightedElement := r;
       _lockedElement := _lockedElement s;
       _secondaryActualElement := _secondaryActualElement s;
       _secondaryElements := _secondaryElements s |}).

Definition setLockedElement (r : option NodeRef) : World → World :=
  withSession (fun s =>
    {| _annotationMode := _annotationMode s; _selectedElement := _selectedElement s;
       _elementLocked := _elementLocked s;
       _currentHighlightedElement := _currentHighlightedElement s;
       _lockedElement := r;
       _secondaryActualElement := _secondaryActualElement s;
       _secondaryElements := _secondaryElements s |}).

Definition setSecondaryActualElement (l : list NodeRef) : World → World :=
  withSession (fun s =>
    {| _annotationMode := _annotationMode s; _selectedElement := _selectedElement s;
       _elementLocked := _elementLocked s;
       _currentHighlightedElement := _currentHighlightedElement s;
       _lockedElement := _lockedElement s;
       _secondaryActualElement := l;
       _secondaryElements := _secondaryElements s |}).

Definition setSecondaryElements (l : list CapturedElementData) : World → World :=
  withSession (fun s =>
    {| _annotationMode := _annotationMode s; _selectedElement := _selectedElement s;
       _elementLocked := _elementLocked s;
       _currentHighlightedElement := _currentHighlightedElement s;
       _lockedElement := _lockedElement s;
       _secondaryActualElement := _secondaryActualElement s;
       _secondaryElements := l |}).

(** *** Class changes and the cursor, on the document of the world *)

Definition classAdd (r : NodeRef) (c : string) : World → World :=
  withDocument (DOM.add r c).

Definition classRemove (r : NodeRef) (c : string) : World → World :=
  withDocument (DOM.remove r c).

Definition classContains (r : NodeRef) (c : string) (w : World) : bool :=
  DOM.contains r c (document w).

(** [document.body.style.cursor = c]: the cursor of the inline style of
    [body] is kept in [bodyCursor]; the [style] attribute of [body], which
    the assignment adds or rewrites in a browser, is not shown in the
    attributes of the node. *)
Definition setBodyCursor (c : string) : World → World :=
  withDocument (fun doc =>
    {| nodes := nodes doc; body := body doc; bodyCursor := c;
       annotationStyles := annotationStyles doc |}).

(** *** The listener list of [window] *)

(** [window.addEventListener(type, callback, capture)]: an entry already
    present is not added again. *)
Definition addEventListener (type : string) (callback : Closure) (capture : bool)
    : World → World :=
  withRegistered (fun l =>
    let entry := mkRegistration type callback capture in
    if bool_decide (entry ∈ l) then l else l ++ [entry]).

Definition removeEventListener (type : string) (callback : Closure) (capture : bool)
    : World → World :=
  withRegistered (fun l => filter (fun entry => entry ≠ mkRegistration type callback capture) l).

(** [if (ref) window.removeEventListener(type, ref, capture)] *)
Definition removeStored (type : string) (ref : option Closure) (capture : bool)
    (w : World) : World :=
  match ref with
  | Some callback => removeEventListener type callback capture w
  | None => w
  end.

(** *** The input suppressor

    The keydown, mousedown and change listeners have the same text in
    both scripts. They read the mode flag and mutate only the event. *)

Module InputSuppressor.

Definition _annotationKeydownListener (event : Event) (w : World) : Event :=
  if _annotationMode (session w) then
    match elementOf (document w) (target event) with
    | Some e =>
        if String.eqb (tagName e) "INPUT" || String.eqb (tagName e) "TEXTAREA"
           || isContentEditable e
        then stopImmediatePropagation (preventDefault event)
        else event
    | None => event
    end
  else event.

Definition _annotationSelectListener (event : Event) (w : World) : Event :=
  if _annotationMode (session w) then
    match elementOf (document w) (target event) with
    | Some e =>
        if String.eqb (tagName e) "SELECT"
        then stopImmediatePropagation (preventDefault event)
        else event
    | None => event
    end
  else event.

(** The listener of change events. A change event that the browser
    dispatches has [cancelable] false; one that a page script makes can
    have it true. *)
Definition _annotationChangeListener (cancelable : bool) (event : Event) (w : World) : Event :=
  if _annotationMode (session w)
  then stopImmediatePropagation (preventDefaultOf cancelable event)
  else event.

End InputSuppressor.

(** *** The style element of the setup *)

(** [document.getElementById('annotation-styles')] followed by
    [oldStyle.remove()] when one is found. The style elements of the
    overlay are kept in [annotationStyles], beside the node store: the
    removal of the node from its parent is not shown in [nodes]. *)
Definition removeOldStyle : World → World :=
  withDocument (fun doc =>
    {| nodes := nodes doc; body := body doc; bodyCursor := bodyCursor doc;
       annotationStyles := tail (annotationStyles doc) |}).

(** [document.head.appendChild(style)]: the new child of [head] is
    recorded in [annotationStyles], not in [nodes]. *)
Definition appendStyle (style : nat) : World → World :=
  withDocument (fun doc =>
    {| nodes := nodes doc; body := body doc; bodyCursor := bodyCursor doc;
       annotationStyles := annotationStyles doc ++ [style] |}).

(** The style element is created, the old one is removed and the new one
    is appended to the head. The two scripts differ in the text of the
    style sheet only. *)
Definition installStyle (w : World) : World :=
  let '(style, w) := allocate w in
  let w := removeOldStyle w in
  appendStyle style w.

(** [if (window._annotationXListener) window.removeEventListener(...)],
    six times; the same text in both scripts. *)
Definition removePreviousListeners (w : World) : World :=
  let w := removeStored "mouseover" (_annotationMouseoverListener (refs w)) false w in
  let w := removeStored "mouseout" (_annotationMouseoutListener (refs w)) false w in
  let w := removeStored "click" (_annotationClickListener (refs w)) true w in
  let w := removeStored "keydown" (_annotationKeydownListener (refs w)) true w in
  let w := removeStored "mousedown" (_annotationSelectListener (refs w)) true w in
  removeStored "change" (_annotationChangeListener (refs w)) true w.

(** [window._annotationXListener = (event) => {...}]: a new function
    object is stored in the field. *)
Definition storeMouseover (w : World) : World :=
  let '(f, w) := allocate w in
  withRefs (fun r =>
    {| _annotationMouseoverListener := Some f;
       _annotationMouseoutListener := _annotationMouseoutListener r;
       _annotationClickListener := _annotationClickListener r;
       _annotationKeydownListener := _annotationKeydownListener r;
       _annotationSelectListener := _annotationSelectListener r;
       _annotationChangeListener := _annotationChangeListener r |}) w.

Definition storeMouseout (w : World) : World :=
  let '(f, w) := allocate w in
  withRefs (fun r =>
    {| _annotationMouseoverListener := _annotationMouseoverListener r;
       _annotationMouseoutListener := Some f;
       _annotationClickListener := _annotationClickListener r;
       _annotationKeydownListener := _annotationKeydownListener r;
       _annotationSelectListener := _annotationSelectListener r;
       _annotationChangeListener := _annotationChangeListener r |}) w.

Definition storeClick (w : World) : World :=
  let '(f, w) := allocate w in
  withRefs (fun r =>
    {| _annotationMouseoverListener := _annotationMouseoverListener r;
       _annotationMouseoutListener := _annotationMouseoutListener r;
       _annotationClickListener := Some f;
       _annotationKeydownListener := _annotationKeydownListener r;
       _annotationSelectListener := _annotationSelectListener r;
       _annotationChangeListener := _annotationChangeListener r |}) w.

Definition storeKeydown (w : World) : World :=
  let '(f, w) := allocate w in
  withRefs (fun r =>
    {| _annotationMouseoverListener := _annotationMouseoverListener r;
       _annotationMouseoutListener := _annotationMouseoutListener r;
       _annotationClickListener := _annotationClickListener r;
       _annotationKeydownListener := Some f;
       _annotationSelectListener := _annotationSelectListener r;
       _annotationChangeListener := _annotationChangeListener r |}) w.

Definition storeSelect (w : World) : World :=
  let '(f, w) := allocate w in
  withRefs (fun r =>
    {| _annotationMouseoverListener := _annotationMouseoverListener r;
       _annotationMouseoutListener := _annotationMouseoutListener r;
       _annotationClickListener := _annotationClickListener r;
       _annotationKeydownListener := _annotationKeydownListener r;
       _annotationSelectListener := Some f;
       _annotationChangeListener := _annotationChangeListener r |}) w.

Definition storeChange (w : World) : World :=
  let '(f, w) := allocate w in
  withRefs (fun r =>
    {| _annotationMouseoverListener := _annotationMouseoverListener r;
       _annotationMouseoutListener := _annotationMouseoutListener r;
       _annotationClickListener := _annotationClickListener r;
       _annotationKeydownListener := _annotationKeydownListener r;
       _annotationSelectListener := _annotationSelectListener r;
       _annotationChangeListener := Some f |}) w.

(** [window.addEventListener(type, window._annotationXListener, capture)]
    for a field that holds a function. *)
Definition addStored (type : string) (ref : option Closure) (capture : bool)
    (w : World) : World :=
  match ref with
  | Some callback => addEventListener type callback capture w
  | None => w
  end.

(** [elements.forEach((element) => { element.classList.remove(c); })] *)
Definition forEachRemove (c : string) (elements : list NodeRef) (w : World) : World :=
  fold_left (fun w element => classRemove element c w) elements w.

(** ** The dual-role script (primary and secondary selections) *)

Module DualRole.

Definition _annotationMouseoverListener (event : Event) (w : World) : World :=
  if negb (_annotationMode (session w)) then w else
  let element := target event in
  if classContains element "annotation-primary" w
     || classContains element "annotation-secondary" w
  then w else
  let w :=
    match _currentHighlightedElement (session w) with
    | Some current =>
        if bool_decide (current ≠ element)
        then classRemove current "annotation-highlight" w else w
    | None => w
    end in
  let w := classAdd element "annotation-highlight" w in
  setCurrentHighlightedElement (Some element) w.

Definition _annotationMouseoutListener (event : Event) (w : World) : World :=
  let element := target event in
  if bool_decide (Some element = _currentHighlightedElement (session w)) then
    let w := classRemove element "annotation-highlight" w in
    setCurrentHighlightedElement None w
  else w.

Definition _annotationClickListener (event : Event) (w : World)
    : Completion unit * Event * World :=
  if negb (_annotationMode (session w)) then (Return tt, event, w) else
  let event := stopImmediatePropagation (preventDefault event) in
  let element := target event in
  if negb (_elementLocked (session w)) then
    let w := setElementLocked true w in
    let w := classRemove element "annotation-highlight" w in
    let w := classAdd element "annotation-primary" w in
    match capture (document w) element with
    | Throw err => (Throw err, event, w)
    | Return selected =>
        let w := setSelectedElement (Some selected) w in
        let w := setLockedElement (Some element) w in
        let w := emit (ConsoleLog "Selected primary element (golden):"
                         (Some (LogJSON selected))) w in
        let w := emit (Fetch "http://127.0.0.1:8080/api/notify-primary-selected") w in
        (Return tt, event, w)
    end
  else if negb (classContains element "annotation-secondary" w)
          && bool_decide (Some element ≠ _lockedElement (session w)) then
    let w := classRemove element "annotation-highlight" w in
    let w := classAdd element "annotation-secondary" w in
    match capture (document w) element with
    | Throw err => (Throw err, event, w)
    | Return secondaryElementData =>
        let w := setSecondaryElements
                   (_secondaryElements (session w) ++ [secondaryElementData]) w in
        let w := setSecondaryActualElement
                   (_secondaryActualElement (session w) ++ [element]) w in
        let w := emit (ConsoleLog "Selected secondary element (green):"
                         (Some (LogJSON secondaryElementData))) w in
        let w := emit (Fetch "http://127.0.0.1:8080/api/notify-secondary-selected") w in
        (Return tt, event, w)
    end
  else (Return tt, event, w).

Definition unlockElement (w : World) : bool * World :=
  let w :=
    match _lockedElement (session w) with
    | Some locked =>
        let w := classRemove locked "annotation-primary" w in
        setLockedElement None w
    | None => w
    end in
  let w := setElementLocked false w in
  let w := setSelectedElement None w in
  let w :=
    if (0 <? length (_secondaryActualElement (session w)))%nat then
      let w := forEachRemove "annotation-secondary"
                 (_secondaryActualElement (session w)) w in
      let w := setSecondaryElements [] w in
      setSecondaryActualElement [] w
    else w in
  let w := emit (ConsoleLog "All elements unlocked" None) w in
  (true, w).

Definition setAnnotationMode (enabled : Value) (w : World) : World :=
  let w := setMode (toBoolean enabled) w in
  let w := emit (ConsoleLog "Annotation mode set to:"
                   (Some (LogBoolean (_annotationMode (session w))))) w in
  if _annotationMode (session w) then setBodyCursor "crosshair" w
  else
    let w := setBodyCursor EmptyString w in
    let w := snd (unlockElement w) in
    setSecondaryElements [] w.

(** The global state, as the setup initialises it. *)
Definition initialiseState (w : World) : World :=
  let w := setMode false w in
  let w := setSelectedElement None w in
  let w := setElementLocked false w in
  let w := setCurrentHighlightedElement None w in
  let w := setLockedElement None w in
  let w := setSecondaryActualElement [] w in
  setSecondaryElements [] w.

(** The listeners are created, stored and attached. *)
Definition attachListeners (w : World) : World :=
  let w := storeMouseover w in
  let w := addStored "mouseover" (Window._annotationMouseoverListener (refs w)) false w in
  let w := storeMouseout w in
  let w := addStored "mouseout" (Window._annotationMouseoutListener (refs w)) false w in
  let w := storeClick w in
  let w := addStored "click" (Window._annotationClickListener (refs w)) true w in
  let w := storeKeydown w in
  let w := storeSelect w in
  let w := storeChange w in
  let w := addStored "keydown" (Window._annotationKeydownListener (refs w)) true w in
  let w := addStored "mousedown" (Window._annotationSelectListener (refs w)) true w in
  addStored "change" (Window._annotationChangeListener (refs w)) true w.

(** Everything of the injected function between the guard and the
    final assignment of the setup-done flag. *)
Definition setupBody (w : World) : World :=
  let w := installStyle w in
  let w := initialiseState w in
  let w := removePreviousListeners w in
  attachListeners w.

Definition setup (w : World) : World :=
  if _annotationSetupDone w then w else
  let w := setupBody w in
  let w := setSetupDone true w in
  emit (ConsoleLog "Annotation script setup complete." None) w.

End DualRole.

(** ** The single-lock script *)

Module SingleLock.

Definition _annotationMouseoverListener (event : Event) (w : World) : World :=
  if negb (_annotationMode (session w)) || _elementLocked (session w) then w else
  let element := target event in
  if classContains element "annotation-locked" w then w else
  let w :=
    match _currentHighlightedElement (session w) with
    | Some current =>
        if bool_decide (current ≠ element)
        then classRemove current "annotation-highlight" w else w
    | None => w
    end in
  let w :=
    if negb (classContains element "annotation-locked" w)
    then classAdd element "annotation-highlight" w else w in
  setCurrentHighlightedElement (Some element) w.

Definition _annotationMouseoutListener (event : Event) (w : World) : World :=
  if negb (_annotationMode (session w)) || _elementLocked (session w) then w else
  let element := target event in
  if bool_decide (Some element = _currentHighlightedElement (session w))
     && negb (_elementLocked (session w)) then
    let w := classRemove element "annotation-highlight" w in
    setCurrentHighlightedElement None w
  else w.

Definition _annotationClickListener (event : Event) (w : World)
    : Completion unit * Event * World :=
  if negb (_annotationMode (session w)) then (Return tt, event, w) else
  let event := stopImmediatePropagation (preventDefault event) in
  if _elementLocked (session w) then (Return tt, event, w) else
  let element := target event in
  let w :=
    match _currentHighlightedElement (session w) with
    | Some current => classRemove current "annotation-highlight" w
    | None => w
    end in
  let w := setElementLocked true w in
  let w := classRemove element "annotation-highlight" w in
  let w := classAdd element "annotation-locked" w in
  match capture (document w) element with
  | Throw err => (Throw err, event, w)
  | Return selected =>
      let w := setSelectedElement (Some selected) w in
      let w := setLockedElement (Some element) w in
      let w := emit (ConsoleLog "Selected element:" (Some (LogJSON selected))) w in
      let w := emit (Fetch "http://127.0.0.1:8080/api/notify-element-selected") w in
      (Return tt, event, w)
  end.

Definition unlockElement (w : World) : bool * World :=
  let w :=
    match _lockedElement (session w) with
    | Some locked =>
        let w := classRemove locked "annotation-locked" w in
        setLockedElement None w
    | None => w
    end in
  let w := setElementLocked false w in
  let w := setSelectedElement None w in
  let w := emit (ConsoleLog "Element unlocked" None) w in
  (true, w).

Definition setAnnotationMode (enabled : Value) (w : World) : World :=
  let w := setMode (toBoolean enabled) w in
  let w := emit (ConsoleLog "Annotation mode set to:"
                   (Some (LogBoolean (_annotationMode (session w))))) w in
  if _annotationMode (session w) then setBodyCursor "crosshair" w
  else
    let w := setBodyCursor EmptyString w in
    snd (unlockElement w).

(** The global state, as the setup initialises it. *)
Definition initialiseState (w : World) : World :=
  let w := setMode false w in
  let w := setSelectedElement None w in
  let w := setElementLocked false w in
  let w := setCurrentHighlightedElement None w in
  setLockedElement None w.

(** The listeners are created, stored and attached. The keydown,
    mousedown and change listeners are assigned twice; the first three
    function objects are never attached. *)
Definition attachListeners (w : World) : World :=
  let w := storeMouseover w in
  let w := storeKeydown w in
  let w := storeSelect w in
  let w := storeChange w in
  let w := addStored "mouseover" (Window._annotationMouseoverListener (refs w)) false w in
  let w := storeMouseout w in
  let w := addStored "mouseout" (Window._annotationMouseoutListener (refs w)) false w in
  let w := storeClick w in
  let w := storeKeydown w in
  let w := storeSelect w in
  let w := storeChange w in
  let w := addStored "click" (Window._annotationClickListener (refs w)) true w in
  let w := addStored "keydown" (Window._annotationKeydownListener (refs w)) true w in
  let w := addStored "mousedown" (Window._annotationSelectListener (refs w)) true w in
  addStored "change" (Window._annotationChangeListener (refs w)) true w.

(** Everything of the injected function between the guard and the
    final assignment of the setup-done flag. *)
Definition setupBody (w : World) : World :=
  let w := installStyle w in
  let w := initialiseState w in
  let w := removePreviousListeners w in
  attachListeners w.

Definition setup (w : World) : World :=
  if _annotationSetupDone w then w else
  let w := setupBody w in
  let w := setSetupDone true w in
  emit (ConsoleLog "Annotation script setup complete." None) w.

End SingleLock.

(** ** Attachment and positions, as the properties speak of them *)

(** [ancestry k doc r]: [k] parent links lead from [r] to a document node
    without parent, and every node on the way is listed among the child
    nodes of its parent. *)
Fixpoint ancestry (k : nat) (doc : Document) (r : NodeRef) : bool :=
  match nodes doc !! r with
  | None => false
  | Some n =>
      match k with
      | O => bool_decide (nodeType n = DOCUMENT_NODE) && bool_decide (parentNode n = None)
      | S k' =>
          match parentNode n with
          | Some parent =>
              match nodes doc !! parent with
              | Some p => bool_decide (r ∈ childNodes p) && ancestry k' doc parent
              | None => false
              end
          | None => false
          end
      end
  end.

(** The element is attached under the document. *)
Definition attached (doc : Document) (r : NodeRef) : Prop :=
  ∃ k, ancestry k doc r = true.

(** The nodes met on the way up, [r] first. *)
Fixpoint ancestors (k : nat) (doc : Document) (r : NodeRef) : list NodeRef :=
  match k with
  | O => [r]
  | S k' =>
      r :: match nodes doc !! r with
           | Some n =>
               match parentNode n with
               | Some parent => ancestors k' doc parent
               | None => []
               end
           | None => []
           end
  end.

(** A sibling that is an element node with the given tag name. *)
Definition sameTagElement (doc : Document) (tag : string) (r : NodeRef) : bool :=
  match nodes doc !! r with
  | Some s => (nodeType s =? 1)%nat && bool_decide (nodeTagName s = Some tag)
  | None => false
  end.

(** The number of same-tag element nodes in a list of siblings. *)
Definition sameTagCount (doc : Document) (tag : string) (siblings : list NodeRef) : nat :=
  length (filter (fun r => sameTagElement doc tag r = true) siblings).

(** The locator of an identifier. *)
Definition idLocator (i : string) : string :=
  "//*[@id=" +:+ quote +:+ i +:+ quote +:+ "]".

(** One positional step: [/tagname[index]]. *)
Definition step (tag : string) (index : nat) : string :=
  "/" +:+ toLowerCase tag +:+ "[" +:+ numberToString index +:+ "]".

(** ** A sample page

    document > html > (head, body > (div, text, ul#list > (li, li, li),
    input, select)), and a detached div. *)

Definition sampleElement (tag i : string) : Element :=
  {| tagName := tag; id := i; classList := []; attributes := [];
     textContent := EmptyString; value := Undefined; isContentEditable := false |}.

Definition sampleNode (tag i : string) (parent : option NodeRef) (children : list NodeRef) : Node :=
  {| data := ElementNode (sampleElement tag i); parentNode := parent; childNodes := children |}.

Definition sampleNodes : gmap NodeRef Node :=
  list_to_map
    [ (0, {| data := OtherNode 9; parentNode := None; childNodes := [1] |});
      (1, sampleNode "HTML" EmptyString (Some 0) [2; 3]);
      (2, sampleNode "HEAD" EmptyString (Some 1) []);
      (3, sampleNode "BODY" EmptyString (Some 1) [4; 5; 6; 11; 12]);
      (4, sampleNode "DIV" EmptyString (Some 3) []);
      (5, {| data := OtherNode 3; parentNode := Some 3; childNodes := [] |});
      (6, sampleNode "UL" "list" (Some 3) [7; 8; 9]);
      (7, sampleNode "LI" EmptyString (Some 6) []);
      (8, sampleNode "LI" EmptyString (Some 6) []);
      (9, sampleNode "LI" EmptyString (Some 6) []);
      (10, sampleNode "DIV" EmptyString None []);
      (11, sampleNode "INPUT" EmptyString (Some 3) []);
      (12, sampleNode "SELECT" EmptyString (Some 3) []) ].

Definition sampleDocument : Document :=
  {| nodes := sampleNodes; body := 3; bodyCursor := EmptyString; annotationStyles := [] |}.

(** A store that is not a DOM: the parent of the [span] does not list it
    among its child nodes. *)
Definition strayDocument : Document :=
  {| nodes := list_to_map [ (0, sampleNode "DIV" "root" None []);
                            (1, sampleNode "SPAN" EmptyString (Some 0) []) ];
     body := 2; bodyCursor := EmptyString; annotationStyles := [] |}.

(** The page before any script has run. *)
Definition freshWorld (doc : Document) : World :=
  {| session :=
       {| _annotationMode := false; _selectedElement := None; _elementLocked := false;
          _currentHighlightedElement := None; _lockedElement := None;
          _secondaryActualElement := []; _secondaryElements := [] |};
     refs :=
       {| _annotationMouseoverListener := None; _annotationMouseoutListener := None;
          _annotationClickListener := None; _annotationKeydownListener := None;
          _annotationSelectListener := None; _annotationChangeListener := None |};
     _annotationSetupDone := false;
     document := doc;
     registered := [];
     output := [];
     fresh := 0 |}.

(** ** Runs of events and the invariants of the session *)

(** Successive clicks in the single-lock script, whatever each of them
    completes with. *)
Definition singleLockClicks (events : list Event) (w : World) : World :=
  fold_left (fun w event => snd (SingleLock._annotationClickListener event w)) events w.

(** A pointer entering or leaving an element. *)
Inductive HoverEvent :=
| Mouseover (event : Event)
| Mouseout (event : Event).

Definition hover (h : HoverEvent) (w : World) : World :=
  match h with
  | Mouseover event => DualRole._annotationMouseoverListener event w
  | Mouseout event => DualRole._annotationMouseoutListener event w
  end.

Definition hovers (events : list HoverEvent) (w : World) : World :=
  fold_left (fun w h => hover h w) events w.

Definition highlighted (w : World) (r : NodeRef) : bool :=
  classContains r "annotation-highlight" w.

(** The element carries a locked-role class of the dual-role script. *)
Definition lockedRole (w : World) (r : NodeRef) : bool :=
  classContains r "annotation-primary" w || classContains r "annotation-secondary" w.

(** The most recently entered element among those that do not carry a
    locked-role class in [w], after [tracked]. *)
Definition lastEntered (w : World) (events : list HoverEvent) (tracked : option NodeRef)
    : option NodeRef :=
  fold_left
    (fun last h =>
       match h with
       | Mouseover event =>
           if lockedRole w (target event) then last else Some (target event)
       | Mouseout _ => last
       end)
    events tracked.

(** The data array and the live-reference array of the dual-role script
    go by pairs: each stored element carries the secondary class and its
    record is the capture of that element; and both are empty while
    nothing is locked. *)
Definition aligned (w : World) : Prop :=
  (_elementLocked (session w) = false →
   _secondaryElements (session w) = [] ∧ _secondaryActualElement (session w) = [])
  ∧ Forall2
      (fun d r =>
         classContains r "annotation-secondary" w = true ∧ capture (document w) r = Return d)
      (_secondaryElements (session w)) (_secondaryActualElement (session w)).

(** What can happen on a page that carries the dual-role script. *)
Inductive Operation :=
| Inject
| SetAnnotationMode (enabled : Value)
| UnlockElement
| MouseoverEvent (event : Event)
| MouseoutEvent (event : Event)
| ClickEvent (event : Event).

Definition perform (op : Operation) (w : World) : World :=
  match op with
  | Inject => DualRole.setup w
  | SetAnnotationMode enabled => DualRole.setAnnotationMode enabled w
  | UnlockElement => snd (DualRole.unlockElement w)
  | MouseoverEvent event => DualRole._annotationMouseoverListener event w
  | MouseoutEvent event => DualRole._annotationMouseoutListener event w
  | ClickEvent event => snd (DualRole._annotationClickListener event w)
  end.

Definition performAll (ops : list Operation) (w : World) : World :=
  fold_left (fun w op => perform op w) ops w.

(** The two secondary arrays have the same length. *)
Definition sameLength (w : World) : Prop :=
  length (_secondaryElements (session w)) = length (_secondaryActualElement (session w)).

(** The entries that the six stored references account for. *)
Definition storedRegistrations (w : World) : list Registration :=
  let entry type ref capture :=
    match ref with
    | Some callback => [mkRegistration type callback capture]
    | None => []
    end in
  entry "mouseover" (_annotationMouseoverListener (refs w)) false
  ++ entry "mouseout" (_annotationMouseoutListener (refs w)) false
  ++ entry "click" (_annotationClickListener (refs w)) true
  ++ entry "keydown" (_annotationKeydownListener (refs w)) true
  ++ entry "mousedown" (_annotationSelectListener (refs w)) true
  ++ entry "change" (_annotationChangeListener (refs w)) true.

(** Every attached listener is the one remembered in its field, and none
    is attached twice. *)
Definition accounted (w : World) : Prop :=
  NoDup (registered w) ∧ ∀ entry, entry ∈ registered w → entry ∈ storedRegistrations w.

(** The number of attached listeners of one event type. *)
Definition listenerCount (type : string) (w : World) : nat :=
  length (filter (fun entry => r_type entry = type) (registered w)).

(** ** What the overlay leaves alone, and the states it keeps *)

(** Two documents whose node stores differ at most in class tokens and
    class attributes (the cursor of the body and the style elements of
    the overlay are not in the store, and are not compared): the same nodes with
    the same kind, parent and child nodes, and for an element the same
    tag name, id, text, value, editability and attributes other than
    class. *)
Definition sameButClass (d d' : Document) : Prop :=
  body d' = body d ∧
  ∀ x, match nodes d' !! x, nodes d !! x with
       | Some n', Some n =>
           parentNode n' = parentNode n ∧ childNodes n' = childNodes n ∧
           match data n', data n with
           | ElementNode e', ElementNode e =>
               tagName e' = tagName e ∧ id e' = id e ∧ textContent e' = textContent e ∧
               value e' = value e ∧ isContentEditable e' = isContentEditable e ∧
               filter (fun a => fst a ≠ "class") (attributes e')
               = filter (fun a => fst a ≠ "class") (attributes e)
           | OtherNode t', OtherNode t => t' = t
           | _, _ => False
           end
       | None, None => True
       | _, _ => False
       end.

(** The operations, on a page that carries the single-lock script. *)
Definition performSingle (op : Operation) (w : World) : World :=
  match op with
  | Inject => SingleLock.setup w
  | SetAnnotationMode enabled => SingleLock.setAnnotationMode enabled w
  | UnlockElement => snd (SingleLock.unlockElement w)
  | MouseoverEvent event => SingleLock._annotationMouseoverListener event w
  | MouseoutEvent event => SingleLock._annotationMouseoutListener event w
  | ClickEvent event => snd (SingleLock._annotationClickListener event w)
  end.

Definition performAllSingle (ops : list Operation) (w : World) : World :=
  fold_left (fun w op => performSingle op w) ops w.

(** The operations that change class tokens only: every operation but
    the injection, which replaces the style element in [head], and
    [setAnnotationMode], which writes the inline style of [body]. *)
Definition classOperation (op : Operation) : Prop :=
  match op with
  | Inject | SetAnnotationMode _ => False
  | UnlockElement | MouseoverEvent _ | MouseoutEvent _ | ClickEvent _ => True
  end.

(** An operation of a browser: the target of a click is an element
    attached under the document. *)
Definition wellTargeted (doc : Document) (op : Operation) : Prop :=
  match op with
  | ClickEvent event =>
      is_Some (elementOf doc (target event)) ∧ attached doc (target event)
  | _ => True
  end.

(** The secondary references are pairwise different elements that carry
    the secondary class, none of them is the primary element, and there
    is none while nothing is locked. *)
Definition secondaryDistinct (w : World) : Prop :=
  NoDup (_secondaryActualElement (session w))
  ∧ (∀ r, r ∈ _secondaryActualElement (session w) →
          classContains r "annotation-secondary" w = true)
  ∧ (_elementLocked (session w) = false → _secondaryActualElement (session w) = [])
  ∧ (∀ p, _lockedElement (session w) = Some p → p ∉ _secondaryActualElement (session w)).

(** After the setup, the highlight is on the tracked element at most, and
    never on an element with a role class. *)
Definition highlightTracked (roles : list string) (w : World) : Prop :=
  _annotationSetupDone w = true
  ∧ ∀ r, highlighted w r = true →
         _currentHighlightedElement (session w) = Some r
         ∧ ∀ c, c ∈ roles → classContains r c w = false.

(** After the setup, the class of the locked element is on the element
    the session holds as locked and on no other, and an element is held
    only while the locked flag is set. *)
Definition lockOwned (role : string) (w : World) : Prop :=
  _annotationSetupDone w = true
  ∧ (∀ r, classContains r role w = true → _lockedElement (session w) = Some r)
  ∧ (∀ p, _lockedElement (session w) = Some p →
          _elementLocked (session w) = true ∧ classContains p role w = true).

(** In the dual-role script: the primary class is owned by the locked
    element, and the secondary class is on stored secondary elements
    only. *)
Definition rolesOwned (w : World) : Prop :=
  lockOwned "annotation-primary" w
  ∧ (∀ r, classContains r "annotation-secondary" w = true →
          r ∈ _secondaryActualElement (session w)).

(** Each stored record describes the element stored at the same index,
    and the selected record describes the locked element: tag name, id
    and locator are those of the element in the present document. *)
Definition describes (doc : Document) (d : CapturedElementData) (r : NodeRef) : Prop :=
  ∃ e, elementOf doc r = Some e ∧ c_tagName d = tagName e ∧ c_id d = id e
       ∧ getXPath doc r = Return (c_xpath d).

Definition recordsDescribe (w : World) : Prop :=
  Forall2 (describes (document w))
    (_secondaryElements (session w)) (_secondaryActualElement (session w))
  ∧ (∀ p, _lockedElement (session w) = Some p →
          ∃ d, _selectedElement (session w) = Some d ∧ describes (document w) d p).

(** The events of the page, as opposed to the calls of the host. *)
Definition pageEvent (op : Operation) : Prop :=
  match op with
  | MouseoverEvent _ | MouseoutEvent _ | ClickEvent _ => True
  | _ => False
  end.

(** After the setup: one style element of the overlay in the page, and
    the cursor of the body is the crosshair exactly while the annotation
    mode is on. *)
Definition pageChrome (w : World) : Prop :=
  _annotationSetupDone w = true
  ∧ length (annotationStyles (document w)) = 1
  ∧ bodyCursor (document w)
    = if _annotationMode (session w) then "crosshair" else EmptyString.

(** * The script that keeps links in the same tab *)

Module NewTab.

(** [element.getAttribute(name)]: [None] is [null]. *)
Definition getAttribute (name : string) (e : Element) : option string :=
  snd <$> find (fun a => String.eqb (fst a) name) (attributes e).

(** [element.removeAttribute(name)], for a name other than id and class. *)
Definition removeAttribute (name : string) (e : Element) : Element :=
  {| tagName := tagName e;
     id := id e;
     classList := classList e;
     attributes := filter (fun a => fst a ≠ name) (attributes e);
     textContent := textContent e;
     value := value e;
     isContentEditable := isContentEditable e |}.

(** [s.includes(sub)] *)
Fixpoint includes (sub s : string) : bool :=
  String.prefix sub s
  || match s with
     | EmptyString => false
     | String _ rest => includes sub rest
     end.

(** [s.startsWith(p)] *)
Definition startsWith (p s : string) : bool := String.prefix p s.

(** [element.parentElement]: the parent node when it is an element. *)
Definition parentElement (doc : Document) (r : NodeRef) : option NodeRef :=
  match nodes doc !! r with
  | Some n =>
      match parentNode n with
      | Some parent =>
          match elementOf doc parent with
          | Some _ => Some parent
          | None => None
          end
      | None => None
      end
  | None => None
  end.

(** The descendants of a node in tree order. The fuel bounds the depth. *)
Fixpoint descendants (fuel : nat) (doc : Document) (r : NodeRef) : list NodeRef :=
  match fuel with
  | O => []
  | S fuel' =>
      match nodes doc !! r with
      | Some n => flat_map (fun child => child :: descendants fuel' doc child) (childNodes n)
      | None => []
      end
  end.

(** An [a] element of an HTML document. *)
Definition isAnchor (doc : Document) (r : NodeRef) : bool :=
  match elementOf doc r with
  | Some e => bool_decide (tagName e = "A")
  | None => false
  end.

(** The attribute selector [[name="value"]] for the names [target] and
    [rel]: in an HTML document the whole value of the attribute is
    compared with the value of the selector ASCII case-insensitively. *)
Definition attributeMatches (name value : string) (e : Element) : bool :=
  match getAttribute name e with
  | Some s => String.eqb (toLowerCase s) (toLowerCase value)
  | None => false
  end.

(** The selector [a[target="_blank"], a[rel="noopener"], a[rel="noreferrer"]]. *)
Definition matchesSelector (e : Element) : bool :=
  bool_decide (tagName e = "A")
  && (attributeMatches "target" "_blank" e
      || attributeMatches "rel" "noopener" e
      || attributeMatches "rel" "noreferrer" e).

Definition selected (doc : Document) (r : NodeRef) : bool :=
  match elementOf doc r with
  | Some e => matchesSelector e
  | None => false
  end.

(** The page, as the script sees it: the flag on [window], the document
    and its document node, the number of click listeners the script has
    added to the document in the capture phase (each call of
    [addEventListener] passes a new function, so none is a duplicate),
    the number of observers of the body, the lines written to the
    console, and the assignments to [window.location.href]. *)
Record Page := mkPage {
  _preventNewTabsSetupDone : bool;
  dom : Document;
  documentNode : NodeRef;
  clickListeners : nat;
  observers : nat;
  console : list string;
  location : list string
}.

Definition withDom (f : Document → Document) (p : Page) : Page :=
  {| _preventNewTabsSetupDone := _preventNewTabsSetupDone p; dom := f (dom p);
     documentNode := documentNode p; clickListeners := clickListeners p;
     observers := observers p; console := console p; location := location p |}.

Definition log (line : string) (p : Page) : Page :=
  {| _preventNewTabsSetupDone := _preventNewTabsSetupDone p; dom := dom p;
     documentNode := documentNode p; clickListeners := clickListeners p;
     observers := observers p; console := console p ++ [line]; location := location p |}.

(** [window.location.href = href] *)
Definition navigate (href : string) (p : Page) : Page :=
  {| _preventNewTabsSetupDone := _preventNewTabsSetupDone p; dom := dom p;
     documentNode := documentNode p; clickListeners := clickListeners p;
     observers := observers p; console := console p; location := location p ++ [href] |}.

(** [document.addEventListener('click', (event) => { ... }, true)] *)
Definition addClickListener (p : Page) : Page :=
  {| _preventNewTabsSetupDone := _preventNewTabsSetupDone p; dom := dom p;
     documentNode := documentNode p; clickListeners := S (clickListeners p);
     observers := observers p; console := console p; location := location p |}.

(** [observer.observe(document.body, { childList: true, subtree: true })] *)
Definition observe (p : Page) : Page :=
  {| _preventNewTabsSetupDone := _preventNewTabsSetupDone p; dom := dom p;
     documentNode := documentNode p; clickListeners := clickListeners p;
     observers := S (observers p); console := console p; location := location p |}.

Definition setDone (b : bool) (p : Page) : Page :=
  {| _preventNewTabsSetupDone := b; dom := dom p;
     documentNode := documentNode p; clickListeners := clickListeners p;
     observers := observers p; console := console p; location := location p |}.

(** [document.querySelectorAll(...)]: the matching descendants of the
    document node, in tree order. *)
Definition querySelectorAll (p : Page) : list NodeRef :=
  filter (fun r => selected (dom p) r = true)
    (descendants (S (size (nodes (dom p)))) (dom p) (documentNode p)).

(** The body of [links.forEach]. *)
Definition processLink (link : NodeRef) (p : Page) : Page :=
  let originalHref := elementOf (dom p) link ≫= getAttribute "href" in
  let p := withDom (updateElement (removeAttribute "target") link) p in
  let p := withDom (updateElement (removeAttribute "rel") link) p in
  log ("[Inject] Modified link: " +:+ nullToString originalHref) p.

Definition processLinks (p : Page) : Page :=
  let links := querySelectorAll p in
  let p := fold_left (fun p link => processLink link p) links p in
  addClickListener p.

(** The test of the click listener on a link. *)
Definition opensNewTab (e : Element) : bool :=
  bool_decide (getAttribute "target" e = Some "_blank")
  || match getAttribute "rel" e with
     | Some rel => includes "noopener" rel
     | None => false
     end
  || match getAttribute "rel" e with
     | Some rel => includes "noreferrer" rel
     | None => false
     end.

(** The loop of the click listener, from [element]; [None] when the fuel
    is used up before the loop ends. *)
Fixpoint clickLoop (fuel : nat) (element : option NodeRef) (event : Event) (p : Page)
    : option (Event * Page) :=
  match fuel with
  | O => None
  | S fuel' =>
      match element with
      | None => Some (event, p)
      | Some r =>
          if bool_decide (r = body (dom p)) then Some (event, p) else
          if isAnchor (dom p) r then
            match elementOf (dom p) r with
            | Some e =>
                if opensNewTab e then
                  let event := preventDefault event in
                  match getAttribute "href" e with
                  | Some href =>
                      if negb (bool_decide (href = EmptyString))
                         && negb (startsWith "javascript:" href)
                      then Some (event, navigate href p)
                      else Some (event, p)
                  | None => Some (event, p)
                  end
                else Some (event, p)
            | None => Some (event, p)
            end
          else clickLoop fuel' (parentElement (dom p) r) event p
      end
  end.

(** One click listener of the script. *)
Definition clickListener (event : Event) (p : Page) : option (Event * Page) :=
  clickLoop (S (S (size (nodes (dom p))))) (Some (target event)) event p.

(** A click is dispatched to the document: every listener of the script
    runs, in the order of registration. *)
Fixpoint runListeners (n : nat) (event : Event) (p : Page) : option (Event * Page) :=
  match n with
  | O => Some (event, p)
  | S n' =>
      match clickListener event p with
      | Some (event', p') => runListeners n' event' p'
      | None => None
      end
  end.

Definition dispatchClick (event : Event) (p : Page) : option (Event * Page) :=
  runListeners (clickListeners p) event p.

(** A mutation record, as far as the observer reads it. *)
Record MutationRecord := mkMutation { addedNodes : list NodeRef }.

(** [node.querySelector('a')] of an element: some descendant is an [a]. *)
Definition containsAnchor (doc : Document) (node : NodeRef) : bool :=
  existsb (isAnchor doc) (descendants (S (size (nodes doc))) doc node).

(** The [for ... of] loop over the added nodes, left at the first hit. *)
Fixpoint scanAdded (doc : Document) (added : list NodeRef) (shouldProcessLinks : bool)
    : bool :=
  match added with
  | [] => shouldProcessLinks
  | node :: rest =>
      match elementOf doc node with
      | Some _ =>
          if isAnchor doc node || containsAnchor doc node then true
          else scanAdded doc rest shouldProcessLinks
      | None => scanAdded doc rest shouldProcessLinks
      end
  end.

Definition shouldProcessLinks (doc : Document) (mutations : list MutationRecord) : bool :=
  fold_left
    (fun should mutation =>
       if (0 <? length (addedNodes mutation))%nat
       then scanAdded doc (addedNodes mutation) should
       else should)
    mutations false.

(** The callback of the observer. *)
Definition observerCallback (mutations : list MutationRecord) (p : Page) : Page :=
  if shouldProcessLinks (dom p) mutations then processLinks p else p.

(** The injected function and its return value. *)
Definition inject (p : Page) : Value * Page :=
  if _preventNewTabsSetupDone p then (Undefined, p) else
  let p := setDone true p in
  let p := log "[Inject] Modifying links to prevent opening in new tabs" p in
  let p := processLinks p in
  let p := observe p in
  (Str "New tab prevention script injected successfully", p).

End NewTab.

(** What happens on a page that carries the script: the function is
    injected, mutation records are delivered to the observers, or the page
    changes its document. *)
Inductive PageStep :=
| InjectNewTab
| Mutations (mutations : list NewTab.MutationRecord)
| Edit (doc : Document).

Definition pageStep (step : PageStep) (p : NewTab.Page) : NewTab.Page :=
  match step with
  | InjectNewTab => snd (NewTab.inject p)
  | Mutations mutations =>
      Nat.iter (NewTab.observers p) (NewTab.observerCallback mutations) p
  | Edit doc => NewTab.withDom (fun _ => doc) p
  end.

Definition pageSteps (steps : list PageStep) (p : NewTab.Page) : NewTab.Page :=
  fold_left (fun p step => pageStep step p) steps p.

(** ** A page with links

    document > html > body > (a#next > span, a#ext, a#script, a#plain, p) *)

Definition linkElement (i : string) (attrs : list (string * string)) : Element :=
  {| tagName := "A"; id := i; classList := []; attributes := ("id", i) :: attrs;
     textContent := EmptyString; value := Undefined; isContentEditable := false |}.

Definition linkNodes : gmap NodeRef Node :=
  list_to_map
    [ (0, {| data := OtherNode 9; parentNode := None; childNodes := [1] |});
      (1, sampleNode "HTML" EmptyString (Some 0) [2]);
      (2, sampleNode "BODY" EmptyString (Some 1) [3; 5; 6; 7; 8]);
      (3, {| data := ElementNode
                       (linkElement "next" [("href", "/next"); ("target", "_blank")]);
             parentNode := Some 2; childNodes := [4] |});
      (4, sampleNode "SPAN" EmptyString (Some 3) []);
      (5, {| data := ElementNode
                       (linkElement "ext" [("href", "https://example.org/");
                                           ("rel", "noopener noreferrer")]);
             parentNode := Some 2; childNodes := [] |});
      (6, {| data := ElementNode
                       (linkElement "script" [("href", "javascript:void(0)");
                                              ("rel", "noreferrer")]);
             parentNode := Some 2; childNodes := [] |});
      (7, {| data := ElementNode (linkElement "plain" [("href", "/plain")]);
             parentNode := Some 2; childNodes := [] |});
      (8, sampleNode "P" EmptyString (Some 2) []) ].

Definition linkPage : NewTab.Page :=
  {| NewTab._preventNewTabsSetupDone := false;
     NewTab.dom := {| nodes := linkNodes; body := 2; bodyCursor := EmptyString;
                      annotationStyles := [] |};
     NewTab.documentNode := 0;
     NewTab.clickListeners := 0;
     NewTab.observers := 0;
     NewTab.console := [];
     NewTab.location := [] |}.

(** * Properties *)

(** ** The locator synthesizer *)

Example getXPath_sample_li :
  getXPath sampleDocument 9 = Return (Some (idLocator "list" +:+ step "LI" 3)).
Proof. vm_compute. reflexivity. Qed.

Example getXPath_sample_div :
  getXPath sampleDocument 4 = Return (Some "/html/body/div[1]").
Proof. vm_compute. reflexivity. Qed.

Example getXPath_sample_html :
  getXPath sampleDocument 1 = Return (Some (idLocator "undefined" +:+ "/html[1]")).
Proof. vm_compute. reflexivity. Qed.

Example getXPath_sample_detached :
  getXPath sampleDocument 10 = Throw TypeError.
Proof. vm_compute. reflexivity. Qed.

Section LocatorSynthesizer.

Variable doc : Document.

Lemma siblingIndex_cons (r : NodeRef) (tag : string) (s : NodeRef) (rest : list NodeRef)
    (ix : nat) :
  siblingIndex doc r tag (s :: rest) ix =
  if bool_decide (s = r) then Some ix
  else siblingIndex doc r tag rest (if sameTagElement doc tag s then S ix else ix).
Proof.
  simpl. unfold sameTagElement. destruct (bool_decide (s = r)); [reflexivity|].
  destruct (nodes doc !! s) as [sn|]; [|reflexivity].
  destruct (_ && _); reflexivity.
Qed.

Lemma siblingIndex_split (r : NodeRef) (tag : string) (pre post : list NodeRef) (ix : nat) :
  r ∉ pre →
  siblingIndex doc r tag (pre ++ r :: post) ix = Some (ix + sameTagCount doc tag pre).
Proof.
  revert ix. induction pre as [|s pre IH]; intros ix Hnot.
  - simpl. rewrite bool_decide_eq_true_2 by reflexivity.
    unfold sameTagCount. simpl. f_equal. lia.
  - apply not_elem_of_cons in Hnot as [Hne Hnot].
    rewrite <- app_comm_cons, siblingIndex_cons.
    rewrite bool_decide_eq_false_2 by congruence.
    rewrite IH by assumption. unfold sameTagCount. rewrite filter_cons.
    destruct (sameTagElement doc tag s).
    + rewrite decide_True by reflexivity. simpl. f_equal. lia.
    + rewrite decide_False by discriminate. reflexivity.
Qed.

Lemma siblingIndex_elem (r : NodeRef) (tag : string) (siblings : list NodeRef) (ix : nat) :
  r ∈ siblings → is_Some (siblingIndex doc r tag siblings ix).
Proof.
  intros Hin. apply list_elem_of_split_l in Hin as (pre & post & -> & Hnot).
  rewrite siblingIndex_split by assumption. eauto.
Qed.

Lemma siblingIndex_absent (r : NodeRef) (tag : string) (siblings : list NodeRef) (ix : nat) :
  r ∉ siblings → siblingIndex doc r tag siblings ix = None.
Proof.
  revert ix. induction siblings as [|s siblings IH]; intros ix Hnot; simpl; [reflexivity|].
  apply not_elem_of_cons in Hnot as [Hne Hnot].
  rewrite bool_decide_eq_false_2 by congruence.
  destruct (nodes doc !! s) as [sn|]; [|auto].
  destruct (_ && _); auto.
Qed.

Lemma getXPathRec_congr (fuel1 fuel2 : nat) :
  (∀ x, getXPathRec fuel1 doc x ≠ Throw RangeError →
        getXPathRec fuel2 doc x = getXPathRec fuel1 doc x) →
  ∀ r, getXPathRec (S fuel1) doc r ≠ Throw RangeError →
       getXPathRec (S fuel2) doc r = getXPathRec (S fuel1) doc r.
Proof.
  intros Hrec r Hok. simpl in Hok |- *.
  destruct (nodes doc !! r) as [n|]; [|reflexivity].
  destruct (data n) as [e|t]; [|reflexivity].
  destruct (negb (String.eqb (id e) EmptyString)); [reflexivity|].
  destruct (bool_decide (r = body doc)); [reflexivity|].
  destruct (parentNode n) as [parent|]; [|reflexivity].
  destruct (nodes doc !! parent) as [p|]; [|reflexivity].
  destruct (siblingIndex doc r (tagName e) (childNodes p) 0) as [ix|]; [|reflexivity].
  rewrite Hrec; [reflexivity|].
  intros Hover. rewrite Hover in Hok. congruence.
Qed.

(** A result other than a stack overflow does not depend on the depth
    allowed to the stack. *)
Lemma getXPathRec_step (fuel : nat) (r : NodeRef) :
  getXPathRec fuel doc r ≠ Throw RangeError →
  getXPathRec (S fuel) doc r = getXPathRec fuel doc r.
Proof.
  revert r. induction fuel as [|fuel IH]; intros r Hok; [simpl in Hok; congruence|].
  apply getXPathRec_congr; assumption.
Qed.

Lemma getXPathRec_stable (fuel fuel' : nat) (r : NodeRef) :
  fuel ≤ fuel' →
  getXPathRec fuel doc r ≠ Throw RangeError →
  getXPathRec fuel' doc r = getXPathRec fuel doc r.
Proof.
  induction 1 as [|fuel' Hle IH]; intros Hok; [reflexivity|].
  rewrite getXPathRec_step.
  - apply IH. assumption.
  - rewrite IH by assumption. assumption.
Qed.

(** *** Attached elements *)

Lemma ancestry_lookup (k : nat) (r : NodeRef) :
  ancestry k doc r = true → is_Some (nodes doc !! r).
Proof. destruct k; simpl; destruct (nodes doc !! r); eauto; discriminate. Qed.

Lemma ancestry_depth (k1 k2 : nat) (r : NodeRef) :
  ancestry k1 doc r = true → ancestry k2 doc r = true → k1 = k2.
Proof.
  revert k2 r. induction k1 as [|k1 IH]; intros [|k2] r; simpl;
    destruct (nodes doc !! r) as [n|]; try discriminate; try reflexivity.
  - intros H1 H2. apply andb_true_iff in H1 as [_ H1]. apply bool_decide_eq_true_1 in H1.
    rewrite H1 in H2. discriminate.
  - intros H1 H2. apply andb_true_iff in H2 as [_ H2]. apply bool_decide_eq_true_1 in H2.
    rewrite H2 in H1. discriminate.
  - destruct (parentNode n) as [parent|]; try discriminate.
    destruct (nodes doc !! parent) as [p|]; try discriminate.
    intros H1 H2. apply andb_true_iff in H1 as [_ H1]. apply andb_true_iff in H2 as [_ H2].
    f_equal. eapply IH; eassumption.
Qed.

Lemma ancestors_ancestry (k : nat) (r x : NodeRef) :
  ancestry k doc r = true → x ∈ ancestors k doc r →
  ∃ j, j ≤ k ∧ ancestry j doc x = true.
Proof.
  revert r. induction k as [|k IH]; intros r Hr Hx.
  - simpl in Hx. apply list_elem_of_singleton in Hx as ->. exists 0. split; [lia|assumption].
  - simpl in Hx. apply elem_of_cons in Hx as [->|Hx]; [exists (S k); split; [lia|assumption]|].
    simpl in Hr. destruct (nodes doc !! r) as [n|]; [|discriminate].
    destruct (parentNode n) as [parent|]; [|discriminate].
    destruct (nodes doc !! parent) as [p|] eqn:Hp; [|discriminate].
    apply andb_true_iff in Hr as [_ Hr].
    destruct (IH parent Hr Hx) as (j & Hj & Hanc). exists j. split; [lia|assumption].
Qed.

Lemma ancestors_NoDup (k : nat) (r : NodeRef) :
  ancestry k doc r = true → NoDup (ancestors k doc r).
Proof.
  revert r. induction k as [|k IH]; intros r Hr; simpl.
  - apply NoDup_singleton.
  - pose proof Hr as Hr'. simpl in Hr'.
    destruct (nodes doc !! r) as [n|]; [|discriminate].
    destruct (parentNode n) as [parent|]; [|discriminate].
    destruct (nodes doc !! parent) as [p|] eqn:Hp; [|discriminate].
    apply andb_true_iff in Hr' as [_ Hparent].
    apply NoDup_cons. split; [|apply IH; assumption].
    intros Hin. destruct (ancestors_ancestry k parent r Hparent Hin) as (j & Hj & Hanc).
    pose proof (ancestry_depth _ _ _ Hr Hanc). lia.
Qed.

Lemma ancestors_length (k : nat) (r : NodeRef) :
  ancestry k doc r = true → length (ancestors k doc r) = S k.
Proof.
  revert r. induction k as [|k IH]; intros r Hr; simpl; [reflexivity|].
  simpl in Hr. destruct (nodes doc !! r) as [n|]; [|discriminate].
  destruct (parentNode n) as [parent|]; [|discriminate].
  destruct (nodes doc !! parent) as [p|] eqn:Hp; [|discriminate].
  apply andb_true_iff in Hr as [_ Hr]. rewrite IH by assumption. reflexivity.
Qed.

(** A chain of parents never exceeds the number of nodes. *)
Lemma ancestry_size (k : nat) (r : NodeRef) :
  ancestry k doc r = true → k < size (nodes doc).
Proof.
  intros Hr.
  assert (Hsub : (list_to_set (ancestors k doc r) : gset NodeRef) ⊆ dom (nodes doc)).
  { intros x Hx. apply elem_of_list_to_set in Hx.
    destruct (ancestors_ancestry k r x Hr Hx) as (j & _ & Hanc).
    apply elem_of_dom. eapply ancestry_lookup. eassumption. }
  apply subseteq_size in Hsub.
  rewrite size_list_to_set in Hsub by (apply ancestors_NoDup; assumption).
  rewrite ancestors_length in Hsub by assumption.
  rewrite size_dom in Hsub. lia.
Qed.

Lemma ancestry_getXPathRec (k : nat) (r : NodeRef) :
  ancestry k doc r = true → ∃ s, getXPathRec (S k) doc r = Return (Some s).
Proof.
  revert r. induction k as [|k IH]; intros r Hr.
  - simpl in Hr |- *. destruct (nodes doc !! r) as [n|]; [|discriminate].
    apply andb_true_iff in Hr as [Htype Hparent].
    apply bool_decide_eq_true_1 in Htype. apply bool_decide_eq_true_1 in Hparent.
    unfold nodeType in Htype. destruct (data n) as [e|t]; [discriminate|]. eauto.
  - remember (S k) as k1 eqn:Hk1. simpl. rewrite Hk1 in Hr. simpl in Hr.
    destruct (nodes doc !! r) as [n|]; [|discriminate].
    destruct (data n) as [e|t]; [|eauto].
    destruct (negb (String.eqb (id e) EmptyString)); [eauto|].
    destruct (bool_decide (r = body doc)); [eauto|].
    destruct (parentNode n) as [parent|]; [|discriminate].
    destruct (nodes doc !! parent) as [p|] eqn:Hp; [|discriminate].
    apply andb_true_iff in Hr as [Hchild Hparent].
    apply bool_decide_eq_true_1 in Hchild.
    destruct (siblingIndex_elem r (tagName e) (childNodes p) 0 Hchild) as [ix ->].
    destruct (IH parent Hparent) as [s Hs]. rewrite Hs. eauto.
Qed.

Lemma attached_getXPath (r : NodeRef) :
  attached doc r → ∃ s, getXPath doc r = Return (Some s).
Proof.
  intros [k Hk]. destruct (ancestry_getXPathRec k r Hk) as [s Hs].
  exists s. unfold getXPath. rewrite <- Hs.
  apply getXPathRec_stable; [pose proof (ancestry_size k r Hk); lia|].
  rewrite Hs. discriminate.
Qed.

(** The recursive case, at any depth of the stack. *)
Lemma getXPathRec_positional (fuel : nat) (r parent : NodeRef) (n p : Node) (e : Element)
    (pre post : list NodeRef) :
  nodes doc !! r = Some n → data n = ElementNode e → id e = EmptyString →
  r ≠ body doc → parentNode n = Some parent → nodes doc !! parent = Some p →
  childNodes p = pre ++ r :: post → r ∉ pre →
  getXPathRec (S fuel) doc r =
  match getXPathRec fuel doc parent with
  | Return path =>
      Return (Some (nullToString path
                    +:+ step (tagName e) (sameTagCount doc (tagName e) pre + 1)))
  | Throw err => Throw err
  end.
Proof.
  intros Hn He Hid Hbody Hparent Hp Hchildren Hnot. simpl.
  rewrite Hn, He, Hid. simpl.
  rewrite bool_decide_eq_false_2 by assumption.
  rewrite Hparent, Hp, Hchildren, siblingIndex_split by assumption.
  reflexivity.
Qed.

Lemma lookup_size_pos (r : NodeRef) (n : Node) :
  nodes doc !! r = Some n → ∃ m, size (nodes doc) = S m.
Proof.
  intros Hn. destruct (size (nodes doc)) as [|m] eqn:Hsize; [|eauto].
  apply map_size_empty_iff in Hsize. rewrite Hsize, lookup_empty in Hn. discriminate.
Qed.

Lemma getXPath_null (r : NodeRef) :
  getXPath doc r = Return None →
  ∃ n e parent p,
    nodes doc !! r = Some n ∧ data n = ElementNode e ∧ id e = EmptyString ∧
    r ≠ body doc ∧ parentNode n = Some parent ∧ nodes doc !! parent = Some p ∧
    r ∉ childNodes p.
Proof.
  unfold getXPath. simpl. intros Hnull.
  destruct (nodes doc !! r) as [n|] eqn:Hn; [|discriminate].
  destruct (data n) as [e|t] eqn:He; [|discriminate].
  destruct (String.eqb (id e) EmptyString) eqn:Hid; [|discriminate]. simpl in Hnull.
  apply String.eqb_eq in Hid.
  destruct (bool_decide (r = body doc)) eqn:Hbody; [discriminate|].
  apply bool_decide_eq_false_1 in Hbody.
  destruct (parentNode n) as [parent|] eqn:Hparent; [|discriminate].
  destruct (nodes doc !! parent) as [p|] eqn:Hp; [|discriminate].
  exists n, e, parent, p. repeat (split; [assumption || reflexivity|]).
  intros Hin.
  destruct (siblingIndex_elem r (tagName e) (childNodes p) 0 Hin) as [ix Hix].
  rewrite Hix in Hnull.
  destruct (getXPathRec (size (nodes doc)) doc parent); discriminate.
Qed.

Lemma getXPath_parentless (r : NodeRef) (n : Node) (e : Element) :
  nodes doc !! r = Some n → data n = ElementNode e → id e = EmptyString →
  r ≠ body doc → parentNode n = None →
  getXPath doc r = Throw TypeError.
Proof.
  intros Hn He Hid Hbody Hparent. unfold getXPath. simpl.
  rewrite Hn, He, Hid. simpl. rewrite bool_decide_eq_false_2 by assumption.
  rewrite Hparent. reflexivity.
Qed.

End LocatorSynthesizer.

(** C6. [getXPath] computes the canonical locator: the identifier form for
    an element with a non-empty id; [/html/body] for the body with an
    empty id; otherwise the locator of the parent followed by
    [/tagname[i]], where [i] is one more than the number of same-tag
    element nodes among the earlier siblings (at every depth of the
    recursion, and for the whole call on an attached element); so the
    third [li] without id under a [ul] with id list gets the locator of
    that id followed by [/li[3]]. *)
Theorem getXPath_canonical (doc : Document) :
  (∀ r e, elementOf doc r = Some e → id e ≠ EmptyString →
     getXPath doc r = Return (Some (idLocator (id e))))
  ∧ (∀ e, elementOf doc (body doc) = Some e → id e = EmptyString →
     getXPath doc (body doc) = Return (Some "/html/body"))
  ∧ (∀ fuel r parent n p e pre post,
     nodes doc !! r = Some n → data n = ElementNode e → id e = EmptyString →
     r ≠ body doc → parentNode n = Some parent → nodes doc !! parent = Some p →
     childNodes p = pre ++ r :: post → r ∉ pre →
     getXPathRec (S fuel) doc r =
     match getXPathRec fuel doc parent with
     | Return path =>
         Return (Some (nullToString path
                       +:+ step (tagName e) (sameTagCount doc (tagName e) pre + 1)))
     | Throw err => Throw err
     end)
  ∧ (∀ r parent n p e pre post,
     attached doc r →
     nodes doc !! r = Some n → data n = ElementNode e → id e = EmptyString →
     r ≠ body doc → parentNode n = Some parent → nodes doc !! parent = Some p →
     childNodes p = pre ++ r :: post → r ∉ pre →
     ∃ parentPath,
       getXPath doc parent = Return (Some parentPath) ∧
       getXPath doc r =
       Return (Some (parentPath +:+ step (tagName e) (sameTagCount doc (tagName e) pre + 1))))
  ∧ (∀ r parent n p li ul pre post,
     nodes doc !! r = Some n → data n = ElementNode li →
     tagName li = "LI" → id li = EmptyString → r ≠ body doc →
     parentNode n = Some parent → nodes doc !! parent = Some p →
     data p = ElementNode ul → id ul = "list" →
     childNodes p = pre ++ r :: post → r ∉ pre → sameTagCount doc "LI" pre = 2 →
     getXPath doc r = Return (Some (idLocator "list" +:+ "/li[3]"))).
Proof.
  split; [|split; [|split; [|split]]].
  - intros r e He Hid. unfold elementOf in He. unfold getXPath. simpl.
    destruct (nodes doc !! r) as [n|]; [|discriminate].
    destruct (data n) as [e'|]; [|discriminate]. injection He as ->.
    destruct (String.eqb (id e) EmptyString) eqn:Heq; [|reflexivity].
    apply String.eqb_eq in Heq. contradiction.
  - intros e He Hid. unfold elementOf in He. unfold getXPath. simpl.
    destruct (nodes doc !! body doc) as [n|]; [|discriminate].
    destruct (data n) as [e'|]; [|discriminate]. injection He as ->.
    rewrite Hid. simpl. rewrite bool_decide_eq_true_2 by reflexivity. reflexivity.
  - intros fuel r parent n p e pre post. apply getXPathRec_positional.
  - intros r parent n p e pre post [k Hk] Hn He Hid Hbody Hparent Hp Hchildren Hnot.
    pose proof (ancestry_size doc k r Hk) as Hsize.
    destruct k as [|k].
    { simpl in Hk. rewrite Hn in Hk. apply andb_true_iff in Hk as [_ Hk].
      apply bool_decide_eq_true_1 in Hk. congruence. }
    assert (Hk' : ancestry k doc parent = true).
    { simpl in Hk. rewrite Hn, Hparent, Hp in Hk. apply andb_true_iff in Hk as [_ Hk].
      exact Hk. }
    destruct (ancestry_getXPathRec doc k parent Hk') as [s Hs].
    assert (Hstable : ∀ fuel, S k ≤ fuel → getXPathRec fuel doc parent = Return (Some s)).
    { intros fuel Hle. rewrite <- Hs. apply getXPathRec_stable; [assumption|].
      rewrite Hs. discriminate. }
    exists s. split; [apply Hstable; lia|].
    unfold getXPath.
    rewrite (getXPathRec_positional doc _ r parent n p e pre post) by assumption.
    rewrite Hstable by lia. reflexivity.
  - intros r parent n p li ul pre post Hn Hli Htag Hid Hbody Hparent Hp Hul Hlist
      Hchildren Hnot Hcount.
    destruct (lookup_size_pos doc r n Hn) as [m Hm].
    unfold getXPath.
    rewrite (getXPathRec_positional doc _ r parent n p li pre post) by assumption.
    rewrite Hm. simpl getXPathRec. rewrite Hp, Hul, Hlist. simpl negb. cbv iota.
    rewrite Htag, Hcount. reflexivity.
Qed.

(** The third [li] of the sample page, through the theorem. *)
Lemma getXPath_canonical_witness :
  getXPath sampleDocument 6 = Return (Some (idLocator "list"))
  ∧ getXPath sampleDocument 3 = Return (Some "/html/body")
  ∧ getXPath sampleDocument 4 = Return (Some ("/html/body" +:+ step "DIV" 1))
  ∧ getXPath sampleDocument 9 = Return (Some (idLocator "list" +:+ "/li[3]")).
Proof.
  destruct (getXPath_canonical sampleDocument) as (Hid & Hbody & _ & Hpos & Hli).
  split; [|split; [|split]].
  - apply (Hid 6 (sampleElement "UL" "list")); [reflexivity|discriminate].
  - apply (Hbody (sampleElement "BODY" EmptyString)); reflexivity.
  - destruct (Hpos 4 3 (sampleNode "DIV" EmptyString (Some 3) [])
                (sampleNode "BODY" EmptyString (Some 1) [4; 5; 6; 11; 12])
                (sampleElement "DIV" EmptyString) [] [5; 6; 11; 12])
      as (path & Hparent & Hchild);
      [exists 3; reflexivity | reflexivity | reflexivity | reflexivity | discriminate
      | reflexivity | reflexivity | reflexivity | apply not_elem_of_nil |].
    rewrite Hchild. vm_compute in Hparent. injection Hparent as <-. reflexivity.
  - apply (Hli 9 6 (sampleNode "LI" EmptyString (Some 6) [])
             (sampleNode "UL" "list" (Some 3) [7; 8; 9])
             (sampleElement "LI" EmptyString) (sampleElement "UL" "list") [7; 8] []);
      try reflexivity; try discriminate.
    intros Hin. apply elem_of_cons in Hin as [Hin|Hin]; [discriminate|].
    apply elem_of_cons in Hin as [Hin|Hin]; [discriminate|]. inversion Hin.
Defined.

(** A detached element without id: the access to the child nodes of its
    absent parent raises; nothing is returned, [null] included. *)
Lemma getXPath_detached_throws :
  ∃ n e,
    nodes sampleDocument !! 10 = Some n ∧ data n = ElementNode e ∧
    id e = EmptyString ∧ parentNode n = None ∧
    getXPath sampleDocument 10 = Throw TypeError ∧
    getXPath sampleDocument 10 ≠ Return None.
Proof.
  exists (sampleNode "DIV" EmptyString None []), (sampleElement "DIV" EmptyString).
  repeat split; try reflexivity. vm_compute. discriminate.
Qed.

(** C7, amended. For every element attached under the document [getXPath]
    returns a string, without raising; and it returns [null] only for an
    element with an empty id, other than the body, that has a parent in
    whose child nodes it is not listed. *)
Theorem getXPath_total_on_attached (doc : Document) (r : NodeRef) :
  (attached doc r → ∃ s, getXPath doc r = Return (Some s))
  ∧ (getXPath doc r = Return None →
     ∃ n e parent p,
       nodes doc !! r = Some n ∧ data n = ElementNode e ∧ id e = EmptyString ∧
       r ≠ body doc ∧ parentNode n = Some parent ∧ nodes doc !! parent = Some p ∧
       r ∉ childNodes p).
Proof.
  split; [apply attached_getXPath | apply getXPath_null].
Qed.

(** The third [li] of the sample page is attached, at depth four; the
    stray [span] is the case of the [null] result. *)
Lemma getXPath_total_on_attached_witness :
  attached sampleDocument 9 ∧ (∃ s, getXPath sampleDocument 9 = Return (Some s)) ∧
  getXPath strayDocument 1 = Return None ∧
  ∃ parent p, nodes strayDocument !! parent = Some p ∧ 1 ∉ childNodes p.
Proof.
  assert (Hattached : attached sampleDocument 9) by (exists 4; reflexivity).
  assert (Hnull : getXPath strayDocument 1 = Return None) by (vm_compute; reflexivity).
  split; [exact Hattached|].
  split; [exact (proj1 (getXPath_total_on_attached sampleDocument 9) Hattached)|].
  split; [exact Hnull|].
  destruct (proj2 (getXPath_total_on_attached strayDocument 1) Hnull)
    as (n & e & parent & p & _ & _ & _ & _ & _ & Hp & Hnot).
  exists parent, p. split; assumption.
Defined.

(** ** Class tokens *)

Section ClassTokens.

Variable doc : Document.

Lemma elementOf_updateElement (f : Element → Element) (r r' : NodeRef) :
  elementOf (updateElement f r doc) r' =
  if bool_decide (r = r') then f <$> elementOf doc r' else elementOf doc r'.
Proof.
  unfold elementOf, updateElement, onElement. simpl.
  destruct (bool_decide (r = r')) eqn:Heq.
  - apply bool_decide_eq_true_1 in Heq as <-. rewrite lookup_alter_eq.
    destruct (nodes doc !! r) as [[[e|t] pn cn]|]; reflexivity.
  - apply bool_decide_eq_false_1 in Heq. rewrite lookup_alter_ne by assumption.
    reflexivity.
Qed.

Lemma contains_add (r r' : NodeRef) (c c' : string) :
  contains r' c' (add r c doc) =
  contains r' c' doc
  || (bool_decide (r = r') && bool_decide (c = c') && bool_decide (is_Some (elementOf doc r))).
Proof.
  unfold contains, add. rewrite elementOf_updateElement.
  destruct (bool_decide (r = r')) eqn:Heq; simpl; [|rewrite orb_false_r; reflexivity].
  apply bool_decide_eq_true_1 in Heq as <-.
  destruct (elementOf doc r) as [e|]; simpl.
  - rewrite andb_true_r. unfold tokensAdd.
    destruct (bool_decide (c = c')) eqn:Hc.
    + apply bool_decide_eq_true_1 in Hc as <-.
      destruct (bool_decide (c ∈ classList e)) eqn:Hin; [rewrite Hin; reflexivity|].
      rewrite orb_true_r. apply bool_decide_eq_true_2.
      apply elem_of_app. right. apply list_elem_of_singleton. reflexivity.
    + apply bool_decide_eq_false_1 in Hc. rewrite orb_false_r.
      destruct (bool_decide (c ∈ classList e)); [reflexivity|].
      apply bool_decide_ext. rewrite elem_of_app, list_elem_of_singleton.
      split; [intros [?|?]; [assumption|congruence] | auto].
  - rewrite andb_false_r. reflexivity.
Qed.

Lemma contains_remove (r r' : NodeRef) (c c' : string) :
  contains r' c' (remove r c doc) =
  contains r' c' doc && negb (bool_decide (r = r') && bool_decide (c = c')).
Proof.
  unfold contains, remove. rewrite elementOf_updateElement.
  destruct (bool_decide (r = r')) eqn:Heq; simpl; [|rewrite andb_true_r; reflexivity].
  destruct (elementOf doc r') as [e|]; simpl; [|reflexivity].
  unfold tokensRemove.
  destruct (bool_decide (c = c')) eqn:Hc; simpl.
  - apply bool_decide_eq_true_1 in Hc as <-. rewrite andb_false_r.
    apply bool_decide_eq_false_2. rewrite list_elem_of_filter. tauto.
  - apply bool_decide_eq_false_1 in Hc. rewrite andb_true_r.
    apply bool_decide_ext. rewrite list_elem_of_filter.
    split; [tauto | intros; split; [congruence | assumption]].
Qed.

(** *** What a class change leaves alone *)

Variable f : Element → Element.
Hypothesis f_tagName : ∀ e, tagName (f e) = tagName e.
Hypothesis f_id : ∀ e, id (f e) = id e.

Lemma lookup_updateElement (r x : NodeRef) :
  nodes (updateElement f r doc) !! x =
  if bool_decide (r = x) then onElement f <$> nodes doc !! x else nodes doc !! x.
Proof.
  unfold updateElement. simpl. destruct (bool_decide (r = x)) eqn:Heq.
  - apply bool_decide_eq_true_1 in Heq as <-. apply lookup_alter_eq.
  - apply bool_decide_eq_false_1 in Heq. apply lookup_alter_ne. assumption.
Qed.

Lemma lookup_updateElement_shape (r x : NodeRef) :
  match nodes (updateElement f r doc) !! x, nodes doc !! x with
  | Some n', Some n =>
      parentNode n' = parentNode n ∧ childNodes n' = childNodes n ∧
      nodeType n' = nodeType n ∧ nodeTagName n' = nodeTagName n ∧ nodeId n' = nodeId n
  | None, None => True
  | _, _ => False
  end.
Proof.
  rewrite lookup_updateElement.
  destruct (bool_decide (r = x)), (nodes doc !! x) as [[[e|t] parent children]|];
    simpl; try exact I; unfold nodeType, nodeTagName, nodeId; simpl;
    rewrite ?f_tagName, ?f_id; repeat split; reflexivity.
Qed.

Lemma size_updateElement (r : NodeRef) :
  size (nodes (updateElement f r doc)) = size (nodes doc).
Proof.
  unfold updateElement. simpl. rewrite <- !size_dom. f_equal. apply dom_alter_L.
Qed.

Lemma sameTagElement_updateElement (r : NodeRef) (tag : string) (x : NodeRef) :
  sameTagElement (updateElement f r doc) tag x = sameTagElement doc tag x.
Proof.
  unfold sameTagElement. pose proof (lookup_updateElement_shape r x) as H.
  destruct (nodes (updateElement f r doc) !! x), (nodes doc !! x); try contradiction;
    [|reflexivity].
  destruct H as (_ & _ & -> & -> & _). reflexivity.
Qed.

Lemma siblingIndex_updateElement (r : NodeRef) (x : NodeRef) (tag : string)
    (siblings : list NodeRef) (ix : nat) :
  siblingIndex (updateElement f r doc) x tag siblings ix = siblingIndex doc x tag siblings ix.
Proof.
  revert ix. induction siblings as [|s siblings IH]; intros ix; [reflexivity|].
  rewrite !siblingIndex_cons, sameTagElement_updateElement.
  destruct (bool_decide (s = x)); [reflexivity|]. apply IH.
Qed.

Lemma getXPathRec_updateElement (fuel : nat) (r x : NodeRef) :
  getXPathRec fuel (updateElement f r doc) x = getXPathRec fuel doc x.
Proof.
  revert x. induction fuel as [|fuel IH]; intros x; [reflexivity|]. cbn [getXPathRec].
  change (body (updateElement f r doc)) with (body doc).
  pose proof (lookup_updateElement_shape r x) as Hx.
  destruct (nodes (updateElement f r doc) !! x) as [n'|], (nodes doc !! x) as [n|];
    try contradiction; [|reflexivity].
  destruct Hx as (Hparent & _ & Htype & Htag & Hid).
  unfold nodeType, nodeTagName, nodeId in Htype, Htag, Hid.
  destruct (data n') as [e'|t'], (data n) as [e|t]; try discriminate; [|reflexivity].
  injection Htag as Htag. injection Hid as Hid. rewrite Hid, Htag, Hparent.
  destruct (negb (String.eqb (id e) EmptyString)); [reflexivity|].
  destruct (bool_decide (x = body doc)); [reflexivity|].
  destruct (parentNode n) as [parent|]; [|reflexivity].
  pose proof (lookup_updateElement_shape r parent) as Hp.
  destruct (nodes (updateElement f r doc) !! parent) as [p'|],
    (nodes doc !! parent) as [p|]; try contradiction; [|reflexivity].
  destruct Hp as (_ & -> & _). rewrite siblingIndex_updateElement, IH. reflexivity.
Qed.

Lemma getXPath_updateElement (r x : NodeRef) :
  getXPath (updateElement f r doc) x = getXPath doc x.
Proof.
  unfold getXPath. rewrite size_updateElement. apply getXPathRec_updateElement.
Qed.

Lemma capture_updateElement (r x : NodeRef) :
  r ≠ x → capture (updateElement f r doc) x = capture doc x.
Proof.
  intros Hne. unfold capture.
  rewrite elementOf_updateElement, bool_decide_eq_false_2 by assumption.
  rewrite getXPath_updateElement. reflexivity.
Qed.

Lemma ancestry_updateElement (k : nat) (r x : NodeRef) :
  ancestry k (updateElement f r doc) x = ancestry k doc x.
Proof.
  revert x. induction k as [|k IH]; intros x; cbn [ancestry];
    pose proof (lookup_updateElement_shape r x) as Hx;
    destruct (nodes (updateElement f r doc) !! x) as [n'|], (nodes doc !! x) as [n|];
    try contradiction; try reflexivity; destruct Hx as (Hparent & _ & Htype & _).
  - rewrite Htype, Hparent. reflexivity.
  - rewrite Hparent. destruct (parentNode n) as [parent|]; [|reflexivity].
    pose proof (lookup_updateElement_shape r parent) as Hp.
    destruct (nodes (updateElement f r doc) !! parent) as [p'|],
      (nodes doc !! parent) as [p|]; try contradiction; [|reflexivity].
    destruct Hp as (_ & -> & _). rewrite IH. reflexivity.
Qed.

End ClassTokens.

Lemma updateTokens_tagName (tokens : list string) (e : Element) :
  tagName (updateTokens tokens e) = tagName e.
Proof. reflexivity. Qed.

Lemma updateTokens_id (tokens : list string) (e : Element) :
  id (updateTokens tokens e) = id e.
Proof. reflexivity. Qed.

Lemma getXPath_add (doc : Document) (r : NodeRef) (c : string) (x : NodeRef) :
  getXPath (add r c doc) x = getXPath doc x.
Proof. apply getXPath_updateElement; reflexivity. Qed.

Lemma getXPath_remove (doc : Document) (r : NodeRef) (c : string) (x : NodeRef) :
  getXPath (remove r c doc) x = getXPath doc x.
Proof. apply getXPath_updateElement; reflexivity. Qed.

Lemma capture_add (doc : Document) (r : NodeRef) (c : string) (x : NodeRef) :
  r ≠ x → capture (add r c doc) x = capture doc x.
Proof. apply capture_updateElement; reflexivity. Qed.

Lemma capture_remove (doc : Document) (r : NodeRef) (c : string) (x : NodeRef) :
  r ≠ x → capture (remove r c doc) x = capture doc x.
Proof. apply capture_updateElement; reflexivity. Qed.

Lemma is_element_add (doc : Document) (r : NodeRef) (c : string) (x : NodeRef) :
  is_Some (elementOf (add r c doc) x) ↔ is_Some (elementOf doc x).
Proof.
  unfold add. rewrite elementOf_updateElement.
  destruct (bool_decide (r = x)); [apply fmap_is_Some | reflexivity].
Qed.

Lemma is_element_remove (doc : Document) (r : NodeRef) (c : string) (x : NodeRef) :
  is_Some (elementOf (remove r c doc) x) ↔ is_Some (elementOf doc x).
Proof.
  unfold remove. rewrite elementOf_updateElement.
  destruct (bool_decide (r = x)); [apply fmap_is_Some | reflexivity].
Qed.

(** The capture of an element succeeds exactly when its locator is
    computed. *)
Lemma capture_returns (doc : Document) (r : NodeRef) (e : Element) (xpath : option string) :
  elementOf doc r = Some e → getXPath doc r = Return xpath →
  ∃ d, capture doc r = Return d ∧ c_tagName d = tagName e ∧ c_id d = id e ∧
       c_className d = className e ∧ c_value d = value e ∧ c_xpath d = xpath ∧
       c_attributes d = getAttributes e ∧
       c_textContent d = substring0 100 (trim (textContent e)).
Proof.
  intros He Hx. unfold capture. rewrite He, Hx. eexists. repeat split.
Qed.

Lemma capture_is_element (doc : Document) (r : NodeRef) (d : CapturedElementData) :
  capture doc r = Return d → is_Some (elementOf doc r).
Proof. unfold capture. destruct (elementOf doc r); [eauto | discriminate]. Qed.

(** An element keeps its tag name and its id through a class change. *)
Lemma elementOf_add (doc : Document) (r : NodeRef) (c : string) (x : NodeRef) (e : Element) :
  elementOf doc x = Some e →
  ∃ e', elementOf (add r c doc) x = Some e' ∧ tagName e' = tagName e ∧ id e' = id e.
Proof.
  intros He. unfold add. rewrite elementOf_updateElement, He.
  destruct (bool_decide (r = x)); simpl; eauto.
Qed.

Lemma elementOf_remove (doc : Document) (r : NodeRef) (c : string) (x : NodeRef) (e : Element) :
  elementOf doc x = Some e →
  ∃ e', elementOf (remove r c doc) x = Some e' ∧ tagName e' = tagName e ∧ id e' = id e.
Proof.
  intros He. unfold remove. rewrite elementOf_updateElement, He.
  destruct (bool_decide (r = x)); simpl; eauto.
Qed.

Lemma attached_add (doc : Document) (r : NodeRef) (c : string) (x : NodeRef) :
  attached (add r c doc) x ↔ attached doc x.
Proof.
  unfold attached, add. split; intros [k Hk]; exists k.
  - rewrite ancestry_updateElement in Hk by reflexivity. exact Hk.
  - rewrite ancestry_updateElement by reflexivity. exact Hk.
Qed.

Lemma attached_remove (doc : Document) (r : NodeRef) (c : string) (x : NodeRef) :
  attached (remove r c doc) x ↔ attached doc x.
Proof.
  unfold attached, remove. split; intros [k Hk]; exists k.
  - rewrite ancestry_updateElement in Hk by reflexivity. exact Hk.
  - rewrite ancestry_updateElement by reflexivity. exact Hk.
Qed.

(** ** The selection state machine *)

Lemma singleLock_click_locked (w : World) (event : Event) :
  _annotationMode (session w) = true →
  _elementLocked (session w) = true →
  SingleLock._annotationClickListener event w =
  (Return tt, stopImmediatePropagation (preventDefault event), w).
Proof.
  intros Hmode Hlocked. unfold SingleLock._annotationClickListener.
  rewrite Hmode, Hlocked. reflexivity.
Qed.

Lemma singleLock_clicks_locked (events : list Event) (w : World) :
  _annotationMode (session w) = true →
  _elementLocked (session w) = true →
  singleLockClicks events w = w.
Proof.
  intros Hmode Hlocked. unfold singleLockClicks.
  induction events as [|event events IH]; [reflexivity|].
  simpl. rewrite singleLock_click_locked by assumption. exact IH.
Qed.

(** C1. Single-lock policy: with annotation mode active and nothing
    locked, a click on an attached element completes normally, gives the
    locked class to that element and to no other, records the element and
    its capture in the session and sets the locked flag; after it, every
    click returns early and leaves the world as it is, whatever the number
    of clicks, and [unlockElement] clears the flag. *)
Theorem singleLock_policy (w : World) (event : Event) (e : Element) :
  _annotationMode (session w) = true →
  _elementLocked (session w) = false →
  elementOf (document w) (target event) = Some e →
  attached (document w) (target event) →
  let '(completion, _, w1) := SingleLock._annotationClickListener event w in
  completion = Return tt
  ∧ classContains (target event) "annotation-locked" w1 = true
  ∧ (∀ r, r ≠ target event →
       classContains r "annotation-locked" w1 = classContains r "annotation-locked" w)
  ∧ _elementLocked (session w1) = true
  ∧ _lockedElement (session w1) = Some (target event)
  ∧ (∃ selected xpath,
       _selectedElement (session w1) = Some selected ∧
       capture (document w1) (target event) = Return selected ∧
       getXPath (document w) (target event) = Return (Some xpath) ∧
       c_xpath selected = Some xpath ∧ c_tagName selected = tagName e ∧
       c_id selected = id e)
  ∧ (∀ event',
       SingleLock._annotationClickListener event' w1 =
       (Return tt, stopImmediatePropagation (preventDefault event'), w1))
  ∧ (∀ events, singleLockClicks events w1 = w1)
  ∧ _elementLocked (session (snd (SingleLock.unlockElement w1))) = false.
Proof.
  intros Hmode Hunlocked He Hattached.
  destruct (attached_getXPath _ _ Hattached) as [xpath Hxpath].
  unfold SingleLock._annotationClickListener at 1. rewrite Hmode, Hunlocked.
  cbn [negb target stopImmediatePropagation preventDefault].
  set (t := target event) in *.
  set (w0 := match _currentHighlightedElement (session w) with
             | Some current => classRemove current "annotation-highlight" w
             | None => w
             end).
  assert (Hsession0 : session w0 = session w)
    by (unfold w0; destruct (_currentHighlightedElement (session w)); reflexivity).
  assert (Hlocked0 : ∀ r, classContains r "annotation-locked" w0
                          = classContains r "annotation-locked" w).
  { intros r. unfold w0. destruct (_currentHighlightedElement (session w)) as [cur|];
      [|reflexivity].
    unfold classContains, classRemove. simpl. rewrite contains_remove.
    rewrite (bool_decide_eq_false_2 ("annotation-highlight" = "annotation-locked"))
      by discriminate.
    rewrite andb_false_r, andb_true_r. reflexivity. }
  assert (He0 : ∃ e0, elementOf (document w0) t = Some e0
                      ∧ tagName e0 = tagName e ∧ id e0 = id e).
  { unfold w0. destruct (_currentHighlightedElement (session w)) as [cur|]; [|eauto].
    apply elementOf_remove. exact He. }
  assert (Hxpath0 : getXPath (document w0) t = Return (Some xpath)).
  { unfold w0. destruct (_currentHighlightedElement (session w)) as [cur|];
      [|exact Hxpath].
    simpl. rewrite getXPath_remove. exact Hxpath. }
  clearbody w0. destruct He0 as (e0 & He0 & Htag0 & Hid0).
  set (doc1 := add t "annotation-locked" (remove t "annotation-highlight" (document w0))).
  change (document (classAdd t "annotation-locked"
            (classRemove t "annotation-highlight" (setElementLocked true w0))))
    with doc1.
  destruct (elementOf_remove _ t "annotation-highlight" t _ He0) as (e1 & He1 & Htag1 & Hid1).
  destruct (elementOf_add _ t "annotation-locked" t _ He1) as (e2 & He2 & Htag2 & Hid2).
  assert (Hxpath1 : getXPath doc1 t = Return (Some xpath))
    by (unfold doc1; rewrite getXPath_add, getXPath_remove; exact Hxpath0).
  destruct (capture_returns doc1 t e2 (Some xpath) He2 Hxpath1)
    as (selected & Hcapture & Hctag & Hcid & _ & _ & Hcxpath & _).
  rewrite Hcapture.
  assert (Hnow : classContains t "annotation-locked"
                   (classAdd t "annotation-locked"
                      (classRemove t "annotation-highlight" (setElementLocked true w0)))
                 = true).
  { unfold classContains, classAdd, classRemove. simpl. rewrite contains_add.
    rewrite !bool_decide_eq_true_2; [apply orb_true_r|eauto|reflexivity|reflexivity]. }
  repeat split.
  - exact Hnow.
  - intros r Hr. rewrite <- Hlocked0. unfold classContains, classAdd, classRemove. simpl.
    rewrite contains_add, contains_remove.
    rewrite (bool_decide_eq_false_2 (t = r)) by congruence.
    rewrite !andb_false_l, orb_false_r, andb_true_r. reflexivity.
  - exists selected, xpath. repeat split; try assumption; try reflexivity; congruence.
  - intros event'. apply singleLock_click_locked; simpl; congruence.
  - intros events. apply singleLock_clicks_locked; simpl; congruence.
Qed.

(** The sample page with annotation mode on, and a click on its [div]. *)
Lemma singleLock_policy_witness :
  let w := setMode true (freshWorld sampleDocument) in
  let event := mkEvent 4 false false in
  attached (document w) (target event) ∧
  let '(completion, _, w1) := SingleLock._annotationClickListener event w in
  completion = Return tt ∧ classContains 4 "annotation-locked" w1 = true ∧
  _lockedElement (session w1) = Some 4 ∧ _elementLocked (session w1) = true.
Proof.
  intros w event.
  assert (Hattached : attached (document w) (target event)) by (exists 3; reflexivity).
  split; [exact Hattached|].
  pose proof (singleLock_policy w event (sampleElement "DIV" EmptyString)
                eq_refl eq_refl eq_refl Hattached) as H.
  destruct (SingleLock._annotationClickListener event w) as [[completion event'] w1].
  destruct H as (Hc & Hclass & _ & Hlocked & Hel & _).
  repeat split; assumption.
Defined.

(** ** The highlight tracker *)

Section HighlightTracker.

Lemma lockedRole_classRemove (r x : NodeRef) (w : World) :
  lockedRole (classRemove r "annotation-highlight" w) x = lockedRole w x.
Proof.
  unfold lockedRole, classContains, classRemove. simpl. rewrite !contains_remove.
  rewrite (bool_decide_eq_false_2 ("annotation-highlight" = "annotation-primary"))
    by discriminate.
  rewrite (bool_decide_eq_false_2 ("annotation-highlight" = "annotation-secondary"))
    by discriminate.
  rewrite !andb_false_r, !andb_true_r. reflexivity.
Qed.

Lemma lockedRole_classAdd (r x : NodeRef) (w : World) :
  lockedRole (classAdd r "annotation-highlight" w) x = lockedRole w x.
Proof.
  unfold lockedRole, classContains, classAdd. simpl. rewrite !contains_add.
  rewrite (bool_decide_eq_false_2 ("annotation-highlight" = "annotation-primary"))
    by discriminate.
  rewrite (bool_decide_eq_false_2 ("annotation-highlight" = "annotation-secondary"))
    by discriminate.
  rewrite !andb_false_r, !andb_false_l, !orb_false_r. reflexivity.
Qed.

(** Hovering changes neither the mode nor the locked-role classes. *)
Lemma hover_frame (h : HoverEvent) (w : World) :
  _annotationMode (session (hover h w)) = _annotationMode (session w)
  ∧ ∀ x, lockedRole (hover h w) x = lockedRole w x.
Proof.
  destruct h as [event|event]; simpl.
  - unfold DualRole._annotationMouseoverListener.
    destruct (negb (_annotationMode (session w))); [split; reflexivity|].
    destruct (_ || _); [split; reflexivity|].
    split; [destruct (_currentHighlightedElement (session w)) as [current|];
            [destruct (bool_decide (current ≠ target event))|]; reflexivity|].
    intros x.
    change (lockedRole (setCurrentHighlightedElement ?r ?w') x) with (lockedRole w' x).
    rewrite lockedRole_classAdd.
    destruct (_currentHighlightedElement (session w)) as [current|]; [|reflexivity].
    destruct (bool_decide (current ≠ target event)); [|reflexivity].
    apply lockedRole_classRemove.
  - unfold DualRole._annotationMouseoutListener.
    destruct (bool_decide _); [|split; reflexivity].
    split; [reflexivity|]. intros x.
    change (lockedRole (setCurrentHighlightedElement ?r ?w') x) with (lockedRole w' x).
    apply lockedRole_classRemove.
Qed.

(** One hover event keeps the highlight on the tracked element, which
    is the last one entered. *)
Lemma hover_step (base : World) (h : HoverEvent) (w : World) (tracked : option NodeRef) :
  _annotationMode (session w) = true →
  (∀ x, lockedRole w x = lockedRole base x) →
  (∀ r, highlighted w r = true →
        _currentHighlightedElement (session w) = Some r ∧ tracked = Some r) →
  ∀ r, highlighted (hover h w) r = true →
       _currentHighlightedElement (session (hover h w)) = Some r
       ∧ lastEntered base [h] tracked = Some r.
Proof.
  intros Hmode Hroles Hinv r. destruct h as [event|event]; simpl.
  - unfold DualRole._annotationMouseoverListener. rewrite Hmode. cbn [negb].
    rewrite <- Hroles. unfold lockedRole.
    destruct (_ || _); [apply Hinv|].
    unfold highlighted, classContains, classAdd. simpl. rewrite contains_add.
    intros Hr. apply orb_true_iff in Hr as [Hr|Hr].
    + assert (Hold : highlighted w r = true ∧
                     _currentHighlightedElement (session w) ≠ Some r
                     ∨ highlighted w r = true ∧ target event = r).
      { destruct (_currentHighlightedElement (session w)) as [current|] eqn:Hcurrent.
        - destruct (bool_decide (current ≠ target event)) eqn:Hne.
          + unfold classRemove in Hr. simpl in Hr. rewrite contains_remove in Hr.
            apply andb_true_iff in Hr as [Hr Hdiff]. left. split; [exact Hr|].
            rewrite (bool_decide_eq_true_2 ("annotation-highlight" = "annotation-highlight"))
      in Hdiff by reflexivity.
            rewrite andb_true_r in Hdiff. apply negb_true_iff in Hdiff.
            apply bool_decide_eq_false_1 in Hdiff. congruence.
          + apply bool_decide_eq_false_1 in Hne.
            destruct (decide (current = target event)) as [Heq|Hneq]; [|contradiction].
            right. split; [exact Hr|]. destruct (Hinv r Hr) as [Hc _]. congruence.
        - left. split; [exact Hr|discriminate]. }
      destruct Hold as [[Hhigh Hnot]|[_ ->]]; [|split; reflexivity].
      destruct (Hinv r Hhigh) as [Hc _]. contradiction.
    + apply andb_true_iff in Hr as [Hr _]. apply andb_true_iff in Hr as [Hr _].
      apply bool_decide_eq_true_1 in Hr as <-. split; reflexivity.
  - unfold DualRole._annotationMouseoutListener.
    destruct (bool_decide (Some (target event) = _currentHighlightedElement (session w)))
      eqn:Hcurrent; [|apply Hinv].
    apply bool_decide_eq_true_1 in Hcurrent.
    unfold highlighted, classContains, classRemove. simpl. rewrite contains_remove.
    intros Hr. apply andb_true_iff in Hr as [Hr Hdiff].
    rewrite (bool_decide_eq_true_2 ("annotation-highlight" = "annotation-highlight"))
      in Hdiff by reflexivity.
    rewrite andb_true_r in Hdiff. apply negb_true_iff in Hdiff.
    apply bool_decide_eq_false_1 in Hdiff.
    destruct (Hinv r Hr) as [Hc _]. congruence.
Qed.

Lemma hovers_invariant (base : World) (events : list HoverEvent) (w : World)
    (tracked : option NodeRef) :
  _annotationMode (session w) = true →
  (∀ x, lockedRole w x = lockedRole base x) →
  (∀ r, highlighted w r = true →
        _currentHighlightedElement (session w) = Some r ∧ tracked = Some r) →
  (∀ x, lockedRole (hovers events w) x = lockedRole base x)
  ∧ ∀ r, highlighted (hovers events w) r = true →
         _currentHighlightedElement (session (hovers events w)) = Some r
         ∧ lastEntered base events tracked = Some r.
Proof.
  revert w tracked. induction events as [|h events IH]; intros w tracked Hmode Hroles Hinv.
  - split; assumption.
  - destruct (hover_frame h w) as [Hmode' Hroles'].
    apply (IH (hover h w) (lastEntered base [h] tracked)).
    + congruence.
    + intros x. rewrite Hroles'. apply Hroles.
    + apply hover_step; assumption.
Qed.

Lemma hovers_mode (events : list HoverEvent) (w : World) :
  _annotationMode (session (hovers events w)) = _annotationMode (session w).
Proof.
  revert w. induction events as [|h events IH]; intros w; [reflexivity|].
  simpl. rewrite IH. apply hover_frame.
Qed.

Lemma lastEntered_unlocked (base : World) (events : list HoverEvent)
    (tracked : option NodeRef) (r : NodeRef) :
  lastEntered base events tracked = Some r →
  tracked = Some r ∨ lockedRole base r = false.
Proof.
  revert tracked. induction events as [|h events IH]; intros tracked Hlast; [left; exact Hlast|].
  apply IH in Hlast as [Hlast|Hlast]; [|right; exact Hlast].
  destruct h as [event|event]; [|left; exact Hlast].
  destruct (lockedRole base (target event)) eqn:Hrole; [left; exact Hlast|].
  right. congruence.
Qed.

End HighlightTracker.

(** C3. With annotation mode active and no element highlighted at the
    start, after every sequence of mouseover and mouseout events at most
    one element carries the highlight class; an element that carries it is
    the most recently entered one among the elements without locked-role
    class, and carries no locked-role class; entering an element with a
    locked-role class changes nothing, and entering any other element
    highlights it. *)
Theorem hover_single_highlight (w : World) (events : list HoverEvent) :
  _annotationMode (session w) = true →
  (∀ r, highlighted w r = false) →
  let w1 := hovers events w in
  (∀ r1 r2, highlighted w1 r1 = true → highlighted w1 r2 = true → r1 = r2)
  ∧ (∀ r, highlighted w1 r = true →
          lastEntered w events None = Some r ∧ lockedRole w1 r = false)
  ∧ (∀ event, lockedRole w1 (target event) = true →
              DualRole._annotationMouseoverListener event w1 = w1)
  ∧ (∀ event e, lockedRole w1 (target event) = false →
                elementOf (document w1) (target event) = Some e →
                highlighted (DualRole._annotationMouseoverListener event w1) (target event)
                = true).
Proof.
  intros Hmode Hclean w1.
  destruct (hovers_invariant w events w None Hmode (fun x => eq_refl)) as [Hroles Hinv].
  { intros r Hr. rewrite Hclean in Hr. discriminate. }
  fold w1 in Hroles, Hinv.
  assert (Hmode1 : _annotationMode (session w1) = true).
  { unfold w1. rewrite hovers_mode. exact Hmode. }
  split; [|split; [|split]].
  - intros r1 r2 H1 H2. destruct (Hinv r1 H1) as [_ E1]. destruct (Hinv r2 H2) as [_ E2].
    congruence.
  - intros r Hr. destruct (Hinv r Hr) as [_ Hlast]. split; [exact Hlast|].
    rewrite Hroles. apply lastEntered_unlocked in Hlast as [Hlast|Hlast];
      [discriminate|exact Hlast].
  - intros event Hrole. unfold DualRole._annotationMouseoverListener.
    rewrite Hmode1. cbn [negb]. unfold lockedRole in Hrole. rewrite Hrole. reflexivity.
  - intros event e Hrole He. unfold DualRole._annotationMouseoverListener.
    rewrite Hmode1. cbn [negb]. unfold lockedRole in Hrole. rewrite Hrole.
    unfold highlighted, classContains, classAdd. simpl. rewrite contains_add.
    rewrite !bool_decide_eq_true_2; [apply orb_true_r| |reflexivity|reflexivity].
    destruct (_currentHighlightedElement (session w1)) as [current|]; [|eauto].
    destruct (bool_decide (current ≠ target event)); [|eauto].
    apply is_element_remove. eauto.
Qed.

(** No element of the sample page carries a class. *)
Lemma sampleDocument_classes (r : NodeRef) (c : string) :
  contains r c sampleDocument = false.
Proof.
  unfold contains, elementOf.
  destruct (nodes sampleDocument !! r) as [n|] eqn:Hn; [|reflexivity].
  apply elem_of_list_to_map_2 in Hn.
  repeat (apply elem_of_cons in Hn as [Hn|Hn]; [injection Hn as -> ->; reflexivity|]).
  inversion Hn.
Qed.

(** Three hover events on the sample page: the [div] is entered, then
    the first [li], and the highlight is on the [li] alone. *)
Lemma hover_single_highlight_witness :
  let w := setMode true (freshWorld sampleDocument) in
  let events := [Mouseover (mkEvent 4 false false); Mouseover (mkEvent 7 false false);
                 Mouseout (mkEvent 4 false false)] in
  highlighted (hovers events w) 7 = true ∧
  ∀ r, highlighted (hovers events w) r = true → r = 7.
Proof.
  intros w events.
  assert (Hseven : highlighted (hovers events w) 7 = true) by (vm_compute; reflexivity).
  split; [exact Hseven|]. intros r Hr.
  destruct (hover_single_highlight w events eq_refl
              (fun r => sampleDocument_classes r "annotation-highlight")) as [Hone _].
  exact (Hone r 7 Hr Hseven).
Defined.

(** ** Unlocking *)

Section Unlock.

Lemma setElementLocked_id (w : World) (b : bool) :
  _elementLocked (session w) = b → setElementLocked b w = w.
Proof. destruct w as [[] ? ? ? ? ? ?]. simpl. intros <-. reflexivity. Qed.

Lemma setSelectedElement_id (w : World) (d : option CapturedElementData) :
  _selectedElement (session w) = d → setSelectedElement d w = w.
Proof. destruct w as [[] ? ? ? ? ? ?]. simpl. intros <-. reflexivity. Qed.

Lemma setSecondaryElements_id (w : World) (l : list CapturedElementData) :
  _secondaryElements (session w) = l → setSecondaryElements l w = w.
Proof. destruct w as [[] ? ? ? ? ? ?]. simpl. intros <-. reflexivity. Qed.

Lemma forEachRemove_frame (l : list NodeRef) (w : World) :
  session (forEachRemove "annotation-secondary" l w) = session w
  ∧ bodyCursor (document (forEachRemove "annotation-secondary" l w))
    = bodyCursor (document w)
  ∧ ∀ r c, classContains r c (forEachRemove "annotation-secondary" l w)
           = classContains r c w
             && negb (bool_decide (c = "annotation-secondary") && bool_decide (r ∈ l)).
Proof.
  revert w. induction l as [|x l IH]; intros w.
  - repeat split. intros r c. rewrite (bool_decide_eq_false_2 (r ∈ [])).
    + rewrite andb_false_r, andb_true_r. reflexivity.
    + apply not_elem_of_nil.
  - destruct (IH (classRemove x "annotation-secondary" w)) as (Hs & Hc & Hclass).
    repeat split; [exact Hs | exact Hc |]. intros r c.
    change (forEachRemove "annotation-secondary" (x :: l) w)
      with (forEachRemove "annotation-secondary" l
              (classRemove x "annotation-secondary" w)).
    rewrite Hclass. unfold classContains, classRemove. simpl. rewrite contains_remove.
    destruct (contains r c (document w)); [|reflexivity]. simpl.
    destruct (decide (c = "annotation-secondary")) as [->|Hc'].
    + rewrite !(bool_decide_eq_true_2 ("annotation-secondary" = "annotation-secondary"))
        by reflexivity.
      rewrite !andb_true_r, !andb_true_l.
      destruct (decide (x = r)) as [->|Hx].
      * rewrite (bool_decide_eq_true_2 (r = r)) by reflexivity.
        rewrite (bool_decide_eq_true_2 (r ∈ r :: l)) by (apply elem_of_cons; auto).
        reflexivity.
      * rewrite (bool_decide_eq_false_2 (x = r)) by assumption. simpl.
        f_equal. apply bool_decide_ext. rewrite elem_of_cons.
        split; [auto|intros [?|?]; [congruence|assumption]].
    + rewrite !(bool_decide_eq_false_2 (c = "annotation-secondary")) by assumption.
      rewrite (bool_decide_eq_false_2 ("annotation-secondary" = c)) by congruence.
      rewrite andb_false_r. reflexivity.
Qed.

End Unlock.

Section UnlockElement.

Variable w : World.

Lemma dualRole_unlock_nothing :
  _lockedElement (session w) = None → _elementLocked (session w) = false →
  _selectedElement (session w) = None → _secondaryActualElement (session w) = [] →
  DualRole.unlockElement w = (true, emit (ConsoleLog "All elements unlocked" None) w).
Proof.
  intros Hle Hlocked Hselected Hlive. unfold DualRole.unlockElement.
  rewrite Hle. rewrite (setElementLocked_id w false Hlocked).
  rewrite (setSelectedElement_id w None Hselected). rewrite Hlive. reflexivity.
Qed.

Lemma singleLock_unlock_nothing :
  _lockedElement (session w) = None → _elementLocked (session w) = false →
  _selectedElement (session w) = None →
  SingleLock.unlockElement w = (true, emit (ConsoleLog "Element unlocked" None) w).
Proof.
  intros Hle Hlocked Hselected. unfold SingleLock.unlockElement.
  rewrite Hle. rewrite (setElementLocked_id w false Hlocked).
  rewrite (setSelectedElement_id w None Hselected). reflexivity.
Qed.

Lemma dualRole_unlock_session :
  let w1 := snd (DualRole.unlockElement w) in
  fst (DualRole.unlockElement w) = true
  ∧ _lockedElement (session w1) = None ∧ _elementLocked (session w1) = false
  ∧ _selectedElement (session w1) = None ∧ _secondaryActualElement (session w1) = []
  ∧ _secondaryElements (session w1)
    = match _secondaryActualElement (session w) with
      | [] => _secondaryElements (session w)
      | _ :: _ => []
      end
  ∧ _annotationMode (session w1) = _annotationMode (session w)
  ∧ _currentHighlightedElement (session w1) = _currentHighlightedElement (session w)
  ∧ bodyCursor (document w1) = bodyCursor (document w).
Proof.
  unfold DualRole.unlockElement.
  destruct (_lockedElement (session w)) as [locked|] eqn:Hle;
    cbn [snd fst]; (split; [reflexivity|]).
  - set (w0 := setSelectedElement None (setElementLocked false
                 (setLockedElement None (classRemove locked "annotation-primary" w)))).
    change (_secondaryActualElement (session w0))
      with (_secondaryActualElement (session w)).
    destruct (_secondaryActualElement (session w)) as [|x live] eqn:Hlive;
      [simpl; repeat split; try reflexivity; assumption|].
    cbn [length Nat.ltb Nat.leb].
    destruct (forEachRemove_frame (x :: live) w0) as (Hs & Hc & _).
    cbn -[forEachRemove]. rewrite Hs, Hc. repeat split; try reflexivity; assumption.
  - set (w0 := setSelectedElement None (setElementLocked false w)).
    change (_secondaryActualElement (session w0))
      with (_secondaryActualElement (session w)).
    destruct (_secondaryActualElement (session w)) as [|x live] eqn:Hlive;
      [simpl; repeat split; try reflexivity; assumption|].
    cbn [length Nat.ltb Nat.leb].
    destruct (forEachRemove_frame (x :: live) w0) as (Hs & Hc & _).
    cbn -[forEachRemove]. rewrite Hs, Hc. repeat split; try reflexivity; assumption.
Qed.

Lemma dualRole_unlock_classes :
  let w1 := snd (DualRole.unlockElement w) in
  (∀ p, _lockedElement (session w) = Some p →
        classContains p "annotation-primary" w1 = false)
  ∧ (∀ r, r ∈ _secondaryActualElement (session w) →
          classContains r "annotation-secondary" w1 = false).
Proof.
  unfold DualRole.unlockElement.
  set (w0 := match _lockedElement (session w) with
             | Some locked =>
                 setLockedElement None (classRemove locked "annotation-primary" w)
             | None => w
             end).
  assert (Hlive0 : _secondaryActualElement (session w0)
                   = _secondaryActualElement (session w))
    by (unfold w0; destruct (_lockedElement (session w)); reflexivity).
  assert (Hprimary0 : ∀ p, _lockedElement (session w) = Some p →
                           classContains p "annotation-primary" w0 = false).
  { intros p Hp. unfold w0. rewrite Hp. unfold classContains, classRemove. simpl.
    rewrite contains_remove, !bool_decide_eq_true_2 by reflexivity.
    apply andb_false_r. }
  clearbody w0.
  change (_secondaryActualElement (session (setSelectedElement None
            (setElementLocked false w0))))
    with (_secondaryActualElement (session w0)).
  rewrite Hlive0. cbn [snd].
  destruct (_secondaryActualElement (session w)) as [|x live] eqn:Hlive.
  - split; [intros p Hp; apply (Hprimary0 p Hp)|]. intros r Hr. inversion Hr.
  - cbn [length Nat.ltb Nat.leb].
    destruct (forEachRemove_frame (x :: live)
                (setSelectedElement None (setElementLocked false w0)))
      as (_ & _ & Hclass).
    split.
    + intros p Hp.
      change (classContains p "annotation-primary"
                (forEachRemove "annotation-secondary" (x :: live)
                   (setSelectedElement None (setElementLocked false w0))) = false).
      rewrite Hclass.
      change (classContains p "annotation-primary"
                (setSelectedElement None (setElementLocked false w0)))
        with (classContains p "annotation-primary" w0).
      rewrite (Hprimary0 p Hp). reflexivity.
    + intros r Hr.
      change (classContains r "annotation-secondary"
                (forEachRemove "annotation-secondary" (x :: live)
                   (setSelectedElement None (setElementLocked false w0))) = false).
      rewrite Hclass. rewrite !bool_decide_eq_true_2 by (assumption || reflexivity).
      apply andb_false_r.
Qed.

Lemma singleLock_unlock_session :
  let w1 := snd (SingleLock.unlockElement w) in
  fst (SingleLock.unlockElement w) = true
  ∧ _lockedElement (session w1) = None ∧ _elementLocked (session w1) = false
  ∧ _selectedElement (session w1) = None
  ∧ _annotationMode (session w1) = _annotationMode (session w)
  ∧ _currentHighlightedElement (session w1) = _currentHighlightedElement (session w)
  ∧ _secondaryActualElement (session w1) = _secondaryActualElement (session w)
  ∧ _secondaryElements (session w1) = _secondaryElements (session w)
  ∧ bodyCursor (document w1) = bodyCursor (document w)
  ∧ (∀ p, _lockedElement (session w) = Some p →
          classContains p "annotation-locked" w1 = false).
Proof.
  unfold SingleLock.unlockElement.
  destruct (_lockedElement (session w)) as [locked|] eqn:Hle; cbn [snd fst];
    repeat split; try reflexivity; try assumption; try discriminate.
  intros p [= <-]. unfold classContains, classRemove. simpl.
  rewrite contains_remove, !bool_decide_eq_true_2 by reflexivity. apply andb_false_r.
Qed.

End UnlockElement.

(** ** The dual-role policy *)

Lemma dualRole_click_secondary (w : World) (event : Event) (e : Element) :
  _annotationMode (session w) = true →
  _elementLocked (session w) = true →
  _lockedElement (session w) ≠ Some (target event) →
  classContains (target event) "annotation-secondary" w = false →
  elementOf (document w) (target event) = Some e →
  attached (document w) (target event) →
  let '(completion, _, w1) := DualRole._annotationClickListener event w in
  completion = Return tt
  ∧ classContains (target event) "annotation-secondary" w1 = true
  ∧ ∃ d,
      _secondaryElements (session w1) = _secondaryElements (session w) ++ [d] ∧
      _secondaryActualElement (session w1)
      = _secondaryActualElement (session w) ++ [target event] ∧
      capture (document w1) (target event) = Return d ∧
      c_xpath d = match getXPath (document w) (target event) with
                  | Return xpath => xpath
                  | Throw _ => None
                  end.
Proof.
  intros Hmode Hlocked Hprimary Hsecondary He Hattached.
  destruct (attached_getXPath _ _ Hattached) as [xpath Hxpath].
  unfold DualRole._annotationClickListener. rewrite Hmode, Hlocked.
  cbn [negb target stopImmediatePropagation preventDefault].
  set (t := target event) in *. rewrite Hsecondary.
  rewrite bool_decide_eq_true_2 by congruence. cbn [negb andb].
  set (doc1 := add t "annotation-secondary" (remove t "annotation-highlight" (document w))).
  change (document (classAdd t "annotation-secondary"
            (classRemove t "annotation-highlight" w))) with doc1.
  destruct (elementOf_remove _ t "annotation-highlight" t _ He) as (e1 & He1 & _).
  destruct (elementOf_add _ t "annotation-secondary" t _ He1) as (e2 & He2 & _).
  assert (Hxpath1 : getXPath doc1 t = Return (Some xpath))
    by (unfold doc1; rewrite getXPath_add, getXPath_remove; exact Hxpath).
  destruct (capture_returns doc1 t e2 (Some xpath) He2 Hxpath1)
    as (d & Hcapture & _ & _ & _ & _ & Hcxpath & _).
  rewrite Hcapture. split; [reflexivity|]. split.
  - unfold classContains, classAdd, classRemove. simpl. rewrite contains_add.
    rewrite !bool_decide_eq_true_2; [apply orb_true_r|eauto|reflexivity|reflexivity].
  - exists d. rewrite Hxpath. repeat split; assumption.
Qed.

Lemma dualRole_click_aligned (w : World) (event : Event) :
  aligned w → aligned (snd (DualRole._annotationClickListener event w)).
Proof.
  intros Haligned. pose proof Haligned as [Hempty Hpairs].
  unfold DualRole._annotationClickListener.
  destruct (_annotationMode (session w)); [|exact Haligned].
  cbn [negb target stopImmediatePropagation preventDefault].
  set (t := target event).
  destruct (_elementLocked (session w)) eqn:Hlocked; cbn [negb].
  - destruct (classContains t "annotation-secondary" w) eqn:Hsecondary;
      [exact Haligned|].
    destruct (bool_decide (Some t ≠ _lockedElement (session w)));
      cbn [negb andb]; [|exact Haligned].
    assert (Hkept : Forall2
              (fun d r =>
                 classContains r "annotation-secondary"
                   (classAdd t "annotation-secondary"
                      (classRemove t "annotation-highlight" w)) = true
                 ∧ capture (add t "annotation-secondary"
                              (remove t "annotation-highlight" (document w))) r
                   = Return d)
              (_secondaryElements (session w)) (_secondaryActualElement (session w))).
    { eapply Forall2_impl; [exact Hpairs|]. intros d r [Hclass Hcapture].
      assert (Hne : t ≠ r) by (intros ->; congruence).
      split.
      - unfold classContains, classAdd, classRemove in *. simpl.
        rewrite contains_add, contains_remove, Hclass.
        rewrite (bool_decide_eq_false_2 (t = r)) by assumption. reflexivity.
      - rewrite capture_add, capture_remove by assumption. exact Hcapture. }
    change (document (classAdd t "annotation-secondary"
              (classRemove t "annotation-highlight" w)))
      with (add t "annotation-secondary" (remove t "annotation-highlight" (document w))).
    destruct (capture (add t "annotation-secondary"
                         (remove t "annotation-highlight" (document w))) t)
      as [d|err] eqn:Hcapture.
    + split; [simpl; rewrite Hlocked; discriminate|]. simpl.
      apply Forall2_app; [exact Hkept|]. constructor; [|constructor].
      split; [|exact Hcapture].
      apply capture_is_element, is_element_add in Hcapture.
      unfold classContains, classAdd, classRemove. simpl. rewrite contains_add.
      rewrite (bool_decide_eq_true_2 _ Hcapture).
      rewrite !bool_decide_eq_true_2 by reflexivity. apply orb_true_r.
    + split; [simpl; rewrite Hlocked; discriminate | exact Hkept].
  - destruct (Hempty eq_refl) as [Hdata Hlive].
    destruct (capture _ t); (split; [simpl; discriminate|]); simpl;
      rewrite Hdata, Hlive; constructor.
Qed.

Lemma aligned_length (w : World) :
  aligned w →
  length (_secondaryElements (session w)) = length (_secondaryActualElement (session w)).
Proof. intros [_ Hpairs]. eapply Forall2_length. exact Hpairs. Qed.

Lemma aligned_freshWorld (doc : Document) : aligned (freshWorld doc).
Proof. split; [split; reflexivity | constructor]. Qed.

Section SameLength.

Lemma removePreviousListeners_session (w : World) :
  session (removePreviousListeners w) = session w.
Proof.
  unfold removePreviousListeners.
  repeat match goal with
         | |- context [removeStored ?t ?r ?c ?v] =>
             replace (session (removeStored t r c v)) with (session v)
               by (destruct r; reflexivity)
         end.
  reflexivity.
Qed.

Lemma dualRole_attachListeners_session (w : World) :
  session (DualRole.attachListeners w) = session w.
Proof. destruct w as [s r d doc reg out fr]. reflexivity. Qed.

Lemma session_flag (v : World) (b : bool) (e : Effect) :
  session (emit e (setSetupDone b v)) = session v.
Proof. reflexivity. Qed.

Lemma session_prepared (v : World) :
  _secondaryElements (session (DualRole.initialiseState (installStyle v))) = []
  ∧ _secondaryActualElement (session (DualRole.initialiseState (installStyle v))) = [].
Proof. split; reflexivity. Qed.

Lemma dualRole_setup_sameLength (w : World) :
  sameLength w → sameLength (DualRole.setup w).
Proof.
  intros Hw. unfold DualRole.setup. destruct (_annotationSetupDone w); [exact Hw|].
  unfold sameLength. rewrite session_flag. unfold DualRole.setupBody.
  rewrite dualRole_attachListeners_session, removePreviousListeners_session.
  destruct (session_prepared w) as [-> ->]. reflexivity.
Qed.

Lemma dualRole_click_sameLength (event : Event) (w : World) :
  sameLength w → sameLength (snd (DualRole._annotationClickListener event w)).
Proof.
  intros Hw. unfold DualRole._annotationClickListener.
  destruct (negb (_annotationMode (session w))); [exact Hw|].
  destruct (negb (_elementLocked (session w))).
  - destruct (capture _ _); exact Hw.
  - destruct (_ && _); [|exact Hw].
    destruct (capture _ _); [|exact Hw].
    unfold sameLength in *. simpl. rewrite !length_app, Hw. reflexivity.
Qed.

Lemma dualRole_unlock_sameLength (w : World) :
  sameLength w → sameLength (snd (DualRole.unlockElement w)).
Proof.
  intros Hw. destruct (dualRole_unlock_session w) as (_ & _ & _ & _ & Hlive & Hdata & _).
  unfold sameLength in *. rewrite Hlive, Hdata.
  destruct (_secondaryActualElement (session w)); [|reflexivity].
  destruct (_secondaryElements (session w)); [reflexivity|discriminate].
Qed.

Lemma perform_sameLength (op : Operation) (w : World) :
  sameLength w → sameLength (perform op w).
Proof.
  intros Hw. destruct op as [|enabled| |event|event|event]; simpl.
  - apply dualRole_setup_sameLength, Hw.
  - unfold DualRole.setAnnotationMode.
    cbn [session emit setMode withSession _annotationMode].
    destruct (toBoolean enabled); [exact Hw|].
    set (w0 := setBodyCursor EmptyString _).
    destruct (dualRole_unlock_session w0) as (_ & _ & _ & _ & Hlive & _).
    unfold sameLength. cbn -[DualRole.unlockElement]. rewrite Hlive. reflexivity.
  - apply dualRole_unlock_sameLength, Hw.
  - unfold DualRole._annotationMouseoverListener.
    destruct (negb _); [exact Hw|]. destruct (_ || _); [exact Hw|].
    destruct (_currentHighlightedElement (session w)) as [current|]; [|exact Hw].
    destruct (bool_decide _); exact Hw.
  - unfold DualRole._annotationMouseoutListener. destruct (bool_decide _); exact Hw.
  - apply dualRole_click_sameLength, Hw.
Qed.

Lemma performAll_sameLength (ops : list Operation) (w : World) :
  sameLength w → sameLength (performAll ops w).
Proof.
  revert w. induction ops as [|op ops IH]; intros w Hw; [exact Hw|].
  apply IH, perform_sameLength, Hw.
Qed.

End SameLength.

(** C2. Dual-role policy: with annotation mode active and a primary
    element locked, a click on an attached element that is neither the
    primary element nor marked secondary completes normally, marks the
    element secondary and appends exactly one entry to each array, the
    record being the capture of the element appended to the other; after
    every click on a world whose arrays go by pairs the arrays still go
    by pairs, hence have the same length; and the two arrays have the
    same length after every sequence of injections, mode changes,
    unlocks, hover events and clicks on a page. *)
Theorem dualRole_policy (w : World) (event : Event) :
  (∀ e,
     _annotationMode (session w) = true →
     _elementLocked (session w) = true →
     _lockedElement (session w) ≠ Some (target event) →
     classContains (target event) "annotation-secondary" w = false →
     elementOf (document w) (target event) = Some e →
     attached (document w) (target event) →
     let '(completion, _, w1) := DualRole._annotationClickListener event w in
     completion = Return tt
     ∧ classContains (target event) "annotation-secondary" w1 = true
     ∧ ∃ d,
         _secondaryElements (session w1) = _secondaryElements (session w) ++ [d] ∧
         _secondaryActualElement (session w1)
         = _secondaryActualElement (session w) ++ [target event] ∧
         capture (document w1) (target event) = Return d ∧
         c_xpath d = match getXPath (document w) (target event) with
                     | Return xpath => xpath
                     | Throw _ => None
                     end)
  ∧ (aligned w →
     let w1 := snd (DualRole._annotationClickListener event w) in
     aligned w1 ∧
     length (_secondaryElements (session w1))
     = length (_secondaryActualElement (session w1)))
  ∧ (∀ doc ops, sameLength (performAll ops (freshWorld doc))).
Proof.
  split; [|split].
  - intros e. apply dualRole_click_secondary.
  - intros Haligned. split; [|apply aligned_length];
      apply dualRole_click_aligned; exact Haligned.
  - intros doc ops. apply performAll_sameLength. reflexivity.
Qed.

(** The sample page after a first click on its [div]: a click on the
    first [li] appends one entry to each array. *)
Lemma dualRole_policy_witness :
  let w0 := setMode true (freshWorld sampleDocument) in
  let w := snd (DualRole._annotationClickListener (mkEvent 4 false false) w0) in
  let event := mkEvent 7 false false in
  let w1 := snd (DualRole._annotationClickListener event w) in
  _lockedElement (session w) = Some 4 ∧ aligned w ∧
  _secondaryActualElement (session w1) = [7] ∧
  length (_secondaryElements (session w1)) = length (_secondaryActualElement (session w1)).
Proof.
  intros w0 w event w1.
  assert (Haligned : aligned w).
  { apply dualRole_click_aligned. split; [split; reflexivity | constructor]. }
  assert (Hattached : attached (document w) (target event)).
  { exists 4. vm_compute. reflexivity. }
  destruct (dualRole_policy w event) as (Happend & Hkeep & _).
  split; [vm_compute; reflexivity|]. split; [exact Haligned|].
  split; [|exact (proj2 (Hkeep Haligned))].
  assert (Hmode : _annotationMode (session w) = true) by (vm_compute; reflexivity).
  assert (Hlocked : _elementLocked (session w) = true) by (vm_compute; reflexivity).
  assert (Hprimary : _lockedElement (session w) ≠ Some (target event))
    by (vm_compute; discriminate).
  assert (Hclass : classContains (target event) "annotation-secondary" w = false)
    by (vm_compute; reflexivity).
  assert (He : elementOf (document w) (target event) = Some (sampleElement "LI" EmptyString))
    by (vm_compute; reflexivity).
  pose proof (Happend _ Hmode Hlocked Hprimary Hclass He Hattached) as H.
  unfold w1. destruct (DualRole._annotationClickListener event w) as [[completion event'] w2].
  destruct H as (_ & _ & d & _ & Hlive & _). cbn [snd]. rewrite Hlive.
  vm_compute. reflexivity.
Defined.

(** ** Unlocking twice, and the mode toggle *)

(** C4. [unlockElement] always returns [true]; a second call in a row
    only writes its console line again, so it ends in the session and
    document of the first call; after a call the locked flag is false, the
    primary reference and the captured data are cleared and the array of
    secondary references is empty, as is the array of secondary records
    when the two arrays have the same length, which they have after
    every sequence of operations on a page; the stored primary element
    has lost its role class, and so has every stored secondary element;
    and a call with nothing locked changes neither session nor document.
    This holds for the dual-role script and for the single-lock one. *)
Theorem unlockElement_idempotent (w : World) :
  (let w1 := snd (DualRole.unlockElement w) in
   let w2 := snd (DualRole.unlockElement w1) in
   fst (DualRole.unlockElement w) = true ∧ fst (DualRole.unlockElement w1) = true
   ∧ session w2 = session w1 ∧ document w2 = document w1
   ∧ _elementLocked (session w1) = false ∧ _lockedElement (session w1) = None
   ∧ _selectedElement (session w1) = None ∧ _secondaryActualElement (session w1) = []
   ∧ (length (_secondaryElements (session w)) = length (_secondaryActualElement (session w)) →
      _secondaryElements (session w1) = [])
   ∧ (∀ p, _lockedElement (session w) = Some p →
           classContains p "annotation-primary" w1 = false)
   ∧ (∀ r, r ∈ _secondaryActualElement (session w) →
           classContains r "annotation-secondary" w1 = false)
   ∧ (_lockedElement (session w) = None → _elementLocked (session w) = false →
      _selectedElement (session w) = None → _secondaryActualElement (session w) = [] →
      session w1 = session w ∧ document w1 = document w))
  ∧ (∀ doc ops,
       _secondaryElements
         (session (snd (DualRole.unlockElement (performAll ops (freshWorld doc))))) = [])
  ∧ (let w1 := snd (SingleLock.unlockElement w) in
     let w2 := snd (SingleLock.unlockElement w1) in
     fst (SingleLock.unlockElement w) = true ∧ fst (SingleLock.unlockElement w1) = true
     ∧ session w2 = session w1 ∧ document w2 = document w1
     ∧ _elementLocked (session w1) = false ∧ _lockedElement (session w1) = None
     ∧ _selectedElement (session w1) = None
     ∧ (∀ p, _lockedElement (session w) = Some p →
             classContains p "annotation-locked" w1 = false)
     ∧ (_lockedElement (session w) = None → _elementLocked (session w) = false →
        _selectedElement (session w) = None →
        session w1 = session w ∧ document w1 = document w)).
Proof.
  split; [|split].
  - intros w1 w2.
    destruct (dualRole_unlock_session w) as (Hok & Hle & Hlocked & Hsel & Hlive & Hdata & _).
    destruct (dualRole_unlock_classes w) as [Hprimary Hsecondary].
    fold w1 in Hle, Hlocked, Hsel, Hlive, Hdata, Hprimary, Hsecondary.
    pose proof (dualRole_unlock_nothing w1 Hle Hlocked Hsel Hlive) as Hagain.
    unfold w2. rewrite Hagain. cbn [fst snd].
    repeat split; try assumption.
    + intros Hlength. rewrite Hdata.
      destruct (_secondaryActualElement (session w)); [|reflexivity].
      destruct (_secondaryElements (session w)); [reflexivity|discriminate].
    + unfold w1. rewrite dualRole_unlock_nothing by assumption. reflexivity.
    + unfold w1. rewrite dualRole_unlock_nothing by assumption. reflexivity.
  - intros doc ops.
    pose proof (performAll_sameLength ops (freshWorld doc) eq_refl) as Hsame.
    destruct (dualRole_unlock_session (performAll ops (freshWorld doc)))
      as (_ & _ & _ & _ & _ & Hdata & _).
    rewrite Hdata. unfold sameLength in Hsame.
    destruct (_secondaryActualElement (session (performAll ops (freshWorld doc))));
      [|reflexivity].
    destruct (_secondaryElements (session (performAll ops (freshWorld doc))));
      [reflexivity|discriminate].
  - intros w1 w2.
    destruct (singleLock_unlock_session w)
      as (Hok & Hle & Hlocked & Hsel & _ & _ & _ & _ & _ & Hclass).
    fold w1 in Hle, Hlocked, Hsel, Hclass.
    pose proof (singleLock_unlock_nothing w1 Hle Hlocked Hsel) as Hagain.
    unfold w2. rewrite Hagain. cbn [fst snd].
    repeat split; try assumption.
    + unfold w1. rewrite singleLock_unlock_nothing by assumption. reflexivity.
    + unfold w1. rewrite singleLock_unlock_nothing by assumption. reflexivity.
Qed.

(** The sample page with a primary and a secondary selection. *)
Lemma unlockElement_idempotent_witness :
  let w0 := setMode true (freshWorld sampleDocument) in
  let wa := snd (DualRole._annotationClickListener (mkEvent 4 false false) w0) in
  let w := snd (DualRole._annotationClickListener (mkEvent 7 false false) wa) in
  let w1 := snd (DualRole.unlockElement w) in
  _lockedElement (session w) = Some 4 ∧ _secondaryActualElement (session w) = [7] ∧
  classContains 4 "annotation-primary" w = true ∧
  classContains 4 "annotation-primary" w1 = false ∧
  classContains 7 "annotation-secondary" w1 = false ∧
  _secondaryElements (session w1) = [] ∧
  session (snd (DualRole.unlockElement (freshWorld sampleDocument)))
  = session (freshWorld sampleDocument).
Proof.
  intros w0 wa w w1.
  assert (Hprimary : _lockedElement (session w) = Some 4) by (vm_compute; reflexivity).
  assert (Hlive : _secondaryActualElement (session w) = [7]) by (vm_compute; reflexivity).
  destruct (unlockElement_idempotent w)
    as [(_ & _ & _ & _ & _ & _ & _ & _ & Hdata & Hgold & Hgreen & _) _].
  destruct (unlockElement_idempotent (freshWorld sampleDocument))
    as [(_ & _ & _ & _ & _ & _ & _ & _ & _ & _ & _ & Hnothing) _].
  split; [exact Hprimary|]. split; [exact Hlive|].
  split; [vm_compute; reflexivity|].
  split; [apply Hgold; exact Hprimary|].
  split; [apply Hgreen; rewrite Hlive; apply list_elem_of_singleton; reflexivity|].
  split; [apply Hdata; vm_compute; reflexivity|].
  apply Hnothing; reflexivity.
Defined.

Example toBoolean_values :
  toBoolean Undefined = false ∧ toBoolean Null = false ∧
  toBoolean (Number (S754_zero false)) = false ∧
  toBoolean (Number (S754_zero true)) = false ∧
  toBoolean (Number S754_nan) = false ∧
  toBoolean (Number (S754_finite false 4503599627370496 (-52))) = true ∧
  toBoolean (Number (S754_infinity true)) = true ∧
  toBoolean (Str EmptyString) = false ∧ toBoolean (Str "false") = true ∧
  toBoolean Object = true.
Proof. vm_compute. repeat split. Qed.

(** C5. [setAnnotationMode(x)] sets the mode flag to the boolean coercion
    of [x] and the cursor of the body to crosshair when that is true and
    to the default when it is false; when it is false the call also
    unlocks: afterwards the locked flag is false, the primary reference
    and the captured data are cleared and both secondary arrays are
    empty, whatever the state before. The same holds in the single-lock
    script for the fields it has. *)
Theorem setAnnotationMode_toggle (x : Value) (w : World) :
  (let w1 := DualRole.setAnnotationMode x w in
   _annotationMode (session w1) = toBoolean x
   ∧ bodyCursor (document w1) = (if toBoolean x then "crosshair" else EmptyString)
   ∧ (toBoolean x = false →
      _elementLocked (session w1) = false ∧ _secondaryElements (session w1) = []
      ∧ _secondaryActualElement (session w1) = [] ∧ _lockedElement (session w1) = None
      ∧ _selectedElement (session w1) = None))
  ∧ (let w1 := SingleLock.setAnnotationMode x w in
     _annotationMode (session w1) = toBoolean x
     ∧ bodyCursor (document w1) = (if toBoolean x then "crosshair" else EmptyString)
     ∧ (toBoolean x = false →
        _elementLocked (session w1) = false ∧ _lockedElement (session w1) = None
        ∧ _selectedElement (session w1) = None)).
Proof.
  split; intros w1; unfold w1, DualRole.setAnnotationMode, SingleLock.setAnnotationMode;
    cbn [session emit setMode withSession _annotationMode];
    destruct (toBoolean x); try (repeat split; discriminate).
  - set (w0 := setBodyCursor EmptyString
                 (emit (ConsoleLog "Annotation mode set to:" (Some (LogBoolean false)))
                    (setMode false w))).
    destruct (dualRole_unlock_session w0)
      as (_ & Hle & Hlocked & Hsel & Hlive & _ & Hmode & _ & Hcursor).
    cbn -[DualRole.unlockElement]. repeat split; assumption.
  - set (w0 := setBodyCursor EmptyString
                 (emit (ConsoleLog "Annotation mode set to:" (Some (LogBoolean false)))
                    (setMode false w))).
    destruct (singleLock_unlock_session w0)
      as (_ & Hle & Hlocked & Hsel & Hmode & _ & _ & _ & Hcursor & _).
    repeat split; assumption.
Qed.

(** A locked sample page, and the string 0 as a truthy argument. *)
Lemma setAnnotationMode_toggle_witness :
  let w0 := setMode true (freshWorld sampleDocument) in
  let w := snd (DualRole._annotationClickListener (mkEvent 4 false false) w0) in
  _elementLocked (session w) = true ∧
  _elementLocked (session (DualRole.setAnnotationMode (Number (S754_zero false)) w))
  = false ∧
  _annotationMode (session (DualRole.setAnnotationMode (Str "0") w)) = true.
Proof.
  intros w0 w. split; [vm_compute; reflexivity|].
  destruct (setAnnotationMode_toggle (Number (S754_zero false)) w) as [(_ & _ & Hoff) _].
  destruct (setAnnotationMode_toggle (Str "0") w) as [(Hon & _) _].
  split; [exact (proj1 (Hoff eq_refl)) | exact Hon].
Defined.

(** C10. [setAnnotationMode(x)] with a truthy [x] changes the mode flag
    and the cursor of the body, writes one console line, and nothing else:
    the locked flag, the primary reference, the captured data, both
    secondary arrays, the tracked highlighted element and the classes of
    every element are as before, in both scripts. *)
Theorem setAnnotationMode_enable_frame (x : Value) (w : World) :
  toBoolean x = true →
  (let w1 := DualRole.setAnnotationMode x w in
   w1 = setBodyCursor "crosshair"
          (emit (ConsoleLog "Annotation mode set to:" (Some (LogBoolean true)))
             (setMode true w))
   ∧ _elementLocked (session w1) = _elementLocked (session w)
   ∧ _lockedElement (session w1) = _lockedElement (session w)
   ∧ _selectedElement (session w1) = _selectedElement (session w)
   ∧ _secondaryElements (session w1) = _secondaryElements (session w)
   ∧ _secondaryActualElement (session w1) = _secondaryActualElement (session w)
   ∧ _currentHighlightedElement (session w1) = _currentHighlightedElement (session w)
   ∧ nodes (document w1) = nodes (document w)
   ∧ (∀ r c, classContains r c w1 = classContains r c w))
  ∧ (let w1 := SingleLock.setAnnotationMode x w in
     w1 = setBodyCursor "crosshair"
            (emit (ConsoleLog "Annotation mode set to:" (Some (LogBoolean true)))
               (setMode true w))
     ∧ _elementLocked (session w1) = _elementLocked (session w)
     ∧ _lockedElement (session w1) = _lockedElement (session w)
     ∧ _selectedElement (session w1) = _selectedElement (session w)
     ∧ _secondaryElements (session w1) = _secondaryElements (session w)
     ∧ _secondaryActualElement (session w1) = _secondaryActualElement (session w)
     ∧ _currentHighlightedElement (session w1) = _currentHighlightedElement (session w)
     ∧ nodes (document w1) = nodes (document w)
     ∧ (∀ r c, classContains r c w1 = classContains r c w)).
Proof.
  intros Htrue.
  split; intros w1; unfold w1, DualRole.setAnnotationMode, SingleLock.setAnnotationMode;
    cbn [session emit setMode withSession _annotationMode]; rewrite Htrue;
    repeat split.
Qed.

(** Enabling the mode again on a locked sample page keeps the lock. *)
Lemma setAnnotationMode_enable_frame_witness :
  let w0 := setMode true (freshWorld sampleDocument) in
  let w := snd (DualRole._annotationClickListener (mkEvent 4 false false) w0) in
  let w1 := DualRole.setAnnotationMode (Boolean true) w in
  _lockedElement (session w1) = Some 4 ∧ classContains 4 "annotation-primary" w1 = true.
Proof.
  intros w0 w w1.
  destruct (setAnnotationMode_enable_frame (Boolean true) w eq_refl)
    as [(_ & _ & Hle & _ & _ & _ & _ & _ & Hclass) _].
  fold w1 in Hle, Hclass. rewrite Hle, Hclass. split; vm_compute; reflexivity.
Defined.

(** ** The input suppressor *)

(** C9. With annotation mode active, the change listener stops the
    propagation of a change event as the browser dispatches it, but does
    not cancel its default action: the event is not cancelable, so the
    call of [preventDefault] has no effect and the event leaves the
    listener as little cancelled as it came. *)
Theorem change_default_not_cancelled (w : World) (event : Event) :
  _annotationMode (session w) = true →
  defaultPrevented event = false →
  let ev := InputSuppressor._annotationChangeListener false event w in
  defaultPrevented ev = false ∧ propagationStopped ev = true ∧ target ev = target event.
Proof.
  intros Hmode Hdefault. unfold InputSuppressor._annotationChangeListener.
  rewrite Hmode. cbn [preventDefaultOf stopImmediatePropagation defaultPrevented
    propagationStopped target]. split; [exact Hdefault|]. split; reflexivity.
Qed.

(** A change event at the input of the sample page, with annotation mode
    on. *)
Lemma change_default_not_cancelled_witness :
  let w := setMode true (freshWorld sampleDocument) in
  _annotationMode (session w) = true
  ∧ InputSuppressor._annotationChangeListener false (mkEvent 11 false false) w
    = mkEvent 11 false true.
Proof.
  intros w. split; [reflexivity|].
  pose proof (change_default_not_cancelled w (mkEvent 11 false false) eq_refl eq_refl)
    as (Hdefault & Hstopped & Htarget).
  destruct (InputSuppressor._annotationChangeListener false (mkEvent 11 false false) w)
    as [t d s].
  cbn [defaultPrevented propagationStopped target] in Hdefault, Hstopped, Htarget.
  rewrite Hdefault, Hstopped, Htarget. reflexivity.
Defined.

(** ** The setup guard *)

Section Setup.

Lemma elem_of_removeStored (type : string) (ref : option Closure) (capture : bool)
    (w : World) (entry : Registration) :
  entry ∈ registered (removeStored type ref capture w) ↔
  entry ∈ registered w ∧
  entry ∉ match ref with
          | Some callback => [mkRegistration type callback capture]
          | None => []
          end.
Proof.
  destruct ref as [callback|]; simpl.
  - rewrite list_elem_of_filter, list_elem_of_singleton. tauto.
  - split; [intros H; split; [exact H|apply not_elem_of_nil] | tauto].
Qed.

Lemma refs_removeStored (type : string) (ref : option Closure) (capture : bool)
    (w : World) :
  refs (removeStored type ref capture w) = refs w.
Proof. destruct ref; reflexivity. Qed.

Lemma removePreviousListeners_elem (w : World) (entry : Registration) :
  entry ∈ registered (removePreviousListeners w) →
  entry ∈ registered w ∧ entry ∉ storedRegistrations w.
Proof.
  unfold removePreviousListeners. intros H.
  repeat (apply elem_of_removeStored in H as [H ?]).
  split; [exact H|]. unfold storedRegistrations.
  rewrite !refs_removeStored in *.
  rewrite !elem_of_app. tauto.
Qed.

(** In an accounted world the six removals leave no listener attached. *)
Lemma removePreviousListeners_accounted (w : World) :
  accounted w → registered (removePreviousListeners w) = [].
Proof.
  intros [_ Hstored]. apply elem_of_nil_inv. intros entry Hentry.
  apply removePreviousListeners_elem in Hentry as [Hin Hnot]. auto.
Qed.

Lemma removeStored_frame (type : string) (ref : option Closure) (capture : bool)
    (w : World) :
  fresh (removeStored type ref capture w) = fresh w
  ∧ _annotationSetupDone (removeStored type ref capture w) = _annotationSetupDone w.
Proof. destruct ref; split; reflexivity. Qed.

Lemma removePreviousListeners_frame (w : World) :
  refs (removePreviousListeners w) = refs w
  ∧ fresh (removePreviousListeners w) = fresh w
  ∧ _annotationSetupDone (removePreviousListeners w) = _annotationSetupDone w.
Proof.
  unfold removePreviousListeners. split; [|split].
  - rewrite !refs_removeStored. reflexivity.
  - rewrite !(proj1 (removeStored_frame _ _ _ _)). reflexivity.
  - rewrite !(proj2 (removeStored_frame _ _ _ _)). reflexivity.
Qed.

Lemma dualRole_attachListeners (w : World) :
  registered w = [] →
  registered (DualRole.attachListeners w)
  = [ mkRegistration "mouseover" (fresh w) false;
      mkRegistration "mouseout" (1 + fresh w) false;
      mkRegistration "click" (2 + fresh w) true;
      mkRegistration "keydown" (3 + fresh w) true;
      mkRegistration "mousedown" (4 + fresh w) true;
      mkRegistration "change" (5 + fresh w) true ]
  ∧ storedRegistrations (DualRole.attachListeners w)
    = registered (DualRole.attachListeners w)
  ∧ _annotationSetupDone (DualRole.attachListeners w) = _annotationSetupDone w.
Proof.
  destruct w as [s r d doc reg out fr]. intros Hreg. cbn [registered] in Hreg.
  subst reg. vm_compute. repeat split.
Qed.

Lemma singleLock_attachListeners (w : World) :
  registered w = [] →
  registered (SingleLock.attachListeners w)
  = [ mkRegistration "mouseover" (fresh w) false;
      mkRegistration "mouseout" (4 + fresh w) false;
      mkRegistration "click" (5 + fresh w) true;
      mkRegistration "keydown" (6 + fresh w) true;
      mkRegistration "mousedown" (7 + fresh w) true;
      mkRegistration "change" (8 + fresh w) true ]
  ∧ storedRegistrations (SingleLock.attachListeners w)
    = registered (SingleLock.attachListeners w)
  ∧ _annotationSetupDone (SingleLock.attachListeners w) = _annotationSetupDone w.
Proof.
  destruct w as [s r d doc reg out fr]. intros Hreg. cbn [registered] in Hreg.
  subst reg. vm_compute. repeat split.
Qed.

(** Six entries of six different types are six different entries. *)
Lemma six_types_NoDup (f1 f2 f3 f4 f5 f6 : Closure) :
  NoDup [ mkRegistration "mouseover" f1 false; mkRegistration "mouseout" f2 false;
          mkRegistration "click" f3 true; mkRegistration "keydown" f4 true;
          mkRegistration "mousedown" f5 true; mkRegistration "change" f6 true ].
Proof.
  repeat (apply NoDup_cons; split;
          [rewrite ?elem_of_cons, elem_of_nil;
           intros H; repeat (destruct H as [H|H]; [discriminate H|]); exact H |]).
  apply NoDup_nil_2.
Qed.

(** An entry that a stored reference accounts for is determined by its
    type. *)
Lemma storedRegistrations_elem (w : World) (a : Registration) :
  a ∈ storedRegistrations w →
  a = mkRegistration (r_type a) (r_callback a) (r_capture a) ∧
  ((r_type a = "mouseover" ∧ r_capture a = false
    ∧ _annotationMouseoverListener (refs w) = Some (r_callback a))
   ∨ (r_type a = "mouseout" ∧ r_capture a = false
      ∧ _annotationMouseoutListener (refs w) = Some (r_callback a))
   ∨ (r_type a = "click" ∧ r_capture a = true
      ∧ _annotationClickListener (refs w) = Some (r_callback a))
   ∨ (r_type a = "keydown" ∧ r_capture a = true
      ∧ _annotationKeydownListener (refs w) = Some (r_callback a))
   ∨ (r_type a = "mousedown" ∧ r_capture a = true
      ∧ _annotationSelectListener (refs w) = Some (r_callback a))
   ∨ (r_type a = "change" ∧ r_capture a = true
      ∧ _annotationChangeListener (refs w) = Some (r_callback a))).
Proof.
  intros Ha. split; [destruct a; reflexivity|].
  unfold storedRegistrations in Ha. rewrite !elem_of_app in Ha.
  destruct Ha as [Ha|[Ha|[Ha|[Ha|[Ha|Ha]]]]];
    [ destruct (_annotationMouseoverListener (refs w))
    | destruct (_annotationMouseoutListener (refs w))
    | destruct (_annotationClickListener (refs w))
    | destruct (_annotationKeydownListener (refs w))
    | destruct (_annotationSelectListener (refs w))
    | destruct (_annotationChangeListener (refs w)) ];
    try (inversion Ha; fail);
    apply list_elem_of_singleton in Ha; subst a; simpl; tauto.
Qed.

(** The stored references account for at most one entry of each type. *)
Lemma storedRegistrations_type (w : World) (a b : Registration) :
  a ∈ storedRegistrations w → b ∈ storedRegistrations w → r_type a = r_type b → a = b.
Proof.
  intros Ha Hb Htype.
  apply storedRegistrations_elem in Ha as [-> Ha].
  apply storedRegistrations_elem in Hb as [-> Hb].
  simpl in *.
  destruct Ha as [Ha|[Ha|[Ha|[Ha|[Ha|Ha]]]]]; destruct Ha as (Hta & Hca & Hfa);
    destruct Hb as [Hb|[Hb|[Hb|[Hb|[Hb|Hb]]]]]; destruct Hb as (Htb & Hcb & Hfb);
    rewrite Hta, Htb in Htype; try discriminate Htype;
    rewrite Hta, Htb, Hca, Hcb; f_equal; congruence.
Qed.

Lemma accounted_count (w : World) (type : string) :
  accounted w → listenerCount type w ≤ 1.
Proof.
  intros [Hnodup Hstored]. unfold listenerCount.
  pose proof (NoDup_filter (fun entry => r_type entry = type) _ Hnodup) as Hfiltered.
  destruct (filter (fun entry => r_type entry = type) (registered w))
    as [|a [|b rest]] eqn:Hfilter; simpl; try lia.
  assert (Ha : a ∈ filter (fun entry => r_type entry = type) (registered w))
    by (rewrite Hfilter; apply elem_of_cons; auto).
  assert (Hb : b ∈ filter (fun entry => r_type entry = type) (registered w))
    by (rewrite Hfilter; apply elem_of_cons; right; apply elem_of_cons; auto).
  apply list_elem_of_filter in Ha as [Hta Ha]. apply list_elem_of_filter in Hb as [Htb Hb].
  assert (a = b) as -> by (apply (storedRegistrations_type w); auto; congruence).
  apply NoDup_cons in Hfiltered as [Hnot _]. exfalso. apply Hnot.
  apply elem_of_cons. auto.
Qed.

End Setup.

Lemma accounted_flag (v : World) (b : bool) (e : Effect) :
  accounted v → accounted (emit e (setSetupDone b v)).
Proof. intros Hv. exact Hv. Qed.

Lemma registered_flag (v : World) (b : bool) (e : Effect) :
  registered (emit e (setSetupDone b v)) = registered v
  ∧ storedRegistrations (emit e (setSetupDone b v)) = storedRegistrations v
  ∧ _annotationSetupDone (emit e (setSetupDone b v)) = b.
Proof. repeat split. Qed.

Lemma accounted_prepared (init : Session → Session) (v : World) :
  accounted v → accounted (withSession init (installStyle v)).
Proof. intros Hv. exact Hv. Qed.

Section SetupRuns.

Variable w : World.
Hypothesis w_accounted : accounted w.

Lemma dualRole_setupBody_listeners :
  registered (DualRole.setupBody w)
  = [ mkRegistration "mouseover" (1 + fresh w) false;
      mkRegistration "mouseout" (2 + fresh w) false;
      mkRegistration "click" (3 + fresh w) true;
      mkRegistration "keydown" (4 + fresh w) true;
      mkRegistration "mousedown" (5 + fresh w) true;
      mkRegistration "change" (6 + fresh w) true ]
  ∧ storedRegistrations (DualRole.setupBody w) = registered (DualRole.setupBody w)
  ∧ _annotationSetupDone (DualRole.setupBody w) = _annotationSetupDone w.
Proof.
  unfold DualRole.setupBody.
  set (v := removePreviousListeners (DualRole.initialiseState (installStyle w))).
  assert (Hempty : registered v = [])
    by (apply removePreviousListeners_accounted; exact w_accounted).
  destruct (removePreviousListeners_frame (DualRole.initialiseState (installStyle w)))
    as (_ & Hfresh & Hdone). fold v in Hfresh, Hdone.
  destruct (dualRole_attachListeners v Hempty) as (Hlist & Hstored & Hflag).
  rewrite Hlist, Hstored, Hflag, Hlist, Hfresh, Hdone. repeat split.
Qed.

Lemma singleLock_setupBody_listeners :
  registered (SingleLock.setupBody w)
  = [ mkRegistration "mouseover" (1 + fresh w) false;
      mkRegistration "mouseout" (5 + fresh w) false;
      mkRegistration "click" (6 + fresh w) true;
      mkRegistration "keydown" (7 + fresh w) true;
      mkRegistration "mousedown" (8 + fresh w) true;
      mkRegistration "change" (9 + fresh w) true ]
  ∧ storedRegistrations (SingleLock.setupBody w) = registered (SingleLock.setupBody w)
  ∧ _annotationSetupDone (SingleLock.setupBody w) = _annotationSetupDone w.
Proof.
  unfold SingleLock.setupBody.
  set (v := removePreviousListeners (SingleLock.initialiseState (installStyle w))).
  assert (Hempty : registered v = [])
    by (apply removePreviousListeners_accounted; exact w_accounted).
  destruct (removePreviousListeners_frame (SingleLock.initialiseState (installStyle w)))
    as (_ & Hfresh & Hdone). fold v in Hfresh, Hdone.
  destruct (singleLock_attachListeners v Hempty) as (Hlist & Hstored & Hflag).
  rewrite Hlist, Hstored, Hflag, Hlist, Hfresh, Hdone. repeat split.
Qed.

Lemma dualRole_setup_accounted : accounted (DualRole.setup w).
Proof.
  unfold DualRole.setup. destruct (_annotationSetupDone w); [exact w_accounted|].
  destruct dualRole_setupBody_listeners as (Hlist & Hstored & _).
  apply accounted_flag. split.
  - rewrite Hlist. apply six_types_NoDup.
  - intros entry. rewrite Hstored. auto.
Qed.

Lemma singleLock_setup_accounted : accounted (SingleLock.setup w).
Proof.
  unfold SingleLock.setup. destruct (_annotationSetupDone w); [exact w_accounted|].
  destruct singleLock_setupBody_listeners as (Hlist & Hstored & _).
  apply accounted_flag. split.
  - rewrite Hlist. apply six_types_NoDup.
  - intros entry. rewrite Hstored. auto.
Qed.

End SetupRuns.

(** Injections on a page that lost the setup-done flag each time: the
    guard does not return early, and the listeners stay accounted. *)
Lemma reinjections_accounted (setup : World → World) (n : nat) (w : World) :
  (∀ v, accounted v → accounted (setup v)) →
  accounted w →
  accounted (Nat.iter n (fun v => setup (setSetupDone false v)) w).
Proof.
  intros Hsetup Hw. induction n as [|n IH]; [exact Hw|].
  simpl. apply Hsetup. exact IH.
Qed.

Lemma accounted_freshWorld (doc : Document) : accounted (freshWorld doc).
Proof. split; [apply NoDup_nil_2 | intros entry H; inversion H]. Qed.

(** C8. With the setup-done flag set, the injected function returns at
    once and changes nothing. With the flag unset, in a world whose
    attached listeners are the stored ones, it ends with exactly six
    attached listeners, one of each type, which are the newly stored
    ones; the flag is still unset when the last listener is attached and
    is set by the last assignment. The six removals detach every listener
    that a stored reference accounts for. Whatever the flag, the attached
    listeners remain the stored ones, so that there is at most one of each
    type after any number of injections, even on a page that lost its
    flag in between. This holds for both scripts. *)
Theorem setup_idempotent (w : World) :
  (_annotationSetupDone w = true → DualRole.setup w = w ∧ SingleLock.setup w = w)
  ∧ (_annotationSetupDone w = false → accounted w →
     (let w1 := DualRole.setup w in
      w1 = emit (ConsoleLog "Annotation script setup complete." None)
             (setSetupDone true (DualRole.setupBody w))
      ∧ _annotationSetupDone (DualRole.setupBody w) = false
      ∧ _annotationSetupDone w1 = true
      ∧ registered w1 = registered (DualRole.setupBody w)
      ∧ registered w1
        = [ mkRegistration "mouseover" (1 + fresh w) false;
            mkRegistration "mouseout" (2 + fresh w) false;
            mkRegistration "click" (3 + fresh w) true;
            mkRegistration "keydown" (4 + fresh w) true;
            mkRegistration "mousedown" (5 + fresh w) true;
            mkRegistration "change" (6 + fresh w) true ]
      ∧ storedRegistrations w1 = registered w1)
     ∧ (let w1 := SingleLock.setup w in
        w1 = emit (ConsoleLog "Annotation script setup complete." None)
               (setSetupDone true (SingleLock.setupBody w))
        ∧ _annotationSetupDone (SingleLock.setupBody w) = false
        ∧ _annotationSetupDone w1 = true
        ∧ registered w1 = registered (SingleLock.setupBody w)
        ∧ registered w1
          = [ mkRegistration "mouseover" (1 + fresh w) false;
              mkRegistration "mouseout" (5 + fresh w) false;
              mkRegistration "click" (6 + fresh w) true;
              mkRegistration "keydown" (7 + fresh w) true;
              mkRegistration "mousedown" (8 + fresh w) true;
              mkRegistration "change" (9 + fresh w) true ]
        ∧ storedRegistrations w1 = registered w1))
  ∧ (∀ entry, entry ∈ registered (removePreviousListeners w) →
              entry ∈ registered w ∧ entry ∉ storedRegistrations w)
  ∧ (accounted w →
     accounted (DualRole.setup w) ∧ accounted (SingleLock.setup w)
     ∧ (∀ type, listenerCount type w ≤ 1)
     ∧ (∀ n type,
          listenerCount type (Nat.iter n DualRole.setup w) ≤ 1
          ∧ listenerCount type (Nat.iter n SingleLock.setup w) ≤ 1
          ∧ listenerCount type
              (Nat.iter n (fun v => DualRole.setup (setSetupDone false v)) w) ≤ 1
          ∧ listenerCount type
              (Nat.iter n (fun v => SingleLock.setup (setSetupDone false v)) w) ≤ 1)).
Proof.
  split; [|split; [|split; [apply removePreviousListeners_elem|]]].
  - intros Hdone. unfold DualRole.setup, SingleLock.setup. rewrite Hdone. split; reflexivity.
  - intros Hdone Hw. split; intros w1; unfold w1, DualRole.setup, SingleLock.setup;
      rewrite Hdone.
    + destruct (dualRole_setupBody_listeners w Hw) as (Hlist & Hstored & Hflag).
      destruct (registered_flag (DualRole.setupBody w) true
                  (ConsoleLog "Annotation script setup complete." None))
        as (Hregistered & Hrefs & Hset).
      rewrite Hregistered, Hrefs, Hset, Hflag.
      split; [reflexivity|]. split; [exact Hdone|]. split; [reflexivity|].
      split; [reflexivity|]. split; [exact Hlist | exact Hstored].
    + destruct (singleLock_setupBody_listeners w Hw) as (Hlist & Hstored & Hflag).
      destruct (registered_flag (SingleLock.setupBody w) true
                  (ConsoleLog "Annotation script setup complete." None))
        as (Hregistered & Hrefs & Hset).
      rewrite Hregistered, Hrefs, Hset, Hflag.
      split; [reflexivity|]. split; [exact Hdone|]. split; [reflexivity|].
      split; [reflexivity|]. split; [exact Hlist | exact Hstored].
  - intros Hw.
    split; [apply dualRole_setup_accounted; exact Hw|].
    split; [apply singleLock_setup_accounted; exact Hw|].
    split; [intros type; apply accounted_count; exact Hw|].
    intros n type. repeat split; apply accounted_count.
    + induction n as [|n IH]; [exact Hw|]. simpl. apply dualRole_setup_accounted, IH.
    + induction n as [|n IH]; [exact Hw|]. simpl. apply singleLock_setup_accounted, IH.
    + apply reinjections_accounted; [apply dualRole_setup_accounted | exact Hw].
    + apply reinjections_accounted; [apply singleLock_setup_accounted | exact Hw].
Qed.

(** Three injections of the dual-role script on the sample page, the
    flag lost each time: one click listener. *)
Lemma setup_idempotent_witness :
  let w := freshWorld sampleDocument in
  accounted w ∧
  listenerCount "click"
    (Nat.iter 3 (fun v => DualRole.setup (setSetupDone false v)) w) ≤ 1 ∧
  DualRole.setup (DualRole.setup w) = DualRole.setup w ∧
  length (registered (DualRole.setup w)) = 6.
Proof.
  intros w.
  assert (Hw : accounted w) by apply accounted_freshWorld.
  destruct (setup_idempotent w) as (_ & Hfirst & _ & Hruns).
  destruct (Hfirst eq_refl Hw) as [(_ & _ & Hdone & _ & Hlist & _) _].
  destruct (Hruns Hw) as (_ & _ & _ & Hcount).
  split; [exact Hw|]. split; [exact (proj1 (proj2 (proj2 (Hcount 3 "click"))))|].
  split.
  - exact (proj1 (proj1 (setup_idempotent (DualRole.setup w)) Hdone)).
  - rewrite Hlist. reflexivity.
Defined.

(** * Further properties of the scripts *)

(** ** Attribute capture *)

Section AttributeCapture.

Implicit Types (k v : string) (o : list (string * string)).

Lemma arrayIndex_numeral k n :
  arrayIndex k = Some n → k = NilZero.string_of_uint (N.to_uint n).
Proof.
  unfold arrayIndex. destruct (NilZero.uint_of_string k) as [d|]; [|discriminate].
  cbv zeta. destruct (String.eqb _ k) eqn:Heq; [|discriminate].
  destruct (N.ltb _ _); [|discriminate]. cbn [andb]. intros [= <-].
  apply String.eqb_eq in Heq. symmetry. exact Heq.
Qed.

Lemma arrayIndex_inj k k' n : arrayIndex k = Some n → arrayIndex k' = Some n → k = k'.
Proof.
  intros H H'. rewrite (arrayIndex_numeral _ _ H), (arrayIndex_numeral _ _ H'). reflexivity.
Qed.

Lemma keyBefore_name k k' : arrayIndex k' = None → keyBefore k k'.
Proof. unfold keyBefore. intros ->. destruct (arrayIndex k); exact I. Qed.

Lemma filter_all {A} (P : A → Prop) `{∀ x, Decision (P x)} (l : list A) :
  Forall P l → filter P l = l.
Proof.
  induction 1 as [|x l Hx Hl IH]; [reflexivity|].
  rewrite filter_cons_True by exact Hx. rewrite IH. reflexivity.
Qed.

Lemma hasOwn_elem k o : hasOwn k o = true ↔ k ∈ map fst o.
Proof.
  unfold hasOwn. induction o as [|[k' v'] o IH]; simpl.
  - rewrite elem_of_nil. split; [discriminate|contradiction].
  - rewrite orb_true_iff, IH, elem_of_cons, String.eqb_eq.
    split; (intros [H|H]; [left; congruence|right; exact H]).
Qed.

Lemma updateOwn_keys k v o : map fst (updateOwn k v o) = map fst o.
Proof.
  induction o as [|[k' v'] o IH]; [reflexivity|]. simpl.
  destruct (String.eqb k' k) eqn:Heq; simpl.
  - apply String.eqb_eq in Heq. congruence.
  - rewrite IH. reflexivity.
Qed.

Lemma updateOwn_elem k v o k' v' :
  (k', v') ∈ updateOwn k v o → (k' = k ∧ v' = v) ∨ (k', v') ∈ o.
Proof.
  induction o as [|[k0 v0] o IH]; simpl; [auto|].
  destruct (String.eqb k0 k).
  - rewrite !elem_of_cons. intros [H|H]; [injection H as -> ->; auto | auto].
  - rewrite !elem_of_cons. intros [H|H]; [auto|]. destruct (IH H); auto.
Qed.

Lemma insertIndex_Permutation n k v o : insertIndex n k v o ≡ₚ (k, v) :: o.
Proof.
  induction o as [|[k' v'] o IH]; simpl; [reflexivity|].
  destruct (arrayIndex k') as [m|]; [|reflexivity].
  destruct (m <? n)%N; [|reflexivity].
  etransitivity; [apply Permutation_cons; [reflexivity|exact IH]|apply Permutation_swap].
Qed.

Lemma insertIndex_filter n k v o :
  arrayIndex k = Some n →
  filter (λ a, arrayIndex a.1 = None) (insertIndex n k v o)
  = filter (λ a, arrayIndex a.1 = None) o.
Proof.
  intros Hk. induction o as [|[k' v'] o IH]; simpl.
  - rewrite filter_cons_False; [reflexivity|]. simpl. congruence.
  - destruct (arrayIndex k') as [m|] eqn:Hk'.
    + destruct (m <? n)%N.
      * rewrite !(filter_cons_False _ (k', v')) by (simpl; congruence). exact IH.
      * rewrite (filter_cons_False _ (k, v)) by (simpl; congruence). reflexivity.
    + rewrite (filter_cons_False _ (k, v)) by (simpl; congruence). reflexivity.
Qed.

Lemma insertIndex_sorted n k v o :
  arrayIndex k = Some n → k ∉ map fst o →
  StronglySorted keyBefore (map fst o) →
  StronglySorted keyBefore (map fst (insertIndex n k v o)).
Proof.
  intros Hk. induction o as [|[k' v'] o IH]; intros Hfresh Hsorted; simpl.
  - apply SSorted_cons; [apply SSorted_nil|apply Forall_nil_2].
  - simpl in Hfresh, Hsorted. apply not_elem_of_cons in Hfresh as [Hne Hfresh].
    pose proof Hsorted as Hboth. apply StronglySorted_inv in Hboth as [Hrest Hall].
    destruct (arrayIndex k') as [m|] eqn:Hk'.
    + destruct (m <? n)%N eqn:Hlt.
      * apply N.ltb_lt in Hlt. simpl. apply SSorted_cons; [apply IH; assumption|].
        eapply Permutation_Forall;
          [symmetry; apply Permutation_map, insertIndex_Permutation|].
        simpl. apply Forall_cons. split; [|exact Hall].
        unfold keyBefore. rewrite Hk', Hk. exact Hlt.
      * apply N.ltb_ge in Hlt.
        assert (Hnm : (n < m)%N).
        { destruct (N.eq_dec n m) as [Heq|Hneq]; [|lia]. subst m.
          exfalso. apply Hne. exact (arrayIndex_inj _ _ _ Hk Hk'). }
        simpl. apply SSorted_cons; [exact Hsorted|].
        apply Forall_cons. split; [unfold keyBefore; rewrite Hk, Hk'; exact Hnm|].
        eapply Forall_impl; [exact Hall|]. intros x. unfold keyBefore.
        rewrite Hk, Hk'. destruct (arrayIndex x); [lia|auto].
    + simpl. apply SSorted_cons; [exact Hsorted|].
      apply Forall_cons. split; [unfold keyBefore; rewrite Hk, Hk'; exact I|].
      eapply Forall_impl; [exact Hall|]. intros x. unfold keyBefore.
      rewrite Hk, Hk'. destruct (arrayIndex x); [contradiction|auto].
Qed.

Lemma append_sorted k (ks : list string) :
  arrayIndex k = None → StronglySorted keyBefore ks → StronglySorted keyBefore (ks ++ [k]).
Proof.
  intros Hk. induction ks as [|k' ks IH]; intros Hsorted; simpl.
  - apply SSorted_cons; [apply SSorted_nil|apply Forall_nil_2].
  - apply StronglySorted_inv in Hsorted as [Hrest Hall].
    apply SSorted_cons; [apply IH; exact Hrest|].
    apply Forall_app. split; [exact Hall|].
    apply Forall_cons. split; [apply keyBefore_name; exact Hk|apply Forall_nil_2].
Qed.

(** The four cases of an assignment. *)
Lemma objectSet_cases k v o :
  (k = "__proto__" ∧ objectSet k v o = o)
  ∨ (k ≠ "__proto__" ∧ k ∈ map fst o ∧ objectSet k v o = updateOwn k v o)
  ∨ (k ≠ "__proto__" ∧ (k ∉ map fst o)
     ∧ ∃ n, arrayIndex k = Some n ∧ objectSet k v o = insertIndex n k v o)
  ∨ (k ≠ "__proto__" ∧ (k ∉ map fst o) ∧ arrayIndex k = None
     ∧ objectSet k v o = o ++ [(k, v)]).
Proof.
  unfold objectSet. destruct (String.eqb k "__proto__") eqn:Hproto.
  - apply String.eqb_eq in Hproto. left. auto.
  - apply String.eqb_neq in Hproto. right. destruct (hasOwn k o) eqn:Hown.
    + apply hasOwn_elem in Hown. left. auto.
    + assert (Hfresh : k ∉ map fst o)
        by (intros Hin; apply hasOwn_elem in Hin; congruence).
      right. destruct (arrayIndex k) as [n|]; [left|right]; eauto.
Qed.

Lemma objectSet_keys k v o (x : string) :
  x ∈ map fst (objectSet k v o) ↔ x ∈ map fst o ∨ (x = k ∧ k ≠ "__proto__").
Proof.
  destruct (objectSet_cases k v o)
    as [(Hk & ->)|[(Hk & Hin & ->)|[(Hk & Hfresh & n & Hn & ->)|(Hk & Hfresh & Hn & ->)]]].
  - split; [auto|]. intros [H|[_ H]]; [exact H|contradiction].
  - rewrite updateOwn_keys. split; [auto|]. intros [H|[-> _]]; [exact H|exact Hin].
  - rewrite (elem_of_Permutation_proper x _ _
               (Permutation_map fst (insertIndex_Permutation n k v o))).
    simpl. rewrite elem_of_cons. split; intros [H|H]; auto. destruct H; auto.
  - rewrite map_app, elem_of_app. simpl. rewrite list_elem_of_singleton.
    split; intros [H|H]; auto. destruct H; auto.
Qed.

Lemma objectSet_NoDup k v o :
  NoDup (map fst o) → NoDup (map fst (objectSet k v o)).
Proof.
  intros Ho. destruct (objectSet_cases k v o)
    as [(Hk & ->)|[(Hk & Hin & ->)|[(Hk & Hfresh & n & Hn & ->)|(Hk & Hfresh & Hn & ->)]]].
  - exact Ho.
  - rewrite updateOwn_keys. exact Ho.
  - apply (NoDup_Permutation_proper _ _
             (Permutation_map fst (insertIndex_Permutation n k v o))).
    simpl. apply NoDup_cons. auto.
  - rewrite map_app. simpl. apply NoDup_app. split; [exact Ho|].
    split; [|apply NoDup_singleton].
    intros x Hx Hx'. apply list_elem_of_singleton in Hx'. congruence.
Qed.

Lemma objectSet_elem k v o k' v' :
  (k', v') ∈ objectSet k v o → (k' = k ∧ v' = v) ∨ (k', v') ∈ o.
Proof.
  destruct (objectSet_cases k v o)
    as [(Hk & ->)|[(Hk & Hin & ->)|[(Hk & Hfresh & n & Hn & ->)|(Hk & Hfresh & Hn & ->)]]].
  - auto.
  - apply updateOwn_elem.
  - rewrite (elem_of_Permutation_proper _ _ _ (insertIndex_Permutation n k v o)).
    rewrite elem_of_cons. intros [H|H]; [injection H as -> ->; auto|auto].
  - rewrite elem_of_app, list_elem_of_singleton.
    intros [H|H]; [auto|injection H as -> ->; auto].
Qed.

Lemma objectSet_sorted k v o :
  StronglySorted keyBefore (map fst o) →
  StronglySorted keyBefore (map fst (objectSet k v o)).
Proof.
  intros Ho. destruct (objectSet_cases k v o)
    as [(Hk & ->)|[(Hk & Hin & ->)|[(Hk & Hfresh & n & Hn & ->)|(Hk & Hfresh & Hn & ->)]]].
  - exact Ho.
  - rewrite updateOwn_keys. exact Ho.
  - apply insertIndex_sorted; assumption.
  - rewrite map_app. apply append_sorted; assumption.
Qed.

(** A new name: the property is added, and the names that are not array
    indices stay in the order of their creation. *)
Lemma objectSet_fresh k v o :
  k ≠ "__proto__" → k ∉ map fst o →
  objectSet k v o ≡ₚ o ++ [(k, v)]
  ∧ filter (λ a, arrayIndex a.1 = None) (objectSet k v o)
    = filter (λ a, arrayIndex a.1 = None) (o ++ [(k, v)]).
Proof.
  intros Hproto Hnew. destruct (objectSet_cases k v o)
    as [(Hk & _)|[(Hk & Hin & _)|[(Hk & Hfresh & n & Hn & ->)|(Hk & Hfresh & Hn & ->)]]];
    [contradiction|contradiction| |split; reflexivity].
  split.
  - rewrite insertIndex_Permutation. apply Permutation_cons_append.
  - rewrite insertIndex_filter by exact Hn. rewrite filter_app.
    rewrite (filter_cons_False _ (k, v)) by (simpl; congruence).
    rewrite filter_nil, app_nil_r. reflexivity.
Qed.

Lemma fold_objectSet (attrs o : list (string * string)) :
  let result := fold_left (fun result attr => objectSet (fst attr) (snd attr) result) attrs o in
  (NoDup (map fst o) → NoDup (map fst result))
  ∧ (∀ k, k ∈ map fst result ↔ k ∈ map fst o ∨ (k ∈ map fst attrs ∧ k ≠ "__proto__"))
  ∧ (∀ k v, (k, v) ∈ result → (k, v) ∈ o ∨ (k, v) ∈ attrs)
  ∧ (StronglySorted keyBefore (map fst o) → StronglySorted keyBefore (map fst result))
  ∧ (NoDup (map fst (o ++ attrs)) →
     result ≡ₚ o ++ filter (λ a, a.1 ≠ "__proto__") attrs
     ∧ filter (λ a, arrayIndex a.1 = None) result
       = filter (λ a, arrayIndex a.1 = None) o
         ++ filter (λ a, arrayIndex a.1 = None ∧ a.1 ≠ "__proto__") attrs).
Proof.
  revert o. induction attrs as [|[k v] attrs IH]; intros o; simpl.
  - split; [auto|]. split; [|split; [auto|split; [auto|]]].
    + intros k. rewrite elem_of_nil. tauto.
    + intros _. rewrite filter_nil, !app_nil_r. split; reflexivity.
  - destruct (IH (objectSet k v o)) as (Hnodup & Hkeys & Helem & Hsorted & Hsame).
    split; [|split; [|split; [|split]]].
    + intros Ho. apply Hnodup, objectSet_NoDup, Ho.
    + intros x. rewrite Hkeys, objectSet_keys, elem_of_cons.
      split; [intros [[H|[-> H]]|[H H']]; auto|].
      intros [H|[[->|H] H']]; auto.
    + intros k' v' H. apply Helem in H as [H|H]; [|right; apply elem_of_cons; auto].
      apply objectSet_elem in H as [[-> ->]|H]; [right; apply elem_of_cons|]; auto.
    + intros Ho. apply Hsorted, objectSet_sorted, Ho.
    + intros Hall. rewrite map_app in Hall. simpl in Hall.
      pose proof Hall as Hparts. apply NoDup_app in Hparts as (Ho & Hdisjoint & Hattrs).
      apply NoDup_cons in Hattrs as [Hk Hattrs].
      assert (Hfresh : k ∉ map fst o)
        by (intros Hin; apply (Hdisjoint k Hin); apply elem_of_cons; auto).
      assert (Hrest : NoDup (map fst o ++ map fst attrs)).
      { apply NoDup_app. split; [exact Ho|]. split; [|exact Hattrs].
        intros x Hx Hx'. apply (Hdisjoint x Hx). apply elem_of_cons. auto. }
      destruct (decide (k = "__proto__")) as [Hproto|Hproto].
      * subst k. change (objectSet "__proto__" v o) with o in Hsame.
        rewrite (filter_cons_False _ ("__proto__", v)) by (simpl; tauto).
        rewrite (filter_cons_False _ ("__proto__", v)) by (simpl; tauto).
        apply Hsame. rewrite map_app. exact Hrest.
      * destruct (objectSet_fresh k v o Hproto Hfresh) as [Hperm Hfilter].
        destruct Hsame as [Hsame Hnames].
        { rewrite map_app.
          apply (NoDup_Permutation_proper ((map fst o ++ [k]) ++ map fst attrs)).
          - apply Permutation_app; [|reflexivity].
            rewrite (Permutation_map fst Hperm), map_app. reflexivity.
          - rewrite <- app_assoc. exact Hall. }
        rewrite (filter_cons_True _ (k, v)) by exact Hproto. split.
        -- rewrite Hsame, Hperm, <- app_assoc. reflexivity.
        -- rewrite Hnames, Hfilter, filter_app, <- app_assoc. f_equal.
           destruct (arrayIndex k) as [n|] eqn:Hn.
           ++ rewrite !(filter_cons_False _ (k, v))
                by (simpl; rewrite Hn; intros H; try destruct H; congruence).
              reflexivity.
           ++ rewrite !(filter_cons_True _ (k, v)) by (simpl; rewrite Hn; auto).
              reflexivity.
Qed.

(** With pairwise different attribute names, the record holds every
    attribute but one named [__proto__]. *)
Lemma getAttributes_elem (e : Element) :
  NoDup (map fst (attributes e)) →
  ∀ k v, (k, v) ∈ getAttributes e ↔ (k, v) ∈ attributes e ∧ k ≠ "__proto__".
Proof.
  intros Hnames k v.
  destruct (fold_objectSet (attributes e) []) as (_ & _ & _ & _ & Hsame).
  destruct (Hsame Hnames) as [Hperm _]. unfold getAttributes.
  rewrite (elem_of_Permutation_proper _ _ _ Hperm). simpl.
  rewrite list_elem_of_filter. simpl. tauto.
Qed.

End AttributeCapture.

(** X1. [getAttributes] yields the own properties of the object it
    fills, in the order in which JS lists them: no name twice; the names
    are the attribute names of the element other than [__proto__], for
    which the assignment creates no property; each name has a value that
    the element has for it; the names that are array indices come first,
    in ascending order, and the other names after them. When the
    attribute names of the element are pairwise different, as they are in
    a DOM, the result is a rearrangement of the attributes other than
    [__proto__], in which the names that are not array indices keep the
    order of the attribute list; it is the attribute list verbatim if no
    name is an array index or [__proto__]. *)
Theorem getAttributes_own_properties (e : Element) :
  NoDup (map fst (getAttributes e))
  ∧ (∀ k, k ∈ map fst (getAttributes e) ↔ k ∈ map fst (attributes e) ∧ k ≠ "__proto__")
  ∧ (∀ k v, (k, v) ∈ getAttributes e → (k, v) ∈ attributes e)
  ∧ StronglySorted keyBefore (map fst (getAttributes e))
  ∧ (NoDup (map fst (attributes e)) →
     getAttributes e ≡ₚ filter (λ a, a.1 ≠ "__proto__") (attributes e)
     ∧ filter (λ a, arrayIndex a.1 = None) (getAttributes e)
       = filter (λ a, arrayIndex a.1 = None ∧ a.1 ≠ "__proto__") (attributes e)
     ∧ (Forall (λ a, arrayIndex a.1 = None ∧ a.1 ≠ "__proto__") (attributes e) →
        getAttributes e = attributes e)).
Proof.
  destruct (fold_objectSet (attributes e) [])
    as (Hnodup & Hkeys & Helem & Hsorted & Hsame).
  split; [apply Hnodup, NoDup_nil_2|]. split; [|split; [|split]].
  - intros k. unfold getAttributes. rewrite Hkeys. simpl. rewrite elem_of_nil. tauto.
  - intros k v H. apply Helem in H as [H|H]; [inversion H|exact H].
  - apply Hsorted, SSorted_nil.
  - intros Hnames. destruct (Hsame Hnames) as [Hperm Hfilter].
    split; [exact Hperm|]. split; [exact Hfilter|].
    intros Hall.
    pose proof (Hfilter : filter (λ a, arrayIndex a.1 = None) (getAttributes e)
                          = filter (λ a, arrayIndex a.1 = None ∧ a.1 ≠ "__proto__")
                              (attributes e)) as Hkept.
    rewrite (filter_all _ _ Hall) in Hkept. rewrite <- Hkept. symmetry.
    apply filter_all, Forall_forall. intros [k v] Hin. simpl.
    apply Helem in Hin as [Hin|Hin]; [inversion Hin|].
    exact (proj1 (proj1 (Forall_forall _ _) Hall _ Hin)).
Qed.

(** An element with two array-index names, given out of order, and an
    attribute named [__proto__]. *)
Lemma getAttributes_own_properties_witness :
  let e := {| tagName := "A"; id := "go"; classList := ["btn"];
              attributes := [("id", "go"); ("2", "b"); ("__proto__", "p");
                             ("class", "btn"); ("1", "a"); ("href", "/next")];
              textContent := "Next"; value := Undefined; isContentEditable := false |} in
  NoDup (map fst (attributes e))
  ∧ getAttributes e ≡ₚ filter (λ a, a.1 ≠ "__proto__") (attributes e)
  ∧ getAttributes e
    = [("1", "a"); ("2", "b"); ("id", "go"); ("class", "btn"); ("href", "/next")].
Proof.
  intros e.
  assert (Hnames : NoDup (map fst (attributes e))).
  { simpl.
    repeat (apply NoDup_cons; split;
            [rewrite ?elem_of_cons, elem_of_nil;
             intros H; repeat (destruct H as [H|H]; [discriminate H|]); exact H |]).
    apply NoDup_nil_2. }
  split; [exact Hnames|].
  split; [|vm_compute; reflexivity].
  exact (proj1 (proj2 (proj2 (proj2 (proj2 (getAttributes_own_properties e)))) Hnames)).
Defined.

(** ** Positions among siblings *)

Section Positions.

Variable doc : Document.

Lemma siblingIndex_found (r : NodeRef) (tag : string) (siblings : list NodeRef) (ix : nat) :
  siblingIndex doc r tag siblings 0 = Some ix →
  ∃ pre post,
    siblings = pre ++ r :: post ∧ (r ∉ pre) ∧ ix = sameTagCount doc tag pre.
Proof.
  intros Hix. destruct (decide (r ∈ siblings)) as [Hin|Hnot].
  - apply list_elem_of_split_l in Hin as (pre & post & -> & Hpre).
    rewrite siblingIndex_split in Hix by assumption. injection Hix as <-. eauto.
  - rewrite siblingIndex_absent in Hix by assumption. discriminate.
Qed.

Lemma sameTagElement_self (r : NodeRef) (e : Element) :
  elementOf doc r = Some e → sameTagElement doc (tagName e) r = true.
Proof.
  unfold elementOf, sameTagElement, nodeType, nodeTagName.
  destruct (nodes doc !! r) as [n|]; [|discriminate].
  destruct (data n) as [e'|]; [|discriminate]. intros [= ->].
  rewrite bool_decide_eq_true_2 by reflexivity. reflexivity.
Qed.

Lemma siblingIndex_lookup (r : NodeRef) (e : Element) (siblings : list NodeRef) (ix : nat) :
  elementOf doc r = Some e →
  siblingIndex doc r (tagName e) siblings 0 = Some ix →
  filter (fun s => sameTagElement doc (tagName e) s = true) siblings !! ix = Some r.
Proof.
  intros He Hix. apply siblingIndex_found in Hix as (pre & post & -> & _ & ->).
  rewrite filter_app, filter_cons, decide_True by (apply sameTagElement_self; exact He).
  unfold sameTagCount. apply list_lookup_middle. reflexivity.
Qed.

End Positions.

(** X2. The index that the loop of [getXPath] computes for an element
    selects that element back: among the child nodes of the parent that
    are element nodes with the tag name of the element, the element is
    the one at that index (counted from 0), so that the position written
    in the locator lies between 1 and the number of such children. *)
Theorem siblingIndex_selects (doc : Document) (r : NodeRef) (e : Element)
    (siblings : list NodeRef) (ix : nat) :
  elementOf doc r = Some e →
  siblingIndex doc r (tagName e) siblings 0 = Some ix →
  let sameTag := filter (fun s => sameTagElement doc (tagName e) s = true) siblings in
  sameTag !! ix = Some r ∧ 1 ≤ ix + 1 ≤ length sameTag ∧ length sameTag ≤ length siblings.
Proof.
  intros He Hix sameTag.
  pose proof (siblingIndex_lookup doc r e siblings ix He Hix) as Hlookup.
  split; [exact Hlookup|]. apply lookup_lt_Some in Hlookup.
  split; [fold sameTag in Hlookup; lia|]. apply length_filter.
Qed.

(** The third [li] of the sample page is the third of the [li] children
    of the list. *)
Lemma siblingIndex_selects_witness :
  siblingIndex sampleDocument 9 "LI" [7; 8; 9] 0 = Some 2 ∧
  filter (fun s => sameTagElement sampleDocument "LI" s = true) [7; 8; 9] !! 2 = Some 9.
Proof.
  assert (Hix : siblingIndex sampleDocument 9 "LI" [7; 8; 9] 0 = Some 2)
    by (vm_compute; reflexivity).
  split; [exact Hix|].
  exact (proj1 (siblingIndex_selects sampleDocument 9 (sampleElement "LI" EmptyString)
                  [7; 8; 9] 2 eq_refl Hix)).
Defined.

(** ** Locators of siblings *)

Section LocatorText.

Lemma append_cancel_r (a b c : string) : a +:+ c = b +:+ c → a = b.
Proof.
  intros H.
  assert (Hlist : String.list_ascii_of_string a ++ String.list_ascii_of_string c
                  = String.list_ascii_of_string b ++ String.list_ascii_of_string c).
  { rewrite <- (String.string_of_list_ascii_of_string (a +:+ c)) in H.
    apply (f_equal String.list_ascii_of_string) in H.
    rewrite !String.list_ascii_of_string_of_list_ascii in H.
    assert (Happ : ∀ x y, String.list_ascii_of_string (x +:+ y)
                          = String.list_ascii_of_string x ++ String.list_ascii_of_string y).
    { intros x y. induction x as [|ch x IH]; [reflexivity|]. simpl. rewrite IH. reflexivity. }
    rewrite !Happ in H. exact H. }
  apply app_inv_tail in Hlist.
  rewrite <- (String.string_of_list_ascii_of_string a).
  rewrite <- (String.string_of_list_ascii_of_string b). rewrite Hlist. reflexivity.
Qed.

Lemma append_cancel_l (a b c : string) : a +:+ b = a +:+ c → b = c.
Proof. induction a as [|ch a IH]; simpl; [auto|]. intros [= H]. auto. Qed.

Lemma to_uint_not_Nil (n : nat) : Nat.to_uint n ≠ Decimal.Nil.
Proof.
  intros H. pose proof (DecimalNat.Unsigned.of_to n) as Hn. rewrite H in Hn.
  simpl in Hn. subst n. discriminate H.
Qed.

Lemma numberToString_inj (n m : nat) : numberToString n = numberToString m → n = m.
Proof.
  unfold numberToString. intros H.
  apply (f_equal NilZero.uint_of_string) in H.
  rewrite !NilZero.usu in H by apply to_uint_not_Nil.
  injection H as H. apply DecimalNat.Unsigned.to_uint_inj. exact H.
Qed.

Lemma step_inj (tag : string) (i j : nat) : step tag i = step tag j → i = j.
Proof.
  unfold step. intros H.
  apply append_cancel_l, append_cancel_l, append_cancel_l, append_cancel_r in H.
  apply numberToString_inj. exact H.
Qed.

End LocatorText.

(** X3. Two different elements without id that have the same tag name
    and the same parent never get the same locator. *)
Theorem getXPath_distinguishes_siblings (doc : Document) (r1 r2 parent : NodeRef)
    (n1 n2 : Node) (e1 e2 : Element) (s1 s2 : string) :
  nodes doc !! r1 = Some n1 → data n1 = ElementNode e1 → id e1 = EmptyString →
  nodes doc !! r2 = Some n2 → data n2 = ElementNode e2 → id e2 = EmptyString →
  r1 ≠ body doc → r2 ≠ body doc →
  parentNode n1 = Some parent → parentNode n2 = Some parent →
  tagName e1 = tagName e2 → r1 ≠ r2 →
  getXPath doc r1 = Return (Some s1) → getXPath doc r2 = Return (Some s2) →
  s1 ≠ s2.
Proof.
  intros Hn1 He1 Hid1 Hn2 He2 Hid2 Hb1 Hb2 Hp1 Hp2 Htag Hne Hx1 Hx2 Heq.
  unfold getXPath in Hx1, Hx2. simpl in Hx1, Hx2.
  rewrite Hn1, He1, Hid1 in Hx1. rewrite Hn2, He2, Hid2 in Hx2.
  simpl in Hx1, Hx2.
  rewrite bool_decide_eq_false_2, Hp1 in Hx1 by assumption.
  rewrite bool_decide_eq_false_2, Hp2 in Hx2 by assumption.
  destruct (nodes doc !! parent) as [p|]; [|discriminate].
  destruct (siblingIndex doc r1 (tagName e1) (childNodes p) 0) as [ix1|] eqn:Hix1;
    [|discriminate].
  destruct (siblingIndex doc r2 (tagName e2) (childNodes p) 0) as [ix2|] eqn:Hix2;
    [|discriminate].
  destruct (getXPathRec (size (nodes doc)) doc parent) as [path|]; [|discriminate].
  injection Hx1 as <-. injection Hx2 as <-.
  rewrite <- Htag in Heq. apply append_cancel_l, step_inj in Heq.
  assert (Hix : ix1 = ix2) by lia. subst ix2.
  assert (Hel1 : elementOf doc r1 = Some e1) by (unfold elementOf; rewrite Hn1, He1; reflexivity).
  assert (Hel2 : elementOf doc r2 = Some e2) by (unfold elementOf; rewrite Hn2, He2; reflexivity).
  pose proof (siblingIndex_lookup doc r1 e1 _ _ Hel1 Hix1) as H1.
  pose proof (siblingIndex_lookup doc r2 e2 _ _ Hel2 Hix2) as H2.
  rewrite <- Htag, H1 in H2. congruence.
Qed.

(** The first and the third [li] of the sample page. *)
Lemma getXPath_distinguishes_siblings_witness :
  ∃ s1 s2, getXPath sampleDocument 7 = Return (Some s1) ∧
           getXPath sampleDocument 9 = Return (Some s2) ∧ s1 ≠ s2.
Proof.
  exists (idLocator "list" +:+ step "LI" 1), (idLocator "list" +:+ step "LI" 3).
  assert (H1 : getXPath sampleDocument 7 = Return (Some (idLocator "list" +:+ step "LI" 1)))
    by (vm_compute; reflexivity).
  assert (H2 : getXPath sampleDocument 9 = Return (Some (idLocator "list" +:+ step "LI" 3)))
    by (vm_compute; reflexivity).
  split; [exact H1|]. split; [exact H2|].
  apply (getXPath_distinguishes_siblings sampleDocument 7 9 6
           (sampleNode "LI" EmptyString (Some 6) []) (sampleNode "LI" EmptyString (Some 6) [])
           (sampleElement "LI" EmptyString) (sampleElement "LI" EmptyString));
    try reflexivity; try discriminate; assumption.
Defined.

(** ** What the overlay leaves alone *)

Section SameButClass.

Lemma sameButClass_refl (d : Document) : sameButClass d d.
Proof.
  split; [reflexivity|]. intros x. destruct (nodes d !! x) as [n|]; [|exact I].
  repeat split. destruct (data n); repeat split.
Qed.

Lemma sameButClass_trans (d1 d2 d3 : Document) :
  sameButClass d1 d2 → sameButClass d2 d3 → sameButClass d1 d3.
Proof.
  intros [Hb12 H12] [Hb23 H23]. split; [congruence|]. intros x.
  specialize (H12 x). specialize (H23 x).
  destruct (nodes d3 !! x) as [n3|], (nodes d2 !! x) as [n2|], (nodes d1 !! x) as [n1|];
    try contradiction; try exact I.
  destruct H12 as (Hp12 & Hc12 & Hd12). destruct H23 as (Hp23 & Hc23 & Hd23).
  split; [congruence|]. split; [congruence|].
  destruct (data n3) as [e3|t3], (data n2) as [e2|t2], (data n1) as [e1|t1];
    try contradiction; [|congruence].
  destruct Hd12 as (? & ? & ? & ? & ? & ?). destruct Hd23 as (? & ? & ? & ? & ? & ?).
  repeat split; congruence.
Qed.

Lemma filter_setAttribute_class (v : string) (attrs : list (string * string)) :
  filter (fun a => fst a ≠ "class") (setAttribute "class" v attrs)
  = filter (fun a => fst a ≠ "class") attrs.
Proof.
  induction attrs as [|[k x] attrs IH]; simpl.
  - rewrite filter_cons, decide_False by (simpl; auto). reflexivity.
  - destruct (String.eqb k "class") eqn:Hk.
    + apply String.eqb_eq in Hk as ->.
      rewrite !filter_cons, !decide_False by (simpl; auto). reflexivity.
    + apply String.eqb_neq in Hk.
      rewrite !filter_cons, !decide_True by (simpl; auto). rewrite IH. reflexivity.
Qed.

Lemma sameButClass_updateTokens (g : list string → list string) (r : NodeRef)
    (d : Document) :
  sameButClass d (updateElement (fun e => updateTokens (g (classList e)) e) r d).
Proof.
  split; [reflexivity|]. intros x. rewrite lookup_updateElement.
  destruct (bool_decide (r = x)), (nodes d !! x) as [[[e|t] parent children]|];
    simpl; try exact I; repeat split.
  unfold updateTokens. simpl.
  destruct (negb _ && _); [reflexivity|apply filter_setAttribute_class].
Qed.

Lemma sameButClass_add (d0 d : Document) (r : NodeRef) (c : string) :
  sameButClass d0 d → sameButClass d0 (add r c d).
Proof.
  intros H. eapply sameButClass_trans; [exact H|].
  apply (sameButClass_updateTokens (tokensAdd c)).
Qed.

Lemma sameButClass_remove (d0 d : Document) (r : NodeRef) (c : string) :
  sameButClass d0 d → sameButClass d0 (remove r c d).
Proof.
  intros H. eapply sameButClass_trans; [exact H|].
  apply (sameButClass_updateTokens (tokensRemove c)).
Qed.

Lemma sameButClass_nodes (d d' : Document) :
  nodes d' = nodes d → body d' = body d → sameButClass d d'.
Proof.
  intros Hn Hb. split; [exact Hb|]. intros x. rewrite Hn.
  apply (proj2 (sameButClass_refl d)).
Qed.

(** *** Locators and attachment do not see the difference *)

Variables d d' : Document.
Hypothesis same : sameButClass d d'.

Lemma sameButClass_shape (x : NodeRef) :
  match nodes d' !! x, nodes d !! x with
  | Some n', Some n =>
      parentNode n' = parentNode n ∧ childNodes n' = childNodes n ∧
      nodeType n' = nodeType n ∧ nodeTagName n' = nodeTagName n ∧ nodeId n' = nodeId n
  | None, None => True
  | _, _ => False
  end.
Proof.
  pose proof (proj2 same x) as H.
  destruct (nodes d' !! x) as [n'|], (nodes d !! x) as [n|]; try contradiction; [|exact I].
  destruct H as (Hp & Hc & Hd). unfold nodeType, nodeTagName, nodeId.
  destruct (data n') as [e'|t'], (data n) as [e|t]; try contradiction.
  - destruct Hd as (-> & -> & _). repeat split; assumption.
  - subst t'. repeat split; assumption.
Qed.

Lemma sameButClass_size : size (nodes d') = size (nodes d).
Proof.
  rewrite <- !size_dom. f_equal. apply set_eq. intros x. rewrite !elem_of_dom.
  pose proof (sameButClass_shape x) as H.
  destruct (nodes d' !! x), (nodes d !! x); try contradiction; split; eauto;
    intros [? ?]; discriminate.
Qed.

Lemma sameButClass_sameTagElement (tag : string) (x : NodeRef) :
  sameTagElement d' tag x = sameTagElement d tag x.
Proof.
  unfold sameTagElement. pose proof (sameButClass_shape x) as H.
  destruct (nodes d' !! x), (nodes d !! x); try contradiction; [|reflexivity].
  destruct H as (_ & _ & -> & -> & _). reflexivity.
Qed.

Lemma sameButClass_siblingIndex (x : NodeRef) (tag : string) (siblings : list NodeRef)
    (ix : nat) :
  siblingIndex d' x tag siblings ix = siblingIndex d x tag siblings ix.
Proof.
  revert ix. induction siblings as [|s siblings IH]; intros ix; [reflexivity|].
  rewrite !siblingIndex_cons, sameButClass_sameTagElement.
  destruct (bool_decide (s = x)); [reflexivity|]. apply IH.
Qed.

Lemma sameButClass_getXPathRec (fuel : nat) (x : NodeRef) :
  getXPathRec fuel d' x = getXPathRec fuel d x.
Proof.
  revert x. induction fuel as [|fuel IH]; intros x; [reflexivity|]. cbn [getXPathRec].
  rewrite (proj1 same).
  pose proof (sameButClass_shape x) as Hx.
  destruct (nodes d' !! x) as [n'|], (nodes d !! x) as [n|];
    try contradiction; [|reflexivity].
  destruct Hx as (Hparent & _ & Htype & Htag & Hid).
  unfold nodeType, nodeTagName, nodeId in Htype, Htag, Hid.
  destruct (data n') as [e'|t'], (data n) as [e|t]; try discriminate; [|reflexivity].
  injection Htag as Htag. injection Hid as Hid. rewrite Hid, Htag, Hparent.
  destruct (negb (String.eqb (id e) EmptyString)); [reflexivity|].
  destruct (bool_decide (x = body d)); [reflexivity|].
  destruct (parentNode n) as [parent|]; [|reflexivity].
  pose proof (sameButClass_shape parent) as Hp.
  destruct (nodes d' !! parent) as [p'|], (nodes d !! parent) as [p|];
    try contradiction; [|reflexivity].
  destruct Hp as (_ & -> & _). rewrite sameButClass_siblingIndex, IH. reflexivity.
Qed.

Lemma sameButClass_getXPath (x : NodeRef) : getXPath d' x = getXPath d x.
Proof. unfold getXPath. rewrite sameButClass_size. apply sameButClass_getXPathRec. Qed.

Lemma sameButClass_ancestry (k : nat) (x : NodeRef) : ancestry k d' x = ancestry k d x.
Proof.
  revert x. induction k as [|k IH]; intros x; cbn [ancestry];
    pose proof (sameButClass_shape x) as Hx;
    destruct (nodes d' !! x) as [n'|], (nodes d !! x) as [n|];
    try contradiction; try reflexivity; destruct Hx as (Hparent & _ & Htype & _).
  - rewrite Htype, Hparent. reflexivity.
  - rewrite Hparent. destruct (parentNode n) as [parent|]; [|reflexivity].
    pose proof (sameButClass_shape parent) as Hp.
    destruct (nodes d' !! parent) as [p'|], (nodes d !! parent) as [p|];
      try contradiction; [|reflexivity].
    destruct Hp as (_ & -> & _). rewrite IH. reflexivity.
Qed.

Lemma sameButClass_attached (x : NodeRef) : attached d' x ↔ attached d x.
Proof.
  unfold attached. split; intros [k Hk]; exists k.
  - rewrite <- sameButClass_ancestry. exact Hk.
  - rewrite sameButClass_ancestry. exact Hk.
Qed.

Lemma sameButClass_elementOf (x : NodeRef) :
  match elementOf d' x, elementOf d x with
  | Some e', Some e => tagName e' = tagName e ∧ id e' = id e
  | None, None => True
  | _, _ => False
  end.
Proof.
  unfold elementOf. pose proof (proj2 same x) as H.
  destruct (nodes d' !! x) as [n'|], (nodes d !! x) as [n|]; try contradiction; [|exact I].
  destruct H as (_ & _ & Hd).
  destruct (data n') as [e'|t'], (data n) as [e|t]; try contradiction; [|exact I].
  destruct Hd as (? & ? & _). auto.
Qed.

Lemma sameButClass_is_element (x : NodeRef) :
  is_Some (elementOf d' x) ↔ is_Some (elementOf d x).
Proof.
  pose proof (sameButClass_elementOf x) as H.
  destruct (elementOf d' x), (elementOf d x); try contradiction; split; eauto;
    intros [? ?]; discriminate.
Qed.

Lemma sameButClass_describes (record : CapturedElementData) (x : NodeRef) :
  describes d record x → describes d' record x.
Proof.
  intros (e & He & Htag & Hid & Hxpath). pose proof (sameButClass_elementOf x) as H.
  rewrite He in H. destruct (elementOf d' x) as [e'|] eqn:He'; [|contradiction].
  destruct H as [Ht Hi]. exists e'. rewrite sameButClass_getXPath.
  split; [exact He'|]. split; [congruence|]. split; [congruence|exact Hxpath].
Qed.

End SameButClass.

Ltac world_simpl :=
  cbn [document session refs registered output withDocument withSession withRefs
       withRegistered emit setSetupDone classAdd classRemove setMode setSelectedElement
       setElementLocked setCurrentHighlightedElement setLockedElement
       setSecondaryActualElement setSecondaryElements fst snd negb andb orb].

Ltac session_simpl :=
  cbn [document session output _annotationSetupDone withDocument withSession emit
       classAdd classRemove setMode setSelectedElement setElementLocked
       setCurrentHighlightedElement setLockedElement setSecondaryActualElement
       setSecondaryElements _annotationMode _selectedElement _elementLocked
       _currentHighlightedElement _lockedElement _secondaryActualElement
       _secondaryElements].

Ltac same_but_class :=
  world_simpl;
  repeat first [ assumption
               | apply sameButClass_refl
               | apply sameButClass_add
               | apply sameButClass_remove ].

Section OperationsKeepTheTree.

Lemma forEachRemove_sameButClass (d0 : Document) (c : string) (l : list NodeRef) (w : World) :
  sameButClass d0 (document w) → sameButClass d0 (document (forEachRemove c l w)).
Proof.
  revert w. induction l as [|x l IH]; intros w H; [exact H|].
  apply (IH (classRemove x c w)). same_but_class.
Qed.

Lemma setBodyCursor_sameButClass (d0 : Document) (c : string) (w : World) :
  sameButClass d0 (document w) → sameButClass d0 (document (setBodyCursor c w)).
Proof.
  intros H. eapply sameButClass_trans; [exact H|]. apply sameButClass_nodes; reflexivity.
Qed.

Lemma removePreviousListeners_document (w : World) :
  document (removePreviousListeners w) = document w.
Proof.
  unfold removePreviousListeners.
  repeat match goal with
         | |- context [removeStored ?t ?r ?c ?v] =>
             replace (document (removeStored t r c v)) with (document v)
               by (destruct r; reflexivity)
         end.
  reflexivity.
Qed.

Lemma dualRole_attachListeners_document (w : World) :
  document (DualRole.attachListeners w) = document w.
Proof. destruct w as [s r d doc reg out fr]. reflexivity. Qed.

Lemma singleLock_attachListeners_frame (w : World) :
  document (SingleLock.attachListeners w) = document w
  ∧ session (SingleLock.attachListeners w) = session w.
Proof. destruct w as [s r d doc reg out fr]. split; reflexivity. Qed.

Lemma document_flag (v : World) (b : bool) (e : Effect) :
  document (emit e (setSetupDone b v)) = document v.
Proof. reflexivity. Qed.

Lemma document_prepared (v : World) :
  nodes (document (DualRole.initialiseState (installStyle v))) = nodes (document v)
  ∧ body (document (DualRole.initialiseState (installStyle v))) = body (document v)
  ∧ nodes (document (SingleLock.initialiseState (installStyle v))) = nodes (document v)
  ∧ body (document (SingleLock.initialiseState (installStyle v))) = body (document v).
Proof. destruct v as [s r d doc reg out fr]. repeat split. Qed.

Lemma setup_sameButClass (w : World) :
  sameButClass (document w) (document (DualRole.setup w))
  ∧ sameButClass (document w) (document (SingleLock.setup w)).
Proof.
  unfold DualRole.setup, SingleLock.setup.
  destruct (_annotationSetupDone w); [split; apply sameButClass_refl|].
  rewrite !document_flag. unfold DualRole.setupBody, SingleLock.setupBody.
  rewrite dualRole_attachListeners_document, (proj1 (singleLock_attachListeners_frame _)).
  rewrite !removePreviousListeners_document.
  destruct (document_prepared w) as (Hn & Hb & Hn' & Hb').
  split; apply sameButClass_nodes; assumption.
Qed.

Lemma dualRole_unlock_sameButClass (w : World) :
  sameButClass (document w) (document (snd (DualRole.unlockElement w))).
Proof.
  unfold DualRole.unlockElement. world_simpl.
  set (w0 := match _lockedElement (session w) with
             | Some locked =>
                 setLockedElement None (classRemove locked "annotation-primary" w)
             | None => w
             end).
  assert (H0 : sameButClass (document w) (document w0))
    by (unfold w0; destruct (_lockedElement (session w)); same_but_class).
  clearbody w0. destruct (0 <? _); [|exact H0].
  apply forEachRemove_sameButClass. exact H0.
Qed.

Lemma singleLock_unlock_sameButClass (w : World) :
  sameButClass (document w) (document (snd (SingleLock.unlockElement w))).
Proof.
  unfold SingleLock.unlockElement. destruct (_lockedElement (session w)); same_but_class.
Qed.

Lemma perform_sameButClass (op : Operation) (w : World) :
  sameButClass (document w) (document (perform op w)).
Proof.
  destruct op as [|enabled| |event|event|event]; simpl.
  - apply setup_sameButClass.
  - unfold DualRole.setAnnotationMode. world_simpl.
    destruct (toBoolean enabled).
    + apply setBodyCursor_sameButClass, sameButClass_refl.
    + eapply sameButClass_trans; [|apply dualRole_unlock_sameButClass].
      apply setBodyCursor_sameButClass, sameButClass_refl.
  - apply dualRole_unlock_sameButClass.
  - unfold DualRole._annotationMouseoverListener.
    destruct (negb _); [apply sameButClass_refl|].
    destruct (_ || _); [apply sameButClass_refl|].
    destruct (_currentHighlightedElement (session w)) as [current|];
      [destruct (bool_decide _)|]; same_but_class.
  - unfold DualRole._annotationMouseoutListener. destruct (bool_decide _); same_but_class.
  - unfold DualRole._annotationClickListener.
    destruct (negb (_annotationMode _)); [apply sameButClass_refl|].
    destruct (negb (_elementLocked _)).
    + destruct (capture _ _); same_but_class.
    + destruct (_ && _); [|apply sameButClass_refl].
      destruct (capture _ _); same_but_class.
Qed.

Lemma performSingle_sameButClass (op : Operation) (w : World) :
  sameButClass (document w) (document (performSingle op w)).
Proof.
  destruct op as [|enabled| |event|event|event]; simpl.
  - apply setup_sameButClass.
  - unfold SingleLock.setAnnotationMode. world_simpl.
    destruct (toBoolean enabled).
    + apply setBodyCursor_sameButClass, sameButClass_refl.
    + eapply sameButClass_trans; [|apply singleLock_unlock_sameButClass].
      apply setBodyCursor_sameButClass, sameButClass_refl.
  - apply singleLock_unlock_sameButClass.
  - unfold SingleLock._annotationMouseoverListener.
    destruct (_ || _); [apply sameButClass_refl|].
    destruct (classContains _ _ w); [apply sameButClass_refl|].
    destruct (_currentHighlightedElement (session w)) as [current|];
      [destruct (bool_decide _)|]; destruct (negb _); same_but_class.
  - unfold SingleLock._annotationMouseoutListener.
    destruct (_ || _); [apply sameButClass_refl|]. destruct (_ && _); same_but_class.
  - unfold SingleLock._annotationClickListener.
    destruct (negb (_annotationMode _)); [apply sameButClass_refl|].
    destruct (_elementLocked _); [apply sameButClass_refl|].
    destruct (_currentHighlightedElement (session w)) as [current|];
      destruct (capture _ _); same_but_class.
Qed.

Lemma performAll_sameButClass (ops : list Operation) (w : World) :
  sameButClass (document w) (document (performAll ops w))
  ∧ sameButClass (document w) (document (performAllSingle ops w)).
Proof.
  revert w. induction ops as [|op ops IH]; intros w; [split; apply sameButClass_refl|].
  split.
  - eapply sameButClass_trans; [apply (perform_sameButClass op)|apply IH].
  - eapply sameButClass_trans; [apply (performSingle_sameButClass op)|apply IH].
Qed.

End OperationsKeepTheTree.

(** ** What each handler does to the class tokens *)

Section ClassEffects.

Lemma contains_add_iff (doc : Document) (x : NodeRef) (c' : string) (r : NodeRef) (c : string) :
  contains r c (add x c' doc) = true
  ↔ contains r c doc = true ∨ (r = x ∧ c = c' ∧ is_Some (elementOf doc x)).
Proof.
  rewrite contains_add, orb_true_iff, !andb_true_iff, !bool_decide_eq_true.
  split; (intros [H|(H1 & H2 & H3)]; [left; exact H|right; auto]).
  destruct H1 as [H1 Hc]. auto.
Qed.

Lemma contains_remove_iff (doc : Document) (x : NodeRef) (c' : string) (r : NodeRef) (c : string) :
  contains r c (remove x c' doc) = true
  ↔ contains r c doc = true ∧ ¬ (r = x ∧ c = c').
Proof.
  rewrite contains_remove, andb_true_iff, negb_true_iff, andb_false_iff,
    !bool_decide_eq_false.
  split; intros [H Hn]; (split; [exact H|]).
  - intros [-> ->]. destruct Hn as [Hn|Hn]; apply Hn; reflexivity.
  - destruct (decide (x = r)) as [->|Hx]; [|left; exact Hx].
    right. intros ->. apply Hn. split; reflexivity.
Qed.

(** The highlight is taken from an element and a role class is put on it. *)
Lemma contains_mark (doc : Document) (x : NodeRef) (role : string) (r : NodeRef) (c : string) :
  contains r c (add x role (remove x "annotation-highlight" doc)) = true
  ↔ (contains r c doc = true ∧ ¬ (r = x ∧ c = "annotation-highlight"))
    ∨ (r = x ∧ c = role ∧ is_Some (elementOf doc x)).
Proof. rewrite contains_add_iff, contains_remove_iff, is_element_remove. reflexivity. Qed.

Lemma classContains_false (r : NodeRef) (c : string) (w : World) :
  classContains r c w = false ↔ ¬ classContains r c w = true.
Proof. destruct (classContains r c w); split; congruence. Qed.

Lemma classContains_setBodyCursor (cursor : string) (w : World) (r : NodeRef) (c : string) :
  classContains r c (setBodyCursor cursor w) = classContains r c w.
Proof. reflexivity. Qed.

End ClassEffects.

Section DualRoleTransitions.

Variable event : Event.
Variable w : World.

Lemma dualRole_mouseover_cases :
  let w1 := DualRole._annotationMouseoverListener event w in
  w1 = w
  ∨ (_annotationMode (session w) = true
     ∧ classContains (target event) "annotation-primary" w = false
     ∧ classContains (target event) "annotation-secondary" w = false
     ∧ session w1 = session (setCurrentHighlightedElement (Some (target event)) w)
     ∧ _annotationSetupDone w1 = _annotationSetupDone w
     ∧ output w1 = output w
     ∧ ∀ r c, classContains r c w1 = true
              ↔ (classContains r c w = true
                 ∧ ¬ (c = "annotation-highlight"
                      ∧ _currentHighlightedElement (session w) = Some r
                      ∧ r ≠ target event))
                ∨ (r = target event ∧ c = "annotation-highlight"
                   ∧ is_Some (elementOf (document w) r))).
Proof.
  unfold DualRole._annotationMouseoverListener.
  destruct (_annotationMode (session w)); [|left; reflexivity]. cbn [negb].
  destruct (classContains (target event) "annotation-primary" w) eqn:Hp;
    [left; reflexivity|].
  destruct (classContains (target event) "annotation-secondary" w) eqn:Hs;
    [left; reflexivity|].
  cbn [orb]. right. split; [reflexivity|]. split; [reflexivity|]. split; [reflexivity|].
  destruct (_currentHighlightedElement (session w)) as [current|] eqn:Hcurrent.
  - destruct (bool_decide (current ≠ target event)) eqn:Hne.
    + apply bool_decide_eq_true_1 in Hne.
      split; [reflexivity|]. split; [reflexivity|]. split; [reflexivity|].
      intros r c. unfold classContains. world_simpl.
      rewrite contains_add_iff, contains_remove_iff, is_element_remove.
      split.
      * intros [[H Hn]|(-> & -> & H)]; [left|right; auto].
        split; [exact H|]. intros (-> & Hc & _). apply Hn. split; congruence.
      * intros [[H Hn]|(-> & -> & H)]; [left|right; auto].
        split; [exact H|]. intros (-> & ->). apply Hn. split; [reflexivity|].
        split; [reflexivity|]. exact Hne.
    + apply bool_decide_eq_false_1 in Hne.
      assert (Hsame : current = target event)
        by (destruct (decide (current = target event)); [assumption|contradiction]).
      split; [reflexivity|]. split; [reflexivity|]. split; [reflexivity|].
      intros r c. unfold classContains. world_simpl. rewrite contains_add_iff.
      split.
      * intros [H|(-> & -> & H)]; [left|right; auto].
        split; [exact H|]. intros (_ & Hc & Hr). congruence.
      * intros [[H _]|(-> & -> & H)]; [left; exact H|right; auto].
  - split; [reflexivity|]. split; [reflexivity|]. split; [reflexivity|].
    intros r c. unfold classContains. world_simpl. rewrite contains_add_iff.
    split.
    + intros [H|(-> & -> & H)]; [left|right; auto].
      split; [exact H|]. intros (_ & Hc & _). discriminate.
    + intros [[H _]|(-> & -> & H)]; [left; exact H|right; auto].
Qed.

Lemma dualRole_mouseout_cases :
  let w1 := DualRole._annotationMouseoutListener event w in
  w1 = w
  ∨ (_currentHighlightedElement (session w) = Some (target event)
     ∧ session w1 = session (setCurrentHighlightedElement None w)
     ∧ _annotationSetupDone w1 = _annotationSetupDone w
     ∧ output w1 = output w
     ∧ ∀ r c, classContains r c w1 = true
              ↔ classContains r c w = true
                ∧ ¬ (r = target event ∧ c = "annotation-highlight")).
Proof.
  unfold DualRole._annotationMouseoutListener.
  destruct (bool_decide _) eqn:Hcurrent; [|left; reflexivity].
  apply bool_decide_eq_true_1 in Hcurrent. right.
  split; [congruence|]. split; [reflexivity|]. split; [reflexivity|]. split; [reflexivity|].
  intros r c. unfold classContains. world_simpl. apply contains_remove_iff.
Qed.

Lemma dualRole_click_off :
  _annotationMode (session w) = false →
  DualRole._annotationClickListener event w = (Return tt, event, w).
Proof. intros Hmode. unfold DualRole._annotationClickListener. rewrite Hmode. reflexivity. Qed.

Lemma dualRole_click_ignored :
  _annotationMode (session w) = true → _elementLocked (session w) = true →
  classContains (target event) "annotation-secondary" w = true
  ∨ _lockedElement (session w) = Some (target event) →
  DualRole._annotationClickListener event w
  = (Return tt, stopImmediatePropagation (preventDefault event), w).
Proof.
  intros Hmode Hlocked Hcase. unfold DualRole._annotationClickListener.
  rewrite Hmode, Hlocked. cbn [negb target stopImmediatePropagation preventDefault].
  destruct Hcase as [Hs|Hp].
  - rewrite Hs. reflexivity.
  - rewrite (bool_decide_eq_false_2 (Some (target event) ≠ _lockedElement (session w)))
      by (intros Hne; apply Hne; congruence).
    rewrite andb_false_r. reflexivity.
Qed.

Lemma dualRole_click_primary :
  _annotationMode (session w) = true → _elementLocked (session w) = false →
  let '(completion, ev, w1) := DualRole._annotationClickListener event w in
  ev = stopImmediatePropagation (preventDefault event)
  ∧ _annotationSetupDone w1 = _annotationSetupDone w
  ∧ (∀ r c, classContains r c w1 = true
            ↔ (classContains r c w = true
               ∧ ¬ (r = target event ∧ c = "annotation-highlight"))
              ∨ (r = target event ∧ c = "annotation-primary"
                 ∧ is_Some (elementOf (document w) (target event))))
  ∧ ((∃ err, completion = Throw err ∧ capture (document w1) (target event) = Throw err
             ∧ session w1 = session (setElementLocked true w)
             ∧ output w1 = output w)
     ∨ (∃ d, completion = Return tt ∧ capture (document w1) (target event) = Return d
             ∧ is_Some (elementOf (document w) (target event))
             ∧ session w1
               = session (setLockedElement (Some (target event))
                            (setSelectedElement (Some d) (setElementLocked true w)))
             ∧ output w1
               = output w
                 ++ [ConsoleLog "Selected primary element (golden):" (Some (LogJSON d));
                     Fetch "http://127.0.0.1:8080/api/notify-primary-selected"])).
Proof.
  intros Hmode Hlocked. unfold DualRole._annotationClickListener.
  rewrite Hmode, Hlocked. cbn [negb target stopImmediatePropagation preventDefault].
  world_simpl.
  destruct (capture _ (target event)) as [d|err] eqn:Hcapture.
  - split; [reflexivity|]. split; [reflexivity|].
    split; [intros r c; unfold classContains; world_simpl; apply contains_mark|].
    right. exists d. split; [reflexivity|]. split; [exact Hcapture|].
    split; [apply capture_is_element in Hcapture;
            rewrite is_element_add, is_element_remove in Hcapture; exact Hcapture|].
    split; [reflexivity|]. cbn [output emit]. rewrite <- app_assoc. reflexivity.
  - split; [reflexivity|]. split; [reflexivity|].
    split; [intros r c; unfold classContains; world_simpl; apply contains_mark|].
    left. exists err. split; [reflexivity|]. split; [exact Hcapture|].
    split; reflexivity.
Qed.

Lemma dualRole_click_second :
  _annotationMode (session w) = true → _elementLocked (session w) = true →
  classContains (target event) "annotation-secondary" w = false →
  _lockedElement (session w) ≠ Some (target event) →
  let '(completion, ev, w1) := DualRole._annotationClickListener event w in
  ev = stopImmediatePropagation (preventDefault event)
  ∧ _annotationSetupDone w1 = _annotationSetupDone w
  ∧ (∀ r c, classContains r c w1 = true
            ↔ (classContains r c w = true
               ∧ ¬ (r = target event ∧ c = "annotation-highlight"))
              ∨ (r = target event ∧ c = "annotation-secondary"
                 ∧ is_Some (elementOf (document w) (target event))))
  ∧ ((∃ err, completion = Throw err ∧ capture (document w1) (target event) = Throw err
             ∧ session w1 = session w
             ∧ output w1 = output w)
     ∨ (∃ d, completion = Return tt ∧ capture (document w1) (target event) = Return d
             ∧ is_Some (elementOf (document w) (target event))
             ∧ session w1
               = session (setSecondaryActualElement
                            (_secondaryActualElement (session w) ++ [target event])
                            (setSecondaryElements (_secondaryElements (session w) ++ [d]) w))
             ∧ output w1
               = output w
                 ++ [ConsoleLog "Selected secondary element (green):" (Some (LogJSON d));
                     Fetch "http://127.0.0.1:8080/api/notify-secondary-selected"])).
Proof.
  intros Hmode Hlocked Hs Hp. unfold DualRole._annotationClickListener.
  rewrite Hmode, Hlocked. cbn [negb target stopImmediatePropagation preventDefault].
  rewrite Hs. rewrite (bool_decide_eq_true_2 (Some (target event) ≠ _lockedElement (session w)))
    by congruence.
  cbn [negb andb]. world_simpl.
  destruct (capture _ (target event)) as [d|err] eqn:Hcapture.
  - split; [reflexivity|]. split; [reflexivity|].
    split; [intros r c; unfold classContains; world_simpl; apply contains_mark|].
    right. exists d. split; [reflexivity|]. split; [exact Hcapture|].
    split; [apply capture_is_element in Hcapture;
            rewrite is_element_add, is_element_remove in Hcapture; exact Hcapture|].
    split; [reflexivity|]. cbn [output emit]. rewrite <- app_assoc. reflexivity.
  - split; [reflexivity|]. split; [reflexivity|].
    split; [intros r c; unfold classContains; world_simpl; apply contains_mark|].
    left. exists err. split; [reflexivity|]. split; [exact Hcapture|].
    split; reflexivity.
Qed.

End DualRoleTransitions.

Lemma forEachRemove_world (c : string) (l : list NodeRef) (w : World) :
  _annotationSetupDone (forEachRemove c l w) = _annotationSetupDone w
  ∧ output (forEachRemove c l w) = output w.
Proof.
  revert w. induction l as [|x l IH]; intros w; [split; reflexivity|].
  destruct (IH (classRemove x c w)) as [Hflag Houtput]. split; assumption.
Qed.

(** The state in which [setAnnotationMode] goes on after it has set the
    flag, written its console line and set the cursor. *)
Lemma mode_set (b : bool) (cursor : string) (e : Effect) (w : World) :
  let v := setBodyCursor cursor (emit e (setMode b w)) in
  _annotationSetupDone v = _annotationSetupDone w
  ∧ _annotationMode (session v) = b
  ∧ _lockedElement (session v) = _lockedElement (session w)
  ∧ _elementLocked (session v) = _elementLocked (session w)
  ∧ _secondaryActualElement (session v) = _secondaryActualElement (session w)
  ∧ _secondaryElements (session v) = _secondaryElements (session w)
  ∧ _selectedElement (session v) = _selectedElement (session w)
  ∧ _currentHighlightedElement (session v) = _currentHighlightedElement (session w)
  ∧ (∀ r c, classContains r c v = classContains r c w)
  ∧ bodyCursor (document v) = cursor
  ∧ annotationStyles (document v) = annotationStyles (document w)
  ∧ sameButClass (document w) (document v).
Proof.
  intros v. do 11 (split; [reflexivity|]). apply sameButClass_nodes; reflexivity.
Qed.

Ltac name_mode_set w v :=
  match goal with
  | |- context [setBodyCursor ?c (emit ?e (setMode ?b w))] =>
      pose proof (mode_set b c e w)
        as (Hv_done & Hv_mode & Hv_locked & Hv_flag & Hv_live & Hv_records & Hv_selected
            & Hv_current & Hv_classes & Hv_cursor & Hv_styles & Hv_same);
      set (v := setBodyCursor c (emit e (setMode b w))) in *; clearbody v
  end.

Section DualRoleCalls.

Variable w : World.

Lemma dualRole_unlock_contains (r : NodeRef) (c : string) :
  classContains r c (snd (DualRole.unlockElement w)) = true
  ↔ classContains r c w = true
    ∧ ¬ (c = "annotation-primary" ∧ _lockedElement (session w) = Some r)
    ∧ ¬ (c = "annotation-secondary" ∧ r ∈ _secondaryActualElement (session w)).
Proof.
  unfold DualRole.unlockElement. cbn [snd].
  change (classContains r c (emit ?e ?v)) with (classContains r c v).
  set (w0 := match _lockedElement (session w) with
             | Some locked => setLockedElement None (classRemove locked "annotation-primary" w)
             | None => w
             end).
  assert (Hsecondary : _secondaryActualElement (session w0)
                       = _secondaryActualElement (session w))
    by (unfold w0; destruct (_lockedElement (session w)); reflexivity).
  assert (Hprimary : classContains r c w0 = true
                     ↔ classContains r c w = true
                       ∧ ¬ (c = "annotation-primary" ∧ _lockedElement (session w) = Some r)).
  { unfold w0. destruct (_lockedElement (session w)) as [locked|].
    - unfold classContains. world_simpl. rewrite contains_remove_iff.
      split; intros [H Hn]; (split; [exact H|]).
      + intros [-> Heq]. apply Hn. split; congruence.
      + intros [-> ->]. apply Hn. split; reflexivity.
    - split; [intros H; split; [exact H|]; intros [_ Hn]; discriminate|tauto]. }
  clearbody w0.
  change (_secondaryActualElement (session (setSelectedElement ?d (setElementLocked ?b w0))))
    with (_secondaryActualElement (session w0)).
  rewrite Hsecondary.
  destruct (_secondaryActualElement (session w)) as [|x l] eqn:Hlist.
  - cbn [length Nat.ltb Nat.leb]. change (classContains r c w0 = true ↔ ?P) with
      (classContains r c w0 = true ↔ P). rewrite Hprimary.
    split; [intros [H Hn]; split; [exact H|]; split; [exact Hn|]|tauto].
    intros [_ Hin]. inversion Hin.
  - cbn [length Nat.ltb Nat.leb].
    change (classContains r c (setSecondaryActualElement ?a (setSecondaryElements ?b ?v)))
      with (classContains r c v).
    destruct (forEachRemove_frame (x :: l) (setSelectedElement None (setElementLocked false w0)))
      as (_ & _ & Hclasses).
    rewrite Hclasses. change (classContains r c (setSelectedElement ?d (setElementLocked ?b w0)))
      with (classContains r c w0).
    rewrite andb_true_iff, negb_true_iff, andb_false_iff, !bool_decide_eq_false, Hprimary.
    split.
    + intros [[H Hn] Hs]. split; [exact H|]. split; [exact Hn|].
      intros [Hc Hin]. destruct Hs as [Hs|Hs]; contradiction.
    + intros (H & Hn & Hs). split; [split; assumption|].
      destruct (decide (c = "annotation-secondary")) as [Hc|Hc]; [|left; exact Hc].
      right. intros Hin. apply Hs. split; assumption.
Qed.

Lemma dualRole_unlock_frame :
  _annotationSetupDone (snd (DualRole.unlockElement w)) = _annotationSetupDone w
  ∧ output (snd (DualRole.unlockElement w))
    = output w ++ [ConsoleLog "All elements unlocked" None].
Proof.
  unfold DualRole.unlockElement. cbn [snd].
  set (w0 := match _lockedElement (session w) with
             | Some locked => setLockedElement None (classRemove locked "annotation-primary" w)
             | None => w
             end).
  assert (H0 : _annotationSetupDone w0 = _annotationSetupDone w ∧ output w0 = output w)
    by (unfold w0; destruct (_lockedElement (session w)); split; reflexivity).
  clearbody w0. destruct H0 as [Hflag Houtput].
  destruct (0 <? _).
  - cbn [_annotationSetupDone output emit setSecondaryActualElement setSecondaryElements
         withSession].
    destruct (forEachRemove_world "annotation-secondary"
                (_secondaryActualElement
                   (session (setSelectedElement None (setElementLocked false w0))))
                (setSelectedElement None (setElementLocked false w0))) as [-> ->].
    split; [exact Hflag|]. cbn [output setSelectedElement setElementLocked withSession].
    rewrite Houtput. reflexivity.
  - split; [exact Hflag|].
    cbn [output emit setSelectedElement setElementLocked withSession].
    rewrite Houtput. reflexivity.
Qed.

Lemma dualRole_setAnnotationMode_on (enabled : Value) :
  toBoolean enabled = true →
  DualRole.setAnnotationMode enabled w
  = setBodyCursor "crosshair"
      (emit (ConsoleLog "Annotation mode set to:" (Some (LogBoolean true))) (setMode true w)).
Proof. intros H. unfold DualRole.setAnnotationMode. rewrite H. reflexivity. Qed.

Lemma dualRole_setAnnotationMode_off (enabled : Value) :
  toBoolean enabled = false →
  DualRole.setAnnotationMode enabled w
  = setSecondaryElements []
      (snd (DualRole.unlockElement
              (setBodyCursor EmptyString
                 (emit (ConsoleLog "Annotation mode set to:" (Some (LogBoolean false)))
                    (setMode false w))))).
Proof. intros H. unfold DualRole.setAnnotationMode. rewrite H. reflexivity. Qed.

Lemma contains_nodes (d d' : Document) (r : NodeRef) (c : string) :
  nodes d' = nodes d → contains r c d' = contains r c d.
Proof. intros H. unfold contains, elementOf. rewrite H. reflexivity. Qed.

Lemma dualRole_setup_first :
  _annotationSetupDone w = false →
  session (DualRole.setup w) = session (freshWorld (document w))
  ∧ _annotationSetupDone (DualRole.setup w) = true
  ∧ ∀ r c, classContains r c (DualRole.setup w) = classContains r c w.
Proof.
  intros Hflag. unfold DualRole.setup. rewrite Hflag. split; [|split].
  - rewrite session_flag. unfold DualRole.setupBody.
    rewrite dualRole_attachListeners_session, removePreviousListeners_session.
    reflexivity.
  - reflexivity.
  - intros r c. unfold classContains. rewrite document_flag. unfold DualRole.setupBody.
    rewrite dualRole_attachListeners_document, removePreviousListeners_document.
    apply contains_nodes. apply document_prepared.
Qed.

End DualRoleCalls.

(** ** The handlers of the single-lock script *)

Section SingleLockTransitions.

Variable event : Event.
Variable w : World.

Lemma singleLock_mouseover_cases :
  let w1 := SingleLock._annotationMouseoverListener event w in
  w1 = w
  ∨ (_annotationMode (session w) = true
     ∧ _elementLocked (session w) = false
     ∧ classContains (target event) "annotation-locked" w = false
     ∧ session w1 = session (setCurrentHighlightedElement (Some (target event)) w)
     ∧ _annotationSetupDone w1 = _annotationSetupDone w
     ∧ output w1 = output w
     ∧ ∀ r c, classContains r c w1 = true
              ↔ (classContains r c w = true
                 ∧ ¬ (c = "annotation-highlight"
                      ∧ _currentHighlightedElement (session w) = Some r
                      ∧ r ≠ target event))
                ∨ (r = target event ∧ c = "annotation-highlight"
                   ∧ is_Some (elementOf (document w) r))).
Proof.
  unfold SingleLock._annotationMouseoverListener.
  destruct (_annotationMode (session w)); [|left; reflexivity]. cbn [negb orb].
  destruct (_elementLocked (session w)); [left; reflexivity|].
  destruct (classContains (target event) "annotation-locked" w) eqn:Hl;
    [left; reflexivity|].
  right. split; [reflexivity|]. split; [reflexivity|]. split; [reflexivity|].
  destruct (_currentHighlightedElement (session w)) as [current|] eqn:Hcurrent.
  - destruct (bool_decide (current ≠ target event)) eqn:Hne.
    + apply bool_decide_eq_true_1 in Hne.
      assert (Hl' : classContains (target event) "annotation-locked"
                      (classRemove current "annotation-highlight" w) = false).
      { apply classContains_false. intros H. unfold classContains in H.
        cbn [document classRemove withDocument] in H.
        apply contains_remove_iff in H as [H _]. unfold classContains in Hl. congruence. }
      rewrite Hl'. cbn [negb].
      split; [reflexivity|]. split; [reflexivity|]. split; [reflexivity|].
      intros r c. unfold classContains. world_simpl.
      rewrite contains_add_iff, contains_remove_iff, is_element_remove.
      split.
      * intros [[H Hn]|(-> & -> & H)]; [left|right; auto].
        split; [exact H|]. intros (-> & Hc & _). apply Hn. split; congruence.
      * intros [[H Hn]|(-> & -> & H)]; [left|right; auto].
        split; [exact H|]. intros (-> & ->). apply Hn. split; [reflexivity|].
        split; [reflexivity|]. exact Hne.
    + apply bool_decide_eq_false_1 in Hne.
      assert (Hsame : current = target event)
        by (destruct (decide (current = target event)); [assumption|contradiction]).
      rewrite Hl. cbn [negb].
      split; [reflexivity|]. split; [reflexivity|]. split; [reflexivity|].
      intros r c. unfold classContains. world_simpl. rewrite contains_add_iff.
      split.
      * intros [H|(-> & -> & H)]; [left|right; auto].
        split; [exact H|]. intros (_ & Hc & Hr). congruence.
      * intros [[H _]|(-> & -> & H)]; [left; exact H|right; auto].
  - rewrite Hl. cbn [negb].
    split; [reflexivity|]. split; [reflexivity|]. split; [reflexivity|].
    intros r c. unfold classContains. world_simpl. rewrite contains_add_iff.
    split.
    + intros [H|(-> & -> & H)]; [left|right; auto].
      split; [exact H|]. intros (_ & Hc & _). discriminate.
    + intros [[H _]|(-> & -> & H)]; [left; exact H|right; auto].
Qed.

Lemma singleLock_mouseout_cases :
  let w1 := SingleLock._annotationMouseoutListener event w in
  w1 = w
  ∨ (_annotationMode (session w) = true
     ∧ _elementLocked (session w) = false
     ∧ _currentHighlightedElement (session w) = Some (target event)
     ∧ session w1 = session (setCurrentHighlightedElement None w)
     ∧ _annotationSetupDone w1 = _annotationSetupDone w
     ∧ output w1 = output w
     ∧ ∀ r c, classContains r c w1 = true
              ↔ classContains r c w = true
                ∧ ¬ (r = target event ∧ c = "annotation-highlight")).
Proof.
  unfold SingleLock._annotationMouseoutListener.
  destruct (_annotationMode (session w)); [|left; reflexivity]. cbn [negb orb].
  destruct (_elementLocked (session w)); [left; reflexivity|].
  destruct (bool_decide _) eqn:Hcurrent; [|left; reflexivity].
  apply bool_decide_eq_true_1 in Hcurrent. right. cbn [negb andb].
  split; [reflexivity|]. split; [reflexivity|]. split; [congruence|].
  split; [reflexivity|]. split; [reflexivity|]. split; [reflexivity|].
  intros r c. unfold classContains. world_simpl. apply contains_remove_iff.
Qed.

Lemma singleLock_click_off :
  _annotationMode (session w) = false →
  SingleLock._annotationClickListener event w = (Return tt, event, w).
Proof. intros Hmode. unfold SingleLock._annotationClickListener. rewrite Hmode. reflexivity. Qed.

Lemma singleLock_click_ignored :
  _annotationMode (session w) = true → _elementLocked (session w) = true →
  SingleLock._annotationClickListener event w
  = (Return tt, stopImmediatePropagation (preventDefault event), w).
Proof.
  intros Hmode Hlocked. unfold SingleLock._annotationClickListener.
  rewrite Hmode, Hlocked. reflexivity.
Qed.

Lemma singleLock_click_select :
  _annotationMode (session w) = true → _elementLocked (session w) = false →
  let '(completion, ev, w1) := SingleLock._annotationClickListener event w in
  ev = stopImmediatePropagation (preventDefault event)
  ∧ _annotationSetupDone w1 = _annotationSetupDone w
  ∧ (∀ r c, classContains r c w1 = true
            ↔ (classContains r c w = true
               ∧ ¬ (c = "annotation-highlight"
                    ∧ (r = target event ∨ _currentHighlightedElement (session w) = Some r)))
              ∨ (r = target event ∧ c = "annotation-locked"
                 ∧ is_Some (elementOf (document w) (target event))))
  ∧ ((∃ err, completion = Throw err ∧ capture (document w1) (target event) = Throw err
             ∧ session w1 = session (setElementLocked true w)
             ∧ output w1 = output w)
     ∨ (∃ d, completion = Return tt ∧ capture (document w1) (target event) = Return d
             ∧ is_Some (elementOf (document w) (target event))
             ∧ session w1
               = session (setLockedElement (Some (target event))
                            (setSelectedElement (Some d) (setElementLocked true w)))
             ∧ output w1
               = output w
                 ++ [ConsoleLog "Selected element:" (Some (LogJSON d));
                     Fetch "http://127.0.0.1:8080/api/notify-element-selected"])).
Proof.
  intros Hmode Hlocked. unfold SingleLock._annotationClickListener.
  rewrite Hmode, Hlocked. cbn [negb target stopImmediatePropagation preventDefault].
  set (w0 := match _currentHighlightedElement (session w) with
             | Some current => classRemove current "annotation-highlight" w
             | None => w
             end).
  assert (H0 : session w0 = session w ∧ _annotationSetupDone w0 = _annotationSetupDone w
               ∧ output w0 = output w
               ∧ (is_Some (elementOf (document w0) (target event))
                  ↔ is_Some (elementOf (document w) (target event)))
               ∧ ∀ r c, classContains r c w0 = true
                        ↔ classContains r c w = true
                          ∧ ¬ (c = "annotation-highlight"
                               ∧ _currentHighlightedElement (session w) = Some r)).
  { unfold w0. destruct (_currentHighlightedElement (session w)) as [current|].
    - split; [reflexivity|]. split; [reflexivity|]. split; [reflexivity|].
      split; [apply is_element_remove|].
      intros r c. unfold classContains. world_simpl. rewrite contains_remove_iff.
      split; intros [H Hn]; (split; [exact H|]).
      + intros [-> Hc]. apply Hn. split; congruence.
      + intros [-> ->]. apply Hn. split; reflexivity.
    - split; [reflexivity|]. split; [reflexivity|]. split; [reflexivity|].
      split; [reflexivity|]. intros r c. split; [|tauto].
      intros H. split; [exact H|]. intros [_ Hc]. discriminate. }
  clearbody w0. destruct H0 as (Hsession & Hflag & Houtput & Helement & Hclasses0).
  assert (Hclasses : ∀ r c,
             contains r c (add (target event) "annotation-locked"
                             (remove (target event) "annotation-highlight" (document w0)))
             = true
             ↔ (classContains r c w = true
                ∧ ¬ (c = "annotation-highlight"
                     ∧ (r = target event ∨ _currentHighlightedElement (session w) = Some r)))
               ∨ (r = target event ∧ c = "annotation-locked"
                  ∧ is_Some (elementOf (document w) (target event)))).
  { intros r c. rewrite contains_mark, Helement.
    change (contains r c (document w0)) with (classContains r c w0). rewrite Hclasses0.
    split.
    - intros [[[H Hn] Hx]|H]; [left|right; exact H].
      split; [exact H|]. intros [Hc [Hr|Hr]]; [apply Hx; auto|apply Hn; auto].
    - intros [[H Hn]|H]; [left|right; exact H].
      split; [split; [exact H|]|]; intros [H1 H2]; apply Hn; auto. }
  world_simpl.
  destruct (capture _ (target event)) as [d|err] eqn:Hcapture.
  - split; [reflexivity|]. split; [exact Hflag|].
    split; [intros r c; unfold classContains; world_simpl; apply Hclasses|].
    right. exists d. split; [reflexivity|]. split; [exact Hcapture|].
    split; [apply capture_is_element in Hcapture;
            rewrite is_element_add, is_element_remove, Helement in Hcapture;
            exact Hcapture|].
    split; [session_simpl; rewrite Hsession; reflexivity|].
    session_simpl. rewrite Houtput, <- app_assoc. reflexivity.
  - split; [reflexivity|]. split; [exact Hflag|].
    split; [intros r c; unfold classContains; world_simpl; apply Hclasses|].
    left. exists err. split; [reflexivity|]. split; [exact Hcapture|].
    split; [session_simpl; rewrite Hsession; reflexivity|].
    session_simpl. exact Houtput.
Qed.

End SingleLockTransitions.

Section SingleLockCalls.

Variable w : World.

Lemma singleLock_unlock_contains (r : NodeRef) (c : string) :
  classContains r c (snd (SingleLock.unlockElement w)) = true
  ↔ classContains r c w = true
    ∧ ¬ (c = "annotation-locked" ∧ _lockedElement (session w) = Some r).
Proof.
  unfold SingleLock.unlockElement. cbn [snd].
  destruct (_lockedElement (session w)) as [locked|].
  - unfold classContains. world_simpl. rewrite contains_remove_iff.
    split; intros [H Hn]; (split; [exact H|]).
    + intros [-> Heq]. apply Hn. split; congruence.
    + intros [-> ->]. apply Hn. split; reflexivity.
  - split; [intros H; split; [exact H|]; intros [_ Hn]; discriminate|].
    intros [H _]. exact H.
Qed.

Lemma singleLock_unlock_frame :
  _annotationSetupDone (snd (SingleLock.unlockElement w)) = _annotationSetupDone w
  ∧ output (snd (SingleLock.unlockElement w)) = output w ++ [ConsoleLog "Element unlocked" None].
Proof.
  unfold SingleLock.unlockElement. cbn [snd].
  destruct (_lockedElement (session w)); split; reflexivity.
Qed.

Lemma singleLock_setAnnotationMode_on (enabled : Value) :
  toBoolean enabled = true →
  SingleLock.setAnnotationMode enabled w
  = setBodyCursor "crosshair"
      (emit (ConsoleLog "Annotation mode set to:" (Some (LogBoolean true))) (setMode true w)).
Proof. intros H. unfold SingleLock.setAnnotationMode. rewrite H. reflexivity. Qed.

Lemma singleLock_setAnnotationMode_off (enabled : Value) :
  toBoolean enabled = false →
  SingleLock.setAnnotationMode enabled w
  = snd (SingleLock.unlockElement
           (setBodyCursor EmptyString
              (emit (ConsoleLog "Annotation mode set to:" (Some (LogBoolean false)))
                 (setMode false w)))).
Proof. intros H. unfold SingleLock.setAnnotationMode. rewrite H. reflexivity. Qed.

Lemma singleLock_setup_first :
  _annotationSetupDone w = false →
  session (SingleLock.setup w) = session (SingleLock.initialiseState w)
  ∧ _annotationSetupDone (SingleLock.setup w) = true
  ∧ ∀ r c, classContains r c (SingleLock.setup w) = classContains r c w.
Proof.
  intros Hflag. unfold SingleLock.setup. rewrite Hflag. split; [|split].
  - rewrite session_flag. unfold SingleLock.setupBody.
    rewrite (proj2 (singleLock_attachListeners_frame _)), removePreviousListeners_session.
    reflexivity.
  - reflexivity.
  - intros r c. unfold classContains. rewrite document_flag. unfold SingleLock.setupBody.
    rewrite (proj1 (singleLock_attachListeners_frame _)), removePreviousListeners_document.
    apply contains_nodes. apply document_prepared.
Qed.

End SingleLockCalls.

(** The sample page after the setup of either script: no element carries
    a class. *)
Lemma sample_injected_classes (r : NodeRef) (c : string) :
  classContains r c (DualRole.setup (freshWorld sampleDocument)) = false
  ∧ classContains r c (SingleLock.setup (freshWorld sampleDocument)) = false.
Proof.
  destruct (dualRole_setup_first (freshWorld sampleDocument) eq_refl) as (_ & _ & Hdual).
  destruct (singleLock_setup_first (freshWorld sampleDocument) eq_refl) as (_ & _ & Hsingle).
  rewrite Hdual, Hsingle. split; apply sampleDocument_classes.
Qed.

(** ** The states the dual-role script keeps *)

Section DualRoleStates.

Lemma secondaryDistinct_unlocked (w : World) :
  _secondaryActualElement (session w) = [] → _lockedElement (session w) = None →
  secondaryDistinct w.
Proof.
  intros Hs Hl. unfold secondaryDistinct. rewrite Hs, Hl.
  split; [constructor|]. split; [intros r Hr; apply elem_of_nil in Hr; contradiction|].
  split; [reflexivity|]. intros p Hp. discriminate.
Qed.

Lemma secondaryDistinct_frame (w w1 : World) :
  _secondaryActualElement (session w1) = _secondaryActualElement (session w) →
  _lockedElement (session w1) = _lockedElement (session w) →
  (_elementLocked (session w1) = false → _elementLocked (session w) = false) →
  (∀ r, classContains r "annotation-secondary" w = true →
        classContains r "annotation-secondary" w1 = true) →
  secondaryDistinct w → secondaryDistinct w1.
Proof.
  intros Hs Hl He Hc (Hnodup & Hclass & Hempty & Hprimary). unfold secondaryDistinct.
  rewrite Hs, Hl. split; [exact Hnodup|]. split; [intros r Hr; apply Hc, Hclass, Hr|].
  split; [intros H; apply Hempty, He, H|exact Hprimary].
Qed.

Lemma dualRole_click_secondaryDistinct (event : Event) (w : World) :
  secondaryDistinct w → secondaryDistinct (snd (DualRole._annotationClickListener event w)).
Proof.
  intros Hw. destruct (_annotationMode (session w)) eqn:Hmode;
    [|rewrite dualRole_click_off by exact Hmode; exact Hw].
  destruct (_elementLocked (session w)) eqn:Hlocked.
  - destruct (classContains (target event) "annotation-secondary" w) eqn:Hs;
      [rewrite dualRole_click_ignored by auto; exact Hw|].
    destruct (decide (_lockedElement (session w) = Some (target event))) as [Hp|Hp];
      [rewrite dualRole_click_ignored by auto; exact Hw|].
    pose proof (dualRole_click_second event w Hmode Hlocked Hs Hp) as H.
    destruct (DualRole._annotationClickListener event w) as [[completion ev] w1].
    cbn [snd]. destruct H as (_ & _ & Hclasses & Hcase).
    assert (Hkept : ∀ r, classContains r "annotation-secondary" w = true →
                         classContains r "annotation-secondary" w1 = true).
    { intros r Hr. apply Hclasses. left. split; [exact Hr|]. intros [_ Hc]. discriminate. }
    destruct Hcase as [(err & _ & _ & Hsession & _)|(d & _ & _ & Helement & Hsession & _)].
    + apply (secondaryDistinct_frame w); rewrite ?Hsession; auto.
    + destruct Hw as (Hnodup & Hclass & Hempty & Hprimary).
      assert (Hnew : target event ∉ _secondaryActualElement (session w))
        by (intros Hin; apply Hclass in Hin; congruence).
      unfold secondaryDistinct. rewrite Hsession.
      cbn [session setSecondaryActualElement setSecondaryElements withSession
           _secondaryActualElement _elementLocked _lockedElement].
      split; [|split; [|split]].
      * apply NoDup_app. split; [exact Hnodup|].
        split; [|apply NoDup_singleton].
        intros y Hy Hx. apply list_elem_of_singleton in Hx as ->. contradiction.
      * intros r Hr. apply elem_of_app in Hr as [Hr|Hr]; [apply Hkept, Hclass, Hr|].
        apply list_elem_of_singleton in Hr as ->. apply Hclasses. right. auto.
      * congruence.
      * intros p Hpp Hin. apply elem_of_app in Hin as [Hin|Hin];
          [exact (Hprimary p Hpp Hin)|].
        apply list_elem_of_singleton in Hin as ->. contradiction.
  - pose proof (dualRole_click_primary event w Hmode Hlocked) as H.
    destruct (DualRole._annotationClickListener event w) as [[completion ev] w1].
    cbn [snd]. destruct H as (_ & _ & _ & Hcase).
    destruct Hw as (_ & _ & Hempty & _). specialize (Hempty Hlocked).
    unfold secondaryDistinct.
    destruct Hcase as [(err & _ & _ & Hsession & _)|(d & _ & _ & _ & Hsession & _)];
      rewrite Hsession;
      cbn [session setElementLocked setLockedElement setSelectedElement withSession
           _secondaryActualElement _elementLocked _lockedElement];
      rewrite Hempty;
      (split; [constructor|]);
      (split; [intros r Hr; apply elem_of_nil in Hr; contradiction|]);
      (split; [discriminate|]); intros p _ Hin; apply elem_of_nil in Hin; contradiction.
Qed.

Lemma perform_secondaryDistinct (op : Operation) (w : World) :
  secondaryDistinct w → secondaryDistinct (perform op w).
Proof.
  intros Hw. destruct op as [|enabled| |event|event|event]; cbn [perform].
  - destruct (_annotationSetupDone w) eqn:Hflag.
    + unfold DualRole.setup. rewrite Hflag. exact Hw.
    + destruct (dualRole_setup_first w Hflag) as (Hsession & _).
      apply secondaryDistinct_unlocked; rewrite Hsession; reflexivity.
  - destruct (toBoolean enabled) eqn:Henabled.
    + rewrite dualRole_setAnnotationMode_on by exact Henabled. name_mode_set w v.
      apply (secondaryDistinct_frame w); [exact Hv_live|exact Hv_locked| | |exact Hw].
      * rewrite Hv_flag. auto.
      * intros r Hr. rewrite Hv_classes. exact Hr.
    + rewrite dualRole_setAnnotationMode_off by exact Henabled. name_mode_set w v.
      pose proof (dualRole_unlock_session v) as H.
      cbn zeta in H. destruct H as (_ & Hl & _ & _ & Hs & _).
      set (u := snd (DualRole.unlockElement v)) in *. clearbody u.
      apply secondaryDistinct_unlocked; assumption.
  - pose proof (dualRole_unlock_session w) as H. cbn zeta in H.
    destruct H as (_ & Hl & _ & _ & Hs & _).
    apply secondaryDistinct_unlocked; assumption.
  - destruct (dualRole_mouseover_cases event w)
      as [->|(_ & _ & _ & Hsession & _ & _ & Hclasses)]; [exact Hw|].
    apply (secondaryDistinct_frame w); rewrite ?Hsession; auto.
    intros r Hr. apply Hclasses. left. split; [exact Hr|]. intros [Hc _]. discriminate.
  - destruct (dualRole_mouseout_cases event w)
      as [->|(_ & Hsession & _ & _ & Hclasses)]; [exact Hw|].
    apply (secondaryDistinct_frame w); rewrite ?Hsession; auto.
    intros r Hr. apply Hclasses. split; [exact Hr|]. intros [_ Hc]. discriminate.
  - apply dualRole_click_secondaryDistinct. exact Hw.
Qed.

End DualRoleStates.

(** X5. In the dual-role script, whatever is done on the page
    (injections, mode changes, unlocks, hover events, clicks on any
    element, also clicks that end in an exception): the stored secondary
    elements are pairwise different, each of them carries the secondary
    class, none of them is the primary element, and there is none while
    the locked flag is unset. *)
Theorem dualRole_secondary_distinct (ops : list Operation) (w : World) :
  secondaryDistinct w → secondaryDistinct (performAll ops w).
Proof.
  revert w. induction ops as [|op ops IH]; intros w Hw; [exact Hw|].
  apply (IH (perform op w)). apply perform_secondaryDistinct. exact Hw.
Qed.

(** The sample page: a primary selection, two secondary selections and a
    second click on the first secondary element. *)
Lemma dualRole_secondary_distinct_witness :
  let ops := [Inject; SetAnnotationMode (Boolean true);
              ClickEvent (mkEvent 4 false false); ClickEvent (mkEvent 7 false false);
              ClickEvent (mkEvent 8 false false); ClickEvent (mkEvent 7 false false)] in
  let w1 := performAll ops (freshWorld sampleDocument) in
  _secondaryActualElement (session w1) = [7; 8] ∧ secondaryDistinct w1.
Proof.
  intros ops w1. split; [vm_compute; reflexivity|].
  apply dualRole_secondary_distinct. apply secondaryDistinct_unlocked; reflexivity.
Defined.

Section HighlightStates.

Variable roles : list string.

Lemma highlightTracked_shrink (w w1 : World) :
  _annotationSetupDone w1 = _annotationSetupDone w →
  _currentHighlightedElement (session w1) = _currentHighlightedElement (session w) →
  (∀ r c, classContains r c w1 = true → classContains r c w = true) →
  highlightTracked roles w → highlightTracked roles w1.
Proof.
  intros Hflag Hcurrent Hshrink [Hdone Hw]. split; [congruence|].
  intros r Hr. apply Hshrink in Hr. destruct (Hw r Hr) as [Hc Hroles].
  split; [congruence|]. intros c Hin.
  destruct (classContains r c w1) eqn:Hclass; [|reflexivity].
  apply Hshrink in Hclass. rewrite (Hroles c Hin) in Hclass. discriminate.
Qed.

(** A role class is put on the target in place of the highlight, and the
    tracked reference stays. *)
Lemma highlightTracked_mark (role : string) (x : NodeRef) (w w1 : World) :
  _annotationSetupDone w1 = _annotationSetupDone w →
  _currentHighlightedElement (session w1) = _currentHighlightedElement (session w) →
  (∀ r c, classContains r c w1 = true →
          (classContains r c w = true ∧ ¬ (r = x ∧ c = "annotation-highlight"))
          ∨ (r = x ∧ c = role)) →
  role ≠ "annotation-highlight" →
  highlightTracked roles w → highlightTracked roles w1.
Proof.
  intros Hflag Hcurrent Hclasses Hrole [Hdone Hw]. split; [congruence|].
  intros r Hr. unfold highlighted in Hr.
  apply Hclasses in Hr as [[Hr Hx]|[_ Hc]]; [|congruence].
  destruct (Hw r Hr) as [Hc Hroles]. split; [congruence|]. intros c Hin.
  destruct (classContains r c w1) eqn:Hclass; [|reflexivity].
  apply Hclasses in Hclass as [[Hclass _]|[-> _]].
  - rewrite (Hroles c Hin) in Hclass. discriminate.
  - exfalso. apply Hx. split; reflexivity.
Qed.

End HighlightStates.

Section DualRoleHighlight.

Lemma dualRole_roles_not_highlight :
  "annotation-highlight" ∉ ["annotation-primary"; "annotation-secondary"].
Proof.
  intros H. apply elem_of_cons in H as [H|H]; [discriminate|].
  apply list_elem_of_singleton in H. discriminate.
Qed.

Lemma dualRole_setup_done (w : World) :
  _annotationSetupDone w = true → DualRole.setup w = w ∧ SingleLock.setup w = w.
Proof. intros H. unfold DualRole.setup, SingleLock.setup. rewrite H. split; reflexivity. Qed.

Lemma perform_highlightTracked (op : Operation) (w : World) :
  highlightTracked ["annotation-primary"; "annotation-secondary"] w →
  highlightTracked ["annotation-primary"; "annotation-secondary"] (perform op w).
Proof.
  intros Hw. destruct op as [|enabled| |event|event|event]; cbn [perform].
  - rewrite (proj1 (dualRole_setup_done w (proj1 Hw))). exact Hw.
  - destruct (toBoolean enabled) eqn:Henabled.
    + rewrite dualRole_setAnnotationMode_on by exact Henabled. name_mode_set w v.
      apply (highlightTracked_shrink _ w); [assumption..| |exact Hw].
      intros r c Hr. rewrite <- Hv_classes. exact Hr.
    + rewrite dualRole_setAnnotationMode_off by exact Henabled. name_mode_set w v.
      pose proof (dualRole_unlock_session v) as Hsession.
      pose proof (dualRole_unlock_frame v) as [Hflag _].
      pose proof (dualRole_unlock_contains v) as Hclasses.
      cbn zeta in Hsession. destruct Hsession as (_ & _ & _ & _ & _ & _ & _ & Hcurrent & _).
      set (u := snd (DualRole.unlockElement v)) in *. clearbody u.
      apply (highlightTracked_shrink _ w);
        [exact (eq_trans Hflag Hv_done)|exact (eq_trans Hcurrent Hv_current)| |exact Hw].
      intros r c Hr. change (classContains r c u = true) in Hr.
      apply Hclasses in Hr as [Hr _]. rewrite <- Hv_classes. exact Hr.
  - pose proof (dualRole_unlock_session w) as Hsession.
    cbn zeta in Hsession. destruct Hsession as (_ & _ & _ & _ & _ & _ & _ & Hcurrent & _).
    apply (highlightTracked_shrink _ w);
      [apply dualRole_unlock_frame|exact Hcurrent| |exact Hw].
    intros r c Hr. apply dualRole_unlock_contains in Hr as [Hr _]. exact Hr.
  - destruct (dualRole_mouseover_cases event w)
      as [->|(_ & Hp & Hs & Hsession & Hflag & _ & Hclasses)]; [exact Hw|].
    destruct Hw as [Hdone Hw]. split; [congruence|]. intros r Hr.
    rewrite Hsession.
    cbn [session setCurrentHighlightedElement withSession _currentHighlightedElement].
    assert (Hx : r = target event).
    { apply Hclasses in Hr as [[Hr Hn]|[Hx _]]; [|exact Hx].
      destruct (decide (r = target event)) as [Hx|Hx]; [exact Hx|].
      exfalso. apply Hn. split; [reflexivity|]. split; [apply Hw, Hr|exact Hx]. }
    subst r. split; [reflexivity|]. intros c Hin.
    destruct (classContains (target event) c _) eqn:Hclass; [|reflexivity].
    apply Hclasses in Hclass as [[Hclass _]|(_ & -> & _)];
      [|destruct (dualRole_roles_not_highlight Hin)].
    apply elem_of_cons in Hin as [->|Hin]; [congruence|].
    apply list_elem_of_singleton in Hin as ->. congruence.
  - destruct (dualRole_mouseout_cases event w)
      as [->|(Hcurrent & Hsession & Hflag & _ & Hclasses)]; [exact Hw|].
    destruct Hw as [Hdone Hw]. split; [congruence|]. intros r Hr.
    apply Hclasses in Hr as [Hr Hn]. destruct (Hw r Hr) as [Hc _].
    exfalso. apply Hn. split; congruence.
  - destruct (_annotationMode (session w)) eqn:Hmode;
      [|rewrite dualRole_click_off by exact Hmode; exact Hw].
    destruct (_elementLocked (session w)) eqn:Hlocked.
    + destruct (classContains (target event) "annotation-secondary" w) eqn:Hs;
        [rewrite dualRole_click_ignored by auto; exact Hw|].
      destruct (decide (_lockedElement (session w) = Some (target event))) as [Hp|Hp];
        [rewrite dualRole_click_ignored by auto; exact Hw|].
      pose proof (dualRole_click_second event w Hmode Hlocked Hs Hp) as H.
      destruct (DualRole._annotationClickListener event w) as [[completion ev] w1].
      cbn [snd]. destruct H as (_ & Hflag & Hclasses & Hcase).
      apply (highlightTracked_mark _
               "annotation-secondary" (target event) w);
        [exact Hflag| | |discriminate|exact Hw].
      * destruct Hcase as [(err & _ & _ & -> & _)|(d & _ & _ & _ & -> & _)]; reflexivity.
      * intros r c Hr. apply Hclasses in Hr as [Hr|(Hr & Hc & _)]; auto.
    + pose proof (dualRole_click_primary event w Hmode Hlocked) as H.
      destruct (DualRole._annotationClickListener event w) as [[completion ev] w1].
      cbn [snd]. destruct H as (_ & Hflag & Hclasses & Hcase).
      apply (highlightTracked_mark _
               "annotation-primary" (target event) w);
        [exact Hflag| | |discriminate|exact Hw].
      * destruct Hcase as [(err & _ & _ & -> & _)|(d & _ & _ & _ & -> & _)]; reflexivity.
      * intros r c Hr. apply Hclasses in Hr as [Hr|(Hr & Hc & _)]; auto.
Qed.

End DualRoleHighlight.

(** X6. In the dual-role script, once the setup has run on a page where
    the highlight is on the tracked element at most, this stays so
    whatever is done (mode changes, unlocks, hover events, clicks on any
    element, injections): at most one element carries the highlight class,
    it is the element the session tracks, and it carries neither the
    primary nor the secondary class. *)
Theorem dualRole_highlight_tracked (ops : list Operation) (w : World) :
  highlightTracked ["annotation-primary"; "annotation-secondary"] w →
  let w1 := performAll ops w in
  highlightTracked ["annotation-primary"; "annotation-secondary"] w1
  ∧ ∀ r r', highlighted w1 r = true → highlighted w1 r' = true → r = r'.
Proof.
  intros Hw w1.
  assert (H1 : highlightTracked ["annotation-primary"; "annotation-secondary"] w1).
  { unfold w1. clear w1. revert w Hw.
    induction ops as [|op ops' IH]; intros w Hw; [exact Hw|].
    apply (IH (perform op w)). apply perform_highlightTracked. exact Hw. }
  split; [exact H1|]. intros r r' Hr Hr'.
  destruct H1 as [_ H1]. destruct (H1 r Hr) as [Hc _]. destruct (H1 r' Hr') as [Hc' _].
  congruence.
Qed.

(** The sample page: the pointer enters the [div] and the first [li],
    the [div] is selected, and the pointer enters the second [li]. *)
Lemma dualRole_highlight_tracked_witness :
  let w := DualRole.setup (freshWorld sampleDocument) in
  let ops := [SetAnnotationMode (Boolean true);
              MouseoverEvent (mkEvent 4 false false); MouseoverEvent (mkEvent 7 false false);
              ClickEvent (mkEvent 4 false false); MouseoverEvent (mkEvent 8 false false)] in
  highlighted (performAll ops w) 8 = true
  ∧ ∀ r, highlighted (performAll ops w) r = true → r = 8.
Proof.
  intros w ops.
  assert (Hw : highlightTracked ["annotation-primary"; "annotation-secondary"] w).
  { unfold w. split; [reflexivity|]. intros r Hr. unfold highlighted in Hr.
    rewrite (proj1 (sample_injected_classes r "annotation-highlight")) in Hr.
    discriminate. }
  assert (Height : highlighted (performAll ops w) 8 = true) by (vm_compute; reflexivity).
  split; [exact Height|]. intros r Hr.
  exact (proj2 (dualRole_highlight_tracked ops w Hw) r 8 Hr Height).
Defined.

Section RoleStates.

Lemma capture_attached (doc : Document) (x : NodeRef) :
  is_Some (elementOf doc x) → attached doc x → ∃ d, capture doc x = Return d.
Proof.
  intros [e He] Hattached. destruct (attached_getXPath doc x Hattached) as [s Hs].
  destruct (capture_returns doc x e (Some s) He Hs) as (d & Hd & _). exists d. exact Hd.
Qed.

Lemma wellTargeted_sameButClass (d d' : Document) (op : Operation) :
  sameButClass d d' → wellTargeted d op → wellTargeted d' op.
Proof.
  intros Hsame. destruct op as [|enabled| |event|event|event]; try (intros H; exact H).
  intros [He Ha]. split.
  - apply (sameButClass_is_element d d' Hsame). exact He.
  - apply (sameButClass_attached d d' Hsame). exact Ha.
Qed.

Lemma dualRole_click_returns (event : Event) (w : World) (err : Error) :
  wellTargeted (document w) (ClickEvent event) →
  capture (document (snd (DualRole._annotationClickListener event w))) (target event)
  ≠ Throw err.
Proof.
  intros Hop.
  apply (wellTargeted_sameButClass _ _ _ (perform_sameButClass (ClickEvent event) w))
    in Hop.
  destruct Hop as [He Ha]. destruct (capture_attached _ _ He Ha) as [d Hd].
  cbn [perform] in Hd. rewrite Hd. discriminate.
Qed.

Lemma lockOwned_frame (role : string) (w w1 : World) :
  _annotationSetupDone w1 = _annotationSetupDone w →
  _lockedElement (session w1) = _lockedElement (session w) →
  _elementLocked (session w1) = _elementLocked (session w) →
  (∀ r, classContains r role w1 = true ↔ classContains r role w = true) →
  lockOwned role w → lockOwned role w1.
Proof.
  intros Hflag Hl He Hp (Hdone & Hprimary & Hlocked).
  unfold lockOwned. rewrite Hflag, Hl, He.
  split; [exact Hdone|]. split; [intros r Hr; apply Hprimary, Hp, Hr|].
  intros p Hpp. destruct (Hlocked p Hpp) as [H1 H2]. split; [exact H1|apply Hp, H2].
Qed.

Lemma rolesOwned_frame (w w1 : World) :
  _annotationSetupDone w1 = _annotationSetupDone w →
  _lockedElement (session w1) = _lockedElement (session w) →
  _elementLocked (session w1) = _elementLocked (session w) →
  _secondaryActualElement (session w1) = _secondaryActualElement (session w) →
  (∀ r, classContains r "annotation-primary" w1 = true
        ↔ classContains r "annotation-primary" w = true) →
  (∀ r, classContains r "annotation-secondary" w1 = true →
        classContains r "annotation-secondary" w = true) →
  rolesOwned w → rolesOwned w1.
Proof.
  intros Hflag Hl He Hs Hp Hsec [Hlock Hsecondary]. split.
  - apply (lockOwned_frame _ w); assumption.
  - rewrite Hs. intros r Hr. apply Hsecondary, Hsec, Hr.
Qed.

(** After an unlock no element carries a role class. *)
Lemma dualRole_unlock_rolesOwned (w : World) :
  rolesOwned w →
  rolesOwned (snd (DualRole.unlockElement w))
  ∧ ∀ r, lockedRole (snd (DualRole.unlockElement w)) r = false.
Proof.
  intros [(Hdone & Hprimary & Hlocked) Hsecondary].
  assert (Hnone : ∀ r, lockedRole (snd (DualRole.unlockElement w)) r = false).
  { intros r. unfold lockedRole. apply orb_false_iff. split; apply classContains_false.
    - intros Hr. apply dualRole_unlock_contains in Hr as (Hr & Hn & _).
      apply Hn. split; [reflexivity|apply Hprimary, Hr].
    - intros Hr. apply dualRole_unlock_contains in Hr as (Hr & _ & Hn).
      apply Hn. split; [reflexivity|apply Hsecondary, Hr]. }
  split; [|exact Hnone].
  pose proof (dualRole_unlock_session w) as Hsession. cbn zeta in Hsession.
  destruct Hsession as (_ & Hl & _).
  unfold rolesOwned, lockOwned. rewrite Hl, (proj1 (dualRole_unlock_frame w)).
  split; [split; [exact Hdone|split; [|intros p Hp; discriminate]]|].
  - intros r Hr. specialize (Hnone r). unfold lockedRole in Hnone.
    rewrite Hr in Hnone. discriminate.
  - intros r Hr. specialize (Hnone r). unfold lockedRole in Hnone.
    rewrite Hr, orb_true_r in Hnone. discriminate.
Qed.

Lemma dualRole_setAnnotationMode_rolesOwned (enabled : Value) (w : World) :
  rolesOwned w →
  rolesOwned (DualRole.setAnnotationMode enabled w)
  ∧ (toBoolean enabled = false →
     ∀ r, lockedRole (DualRole.setAnnotationMode enabled w) r = false).
Proof.
  intros Hw. destruct (toBoolean enabled) eqn:Henabled.
  - rewrite dualRole_setAnnotationMode_on by exact Henabled. name_mode_set w v.
    split; [|discriminate].
    apply (rolesOwned_frame w); [assumption..| | |exact Hw]; intros r;
      rewrite Hv_classes; auto.
  - rewrite dualRole_setAnnotationMode_off by exact Henabled. name_mode_set w v.
    destruct (dualRole_unlock_rolesOwned v) as [Howned Hnone].
    { apply (rolesOwned_frame w); [assumption..| | |exact Hw]; intros r;
        rewrite Hv_classes; auto. }
    set (u := snd (DualRole.unlockElement v)) in *. clearbody u.
    split; [|intros _; exact Hnone].
    apply (rolesOwned_frame u); auto; reflexivity.
Qed.

Lemma perform_rolesOwned (op : Operation) (w : World) :
  wellTargeted (document w) op →
  rolesOwned w → rolesOwned (perform op w).
Proof.
  intros Hop Hw. destruct op as [|enabled| |event|event|event]; cbn [perform].
  - rewrite (proj1 (dualRole_setup_done w (proj1 (proj1 Hw)))). exact Hw.
  - apply dualRole_setAnnotationMode_rolesOwned. exact Hw.
  - apply dualRole_unlock_rolesOwned. exact Hw.
  - destruct (dualRole_mouseover_cases event w)
      as [->|(_ & _ & _ & Hsession & Hflag & _ & Hclasses)]; [exact Hw|].
    apply (rolesOwned_frame w); rewrite ?Hsession; auto.
    + intros r. rewrite Hclasses. split.
      * intros [[Hr _]|(_ & Hc & _)]; [exact Hr|discriminate].
      * intros Hr. left. split; [exact Hr|]. intros [Hc _]. discriminate.
    + intros r Hr. apply Hclasses in Hr as [[Hr _]|(_ & Hc & _)]; [exact Hr|discriminate].
  - destruct (dualRole_mouseout_cases event w)
      as [->|(_ & Hsession & Hflag & _ & Hclasses)]; [exact Hw|].
    apply (rolesOwned_frame w); rewrite ?Hsession; auto.
    + intros r. rewrite Hclasses. split; [intros [Hr _]; exact Hr|].
      intros Hr. split; [exact Hr|]. intros [_ Hc]. discriminate.
    + intros r Hr. apply Hclasses in Hr as [Hr _]. exact Hr.
  - pose proof (dualRole_click_returns event w) as Hreturns.
    destruct (_annotationMode (session w)) eqn:Hmode;
      [|rewrite dualRole_click_off by exact Hmode; exact Hw].
    pose proof Hw as [(Hdone & Hprimary & Hlocked) Hsecondary].
    destruct (_elementLocked (session w)) eqn:Hflagged.
    + destruct (classContains (target event) "annotation-secondary" w) eqn:Hs;
        [rewrite dualRole_click_ignored by auto; exact Hw|].
      destruct (decide (_lockedElement (session w) = Some (target event))) as [Hp|Hp];
        [rewrite dualRole_click_ignored by auto; exact Hw|].
      pose proof (dualRole_click_second event w Hmode Hflagged Hs Hp) as H.
      destruct (DualRole._annotationClickListener event w) as [[completion ev] w1].
      cbn [snd] in *. destruct H as (_ & Hflag & Hclasses & Hcase).
      destruct Hcase as [(err & _ & Hthrow & _)|(d & _ & _ & Helement & Hsession & _)];
        [destruct (Hreturns err Hop Hthrow)|].
      unfold rolesOwned, lockOwned. rewrite Hflag, Hsession.
      cbn [session setSecondaryActualElement setSecondaryElements withSession
           _secondaryActualElement _elementLocked _lockedElement].
      split; [split; [exact Hdone|split]|].
      * intros r Hr. apply Hclasses in Hr as [[Hr _]|(_ & Hc & _)]; [|discriminate].
        apply Hprimary, Hr.
      * intros p Hpp. destruct (Hlocked p Hpp) as [_ H2]. split; [exact Hflagged|].
        apply Hclasses. left. split; [exact H2|]. intros [_ Hc]. discriminate.
      * intros r Hr. apply elem_of_app.
        apply Hclasses in Hr as [[Hr _]|(-> & _)]; [left; apply Hsecondary, Hr|].
        right. apply list_elem_of_singleton. reflexivity.
    + pose proof (dualRole_click_primary event w Hmode Hflagged) as H.
      destruct (DualRole._annotationClickListener event w) as [[completion ev] w1].
      cbn [snd] in *. destruct H as (_ & Hflag & Hclasses & Hcase).
      destruct Hcase as [(err & _ & Hthrow & _)|(d & _ & _ & Helement & Hsession & _)];
        [destruct (Hreturns err Hop Hthrow)|].
      assert (Hnone : _lockedElement (session w) = None).
      { destruct (_lockedElement (session w)) as [p|] eqn:Hp; [|reflexivity].
        destruct (Hlocked p eq_refl) as [H1 _]. discriminate. }
      unfold rolesOwned, lockOwned. rewrite Hflag, Hsession.
      cbn [session setLockedElement setSelectedElement setElementLocked withSession
           _secondaryActualElement _elementLocked _lockedElement].
      split; [split; [exact Hdone|split]|].
      * intros r Hr. apply Hclasses in Hr as [[Hr _]|(-> & _)]; [|reflexivity].
        apply Hprimary in Hr. congruence.
      * intros p Hpp. injection Hpp as <-. split; [reflexivity|].
        apply Hclasses. right. auto.
      * intros r Hr. apply Hclasses in Hr as [[Hr _]|(_ & Hc & _)]; [|discriminate].
        apply Hsecondary, Hr.
Qed.

Lemma performAll_rolesOwned (ops : list Operation) (w : World) :
  Forall (wellTargeted (document w)) ops →
  rolesOwned w → rolesOwned (performAll ops w).
Proof.
  revert w. induction ops as [|op ops IH]; intros w Hops Hw; [exact Hw|].
  apply Forall_cons in Hops as [Hop Hops]. apply (IH (perform op w)).
  - eapply Forall_impl; [exact Hops|]. intros op'.
    apply wellTargeted_sameButClass, perform_sameButClass.
  - apply perform_rolesOwned; assumption.
Qed.

End RoleStates.

(** X7. In the dual-role script, once the setup has run and the role
    classes are on the elements the session holds, they stay there
    whatever is done, when every click is on an element attached under
    the document: the primary class is on the locked element and on no
    other (so at most one element is primary), the locked element is held
    only while the locked flag is set, and every element with the
    secondary class is among the stored secondary elements; a call of
    [unlockElement], and a call of [setAnnotationMode] with a falsy
    argument, leave no element of the page with a role class. *)
Theorem dualRole_roles_owned (ops : list Operation) (w : World) :
  Forall (wellTargeted (document w)) ops →
  rolesOwned w →
  let w1 := performAll ops w in
  rolesOwned w1
  ∧ (∀ r r', classContains r "annotation-primary" w1 = true →
             classContains r' "annotation-primary" w1 = true → r = r')
  ∧ (∀ r, lockedRole (snd (DualRole.unlockElement w1)) r = false)
  ∧ (∀ enabled r, toBoolean enabled = false →
                  lockedRole (DualRole.setAnnotationMode enabled w1) r = false).
Proof.
  intros Hops Hw w1. pose proof (performAll_rolesOwned ops w Hops Hw) as H1.
  fold w1 in H1. split; [exact H1|]. split; [|split].
  - destruct H1 as [(_ & Hprimary & _) _]. intros r r' Hr Hr'.
    apply Hprimary in Hr, Hr'. congruence.
  - apply dualRole_unlock_rolesOwned. exact H1.
  - intros enabled r Henabled.
    apply (proj2 (dualRole_setAnnotationMode_rolesOwned enabled w1 H1)). exact Henabled.
Qed.

(** The sample page: the [div] is selected as primary and the first [li]
    as secondary; the primary class is on the [div] alone. *)
Lemma dualRole_roles_owned_witness :
  let w := DualRole.setup (freshWorld sampleDocument) in
  let ops := [SetAnnotationMode (Boolean true); MouseoverEvent (mkEvent 4 false false);
              ClickEvent (mkEvent 4 false false); ClickEvent (mkEvent 7 false false)] in
  classContains 4 "annotation-primary" (performAll ops w) = true
  ∧ (∀ r, classContains r "annotation-primary" (performAll ops w) = true → r = 4)
  ∧ ∀ r, lockedRole (snd (DualRole.unlockElement (performAll ops w))) r = false.
Proof.
  intros w ops.
  assert (Hw : rolesOwned w).
  { unfold w. split; [split; [reflexivity|split]|].
    - intros r Hr. rewrite (proj1 (sample_injected_classes r _)) in Hr. discriminate.
    - intros p Hp. vm_compute in Hp. discriminate.
    - intros r Hr. rewrite (proj1 (sample_injected_classes r _)) in Hr. discriminate. }
  assert (Hops : Forall (wellTargeted (document w)) ops).
  { repeat constructor.
    - eexists. vm_compute. reflexivity.
    - exists 3. vm_compute. reflexivity.
    - eexists. vm_compute. reflexivity.
    - exists 4. vm_compute. reflexivity. }
  destruct (dualRole_roles_owned ops w Hops Hw) as (_ & Hone & Hunlock & _).
  assert (Hfour : classContains 4 "annotation-primary" (performAll ops w) = true)
    by (vm_compute; reflexivity).
  split; [exact Hfour|]. split; [|exact Hunlock].
  intros r Hr. exact (Hone r 4 Hr Hfour).
Defined.

(** ** The stored records and the elements they were taken from *)

Section Records.

Lemma capture_describes (doc : Document) (x : NodeRef) (record : CapturedElementData) :
  capture doc x = Return record → describes doc record x.
Proof.
  unfold capture. destruct (elementOf doc x) as [e|] eqn:He; [|discriminate].
  destruct (getXPath doc x) as [xpath|err] eqn:Hxpath; [|discriminate].
  intros [= <-]. exists e. split; [exact He|]. split; [reflexivity|].
  split; [reflexivity|exact Hxpath].
Qed.

Lemma recordsDescribe_frame (w w1 : World) :
  sameButClass (document w) (document w1) →
  _secondaryElements (session w1) = _secondaryElements (session w) →
  _secondaryActualElement (session w1) = _secondaryActualElement (session w) →
  (∀ p, _lockedElement (session w1) = Some p →
        _lockedElement (session w) = Some p
        ∧ _selectedElement (session w1) = _selectedElement (session w)) →
  recordsDescribe w → recordsDescribe w1.
Proof.
  intros Hsame Hrecords Hlive Hlocked [Hsecondary Hprimary]. unfold recordsDescribe.
  rewrite Hrecords, Hlive. split.
  - eapply Forall2_impl; [exact Hsecondary|]. intros record x.
    apply sameButClass_describes. exact Hsame.
  - intros p Hp. destruct (Hlocked p Hp) as [Hp' ->].
    destruct (Hprimary p Hp') as (record & Hrecord & Hdescribes).
    exists record. split; [exact Hrecord|].
    apply (sameButClass_describes _ _ Hsame). exact Hdescribes.
Qed.

Lemma recordsDescribe_cleared (w : World) :
  _secondaryElements (session w) = [] → _secondaryActualElement (session w) = [] →
  _lockedElement (session w) = None → recordsDescribe w.
Proof.
  intros Hrecords Hlive Hlocked. unfold recordsDescribe. rewrite Hrecords, Hlive, Hlocked.
  split; [constructor|]. intros p Hp. discriminate.
Qed.

Lemma dualRole_unlock_recordsDescribe (w : World) :
  recordsDescribe w → recordsDescribe (snd (DualRole.unlockElement w)).
Proof.
  intros [Hsecondary _]. pose proof (dualRole_unlock_session w) as H. cbn zeta in H.
  destruct H as (_ & Hlocked & _ & _ & Hlive & Hrecords & _).
  apply recordsDescribe_cleared; [|exact Hlive|exact Hlocked].
  rewrite Hrecords. destruct (_secondaryActualElement (session w)); [|reflexivity].
  apply Forall2_nil_inv_r in Hsecondary. exact Hsecondary.
Qed.

Lemma perform_recordsDescribe (op : Operation) (w : World) :
  recordsDescribe w → recordsDescribe (perform op w).
Proof.
  intros Hw. pose proof (perform_sameButClass op w) as Hsame.
  destruct op as [|enabled| |event|event|event]; cbn [perform] in *.
  - destruct (_annotationSetupDone w) eqn:Hflag.
    + rewrite (proj1 (dualRole_setup_done w Hflag)). exact Hw.
    + destruct (dualRole_setup_first w Hflag) as (Hsession & _).
      apply recordsDescribe_cleared; rewrite Hsession; reflexivity.
  - clear Hsame. destruct (toBoolean enabled) eqn:Henabled.
    + rewrite dualRole_setAnnotationMode_on by exact Henabled. name_mode_set w v.
      apply (recordsDescribe_frame w); [assumption..| |exact Hw].
      intros p Hp. split; congruence.
    + rewrite dualRole_setAnnotationMode_off by exact Henabled. name_mode_set w v.
      pose proof (dualRole_unlock_session v) as H.
      cbn zeta in H. destruct H as (_ & Hlocked & _ & _ & Hlive & _).
      set (u := snd (DualRole.unlockElement v)) in *. clearbody u.
      apply recordsDescribe_cleared; [reflexivity|exact Hlive|exact Hlocked].
  - apply dualRole_unlock_recordsDescribe. exact Hw.
  - destruct (dualRole_mouseover_cases event w)
      as [Heq|(_ & _ & _ & Hsession & _)]; [rewrite Heq; exact Hw|].
    apply (recordsDescribe_frame w); rewrite ?Hsession; auto.
  - destruct (dualRole_mouseout_cases event w)
      as [Heq|(_ & Hsession & _)]; [rewrite Heq; exact Hw|].
    apply (recordsDescribe_frame w); rewrite ?Hsession; auto.
  - destruct (_annotationMode (session w)) eqn:Hmode;
      [|rewrite dualRole_click_off by exact Hmode; exact Hw].
    destruct (_elementLocked (session w)) eqn:Hlocked.
    + destruct (classContains (target event) "annotation-secondary" w) eqn:Hs;
        [rewrite dualRole_click_ignored by auto; exact Hw|].
      destruct (decide (_lockedElement (session w) = Some (target event))) as [Hp|Hp];
        [rewrite dualRole_click_ignored by auto; exact Hw|].
      pose proof (dualRole_click_second event w Hmode Hlocked Hs Hp) as H.
      destruct (DualRole._annotationClickListener event w) as [[completion ev] w1].
      cbn [snd] in *. destruct H as (_ & _ & _ & Hcase).
      destruct Hcase as [(err & _ & _ & Hsession & _)|(d & _ & Hcapture & _ & Hsession & _)].
      * apply (recordsDescribe_frame w); rewrite ?Hsession; auto.
      * destruct Hw as [Hsecondary Hprimary]. unfold recordsDescribe. rewrite Hsession.
        session_simpl. split.
        -- apply Forall2_app; [|constructor; [apply capture_describes, Hcapture|constructor]].
           eapply Forall2_impl; [exact Hsecondary|]. intros record x.
           apply sameButClass_describes. exact Hsame.
        -- intros p Hpp. destruct (Hprimary p Hpp) as (record & Hrecord & Hdescribes).
           exists record. split; [exact Hrecord|].
           apply (sameButClass_describes _ _ Hsame). exact Hdescribes.
    + pose proof (dualRole_click_primary event w Hmode Hlocked) as H.
      destruct (DualRole._annotationClickListener event w) as [[completion ev] w1].
      cbn [snd] in *. destruct H as (_ & _ & _ & Hcase).
      destruct Hcase as [(err & _ & _ & Hsession & _)|(d & _ & Hcapture & _ & Hsession & _)].
      * apply (recordsDescribe_frame w); rewrite ?Hsession; auto.
      * destruct Hw as [Hsecondary Hprimary]. unfold recordsDescribe. rewrite Hsession.
        session_simpl. split.
        -- eapply Forall2_impl; [exact Hsecondary|]. intros record x.
           apply sameButClass_describes. exact Hsame.
        -- intros p [= <-]. exists d. split; [reflexivity|].
           apply capture_describes, Hcapture.
Qed.

Lemma performSingle_recordsDescribe (op : Operation) (w : World) :
  recordsDescribe w → recordsDescribe (performSingle op w).
Proof.
  intros Hw. pose proof (performSingle_sameButClass op w) as Hsame.
  destruct op as [|enabled| |event|event|event]; cbn [performSingle] in *.
  - destruct (_annotationSetupDone w) eqn:Hflag.
    + rewrite (proj2 (dualRole_setup_done w Hflag)). exact Hw.
    + destruct (singleLock_setup_first w Hflag) as (Hsession & _).
      apply (recordsDescribe_frame w); rewrite ?Hsession; auto. intros p Hp. discriminate.
  - clear Hsame. destruct (toBoolean enabled) eqn:Henabled.
    + rewrite singleLock_setAnnotationMode_on by exact Henabled. name_mode_set w v.
      apply (recordsDescribe_frame w); [assumption..| |exact Hw].
      intros p Hp. split; congruence.
    + rewrite singleLock_setAnnotationMode_off by exact Henabled. name_mode_set w v.
      pose proof (singleLock_unlock_session v) as H.
      pose proof (performSingle_sameButClass UnlockElement v) as Hsame.
      cbn [performSingle] in Hsame.
      cbn zeta in H. destruct H as (_ & Hlocked & _ & _ & _ & _ & Hlive & Hrecords & _).
      set (u := snd (SingleLock.unlockElement v)) in *. clearbody u.
      apply (recordsDescribe_frame w);
        [eapply sameButClass_trans; eassumption|congruence|congruence| |exact Hw].
      rewrite Hlocked. intros p Hp. discriminate.
  - pose proof (singleLock_unlock_session w) as H.
    cbn zeta in H. destruct H as (_ & Hlocked & _ & _ & _ & _ & Hlive & Hrecords & _).
    apply (recordsDescribe_frame w); auto. rewrite Hlocked. intros p Hp. discriminate.
  - destruct (singleLock_mouseover_cases event w)
      as [Heq|(_ & _ & _ & Hsession & _)]; [rewrite Heq; exact Hw|].
    apply (recordsDescribe_frame w); rewrite ?Hsession; auto.
  - destruct (singleLock_mouseout_cases event w)
      as [Heq|(_ & _ & _ & Hsession & _)]; [rewrite Heq; exact Hw|].
    apply (recordsDescribe_frame w); rewrite ?Hsession; auto.
  - destruct (_annotationMode (session w)) eqn:Hmode;
      [|rewrite singleLock_click_off by exact Hmode; exact Hw].
    destruct (_elementLocked (session w)) eqn:Hlocked;
      [rewrite singleLock_click_ignored by auto; exact Hw|].
    pose proof (singleLock_click_select event w Hmode Hlocked) as H.
    destruct (SingleLock._annotationClickListener event w) as [[completion ev] w1].
    cbn [snd] in *. destruct H as (_ & _ & _ & Hcase).
    destruct Hcase as [(err & _ & _ & Hsession & _)|(d & _ & Hcapture & _ & Hsession & _)].
    + apply (recordsDescribe_frame w); rewrite ?Hsession; auto.
    + destruct Hw as [Hsecondary Hprimary]. unfold recordsDescribe. rewrite Hsession.
      session_simpl. split.
      * eapply Forall2_impl; [exact Hsecondary|]. intros record x.
        apply sameButClass_describes. exact Hsame.
      * intros p [= <-]. exists d. split; [reflexivity|].
        apply capture_describes, Hcapture.
Qed.

End Records.

(** X8. With either script, whatever is done on the page, also clicks on
    detached elements that end in an exception: each stored secondary record
    has the tag name, the id and the locator of the element stored at the
    same index, as the page has them now, and while an element is held as
    locked the selected record has the tag name, the id and the locator
    of that element. *)
Theorem records_describe_elements (ops : list Operation) (w : World) :
  recordsDescribe w →
  recordsDescribe (performAll ops w) ∧ recordsDescribe (performAllSingle ops w).
Proof.
  intros Hw. split; revert w Hw; induction ops as [|op ops IH]; intros w Hw;
    try exact Hw.
  - apply (IH (perform op w)). apply perform_recordsDescribe. exact Hw.
  - apply (IH (performSingle op w)). apply performSingle_recordsDescribe. exact Hw.
Qed.

(** The sample page under the dual-role script: after a primary and a
    secondary selection and further hover events, the locator of the
    selected record is the locator of the locked element. *)
Lemma records_describe_elements_witness :
  let ops := [Inject; SetAnnotationMode (Boolean true);
              ClickEvent (mkEvent 4 false false); ClickEvent (mkEvent 7 false false);
              MouseoverEvent (mkEvent 8 false false)] in
  let w1 := performAll ops (freshWorld sampleDocument) in
  _lockedElement (session w1) = Some 4
  ∧ ∃ d, _selectedElement (session w1) = Some d
         ∧ getXPath (document w1) 4 = Return (c_xpath d).
Proof.
  intros ops w1.
  assert (Hw : recordsDescribe (freshWorld sampleDocument))
    by (apply recordsDescribe_cleared; reflexivity).
  destruct (records_describe_elements ops (freshWorld sampleDocument) Hw)
    as [[_ Hlocked] _].
  assert (Hfour : _lockedElement (session w1) = Some 4) by (vm_compute; reflexivity).
  split; [exact Hfour|]. destruct (Hlocked 4 Hfour) as (d & Hd & e & _ & _ & _ & Hxpath).
  exists d. split; assumption.
Defined.

(** ** The states the single-lock script keeps *)

Section SingleLockStates.

Lemma performSingle_highlightTracked (op : Operation) (w : World) :
  highlightTracked ["annotation-locked"] w →
  (_elementLocked (session w) = true → ∀ r, highlighted w r = false) →
  let w1 := performSingle op w in
  highlightTracked ["annotation-locked"] w1
  ∧ (_elementLocked (session w1) = true → ∀ r, highlighted w1 r = false).
Proof.
  intros Hw Hquiet. destruct op as [|enabled| |event|event|event]; cbn [performSingle].
  - rewrite (proj2 (dualRole_setup_done w (proj1 Hw))). split; assumption.
  - destruct (toBoolean enabled) eqn:Henabled.
    + rewrite singleLock_setAnnotationMode_on by exact Henabled. name_mode_set w v.
      split.
      * apply (highlightTracked_shrink _ w); [assumption..| |exact Hw].
        intros r c Hr. rewrite <- Hv_classes. exact Hr.
      * rewrite Hv_flag. intros Hlocked r. unfold highlighted. rewrite Hv_classes.
        apply Hquiet. exact Hlocked.
    + rewrite singleLock_setAnnotationMode_off by exact Henabled. name_mode_set w v.
      pose proof (singleLock_unlock_session v) as Hsession.
      pose proof (singleLock_unlock_frame v) as [Hflag _].
      pose proof (singleLock_unlock_contains v) as Hclasses.
      cbn zeta in Hsession.
      destruct Hsession as (_ & _ & Hlocked & _ & _ & Hcurrent & _).
      set (u := snd (SingleLock.unlockElement v)) in *. clearbody u.
      split; [|rewrite Hlocked; discriminate].
      apply (highlightTracked_shrink _ w);
        [exact (eq_trans Hflag Hv_done)|exact (eq_trans Hcurrent Hv_current)| |exact Hw].
      intros r c Hr. apply Hclasses in Hr as [Hr _]. rewrite <- Hv_classes. exact Hr.
  - pose proof (singleLock_unlock_session w) as Hsession. cbn zeta in Hsession.
    destruct Hsession as (_ & _ & Hlocked & _ & _ & Hcurrent & _).
    split; [|rewrite Hlocked; discriminate].
    apply (highlightTracked_shrink _ w);
      [apply singleLock_unlock_frame|exact Hcurrent| |exact Hw].
    intros r c Hr. apply singleLock_unlock_contains in Hr as [Hr _]. exact Hr.
  - destruct (singleLock_mouseover_cases event w)
      as [->|(_ & Hunlocked & Hl & Hsession & Hflag & _ & Hclasses)];
      [split; assumption|].
    split; [|rewrite Hsession; session_simpl; congruence].
    destruct Hw as [Hdone Hw]. split; [congruence|]. intros r Hr.
    rewrite Hsession. session_simpl.
    assert (Hx : r = target event).
    { apply Hclasses in Hr as [[Hr Hn]|[Hx _]]; [|exact Hx].
      destruct (decide (r = target event)) as [Hx|Hx]; [exact Hx|].
      exfalso. apply Hn. split; [reflexivity|]. split; [apply Hw, Hr|exact Hx]. }
    subst r. split; [reflexivity|]. intros c Hin.
    apply list_elem_of_singleton in Hin as ->.
    destruct (classContains (target event) "annotation-locked"
                (SingleLock._annotationMouseoverListener event w)) eqn:Hclass;
      [|reflexivity].
    apply Hclasses in Hclass as [[Hclass _]|(_ & Hc & _)]; [congruence|discriminate].
  - destruct (singleLock_mouseout_cases event w)
      as [->|(_ & Hunlocked & Hcurrent & Hsession & Hflag & _ & Hclasses)];
      [split; assumption|].
    split; [|rewrite Hsession; session_simpl; congruence].
    destruct Hw as [Hdone Hw]. split; [congruence|]. intros r Hr.
    apply Hclasses in Hr as [Hr Hn]. destruct (Hw r Hr) as [Hc _].
    exfalso. apply Hn. split; congruence.
  - destruct (_annotationMode (session w)) eqn:Hmode;
      [|rewrite singleLock_click_off by exact Hmode; (split; [exact Hw|cbn [snd]; intros H; apply Hquiet; first [exact H|reflexivity]])].
    destruct (_elementLocked (session w)) eqn:Hlocked;
      [rewrite singleLock_click_ignored by auto; (split; [exact Hw|cbn [snd]; intros H; apply Hquiet; first [exact H|reflexivity]])|].
    pose proof (singleLock_click_select event w Hmode Hlocked) as H.
    destruct (SingleLock._annotationClickListener event w) as [[completion ev] w1].
    cbn [snd]. destruct H as (_ & Hflag & Hclasses & _).
    assert (Hnone : ∀ r, highlighted w1 r = false).
    { intros r. apply classContains_false. intros Hr.
      apply Hclasses in Hr as [[Hr Hn]|(_ & Hc & _)]; [|discriminate].
      apply Hn. split; [reflexivity|]. right. apply Hw, Hr. }
    split; [|intros _; exact Hnone].
    split; [rewrite Hflag; apply Hw|]. intros r Hr. rewrite Hnone in Hr. discriminate.
Qed.

Lemma singleLock_click_returns (event : Event) (w : World) (err : Error) :
  wellTargeted (document w) (ClickEvent event) →
  capture (document (snd (SingleLock._annotationClickListener event w))) (target event)
  ≠ Throw err.
Proof.
  intros Hop.
  apply (wellTargeted_sameButClass _ _ _ (performSingle_sameButClass (ClickEvent event) w))
    in Hop.
  destruct Hop as [He Ha]. destruct (capture_attached _ _ He Ha) as [d Hd].
  cbn [performSingle] in Hd. rewrite Hd. discriminate.
Qed.

(** After an unlock no element carries the locked class. *)
Lemma singleLock_unlock_lockOwned (w : World) :
  lockOwned "annotation-locked" w →
  lockOwned "annotation-locked" (snd (SingleLock.unlockElement w))
  ∧ ∀ r, classContains r "annotation-locked" (snd (SingleLock.unlockElement w)) = false.
Proof.
  intros (Hdone & Hprimary & Hlocked).
  assert (Hnone : ∀ r, classContains r "annotation-locked"
                         (snd (SingleLock.unlockElement w)) = false).
  { intros r. apply classContains_false. intros Hr.
    apply singleLock_unlock_contains in Hr as (Hr & Hn).
    apply Hn. split; [reflexivity|apply Hprimary, Hr]. }
  split; [|exact Hnone].
  pose proof (singleLock_unlock_session w) as Hsession. cbn zeta in Hsession.
  destruct Hsession as (_ & Hl & _).
  unfold lockOwned. rewrite Hl, (proj1 (singleLock_unlock_frame w)).
  split; [exact Hdone|]. split; [|intros p Hp; discriminate].
  intros r Hr. rewrite Hnone in Hr. discriminate.
Qed.

Lemma singleLock_setAnnotationMode_lockOwned (enabled : Value) (w : World) :
  lockOwned "annotation-locked" w →
  lockOwned "annotation-locked" (SingleLock.setAnnotationMode enabled w)
  ∧ (toBoolean enabled = false →
     ∀ r, classContains r "annotation-locked" (SingleLock.setAnnotationMode enabled w)
          = false).
Proof.
  intros Hw. destruct (toBoolean enabled) eqn:Henabled.
  - rewrite singleLock_setAnnotationMode_on by exact Henabled. name_mode_set w v.
    split; [|discriminate].
    apply (lockOwned_frame _ w); [assumption..| |exact Hw]. intros r.
    rewrite Hv_classes. reflexivity.
  - rewrite singleLock_setAnnotationMode_off by exact Henabled. name_mode_set w v.
    destruct (singleLock_unlock_lockOwned v) as [Howned Hnone].
    { apply (lockOwned_frame _ w); [assumption..| |exact Hw]. intros r.
      rewrite Hv_classes. reflexivity. }
    split; [exact Howned|intros _; exact Hnone].
Qed.

Lemma performSingle_lockOwned (op : Operation) (w : World) :
  wellTargeted (document w) op →
  lockOwned "annotation-locked" w → lockOwned "annotation-locked" (performSingle op w).
Proof.
  intros Hop Hw. destruct op as [|enabled| |event|event|event]; cbn [performSingle].
  - rewrite (proj2 (dualRole_setup_done w (proj1 Hw))). exact Hw.
  - apply singleLock_setAnnotationMode_lockOwned. exact Hw.
  - apply singleLock_unlock_lockOwned. exact Hw.
  - destruct (singleLock_mouseover_cases event w)
      as [->|(_ & _ & _ & Hsession & Hflag & _ & Hclasses)]; [exact Hw|].
    apply (lockOwned_frame _ w); rewrite ?Hsession; auto.
    intros r. rewrite Hclasses. split.
    + intros [[Hr _]|(_ & Hc & _)]; [exact Hr|discriminate].
    + intros Hr. left. split; [exact Hr|]. intros [Hc _]. discriminate.
  - destruct (singleLock_mouseout_cases event w)
      as [->|(_ & _ & _ & Hsession & Hflag & _ & Hclasses)]; [exact Hw|].
    apply (lockOwned_frame _ w); rewrite ?Hsession; auto.
    intros r. rewrite Hclasses. split; [intros [Hr _]; exact Hr|].
    intros Hr. split; [exact Hr|]. intros [_ Hc]. discriminate.
  - pose proof (singleLock_click_returns event w) as Hreturns.
    destruct (_annotationMode (session w)) eqn:Hmode;
      [|rewrite singleLock_click_off by exact Hmode; exact Hw].
    destruct (_elementLocked (session w)) eqn:Hflagged;
      [rewrite singleLock_click_ignored by auto; exact Hw|].
    pose proof Hw as (Hdone & Hprimary & Hlocked).
    pose proof (singleLock_click_select event w Hmode Hflagged) as H.
    destruct (SingleLock._annotationClickListener event w) as [[completion ev] w1].
    cbn [snd] in *. destruct H as (_ & Hflag & Hclasses & Hcase).
    destruct Hcase as [(err & _ & Hthrow & _)|(d & _ & _ & Helement & Hsession & _)];
      [destruct (Hreturns err Hop Hthrow)|].
    unfold lockOwned. rewrite Hflag, Hsession. session_simpl.
    split; [exact Hdone|]. split.
    + intros r Hr. apply Hclasses in Hr as [[Hr _]|(-> & _)]; [|reflexivity].
      apply Hprimary in Hr. destruct (Hlocked r Hr) as [H1 _]. congruence.
    + intros p [= <-]. split; [reflexivity|]. apply Hclasses. right. auto.
Qed.

Lemma performAllSingle_lockOwned (ops : list Operation) (w : World) :
  Forall (wellTargeted (document w)) ops →
  lockOwned "annotation-locked" w → lockOwned "annotation-locked" (performAllSingle ops w).
Proof.
  revert w. induction ops as [|op ops IH]; intros w Hops Hw; [exact Hw|].
  apply Forall_cons in Hops as [Hop Hops]. apply (IH (performSingle op w)).
  - eapply Forall_impl; [exact Hops|]. intros op'.
    apply wellTargeted_sameButClass, performSingle_sameButClass.
  - apply performSingle_lockOwned; assumption.
Qed.

End SingleLockStates.

(** X9. In the single-lock script, once the setup has run on a page
    where the highlight is on the tracked element at most and is absent
    while an element is locked, this stays so whatever is done: at most
    one element carries the highlight class, it is the element the session
    tracks and has not the locked class, and while the locked flag is set
    no element of the page is highlighted. *)
Theorem singleLock_highlight_tracked (ops : list Operation) (w : World) :
  highlightTracked ["annotation-locked"] w →
  (_elementLocked (session w) = true → ∀ r, highlighted w r = false) →
  let w1 := performAllSingle ops w in
  highlightTracked ["annotation-locked"] w1
  ∧ (∀ r r', highlighted w1 r = true → highlighted w1 r' = true → r = r')
  ∧ (_elementLocked (session w1) = true → ∀ r, highlighted w1 r = false).
Proof.
  intros Hw Hquiet w1.
  assert (H1 : highlightTracked ["annotation-locked"] w1
               ∧ (_elementLocked (session w1) = true → ∀ r, highlighted w1 r = false)).
  { unfold w1. clear w1. revert w Hw Hquiet.
    induction ops as [|op ops' IH]; intros w Hw Hquiet; [split; assumption|].
    destruct (performSingle_highlightTracked op w Hw Hquiet) as [H1 H2].
    apply (IH (performSingle op w)); assumption. }
  destruct H1 as [H1 H2]. split; [exact H1|]. split; [|exact H2].
  intros r r' Hr Hr'. destruct H1 as [_ H1].
  destruct (H1 r Hr) as [Hc _]. destruct (H1 r' Hr') as [Hc' _]. congruence.
Qed.

(** The sample page: the pointer enters the [div], and the first [li] is
    clicked; nothing is highlighted any more. *)
Lemma singleLock_highlight_tracked_witness :
  let w := SingleLock.setup (freshWorld sampleDocument) in
  let ops := [SetAnnotationMode (Boolean true); MouseoverEvent (mkEvent 4 false false);
              ClickEvent (mkEvent 7 false false); MouseoverEvent (mkEvent 8 false false)] in
  highlighted (performAllSingle [SetAnnotationMode (Boolean true);
                                 MouseoverEvent (mkEvent 4 false false)] w) 4 = true
  ∧ _lockedElement (session (performAllSingle ops w)) = Some 7
  ∧ ∀ r, highlighted (performAllSingle ops w) r = false.
Proof.
  intros w ops.
  assert (Hw : highlightTracked ["annotation-locked"] w).
  { unfold w. split; [reflexivity|]. intros r Hr. unfold highlighted in Hr.
    rewrite (proj2 (sample_injected_classes r "annotation-highlight")) in Hr.
    discriminate. }
  assert (Hquiet : _elementLocked (session w) = true → ∀ r, highlighted w r = false)
    by (intros H; vm_compute in H; discriminate).
  destruct (singleLock_highlight_tracked ops w Hw Hquiet) as (_ & _ & Hnone).
  split; [vm_compute; reflexivity|]. split; [vm_compute; reflexivity|].
  apply Hnone. vm_compute. reflexivity.
Defined.

(** X10. In the single-lock script, once the setup has run and the
    locked class is on the element the session holds as locked and on no
    other, this stays so whatever is done, when every click is on an
    element attached under the document: at most one element carries the
    locked class, and it is held only while the locked flag is set; a
    call of [unlockElement], and a call of [setAnnotationMode] with a
    falsy argument, leave no element of the page with the locked class. *)
Theorem singleLock_lock_owned (ops : list Operation) (w : World) :
  Forall (wellTargeted (document w)) ops →
  lockOwned "annotation-locked" w →
  let w1 := performAllSingle ops w in
  lockOwned "annotation-locked" w1
  ∧ (∀ r r', classContains r "annotation-locked" w1 = true →
             classContains r' "annotation-locked" w1 = true → r = r')
  ∧ (∀ r, classContains r "annotation-locked" (snd (SingleLock.unlockElement w1)) = false)
  ∧ (∀ enabled r, toBoolean enabled = false →
                  classContains r "annotation-locked"
                    (SingleLock.setAnnotationMode enabled w1) = false).
Proof.
  intros Hops Hw w1. pose proof (performAllSingle_lockOwned ops w Hops Hw) as H1.
  fold w1 in H1. split; [exact H1|]. split; [|split].
  - destruct H1 as (_ & Hprimary & _). intros r r' Hr Hr'.
    apply Hprimary in Hr, Hr'. congruence.
  - apply singleLock_unlock_lockOwned. exact H1.
  - intros enabled r Henabled.
    apply (proj2 (singleLock_setAnnotationMode_lockOwned enabled w1 H1)). exact Henabled.
Qed.

(** The sample page: the first [li] is locked, a click on the second is
    ignored, and the locked class is on the first alone. *)
Lemma singleLock_lock_owned_witness :
  let w := SingleLock.setup (freshWorld sampleDocument) in
  let ops := [SetAnnotationMode (Boolean true); ClickEvent (mkEvent 7 false false);
              ClickEvent (mkEvent 8 false false)] in
  classContains 7 "annotation-locked" (performAllSingle ops w) = true
  ∧ (∀ r, classContains r "annotation-locked" (performAllSingle ops w) = true → r = 7)
  ∧ ∀ r, classContains r "annotation-locked"
           (snd (SingleLock.unlockElement (performAllSingle ops w))) = false.
Proof.
  intros w ops.
  assert (Hw : lockOwned "annotation-locked" w).
  { unfold w. split; [reflexivity|split].
    - intros r Hr. rewrite (proj2 (sample_injected_classes r _)) in Hr. discriminate.
    - intros p Hp. vm_compute in Hp. discriminate. }
  assert (Hops : Forall (wellTargeted (document w)) ops).
  { repeat constructor.
    - eexists. vm_compute. reflexivity.
    - exists 4. vm_compute. reflexivity.
    - eexists. vm_compute. reflexivity.
    - exists 4. vm_compute. reflexivity. }
  destruct (singleLock_lock_owned ops w Hops Hw) as (_ & Hone & Hunlock & _).
  assert (Hseven : classContains 7 "annotation-locked" (performAllSingle ops w) = true)
    by (vm_compute; reflexivity).
  split; [exact Hseven|]. split; [|exact Hunlock].
  intros r Hr. exact (Hone r 7 Hr Hseven).
Defined.

(** ** Clicks that end in an exception *)

Section ClickThrows.

Lemma capture_throws (doc : Document) (x : NodeRef) (err : Error) :
  is_Some (elementOf doc x) → getXPath doc x = Throw err → capture doc x = Throw err.
Proof. intros [e He] Hx. unfold capture. rewrite He, Hx. reflexivity. Qed.

Lemma capture_throws_after (d d' : Document) (x : NodeRef) (err : Error) :
  sameButClass d d' → is_Some (elementOf d x) → getXPath d x = Throw err →
  capture d' x = Throw err.
Proof.
  intros Hsame He Hx. apply capture_throws.
  - apply (sameButClass_is_element _ _ Hsame). exact He.
  - rewrite (sameButClass_getXPath _ _ Hsame). exact Hx.
Qed.

End ClickThrows.

(** X11. In the dual-role script, a first click in annotation mode on an
    element whose locator cannot be computed (a detached element without
    id) ends in the exception of [getXPath], after the handler has
    cancelled the event, set the locked flag and put the primary class on
    the element: no record and no element reference is stored and nothing
    is logged or sent, and a later [unlockElement] leaves the primary
    class on that element. *)
Theorem dualRole_click_throws (event : Event) (w : World) (err : Error) :
  _annotationMode (session w) = true → _elementLocked (session w) = false →
  is_Some (elementOf (document w) (target event)) →
  getXPath (document w) (target event) = Throw err →
  let '(completion, ev, w1) := DualRole._annotationClickListener event w in
  completion = Throw err
  ∧ defaultPrevented ev = true ∧ propagationStopped ev = true
  ∧ session w1 = session (setElementLocked true w)
  ∧ output w1 = output w
  ∧ classContains (target event) "annotation-primary" w1 = true
  ∧ (_lockedElement (session w) ≠ Some (target event) →
     classContains (target event) "annotation-primary" (snd (DualRole.unlockElement w1))
     = true).
Proof.
  intros Hmode Hlocked He Hx.
  pose proof (perform_sameButClass (ClickEvent event) w) as Hsame. cbn [perform] in Hsame.
  pose proof (dualRole_click_primary event w Hmode Hlocked) as H.
  destruct (DualRole._annotationClickListener event w) as [[completion ev] w1].
  cbn [snd] in Hsame. destruct H as (-> & _ & Hclasses & Hcase).
  pose proof (capture_throws_after _ _ _ _ Hsame He Hx) as Hthrow.
  destruct Hcase as [(err' & -> & Hcapture & Hsession & Houtput)|(d & _ & Hcapture & _)];
    [|congruence].
  assert (Hprimary : classContains (target event) "annotation-primary" w1 = true)
    by (apply Hclasses; right; auto).
  split; [congruence|]. split; [reflexivity|]. split; [reflexivity|].
  split; [exact Hsession|]. split; [exact Houtput|]. split; [exact Hprimary|].
  intros Hother. apply dualRole_unlock_contains. split; [exact Hprimary|]. split.
  - intros [_ Hl]. rewrite Hsession in Hl. apply Hother. exact Hl.
  - intros [Hc _]. discriminate.
Qed.

(** A click on the detached [div] of the sample page. *)
Lemma dualRole_click_throws_witness :
  let w := setMode true (freshWorld sampleDocument) in
  let w1 := snd (DualRole._annotationClickListener (mkEvent 10 false false) w) in
  _elementLocked (session w1) = true ∧ _lockedElement (session w1) = None
  ∧ classContains 10 "annotation-primary" (snd (DualRole.unlockElement w1)) = true.
Proof.
  intros w w1.
  assert (He : is_Some (elementOf (document w) 10)) by (eexists; vm_compute; reflexivity).
  assert (Hx : getXPath (document w) 10 = Throw TypeError) by (vm_compute; reflexivity).
  pose proof (dualRole_click_throws (mkEvent 10 false false) w TypeError
                eq_refl eq_refl He Hx) as H.
  unfold w1. destruct (DualRole._annotationClickListener (mkEvent 10 false false) w)
    as [[completion ev] w2].
  cbn [snd]. destruct H as (_ & _ & _ & Hsession & _ & _ & Hstale).
  rewrite Hsession. split; [reflexivity|]. split; [reflexivity|].
  apply Hstale. discriminate.
Defined.

(** X12. In the single-lock script, a click in annotation mode with
    nothing locked on an element whose locator cannot be computed ends in
    the exception of [getXPath], after the handler has cancelled the
    event, set the locked flag and put the locked class on the element: no
    record and no element reference is stored and nothing is logged or
    sent; every later click and hover event is ignored until
    [unlockElement] is called, which leaves the locked class on that
    element. *)
Theorem singleLock_click_throws (event : Event) (w : World) (err : Error) :
  _annotationMode (session w) = true → _elementLocked (session w) = false →
  is_Some (elementOf (document w) (target event)) →
  getXPath (document w) (target event) = Throw err →
  let '(completion, ev, w1) := SingleLock._annotationClickListener event w in
  completion = Throw err
  ∧ defaultPrevented ev = true ∧ propagationStopped ev = true
  ∧ session w1 = session (setElementLocked true w)
  ∧ output w1 = output w
  ∧ classContains (target event) "annotation-locked" w1 = true
  ∧ (∀ later, snd (SingleLock._annotationClickListener later w1) = w1
              ∧ SingleLock._annotationMouseoverListener later w1 = w1
              ∧ SingleLock._annotationMouseoutListener later w1 = w1)
  ∧ (_lockedElement (session w) ≠ Some (target event) →
     classContains (target event) "annotation-locked" (snd (SingleLock.unlockElement w1))
     = true).
Proof.
  intros Hmode Hlocked He Hx.
  pose proof (performSingle_sameButClass (ClickEvent event) w) as Hsame.
  cbn [performSingle] in Hsame.
  pose proof (singleLock_click_select event w Hmode Hlocked) as H.
  destruct (SingleLock._annotationClickListener event w) as [[completion ev] w1].
  cbn [snd] in Hsame. destruct H as (-> & _ & Hclasses & Hcase).
  pose proof (capture_throws_after _ _ _ _ Hsame He Hx) as Hthrow.
  destruct Hcase as [(err' & -> & Hcapture & Hsession & Houtput)|(d & _ & Hcapture & _)];
    [|congruence].
  assert (Hrole : classContains (target event) "annotation-locked" w1 = true)
    by (apply Hclasses; right; auto).
  assert (Hmode1 : _annotationMode (session w1) = true) by (rewrite Hsession; exact Hmode).
  assert (Hlocked1 : _elementLocked (session w1) = true) by (rewrite Hsession; reflexivity).
  split; [congruence|]. split; [reflexivity|]. split; [reflexivity|].
  split; [exact Hsession|]. split; [exact Houtput|]. split; [exact Hrole|]. split.
  - intros later. split; [|split].
    + rewrite singleLock_click_ignored by assumption. reflexivity.
    + unfold SingleLock._annotationMouseoverListener. rewrite Hmode1, Hlocked1. reflexivity.
    + unfold SingleLock._annotationMouseoutListener. rewrite Hmode1, Hlocked1. reflexivity.
  - intros Hother. apply singleLock_unlock_contains. split; [exact Hrole|].
    intros [_ Hl]. rewrite Hsession in Hl. apply Hother. exact Hl.
Qed.

(** A click on the detached [div] of the sample page. *)
Lemma singleLock_click_throws_witness :
  let w := setMode true (freshWorld sampleDocument) in
  let w1 := snd (SingleLock._annotationClickListener (mkEvent 10 false false) w) in
  _elementLocked (session w1) = true ∧ _lockedElement (session w1) = None
  ∧ classContains 10 "annotation-locked" (snd (SingleLock.unlockElement w1)) = true.
Proof.
  intros w w1.
  assert (He : is_Some (elementOf (document w) 10)) by (eexists; vm_compute; reflexivity).
  assert (Hx : getXPath (document w) 10 = Throw TypeError) by (vm_compute; reflexivity).
  pose proof (singleLock_click_throws (mkEvent 10 false false) w TypeError
                eq_refl eq_refl He Hx) as H.
  unfold w1. destruct (SingleLock._annotationClickListener (mkEvent 10 false false) w)
    as [[completion ev] w2].
  cbn [snd]. destruct H as (_ & _ & _ & Hsession & _ & _ & _ & Hstale).
  rewrite Hsession. split; [reflexivity|]. split; [reflexivity|].
  apply Hstale. discriminate.
Defined.

(** ** While the annotation mode is off *)

Section ModeOff.

Lemma performSingle_off (op : Operation) (w : World) :
  _annotationMode (session w) = false → pageEvent op → performSingle op w = w.
Proof.
  intros Hmode Hop. destruct op as [|enabled| |event|event|event]; try contradiction;
    cbn [performSingle].
  - unfold SingleLock._annotationMouseoverListener. rewrite Hmode. reflexivity.
  - unfold SingleLock._annotationMouseoutListener. rewrite Hmode. reflexivity.
  - rewrite singleLock_click_off by exact Hmode. reflexivity.
Qed.

Lemma perform_off (op : Operation) (w : World) :
  _annotationMode (session w) = false → pageEvent op →
  perform op w = w
  ∨ ∃ x, _currentHighlightedElement (session w) = Some x
         ∧ perform op w
           = setCurrentHighlightedElement None (classRemove x "annotation-highlight" w).
Proof.
  intros Hmode Hop. destruct op as [|enabled| |event|event|event]; try contradiction;
    cbn [perform].
  - left. unfold DualRole._annotationMouseoverListener. rewrite Hmode. reflexivity.
  - unfold DualRole._annotationMouseoutListener.
    destruct (bool_decide _) eqn:Hcurrent; [|left; reflexivity].
    apply bool_decide_eq_true_1 in Hcurrent. right. exists (target event).
    split; [congruence|reflexivity].
  - left. rewrite dualRole_click_off by exact Hmode. reflexivity.
Qed.

Lemma performAll_off_untracked (ops : list Operation) (w : World) :
  _annotationMode (session w) = false → _currentHighlightedElement (session w) = None →
  Forall pageEvent ops → performAll ops w = w.
Proof.
  intros Hmode Hcurrent Hops. induction Hops as [|op ops Hop Hops IH]; [reflexivity|].
  cbn [performAll fold_left].
  destruct (perform_off op w Hmode Hop) as [->|(x & Hx & _)]; [exact IH|congruence].
Qed.

End ModeOff.

(** X13. While the annotation mode is off, the mouseover, mouseout and
    click events of the page change nothing at all under the single-lock
    script; under the dual-role script, whose mouseout listener does not
    look at the mode, they change nothing or take the highlight from the
    tracked element and forget it; and under both a click is left to the
    page (the event is neither cancelled nor stopped, nothing is logged
    or sent). *)
Theorem mode_off_inert (ops : list Operation) (w : World) :
  _annotationMode (session w) = false → Forall pageEvent ops →
  performAllSingle ops w = w
  ∧ (performAll ops w = w
     ∨ ∃ x, _currentHighlightedElement (session w) = Some x
            ∧ performAll ops w
              = setCurrentHighlightedElement None (classRemove x "annotation-highlight" w))
  ∧ ∀ event,
      DualRole._annotationClickListener event (performAll ops w)
      = (Return tt, event, performAll ops w)
      ∧ SingleLock._annotationClickListener event (performAllSingle ops w)
        = (Return tt, event, performAllSingle ops w).
Proof.
  intros Hmode Hops.
  assert (Hsingle : performAllSingle ops w = w).
  { induction Hops as [|op ops Hop Hops IH]; [reflexivity|].
    cbn [performAllSingle fold_left]. rewrite performSingle_off by assumption. exact IH. }
  assert (Hdual : performAll ops w = w
                  ∨ ∃ x, _currentHighlightedElement (session w) = Some x
                         ∧ performAll ops w
                           = setCurrentHighlightedElement None
                               (classRemove x "annotation-highlight" w)).
  { clear Hsingle. induction Hops as [|op ops Hop Hops IH]; [left; reflexivity|].
    cbn [performAll fold_left].
    destruct (perform_off op w Hmode Hop) as [->|(x & Hx & ->)]; [exact IH|].
    right. exists x. split; [exact Hx|].
    apply performAll_off_untracked; [exact Hmode|reflexivity|exact Hops]. }
  split; [exact Hsingle|]. split; [exact Hdual|]. intros event. split.
  - apply dualRole_click_off. destruct Hdual as [->|(x & _ & ->)]; exact Hmode.
  - apply singleLock_click_off. rewrite Hsingle. exact Hmode.
Qed.

(** The first [li] of the sample page is highlighted, the mode is
    switched off, and the pointer leaves the element. *)
Lemma mode_off_inert_witness :
  let w0 := DualRole._annotationMouseoverListener (mkEvent 7 false false)
              (setMode true (freshWorld sampleDocument)) in
  let w := DualRole.setAnnotationMode (Boolean false) w0 in
  let ops := [MouseoverEvent (mkEvent 4 false false); MouseoutEvent (mkEvent 7 false false);
              ClickEvent (mkEvent 4 false false)] in
  highlighted w 7 = true
  ∧ performAllSingle ops w = w
  ∧ highlighted (performAll ops w) 7 = false.
Proof.
  intros w0 w ops.
  assert (Hmode : _annotationMode (session w) = false) by reflexivity.
  assert (Hops : Forall pageEvent ops) by (repeat constructor).
  destruct (mode_off_inert ops w Hmode Hops) as (Hsingle & _ & _).
  split; [vm_compute; reflexivity|]. split; [exact Hsingle|]. vm_compute. reflexivity.
Defined.

(** ** The style element and the cursor *)

Section Chrome.

Lemma forEachRemove_chrome (c : string) (l : list NodeRef) (w : World) :
  bodyCursor (document (forEachRemove c l w)) = bodyCursor (document w)
  ∧ annotationStyles (document (forEachRemove c l w)) = annotationStyles (document w).
Proof.
  revert w. induction l as [|x l IH]; intros w; [split; reflexivity|].
  destruct (IH (classRemove x c w)) as [Hcursor Hstyles]. split; assumption.
Qed.

Lemma unlock_chrome (w : World) :
  (bodyCursor (document (snd (DualRole.unlockElement w))) = bodyCursor (document w)
   ∧ annotationStyles (document (snd (DualRole.unlockElement w)))
     = annotationStyles (document w)
   ∧ _annotationMode (session (snd (DualRole.unlockElement w)))
     = _annotationMode (session w)
   ∧ _annotationSetupDone (snd (DualRole.unlockElement w)) = _annotationSetupDone w)
  ∧ (bodyCursor (document (snd (SingleLock.unlockElement w))) = bodyCursor (document w)
     ∧ annotationStyles (document (snd (SingleLock.unlockElement w)))
       = annotationStyles (document w)
     ∧ _annotationMode (session (snd (SingleLock.unlockElement w)))
       = _annotationMode (session w)
     ∧ _annotationSetupDone (snd (SingleLock.unlockElement w)) = _annotationSetupDone w).
Proof.
  split.
  - pose proof (dualRole_unlock_session w) as H. cbn zeta in H.
    destruct H as (_ & _ & _ & _ & _ & _ & Hmode & _ & Hcursor).
    split; [exact Hcursor|]. split; [|split; [exact Hmode|apply dualRole_unlock_frame]].
    unfold DualRole.unlockElement. cbn [snd].
    set (w0 := match _lockedElement (session w) with
               | Some locked =>
                   setLockedElement None (classRemove locked "annotation-primary" w)
               | None => w
               end).
    assert (H0 : annotationStyles (document w0) = annotationStyles (document w))
      by (unfold w0; destruct (_lockedElement (session w)); reflexivity).
    clearbody w0. destruct (0 <? _); [|exact H0].
    session_simpl.
    rewrite (proj2 (forEachRemove_chrome "annotation-secondary" _ _)). exact H0.
  - pose proof (singleLock_unlock_session w) as H. cbn zeta in H.
    destruct H as (_ & _ & _ & _ & Hmode & _ & _ & _ & Hcursor & _).
    split; [exact Hcursor|]. split; [|split; [exact Hmode|apply singleLock_unlock_frame]].
    unfold SingleLock.unlockElement. cbn [snd].
    destruct (_lockedElement (session w)); reflexivity.
Qed.

Lemma event_chrome (op : Operation) (w : World) :
  pageEvent op →
  (bodyCursor (document (perform op w)) = bodyCursor (document w)
   ∧ annotationStyles (document (perform op w)) = annotationStyles (document w)
   ∧ _annotationMode (session (perform op w)) = _annotationMode (session w)
   ∧ _annotationSetupDone (perform op w) = _annotationSetupDone w)
  ∧ (bodyCursor (document (performSingle op w)) = bodyCursor (document w)
     ∧ annotationStyles (document (performSingle op w)) = annotationStyles (document w)
     ∧ _annotationMode (session (performSingle op w)) = _annotationMode (session w)
     ∧ _annotationSetupDone (performSingle op w) = _annotationSetupDone w).
Proof.
  intros Hop. destruct op as [|enabled| |event|event|event]; try contradiction;
    cbn [perform performSingle]; split.
  - unfold DualRole._annotationMouseoverListener.
    destruct (negb _); [repeat split|]. destruct (_ || _); [repeat split|].
    destruct (_currentHighlightedElement (session w)) as [current|];
      [destruct (bool_decide _)|]; repeat split.
  - unfold SingleLock._annotationMouseoverListener.
    destruct (_ || _); [repeat split|].
    destruct (classContains _ _ w); [repeat split|].
    destruct (_currentHighlightedElement (session w)) as [current|];
      [destruct (bool_decide _)|]; destruct (negb _); repeat split.
  - unfold DualRole._annotationMouseoutListener. destruct (bool_decide _); repeat split.
  - unfold SingleLock._annotationMouseoutListener.
    destruct (_ || _); [repeat split|]. destruct (_ && _); repeat split.
  - unfold DualRole._annotationClickListener.
    destruct (negb (_annotationMode _)) eqn:Hmode; [repeat split|].
    destruct (negb (_elementLocked _)).
    + destruct (capture _ _); repeat split.
    + destruct (_ && _); [|repeat split]. destruct (capture _ _); repeat split.
  - unfold SingleLock._annotationClickListener.
    destruct (negb (_annotationMode _)); [repeat split|].
    destruct (_elementLocked _); [repeat split|].
    destruct (_currentHighlightedElement (session w)) as [current|];
      destruct (capture _ _); repeat split.
Qed.

Lemma perform_pageChrome (op : Operation) (w : World) :
  pageChrome w → pageChrome (perform op w) ∧ pageChrome (performSingle op w).
Proof.
  intros Hw. pose proof Hw as (Hdone & Hstyles & Hcursor).
  destruct op as [|enabled| |event|event|event].
  - cbn [perform performSingle]. destruct (dualRole_setup_done w Hdone) as [-> ->].
    split; exact Hw.
  - cbn [perform performSingle]. destruct (toBoolean enabled) eqn:Henabled.
    + rewrite dualRole_setAnnotationMode_on, singleLock_setAnnotationMode_on
        by exact Henabled.
      name_mode_set w v. unfold pageChrome.
      rewrite Hv_done, Hv_styles, Hv_cursor, Hv_mode. repeat split; assumption.
    + rewrite dualRole_setAnnotationMode_off, singleLock_setAnnotationMode_off
        by exact Henabled.
      name_mode_set w v.
      destruct (unlock_chrome v) as [(Hc & Hs & Hm & Hf) (Hc' & Hs' & Hm' & Hf')].
      set (u := snd (DualRole.unlockElement v)) in *.
      set (u' := snd (SingleLock.unlockElement v)) in *. clearbody u u'.
      split; unfold pageChrome.
      * session_simpl. rewrite Hc, Hs, Hm, Hf, Hv_done, Hv_styles, Hv_cursor, Hv_mode.
        repeat split; assumption.
      * rewrite Hc', Hs', Hm', Hf', Hv_done, Hv_styles, Hv_cursor, Hv_mode.
        repeat split; assumption.
  - cbn [perform performSingle].
    destruct (unlock_chrome w) as [(Hc & Hs & Hm & Hf) (Hc' & Hs' & Hm' & Hf')].
    split; unfold pageChrome.
    + rewrite Hc, Hs, Hm, Hf. split; [exact Hdone|]. split; assumption.
    + rewrite Hc', Hs', Hm', Hf'. split; [exact Hdone|]. split; assumption.
  - destruct (event_chrome (MouseoverEvent event) w I)
      as [(Hc & Hs & Hm & Hf) (Hc' & Hs' & Hm' & Hf')].
    split; unfold pageChrome.
    + rewrite Hc, Hs, Hm, Hf. split; [exact Hdone|]. split; assumption.
    + rewrite Hc', Hs', Hm', Hf'. split; [exact Hdone|]. split; assumption.
  - destruct (event_chrome (MouseoutEvent event) w I)
      as [(Hc & Hs & Hm & Hf) (Hc' & Hs' & Hm' & Hf')].
    split; unfold pageChrome.
    + rewrite Hc, Hs, Hm, Hf. split; [exact Hdone|]. split; assumption.
    + rewrite Hc', Hs', Hm', Hf'. split; [exact Hdone|]. split; assumption.
  - destruct (event_chrome (ClickEvent event) w I)
      as [(Hc & Hs & Hm & Hf) (Hc' & Hs' & Hm' & Hf')].
    split; unfold pageChrome.
    + rewrite Hc, Hs, Hm, Hf. split; [exact Hdone|]. split; assumption.
    + rewrite Hc', Hs', Hm', Hf'. split; [exact Hdone|]. split; assumption.
Qed.

(** The first injection into a page with the default cursor and at most
    one style element of an earlier overlay. *)
Lemma setup_pageChrome (w : World) :
  _annotationSetupDone w = false → bodyCursor (document w) = EmptyString →
  length (annotationStyles (document w)) ≤ 1 →
  pageChrome (DualRole.setup w) ∧ pageChrome (SingleLock.setup w).
Proof.
  intros Hflag Hcursor Hstyles.
  assert (Hlength : length (tail (annotationStyles (document w)) ++ [fresh w]) = 1).
  { destruct (annotationStyles (document w)) as [|s [|s' l]]; [reflexivity..|].
    simpl in Hstyles. lia. }
  unfold DualRole.setup, SingleLock.setup. rewrite Hflag. unfold pageChrome.
  rewrite !document_flag, !session_flag.
  unfold DualRole.setupBody, SingleLock.setupBody.
  rewrite dualRole_attachListeners_document, dualRole_attachListeners_session.
  rewrite (proj1 (singleLock_attachListeners_frame _)),
    (proj2 (singleLock_attachListeners_frame _)).
  rewrite !removePreviousListeners_document, !removePreviousListeners_session.
  split; (split; [reflexivity|]; split; [exact Hlength|exact Hcursor]).
Qed.

End Chrome.

(** X14. With either script, once the setup has run and left one style
    element of the overlay in the page and the cursor of the body agrees
    with the annotation mode, this stays so whatever is done: there is
    exactly one such style element, and the cursor of the body is the
    crosshair while the mode is on and the default while it is off. *)
Theorem page_chrome_kept (ops : list Operation) (w : World) :
  pageChrome w → pageChrome (performAll ops w) ∧ pageChrome (performAllSingle ops w).
Proof.
  intros Hw. split; revert w Hw; induction ops as [|op ops IH]; intros w Hw;
    try exact Hw.
  - apply (IH (perform op w)). apply perform_pageChrome. exact Hw.
  - apply (IH (performSingle op w)). apply perform_pageChrome. exact Hw.
Qed.

(** The sample page: either script is injected, the mode is switched on,
    an element is selected, and the script is injected again. *)
Lemma page_chrome_kept_witness :
  let ops := [SetAnnotationMode (Boolean true); ClickEvent (mkEvent 4 false false); Inject] in
  let w1 := performAll ops (DualRole.setup (freshWorld sampleDocument)) in
  let w2 := performAllSingle ops (SingleLock.setup (freshWorld sampleDocument)) in
  (bodyCursor (document w1) = "crosshair" ∧ length (annotationStyles (document w1)) = 1)
  ∧ (bodyCursor (document w2) = "crosshair" ∧ length (annotationStyles (document w2)) = 1).
Proof.
  intros ops w1 w2.
  assert (Hstyles : length (annotationStyles (document (freshWorld sampleDocument))) ≤ 1)
    by (simpl; lia).
  destruct (setup_pageChrome (freshWorld sampleDocument) eq_refl eq_refl Hstyles)
    as [Hdual Hsingle].
  destruct (page_chrome_kept ops _ Hdual) as [(_ & Hs1 & Hc1) _].
  destruct (page_chrome_kept ops _ Hsingle) as [_ (_ & Hs2 & Hc2)].
  unfold w1, w2. split; (split; [|assumption]).
  - rewrite Hc1. vm_compute. reflexivity.
  - rewrite Hc2. vm_compute. reflexivity.
Defined.

(** ** What the class operations leave alone *)

Section ClassOperations.

Lemma classOperation_chrome (op : Operation) (w : World) :
  classOperation op →
  (bodyCursor (document (perform op w)) = bodyCursor (document w)
   ∧ annotationStyles (document (perform op w)) = annotationStyles (document w))
  ∧ (bodyCursor (document (performSingle op w)) = bodyCursor (document w)
     ∧ annotationStyles (document (performSingle op w)) = annotationStyles (document w)).
Proof.
  intros Hop.
  assert (Hevent : pageEvent op →
                   (bodyCursor (document (perform op w)) = bodyCursor (document w)
                    ∧ annotationStyles (document (perform op w))
                      = annotationStyles (document w))
                   ∧ (bodyCursor (document (performSingle op w)) = bodyCursor (document w)
                      ∧ annotationStyles (document (performSingle op w))
                        = annotationStyles (document w))).
  { intros Hpage.
    destruct (event_chrome op w Hpage) as [(Hc & Hs & _) (Hc' & Hs' & _)]. auto. }
  destruct op; try contradiction; try (apply Hevent; exact I).
  destruct (unlock_chrome w) as [(Hc & Hs & _) (Hc' & Hs' & _)].
  cbn [perform performSingle]. auto.
Qed.

Lemma classOperations_chrome (ops : list Operation) (w : World) :
  Forall classOperation ops →
  (bodyCursor (document (performAll ops w)) = bodyCursor (document w)
   ∧ annotationStyles (document (performAll ops w)) = annotationStyles (document w))
  ∧ (bodyCursor (document (performAllSingle ops w)) = bodyCursor (document w)
     ∧ annotationStyles (document (performAllSingle ops w))
       = annotationStyles (document w)).
Proof.
  intros Hops. revert w. induction Hops as [|op ops Hop Hops IH]; intros w.
  - split; split; reflexivity.
  - change (performAll (op :: ops) w) with (performAll ops (perform op w)).
    change (performAllSingle (op :: ops) w)
      with (performAllSingle ops (performSingle op w)).
    destruct (classOperation_chrome op w Hop) as [(Hc & Hs) (Hc' & Hs')].
    destruct (IH (perform op w)) as [(Hc1 & Hs1) _].
    destruct (IH (performSingle op w)) as [_ (Hc2 & Hs2)].
    rewrite Hc1, Hs1, Hc2, Hs2. auto.
Qed.

End ClassOperations.

(** X4. The operations that only change classes (unlocks, hover events
    and clicks, with either script) leave the rest of the page as it is:
    the nodes, their parents and child nodes, and the tag name, id, text,
    value, editability and attributes other than class of every element
    are as before, and so are the style elements of the overlay and the
    cursor of the body; hence every element has the locator it had, and
    is attached if and only if it was. *)
Theorem class_operations_keep_the_tree (ops : list Operation) (w : World) :
  Forall classOperation ops →
  (let w1 := performAll ops w in
   sameButClass (document w) (document w1)
   ∧ bodyCursor (document w1) = bodyCursor (document w)
   ∧ annotationStyles (document w1) = annotationStyles (document w)
   ∧ (∀ r, getXPath (document w1) r = getXPath (document w) r)
   ∧ (∀ r, attached (document w1) r ↔ attached (document w) r))
  ∧ (let w1 := performAllSingle ops w in
     sameButClass (document w) (document w1)
     ∧ bodyCursor (document w1) = bodyCursor (document w)
     ∧ annotationStyles (document w1) = annotationStyles (document w)
     ∧ (∀ r, getXPath (document w1) r = getXPath (document w) r)
     ∧ (∀ r, attached (document w1) r ↔ attached (document w) r)).
Proof.
  intros Hops.
  destruct (performAll_sameButClass ops w) as [Hdual Hsingle].
  destruct (classOperations_chrome ops w Hops) as [(Hc & Hs) (Hc' & Hs')].
  split; intros w1; (split; [assumption|]); (split; [assumption|]);
    (split; [assumption|]); split; intros r.
  - apply sameButClass_getXPath. exact Hdual.
  - apply sameButClass_attached. exact Hdual.
  - apply sameButClass_getXPath. exact Hsingle.
  - apply sameButClass_attached. exact Hsingle.
Qed.

(** The sample page with the mode on: an element is hovered and clicked,
    and the selection is unlocked. *)
Lemma class_operations_keep_the_tree_witness :
  let ops := [MouseoverEvent (mkEvent 7 false false); ClickEvent (mkEvent 7 false false);
              UnlockElement] in
  let w := setMode true (freshWorld sampleDocument) in
  Forall classOperation ops
  ∧ sameButClass (document w) (document (performAll ops w))
  ∧ sameButClass (document w) (document (performAllSingle ops w))
  ∧ getXPath (document (performAll ops w)) 7 = getXPath (document w) 7.
Proof.
  intros ops w.
  assert (Hops : Forall classOperation ops)
    by (unfold ops; repeat (apply Forall_cons; split; [exact I|]); apply Forall_nil_2).
  destruct (class_operations_keep_the_tree ops w Hops)
    as [(Hdual & _ & _ & Hxpath & _) (Hsingle & _)].
  split; [exact Hops|]. split; [exact Hdual|]. split; [exact Hsingle|apply Hxpath].
Defined.

(** ** The record of a primary selection *)

Section PrimaryRecord.

Lemma setAttribute_keys (k v : string) (attrs : list (string * string)) :
  map fst (setAttribute k v attrs)
  = if bool_decide (k ∈ map fst attrs) then map fst attrs else map fst attrs ++ [k].
Proof.
  induction attrs as [|[k0 v0] attrs IH]; [reflexivity|]. cbn [setAttribute map fst].
  destruct (String.eqb k0 k) eqn:Heq.
  - apply String.eqb_eq in Heq as ->.
    rewrite bool_decide_eq_true_2 by (apply elem_of_cons; auto). reflexivity.
  - apply String.eqb_neq in Heq. cbn [map fst]. rewrite IH.
    destruct (bool_decide (k ∈ map fst attrs)) eqn:Hin.
    + apply bool_decide_eq_true_1 in Hin.
      rewrite bool_decide_eq_true_2 by (apply elem_of_cons; auto). reflexivity.
    + apply bool_decide_eq_false_1 in Hin.
      rewrite bool_decide_eq_false_2; [reflexivity|].
      rewrite elem_of_cons. intros [H|H]; congruence.
Qed.

Lemma setAttribute_NoDup (k v : string) (attrs : list (string * string)) :
  NoDup (map fst attrs) → NoDup (map fst (setAttribute k v attrs)).
Proof.
  intros Hattrs. rewrite setAttribute_keys.
  destruct (bool_decide (k ∈ map fst attrs)) eqn:Hin; [exact Hattrs|].
  apply bool_decide_eq_false_1 in Hin. apply NoDup_app. split; [exact Hattrs|].
  split; [|apply NoDup_singleton].
  intros x Hx Hx'. apply list_elem_of_singleton in Hx'. congruence.
Qed.

Lemma setAttribute_self (k v : string) (attrs : list (string * string)) :
  (k, v) ∈ setAttribute k v attrs.
Proof.
  induction attrs as [|[k0 v0] attrs IH]; cbn [setAttribute].
  - apply list_elem_of_singleton. reflexivity.
  - destruct (String.eqb k0 k) eqn:Heq.
    + apply String.eqb_eq in Heq as ->. apply elem_of_cons. left. reflexivity.
    + apply elem_of_cons. right. exact IH.
Qed.

Lemma setAttribute_other (k v : string) (attrs : list (string * string)) (k' v' : string) :
  k' ≠ k → (k', v') ∈ setAttribute k v attrs ↔ (k', v') ∈ attrs.
Proof.
  intros Hne. induction attrs as [|[k0 v0] attrs IH]; cbn [setAttribute].
  - rewrite list_elem_of_singleton, elem_of_nil. split; [|contradiction].
    intros [= H _]. contradiction.
  - destruct (String.eqb k0 k) eqn:Heq.
    + apply String.eqb_eq in Heq as ->. rewrite !elem_of_cons.
      split; (intros [[= H _]|H]; [contradiction|right; exact H]).
    + rewrite !elem_of_cons, IH. reflexivity.
Qed.

Lemma updateTokens_attributes (tokens : list string) (e : Element) :
  (NoDup (map fst (attributes e)) → NoDup (map fst (attributes (updateTokens tokens e))))
  ∧ (∀ k v, k ≠ "class" →
            (k, v) ∈ attributes (updateTokens tokens e) ↔ (k, v) ∈ attributes e)
  ∧ (tokens ≠ [] → ("class", serialize tokens) ∈ attributes (updateTokens tokens e)).
Proof.
  cbn [updateTokens attributes].
  destruct (negb (hasAttribute "class" (attributes e)) && bool_decide (tokens = []))
    eqn:Hkeep.
  - apply andb_true_iff in Hkeep as [_ Hempty]. apply bool_decide_eq_true_1 in Hempty.
    split; [auto|]. split; [reflexivity|]. intros Hne. contradiction.
  - split; [apply setAttribute_NoDup|].
    split; [intros k v Hk; apply setAttribute_other; exact Hk|].
    intros _. apply setAttribute_self.
Qed.

Lemma tokens_marked (role : string) (tokens : list string) :
  role ≠ "annotation-highlight" →
  tokensAdd role (tokensRemove "annotation-highlight" tokens) ≠ []
  ∧ role ∈ tokensAdd role (tokensRemove "annotation-highlight" tokens)
  ∧ ("annotation-highlight" ∉ tokensAdd role (tokensRemove "annotation-highlight" tokens))
  ∧ ∀ c, c ≠ role → c ≠ "annotation-highlight" →
         (c ∈ tokensAdd role (tokensRemove "annotation-highlight" tokens) ↔ c ∈ tokens).
Proof.
  intros Hrole. unfold tokensAdd, tokensRemove.
  assert (Hin : role ∈ (if bool_decide (role ∈ filter (λ t, t ≠ "annotation-highlight") tokens)
                        then filter (λ t, t ≠ "annotation-highlight") tokens
                        else filter (λ t, t ≠ "annotation-highlight") tokens ++ [role])).
  { destruct (bool_decide _) eqn:H; [apply bool_decide_eq_true_1 in H; exact H|].
    apply elem_of_app. right. apply list_elem_of_singleton. reflexivity. }
  split; [intros Hnil; rewrite Hnil in Hin; apply elem_of_nil in Hin; exact Hin|].
  split; [exact Hin|]. split.
  - destruct (bool_decide _).
    + intros H. apply list_elem_of_filter in H as [H _]. apply H. reflexivity.
    + intros H. apply elem_of_app in H as [H|H].
      * apply list_elem_of_filter in H as [H _]. apply H. reflexivity.
      * apply list_elem_of_singleton in H. congruence.
  - intros c Hc Hh. destruct (bool_decide _).
    + rewrite list_elem_of_filter. tauto.
    + rewrite elem_of_app, list_elem_of_filter, list_elem_of_singleton. tauto.
Qed.

Lemma substring_length (start n : nat) (s : string) :
  String.length (String.substring start n s) ≤ n.
Proof.
  revert start n. induction s as [|c s IH]; intros start n.
  - destruct start, n; simpl; lia.
  - destruct start as [|start]; [destruct n as [|n]|]; simpl; [lia| |apply IH].
    specialize (IH 0 n). lia.
Qed.

Lemma capture_marked (doc : Document) (x : NodeRef) (role : string) (e : Element) :
  elementOf doc x = Some e → attached doc x →
  let tokens := tokensAdd role (tokensRemove "annotation-highlight" (classList e)) in
  ∃ d s, capture (add x role (remove x "annotation-highlight" doc)) x = Return d
         ∧ c_tagName d = tagName e ∧ c_id d = id e ∧ c_value d = value e
         ∧ c_xpath d = Some s ∧ getXPath doc x = Return (Some s)
         ∧ c_textContent d = substring0 100 (trim (textContent e))
         ∧ c_className d = serialize tokens
         ∧ c_attributes d
           = getAttributes
               (updateTokens tokens
                  (updateTokens (tokensRemove "annotation-highlight" (classList e)) e)).
Proof.
  intros He Hattached tokens. destruct (attached_getXPath doc x Hattached) as [s Hs].
  set (e1 := updateTokens (tokensRemove "annotation-highlight" (classList e)) e).
  assert (He2 : elementOf (add x role (remove x "annotation-highlight" doc)) x
                = Some (updateTokens tokens e1)).
  { unfold add, remove. rewrite !elementOf_updateElement.
    rewrite (bool_decide_eq_true_2 (x = x)) by reflexivity. rewrite He. reflexivity. }
  assert (Hx : getXPath (add x role (remove x "annotation-highlight" doc)) x
               = Return (Some s))
    by (rewrite getXPath_add, getXPath_remove; exact Hs).
  destruct (capture_returns _ _ _ _ He2 Hx)
    as (d & Hd & Htag & Hid & Hclass & Hvalue & Hxpath & Hattrs & Htext).
  exists d, s. split; [exact Hd|]. split; [exact Htag|]. split; [exact Hid|].
  split; [exact Hvalue|]. split; [exact Hxpath|]. split; [exact Hs|].
  split; [exact Htext|]. split; [exact Hclass|exact Hattrs].
Qed.

End PrimaryRecord.

(** X15. In the dual-role script, a click in annotation mode with nothing
    locked, on an element attached under the document whose attribute
    names are pairwise different: the handler returns, the event is
    cancelled and stopped, the element becomes the locked element and the
    record stored for it has the tag name, id, value and locator of the
    element; its text is at most 100 characters long; its class name is
    read after the overlay has changed the classes, so it lists the
    primary class and not the highlight class, and the other classes as
    the element had them; the attributes of the record hold this class
    name under the name class, and every other attribute as the element
    had it, but for an attribute named [__proto__], which the record does
    not hold; the record is logged and one request is sent to the primary
    endpoint. *)
Theorem dualRole_primary_record (event : Event) (w : World) (e : Element) :
  _annotationMode (session w) = true → _elementLocked (session w) = false →
  elementOf (document w) (target event) = Some e →
  attached (document w) (target event) →
  NoDup (map fst (attributes e)) →
  ∃ d w1 tokens s,
    DualRole._annotationClickListener event w
    = (Return tt, stopImmediatePropagation (preventDefault event), w1)
    ∧ _selectedElement (session w1) = Some d
    ∧ _lockedElement (session w1) = Some (target event)
    ∧ _elementLocked (session w1) = true
    ∧ c_tagName d = tagName e ∧ c_id d = id e ∧ c_value d = value e
    ∧ c_xpath d = Some s ∧ getXPath (document w) (target event) = Return (Some s)
    ∧ String.length (c_textContent d) ≤ 100
    ∧ c_className d = serialize tokens
    ∧ "annotation-primary" ∈ tokens ∧ ("annotation-highlight" ∉ tokens)
    ∧ (∀ c, c ≠ "annotation-primary" → c ≠ "annotation-highlight" →
            (c ∈ tokens ↔ c ∈ classList e))
    ∧ ("class", c_className d) ∈ c_attributes d
    ∧ (∀ k v, k ≠ "class" →
              ((k, v) ∈ c_attributes d ↔ (k, v) ∈ attributes e ∧ k ≠ "__proto__"))
    ∧ output w1
      = output w ++ [ConsoleLog "Selected primary element (golden):" (Some (LogJSON d));
                     Fetch "http://127.0.0.1:8080/api/notify-primary-selected"].
Proof.
  intros Hmode Hlocked He Hattached Hnames.
  destruct (capture_marked (document w) (target event) "annotation-primary" e He Hattached)
    as (d & s & Hd & Htag & Hid & Hvalue & Hxpath & Hs & Htext & Hclass & Hattrs).
  set (tokens := tokensAdd "annotation-primary"
                   (tokensRemove "annotation-highlight" (classList e))) in *.
  set (e1 := updateTokens (tokensRemove "annotation-highlight" (classList e)) e) in *.
  destruct (tokens_marked "annotation-primary" (classList e)) as (Hne & Hin & Hout & Hrest);
    [discriminate|]. fold tokens in Hne, Hin, Hout, Hrest.
  destruct (updateTokens_attributes (tokensRemove "annotation-highlight" (classList e)) e)
    as (Hnodup1 & Hother1 & _). fold e1 in Hnodup1, Hother1.
  destruct (updateTokens_attributes tokens e1) as (Hnodup2 & Hother2 & Hself).
  pose proof (getAttributes_elem _ (Hnodup2 (Hnodup1 Hnames))) as Hrecord.
  rewrite <- Hattrs in Hrecord.
  exists d.
  eexists. exists tokens, s. split.
  - unfold DualRole._annotationClickListener. rewrite Hmode, Hlocked.
    cbn [negb target stopImmediatePropagation preventDefault]. world_simpl.
    rewrite Hd. reflexivity.
  - session_simpl. split; [reflexivity|]. split; [reflexivity|]. split; [reflexivity|].
    split; [exact Htag|]. split; [exact Hid|]. split; [exact Hvalue|].
    split; [exact Hxpath|]. split; [exact Hs|].
    split; [rewrite Htext; apply substring_length|].
    split; [exact Hclass|]. split; [exact Hin|]. split; [exact Hout|].
    split; [exact Hrest|].
    split; [apply Hrecord; split; [rewrite Hclass; apply Hself, Hne|discriminate]|].
    split; [intros k v Hk; rewrite Hrecord, Hother2, Hother1 by exact Hk; reflexivity|].
    rewrite <- app_assoc. reflexivity.
Qed.

(** The first [li] of the sample page, hovered and then clicked. *)
Lemma dualRole_primary_record_witness :
  let w := DualRole._annotationMouseoverListener (mkEvent 7 false false)
             (setMode true (freshWorld sampleDocument)) in
  let w1 := snd (DualRole._annotationClickListener (mkEvent 7 false false) w) in
  highlighted w 7 = true
  ∧ ∃ d, _selectedElement (session w1) = Some d
         ∧ c_className d = "annotation-primary"
         ∧ c_xpath d = Some ("//*[@id=" +:+ quote +:+ "list" +:+ quote +:+ "]/li[1]").
Proof.
  intros w w1. split; [vm_compute; reflexivity|].
  assert (He : elementOf (document w) 7
               = Some (updateTokens ["annotation-highlight"] (sampleElement "LI" EmptyString)))
    by (vm_compute; reflexivity).
  assert (Hattached : attached (document w) 7) by (exists 4; vm_compute; reflexivity).
  assert (Hnames : NoDup (map fst (attributes
                     (updateTokens ["annotation-highlight"] (sampleElement "LI" EmptyString)))))
    by (vm_compute; apply NoDup_singleton).
  destruct (dualRole_primary_record (mkEvent 7 false false) w _ eq_refl eq_refl
              He Hattached Hnames)
    as (d & w2 & tokens & s & Hclick & Hselected & _ & _ & _ & _ & _ & Hxpath & Hs & _
        & Hclass & _).
  exists d. unfold w1. rewrite Hclick. cbn [snd]. split; [exact Hselected|].
  assert (Hd : _selectedElement (session w1) = Some d)
    by (unfold w1; rewrite Hclick; exact Hselected).
  vm_compute in Hd. injection Hd as <-. split; reflexivity.
Defined.

(** * Properties of the script that keeps links in the same tab *)

Section LinkAttributes.

Import NewTab.

Lemma getAttribute_removeAttribute (name removed : string) (e : Element) :
  getAttribute name (removeAttribute removed e)
  = if bool_decide (name = removed) then None else getAttribute name e.
Proof.
  unfold getAttribute, removeAttribute. cbn [attributes].
  induction (attributes e) as [|[k v] attrs IH].
  - destruct (bool_decide (name = removed)); reflexivity.
  - rewrite filter_cons. cbn [fst]. destruct (decide (k ≠ removed)) as [Hk|Hk].
    + cbn [find fst]. destruct (String.eqb k name) eqn:Heq.
      * apply String.eqb_eq in Heq as ->.
        rewrite bool_decide_eq_false_2 by exact Hk. reflexivity.
      * exact IH.
    + assert (Hsame : k = removed) by (destruct (decide (k = removed)); tauto).
      subst k. rewrite IH. cbn [find fst].
      destruct (bool_decide (name = removed)) eqn:Hname; [reflexivity|].
      apply bool_decide_eq_false_1 in Hname.
      destruct (String.eqb removed name) eqn:Heq; [|reflexivity].
      apply String.eqb_eq in Heq. congruence.
Qed.

Lemma removeAttribute_twice (name : string) (e : Element) :
  removeAttribute name (removeAttribute name e) = removeAttribute name e.
Proof.
  unfold removeAttribute. cbn. f_equal.
  induction (attributes e) as [|[k v] attrs IH]; [reflexivity|].
  rewrite filter_cons. destruct (decide (fst (k, v) ≠ name)) as [Hk|Hk]; [|exact IH].
  rewrite filter_cons. destruct (decide (fst (k, v) ≠ name)); [|contradiction].
  rewrite IH. reflexivity.
Qed.

Lemma removeAttribute_comm (name name' : string) (e : Element) :
  removeAttribute name (removeAttribute name' e)
  = removeAttribute name' (removeAttribute name e).
Proof.
  unfold removeAttribute. cbn. f_equal.
  induction (attributes e) as [|[k v] attrs IH]; [reflexivity|].
  rewrite !filter_cons.
  destruct (decide (fst (k, v) ≠ name')), (decide (fst (k, v) ≠ name));
    rewrite ?filter_cons;
    repeat match goal with
           | |- context [decide ?P] => destruct (decide P); try contradiction
           end;
    rewrite IH; reflexivity.
Qed.

End LinkAttributes.

Section ProcessLinks.

Import NewTab.

Lemma strip_twice (e : Element) :
  removeAttribute "rel" (removeAttribute "target"
    (removeAttribute "rel" (removeAttribute "target" e)))
  = removeAttribute "rel" (removeAttribute "target" e).
Proof.
  rewrite (removeAttribute_comm "target" "rel"), !removeAttribute_twice. reflexivity.
Qed.

Lemma strip_attributes (e : Element) :
  let e1 := removeAttribute "rel" (removeAttribute "target" e) in
  getAttribute "target" e1 = None ∧ getAttribute "rel" e1 = None
  ∧ (∀ name, name ≠ "target" → name ≠ "rel" → getAttribute name e1 = getAttribute name e)
  ∧ matchesSelector e1 = false ∧ opensNewTab e1 = false ∧ tagName e1 = tagName e.
Proof.
  intros e1.
  assert (Htarget : getAttribute "target" e1 = None)
    by (unfold e1; rewrite !getAttribute_removeAttribute; reflexivity).
  assert (Hrel : getAttribute "rel" e1 = None)
    by (unfold e1; rewrite !getAttribute_removeAttribute; reflexivity).
  split; [exact Htarget|]. split; [exact Hrel|]. split; [|split; [|split]].
  - intros name Ht Hr. unfold e1. rewrite !getAttribute_removeAttribute.
    rewrite !bool_decide_eq_false_2 by assumption. reflexivity.
  - unfold matchesSelector, attributeMatches. rewrite Htarget, Hrel. apply andb_false_r.
  - unfold opensNewTab. rewrite Htarget, Hrel. reflexivity.
  - reflexivity.
Qed.

Lemma descendants_updateElement (doc : Document) (f : Element → Element) (r : NodeRef) :
  (∀ e, tagName (f e) = tagName e) → (∀ e, id (f e) = id e) →
  ∀ fuel x, descendants fuel (updateElement f r doc) x = descendants fuel doc x.
Proof.
  intros Htag Hid fuel. induction fuel as [|fuel IH]; intros x; [reflexivity|].
  cbn [descendants]. pose proof (lookup_updateElement_shape doc f Htag Hid r x) as Hx.
  destruct (nodes (updateElement f r doc) !! x) as [n'|], (nodes doc !! x) as [n|];
    try contradiction; [|reflexivity].
  destruct Hx as (_ & -> & _). apply flat_map_ext. intros child. rewrite IH. reflexivity.
Qed.

Lemma processLink_effect (link : NodeRef) (p : Page) :
  let p1 := processLink link p in
  (∀ x, elementOf (dom p1) x
        = if bool_decide (link = x)
          then (fun e => removeAttribute "rel" (removeAttribute "target" e))
                 <$> elementOf (dom p) x
          else elementOf (dom p) x)
  ∧ (∀ fuel x, descendants fuel (dom p1) x = descendants fuel (dom p) x)
  ∧ size (nodes (dom p1)) = size (nodes (dom p))
  ∧ (∀ x, getXPath (dom p1) x = getXPath (dom p) x)
  ∧ body (dom p1) = body (dom p)
  ∧ console p1
    = console p ++ ["[Inject] Modified link: "
                    +:+ nullToString (elementOf (dom p) link ≫= getAttribute "href")]
  ∧ _preventNewTabsSetupDone p1 = _preventNewTabsSetupDone p
  ∧ documentNode p1 = documentNode p ∧ clickListeners p1 = clickListeners p
  ∧ observers p1 = observers p ∧ location p1 = location p.
Proof.
  intros p1. unfold p1, processLink. cbn [dom log withDom console _preventNewTabsSetupDone
    documentNode clickListeners observers location].
  split; [|split; [|split; [|split]]].
  - intros x. rewrite !elementOf_updateElement.
    destruct (bool_decide (link = x)); [|reflexivity].
    destruct (elementOf (dom p) x); reflexivity.
  - intros fuel x. rewrite !descendants_updateElement by reflexivity. reflexivity.
  - rewrite !size_updateElement. reflexivity.
  - intros x. rewrite !getXPath_updateElement by reflexivity. reflexivity.
  - repeat split.
Qed.

Lemma fold_processLink (links : list NodeRef) (p : Page) :
  let p1 := fold_left (fun p link => processLink link p) links p in
  (∀ x, elementOf (dom p1) x
        = if bool_decide (x ∈ links)
          then (fun e => removeAttribute "rel" (removeAttribute "target" e))
                 <$> elementOf (dom p) x
          else elementOf (dom p) x)
  ∧ (∀ fuel x, descendants fuel (dom p1) x = descendants fuel (dom p) x)
  ∧ size (nodes (dom p1)) = size (nodes (dom p))
  ∧ (∀ x, getXPath (dom p1) x = getXPath (dom p) x)
  ∧ body (dom p1) = body (dom p)
  ∧ console p1
    = console p
      ++ map (fun link => "[Inject] Modified link: "
                          +:+ nullToString (elementOf (dom p) link ≫= getAttribute "href"))
           links
  ∧ _preventNewTabsSetupDone p1 = _preventNewTabsSetupDone p
  ∧ documentNode p1 = documentNode p ∧ clickListeners p1 = clickListeners p
  ∧ observers p1 = observers p ∧ location p1 = location p.
Proof.
  revert p. induction links as [|link links IH]; intros p p1.
  - unfold p1. cbn [fold_left map]. rewrite app_nil_r. repeat split.
  - unfold p1. cbn [fold_left map].
    destruct (processLink_effect link p)
      as (He & Hd & Hs & Hx & Hb & Hc & Hf & Hn & Hl & Ho & Hloc).
    destruct (IH (processLink link p))
      as (He' & Hd' & Hs' & Hx' & Hb' & Hc' & Hf' & Hn' & Hl' & Ho' & Hloc').
    split; [|split; [|split; [|split; [|split; [|split]]]]].
    + intros x. rewrite He', He.
      destruct (decide (link = x)) as [->|Hne].
      * rewrite (bool_decide_eq_true_2 (x = x)) by reflexivity.
        rewrite (bool_decide_eq_true_2 (x ∈ x :: links)) by (apply elem_of_cons; auto).
        destruct (bool_decide (x ∈ links)); [|reflexivity].
        destruct (elementOf (dom p) x) as [e|]; [|reflexivity].
        cbn [fmap option_fmap option_map]. rewrite strip_twice. reflexivity.
      * rewrite (bool_decide_eq_false_2 (link = x)) by exact Hne.
        destruct (bool_decide (x ∈ links)) eqn:Hin.
        -- apply bool_decide_eq_true_1 in Hin.
           rewrite bool_decide_eq_true_2 by (apply elem_of_cons; auto). reflexivity.
        -- apply bool_decide_eq_false_1 in Hin.
           rewrite bool_decide_eq_false_2; [reflexivity|].
           rewrite elem_of_cons. intros [H|H]; [congruence|contradiction].
    + intros fuel x. rewrite Hd', Hd. reflexivity.
    + rewrite Hs', Hs. reflexivity.
    + intros x. rewrite Hx', Hx. reflexivity.
    + rewrite Hb', Hb. reflexivity.
    + rewrite Hc', Hc, <- app_assoc. cbn [app].
      apply (f_equal (app (console p))). apply (f_equal (cons _)).
      apply map_ext. intros link'. rewrite He.
      destruct (bool_decide (link = link')); [|reflexivity].
      destruct (elementOf (dom p) link') as [e|]; [|reflexivity].
      cbn [fmap option_fmap option_map mbind option_bind].
      rewrite (proj1 (proj2 (proj2 (strip_attributes e)))) by discriminate. reflexivity.
    + rewrite Hf', Hn', Hl', Ho', Hloc'. repeat split; assumption.
Qed.

Lemma filter_none (P : NodeRef → Prop) `{∀ x, Decision (P x)} (l : list NodeRef) :
  (∀ x, x ∈ l → ¬ P x) → filter P l = [].
Proof.
  induction l as [|x l IH]; intros Hl; [reflexivity|].
  rewrite filter_cons. destruct (decide (P x)) as [Hx|Hx].
  - destruct (Hl x); [apply elem_of_cons; auto|exact Hx].
  - apply IH. intros y Hy. apply Hl. apply elem_of_cons. auto.
Qed.

Lemma processLinks_query (p : Page) : querySelectorAll (processLinks p) = [].
Proof.
  unfold processLinks.
  destruct (fold_processLink (querySelectorAll p) p) as (He & Hd & Hs & _).
  unfold querySelectorAll at 1. cbn [dom addClickListener documentNode].
  apply filter_none. intros x Hx Hselected.
  rewrite Hs, Hd in Hx.
  replace (documentNode (fold_left (fun p link => processLink link p) (querySelectorAll p) p))
    with (documentNode p) in Hx by (symmetry; apply fold_processLink).
  unfold selected in Hselected. rewrite He in Hselected.
  destruct (bool_decide (x ∈ querySelectorAll p)) eqn:Hin.
  - destruct (elementOf (dom p) x) as [e|]; [|discriminate].
    cbn [fmap option_fmap option_map] in Hselected.
    rewrite (proj1 (proj2 (proj2 (proj2 (strip_attributes e))))) in Hselected.
    discriminate.
  - apply bool_decide_eq_false_1 in Hin. apply Hin. unfold querySelectorAll.
    apply list_elem_of_filter. split; [exact Hselected|exact Hx].
Qed.

End ProcessLinks.

(** X16. [processLinks] takes the target and rel attributes from every
    link that its selector finds under the document node, and leaves every
    other attribute of these links and every other element as it is; it
    writes one console line per link found, with the href of the link, in
    tree order; afterwards the selector finds no link, and every node has
    the locator it had; and the document has one click listener more.
    The selector takes an [a] element whose target is _blank or whose rel
    is, as a whole, noopener or noreferrer, in any letter case. *)
Theorem processLinks_strips (p : NewTab.Page) :
  let p1 := NewTab.processLinks p in
  let links := NewTab.querySelectorAll p in
  (∀ x e, elementOf (NewTab.dom p) x = Some e →
          if bool_decide (x ∈ links)
          then ∃ e1, elementOf (NewTab.dom p1) x = Some e1
                     ∧ NewTab.getAttribute "target" e1 = None
                     ∧ NewTab.getAttribute "rel" e1 = None
                     ∧ (∀ name, name ≠ "target" → name ≠ "rel" →
                                NewTab.getAttribute name e1 = NewTab.getAttribute name e)
                     ∧ tagName e1 = tagName e ∧ id e1 = id e ∧ classList e1 = classList e
          else elementOf (NewTab.dom p1) x = Some e)
  ∧ NewTab.console p1
    = NewTab.console p
      ++ map (fun link =>
                "[Inject] Modified link: "
                +:+ nullToString (elementOf (NewTab.dom p) link
                                  ≫= NewTab.getAttribute "href"))
           links
  ∧ NewTab.querySelectorAll p1 = []
  ∧ (∀ x, getXPath (NewTab.dom p1) x = getXPath (NewTab.dom p) x)
  ∧ NewTab.clickListeners p1 = S (NewTab.clickListeners p)
  ∧ NewTab.location p1 = NewTab.location p.
Proof.
  intros p1 links.
  destruct (fold_processLink links p)
    as (He & _ & _ & Hx & _ & Hc & _ & _ & Hl & _ & Hloc).
  split; [|split; [exact Hc|split; [apply processLinks_query|split; [exact Hx|]]]].
  - intros x e Hxe. unfold p1, NewTab.processLinks. cbn [NewTab.dom NewTab.addClickListener].
    fold links. rewrite He, Hxe. destruct (bool_decide (x ∈ links)); [|reflexivity].
    eexists. split; [reflexivity|].
    destruct (strip_attributes e) as (Ht & Hr & Hother & _).
    split; [exact Ht|]. split; [exact Hr|]. split; [exact Hother|]. repeat split.
  - unfold p1, NewTab.processLinks. cbn [NewTab.clickListeners NewTab.addClickListener
      NewTab.location]. fold links. rewrite Hl, Hloc. split; reflexivity.
Qed.

(** X17. A second run of [processLinks] finds nothing to change and
    writes nothing, but it adds a further click listener to the document:
    the listeners of earlier runs are never removed. *)
Theorem processLinks_again (p : NewTab.Page) :
  NewTab.processLinks (NewTab.processLinks p)
  = NewTab.addClickListener (NewTab.processLinks p)
  ∧ NewTab.clickListeners (NewTab.processLinks (NewTab.processLinks p))
    = S (S (NewTab.clickListeners p)).
Proof.
  assert (Hsecond : NewTab.processLinks (NewTab.processLinks p)
                    = NewTab.addClickListener (NewTab.processLinks p)).
  { unfold NewTab.processLinks at 1. rewrite processLinks_query. reflexivity. }
  split; [exact Hsecond|]. rewrite Hsecond. unfold NewTab.processLinks.
  cbn [NewTab.clickListeners NewTab.addClickListener].
  destruct (fold_processLink (NewTab.querySelectorAll p) p)
    as (_ & _ & _ & _ & _ & _ & _ & _ & Hl & _).
  rewrite Hl. reflexivity.
Qed.

(** The selector takes the two values in any case, and takes only the
    whole value of [rel]. *)
Example matchesSelector_values :
  NewTab.matchesSelector (linkElement "up" [("target", "_BLANK")]) = true
  ∧ NewTab.matchesSelector (linkElement "up" [("rel", "NoOpener")]) = true
  ∧ NewTab.matchesSelector (linkElement "up" [("rel", "noopener noreferrer")]) = false.
Proof. vm_compute. repeat split. Qed.

Section ClickListener.

Import NewTab.

(** What one run of the loop can end in. *)
Lemma clickLoop_ends (k : nat) (event : Event) (p : Page) :
  ∀ fuel r, ancestry k (dom p) r = true → k + 2 ≤ fuel →
  ∃ ev p1, clickLoop fuel (Some r) event p = Some (ev, p1)
           ∧ ((ev = event ∧ p1 = p)
              ∨ (ev = preventDefault event
                 ∧ (p1 = p
                    ∨ ∃ href, p1 = navigate href p ∧ href ≠ EmptyString
                              ∧ startsWith "javascript:" href = false))).
Proof.
  induction k as [|k IH]; intros fuel r Hr Hfuel;
    (destruct fuel as [|fuel]; [lia|]); cbn [clickLoop].
  all: destruct (bool_decide (r = body (dom p))); [exists event, p; auto|].
  all: destruct (isAnchor (dom p) r).
  all: try (destruct (elementOf (dom p) r) as [e|]; [|exists event, p; auto];
            destruct (opensNewTab e); [|exists event, p; auto];
            destruct (getAttribute "href" e) as [href|];
              [|exists (preventDefault event), p; auto];
            destruct (bool_decide (href = EmptyString)) eqn:Hempty;
              [exists (preventDefault event), p; auto|];
            destruct (startsWith "javascript:" href) eqn:Hscript;
              [exists (preventDefault event), p; auto|];
            apply bool_decide_eq_false_1 in Hempty;
            exists (preventDefault event), (navigate href p);
            split; [reflexivity|]; right; split; [reflexivity|]; right;
            exists href; auto).
  - cbn [ancestry] in Hr. unfold parentElement.
    destruct (nodes (dom p) !! r) as [n|]; [|discriminate].
    apply andb_true_iff in Hr as [_ Hparent]. apply bool_decide_eq_true_1 in Hparent.
    rewrite Hparent. destruct fuel as [|fuel]; [lia|]. exists event, p. auto.
  - cbn [ancestry] in Hr. unfold parentElement.
    destruct (nodes (dom p) !! r) as [n|]; [|discriminate].
    destruct (parentNode n) as [parent|]; [|discriminate].
    destruct (nodes (dom p) !! parent) as [pn|] eqn:Hpn; [|discriminate].
    apply andb_true_iff in Hr as [_ Hr].
    destruct (elementOf (dom p) parent).
    + apply IH; [exact Hr|lia].
    + destruct fuel as [|fuel]; [lia|]. exists event, p. auto.
Qed.

Lemma clickListener_ends (event : Event) (p : Page) :
  attached (dom p) (target event) →
  ∃ ev p1, clickListener event p = Some (ev, p1)
           ∧ ((ev = event ∧ p1 = p)
              ∨ (ev = preventDefault event
                 ∧ (p1 = p
                    ∨ ∃ href, p1 = navigate href p ∧ href ≠ EmptyString
                              ∧ startsWith "javascript:" href = false))).
Proof.
  intros [k Hk]. apply (clickLoop_ends k); [exact Hk|].
  pose proof (ancestry_size _ _ _ Hk). lia.
Qed.

Lemma runListeners_ends (n : nat) (event : Event) (p : Page) :
  attached (dom p) (target event) →
  ∃ ev p1 hrefs,
    runListeners n event p = Some (ev, p1)
    ∧ dom p1 = dom p ∧ console p1 = console p ∧ clickListeners p1 = clickListeners p
    ∧ target ev = target event ∧ propagationStopped ev = propagationStopped event
    ∧ location p1 = location p ++ hrefs
    ∧ (∀ href, href ∈ hrefs → href ≠ EmptyString ∧ startsWith "javascript:" href = false)
    ∧ (hrefs ≠ [] → defaultPrevented ev = true)
    ∧ (defaultPrevented event = true → defaultPrevented ev = true).
Proof.
  assert (Hnil : ∀ href : string,
             href ∈ [] → href ≠ EmptyString ∧ startsWith "javascript:" href = false)
    by (intros href Hin; apply elem_of_nil in Hin; contradiction).
  revert event p. induction n as [|n IH]; intros event p Hattached; cbn [runListeners].
  - exists event, p, []. rewrite app_nil_r.
    split; [reflexivity|]. split; [reflexivity|]. split; [reflexivity|].
    split; [reflexivity|]. split; [reflexivity|]. split; [reflexivity|].
    split; [reflexivity|]. split; [exact Hnil|]. split; [congruence|auto].
  - destruct (clickListener_ends event p Hattached) as (ev & p1 & -> & Hcase).
    assert (Hstep : dom p1 = dom p ∧ console p1 = console p
                    ∧ clickListeners p1 = clickListeners p
                    ∧ target ev = target event
                    ∧ propagationStopped ev = propagationStopped event
                    ∧ (defaultPrevented event = true → defaultPrevented ev = true)
                    ∧ ∃ hrefs, location p1 = location p ++ hrefs
                               ∧ (∀ href, href ∈ hrefs →
                                          href ≠ EmptyString
                                          ∧ startsWith "javascript:" href = false)
                               ∧ (hrefs ≠ [] → defaultPrevented ev = true)).
    { destruct Hcase as [[-> ->]|[-> [->|(href & -> & Hne & Hscript)]]].
      - split; [reflexivity|]. split; [reflexivity|]. split; [reflexivity|].
        split; [reflexivity|]. split; [reflexivity|]. split; [auto|].
        exists []. rewrite app_nil_r. split; [reflexivity|]. split; [exact Hnil|congruence].
      - split; [reflexivity|]. split; [reflexivity|]. split; [reflexivity|].
        split; [reflexivity|]. split; [reflexivity|]. split; [reflexivity|].
        exists []. rewrite app_nil_r. split; [reflexivity|]. split; [exact Hnil|reflexivity].
      - split; [reflexivity|]. split; [reflexivity|]. split; [reflexivity|].
        split; [reflexivity|]. split; [reflexivity|]. split; [reflexivity|].
        exists [href]. split; [reflexivity|]. split; [|reflexivity].
        intros h Hin. apply list_elem_of_singleton in Hin as ->. split; assumption. }
    destruct Hstep as (Hd & Hc & Hl & Ht & Hs & Hp & hrefs & Hloc & Hrefs & Hprevented).
    destruct (IH ev p1) as (ev' & p2 & hrefs' & -> & Hd' & Hc' & Hl' & Ht' & Hs' & Hloc'
                            & Hrefs' & Hprevented' & Hp');
      [rewrite Hd, Ht; exact Hattached|].
    exists ev', p2, (hrefs ++ hrefs'). split; [reflexivity|].
    split; [congruence|]. split; [congruence|]. split; [congruence|].
    split; [congruence|]. split; [congruence|].
    split; [rewrite Hloc', Hloc, app_assoc; reflexivity|].
    split; [intros href Hin; apply elem_of_app in Hin as [Hin|Hin]; auto|].
    split; [|auto].
    intros Hne. destruct hrefs as [|h hrefs]; [apply Hprevented'; exact Hne|].
    apply Hp', Hprevented. discriminate.
Qed.

(** A click on a link that asks for a new tab. *)
Lemma clickListener_intercepts (event : Event) (p : Page) (e : Element) (href : string) :
  target event ≠ body (dom p) →
  elementOf (dom p) (target event) = Some e → tagName e = "A" →
  opensNewTab e = true → getAttribute "href" e = Some href →
  href ≠ EmptyString → startsWith "javascript:" href = false →
  clickListener event p = Some (preventDefault event, navigate href p).
Proof.
  intros Hbody He Htag Hopens Hhref Hne Hscript. unfold clickListener. cbn [clickLoop].
  rewrite bool_decide_eq_false_2 by exact Hbody. unfold isAnchor.
  rewrite He, Htag, (bool_decide_eq_true_2 ("A" = "A")) by reflexivity.
  rewrite Hopens, Hhref, Hscript, (bool_decide_eq_false_2 (href = EmptyString)) by exact Hne.
  reflexivity.
Qed.

Lemma clickListener_passes (event : Event) (p : Page) (e : Element) :
  target event ≠ body (dom p) →
  elementOf (dom p) (target event) = Some e → tagName e = "A" →
  opensNewTab e = false →
  clickListener event p = Some (event, p).
Proof.
  intros Hbody He Htag Hopens. unfold clickListener. cbn [clickLoop].
  rewrite bool_decide_eq_false_2 by exact Hbody. unfold isAnchor.
  rewrite He, Htag, (bool_decide_eq_true_2 ("A" = "A")) by reflexivity.
  rewrite Hopens. reflexivity.
Qed.

End ClickListener.

(** X18. A click on a node attached under the document: every click
    listener of the script ends; together they leave the document and the
    console as they are and do not stop the event; every value they
    assign to [window.location.href] is a non-empty href that does not
    start with javascript:, and when they assign one the default action
    of the event has been cancelled. *)
Theorem dispatchClick_guards (event : Event) (p : NewTab.Page) :
  attached (NewTab.dom p) (target event) →
  ∃ ev p1 hrefs,
    NewTab.dispatchClick event p = Some (ev, p1)
    ∧ NewTab.dom p1 = NewTab.dom p ∧ NewTab.console p1 = NewTab.console p
    ∧ NewTab.clickListeners p1 = NewTab.clickListeners p
    ∧ target ev = target event ∧ propagationStopped ev = propagationStopped event
    ∧ NewTab.location p1 = NewTab.location p ++ hrefs
    ∧ (∀ href, href ∈ hrefs →
               href ≠ EmptyString ∧ NewTab.startsWith "javascript:" href = false)
    ∧ (hrefs ≠ [] → defaultPrevented ev = true).
Proof.
  intros Hattached.
  destruct (runListeners_ends (NewTab.clickListeners p) event p Hattached)
    as (ev & p1 & hrefs & H1 & H2 & H3 & H4 & H5 & H6 & H7 & H8 & H9 & _).
  exists ev, p1, hrefs. split; [exact H1|]. split; [exact H2|]. split; [exact H3|].
  split; [exact H4|]. split; [exact H5|]. split; [exact H6|]. split; [exact H7|].
  split; [exact H8|exact H9].
Qed.

(** The page with links, after the injection: a click on the [span]
    inside the first link, and a click on the link with the rel
    attribute that the selector did not match. *)
Lemma dispatchClick_guards_witness :
  let p := snd (NewTab.inject linkPage) in
  (∃ ev p1, NewTab.dispatchClick (mkEvent 4 false false) p = Some (ev, p1)
            ∧ NewTab.location p1 = [] ∧ defaultPrevented ev = false)
  ∧ (∃ ev p1, NewTab.dispatchClick (mkEvent 5 false false) p = Some (ev, p1)
              ∧ NewTab.location p1 = ["https://example.org/"]
              ∧ defaultPrevented ev = true).
Proof.
  intros p.
  assert (Hfour : attached (NewTab.dom p) 4) by (exists 4; vm_compute; reflexivity).
  assert (Hfive : attached (NewTab.dom p) 5) by (exists 3; vm_compute; reflexivity).
  destruct (dispatchClick_guards (mkEvent 4 false false) p Hfour)
    as (ev & p1 & hrefs & H1 & _).
  destruct (dispatchClick_guards (mkEvent 5 false false) p Hfive)
    as (ev' & p1' & hrefs' & H1' & _).
  split.
  - exists ev, p1. split; [exact H1|]. vm_compute in H1. injection H1 as <- <-.
    split; reflexivity.
  - exists ev', p1'. split; [exact H1'|]. vm_compute in H1'. injection H1' as <- <-.
    split; reflexivity.
Defined.

(** X19. A click on a link that [processLinks] has found and changed is
    left to the browser by every listener of the script: the event is not
    cancelled and nothing is assigned to [window.location.href], so the
    link, which has lost its target, is followed in the same tab. *)
Theorem processed_link_click_passes (event : Event) (p : NewTab.Page) :
  target event ∈ NewTab.querySelectorAll p →
  target event ≠ body (NewTab.dom p) →
  NewTab.dispatchClick event (NewTab.processLinks p)
  = Some (event, NewTab.processLinks p).
Proof.
  intros Hin Hbody.
  assert (Hone : NewTab.clickListener event (NewTab.processLinks p)
                 = Some (event, NewTab.processLinks p)).
  { pose proof Hin as Hfound. apply list_elem_of_filter in Hin as [Hselected _].
    unfold NewTab.selected in Hselected.
    destruct (elementOf (NewTab.dom p) (target event)) as [e|] eqn:He; [|discriminate].
    destruct (fold_processLink (NewTab.querySelectorAll p) p)
      as (He1 & _ & _ & _ & Hb & _).
    destruct (strip_attributes e) as (_ & _ & _ & _ & Hopens & Htag).
    apply (clickListener_passes _ _
             (NewTab.removeAttribute "rel" (NewTab.removeAttribute "target" e))).
    - unfold NewTab.processLinks. cbn [NewTab.dom NewTab.addClickListener].
      rewrite Hb. exact Hbody.
    - unfold NewTab.processLinks. cbn [NewTab.dom NewTab.addClickListener].
      rewrite He1, He. rewrite bool_decide_eq_true_2 by exact Hfound. reflexivity.
    - rewrite Htag. unfold NewTab.matchesSelector in Hselected.
      apply andb_true_iff in Hselected as [Hselected _].
      apply bool_decide_eq_true_1 in Hselected. exact Hselected.
    - exact Hopens. }
  unfold NewTab.dispatchClick.
  induction (NewTab.clickListeners (NewTab.processLinks p)) as [|n IH]; [reflexivity|].
  cbn [NewTab.runListeners]. rewrite Hone. exact IH.
Qed.

(** The first link of the page with links. *)
Lemma processed_link_click_passes_witness :
  NewTab.querySelectorAll linkPage = [3; 6]
  ∧ NewTab.dispatchClick (mkEvent 3 false false) (NewTab.processLinks linkPage)
    = Some (mkEvent 3 false false, NewTab.processLinks linkPage).
Proof.
  assert (Hquery : NewTab.querySelectorAll linkPage = [3; 6]) by (vm_compute; reflexivity).
  split; [exact Hquery|].
  apply (processed_link_click_passes (mkEvent 3 false false) linkPage).
  - cbn [target]. rewrite Hquery. apply elem_of_cons. left. reflexivity.
  - vm_compute. discriminate.
Defined.

(** X20. A click on a link that asks for a new tab (by its target, or by
    a rel attribute that names noopener or noreferrer) and has a
    non-empty href that does not start with javascript:, on a page with
    [n] click listeners of the script: each listener cancels the default
    action and assigns the href to [window.location.href], so the href is
    assigned [n] times. *)
Theorem dispatchClick_once_per_listener (event : Event) (p : NewTab.Page) (e : Element)
    (href : string) :
  target event ≠ body (NewTab.dom p) →
  elementOf (NewTab.dom p) (target event) = Some e → tagName e = "A" →
  NewTab.opensNewTab e = true → NewTab.getAttribute "href" e = Some href →
  href ≠ EmptyString → NewTab.startsWith "javascript:" href = false →
  ∃ ev p1,
    NewTab.dispatchClick event p = Some (ev, p1)
    ∧ NewTab.location p1 = NewTab.location p ++ replicate (NewTab.clickListeners p) href
    ∧ NewTab.dom p1 = NewTab.dom p
    ∧ (0 < NewTab.clickListeners p → ev = preventDefault event).
Proof.
  intros Hbody He Htag Hopens Hhref Hne Hscript. unfold NewTab.dispatchClick.
  assert (Hrun : ∀ n event' p',
             target event' = target event → NewTab.dom p' = NewTab.dom p →
             ∃ ev p1,
               NewTab.runListeners n event' p' = Some (ev, p1)
               ∧ NewTab.location p1 = NewTab.location p' ++ replicate n href
               ∧ NewTab.dom p1 = NewTab.dom p
               ∧ (0 < n → ev = preventDefault event')).
  { induction n as [|n IH]; intros event' p' Htarget Hdom; cbn [NewTab.runListeners].
    - exists event', p'. cbn [replicate]. rewrite app_nil_r.
      split; [reflexivity|]. split; [reflexivity|]. split; [exact Hdom|]. lia.
    - rewrite (clickListener_intercepts event' p' e href)
        by (rewrite ?Htarget, ?Hdom; assumption).
      destruct (IH (preventDefault event') (NewTab.navigate href p'))
        as (ev & p1 & Hn & Hloc & Hd & Hev); [exact Htarget|exact Hdom|].
      exists ev, p1. split; [exact Hn|].
      split; [rewrite Hloc; cbn [NewTab.location NewTab.navigate replicate];
              rewrite <- app_assoc; reflexivity|].
      split; [exact Hd|]. intros _. destruct n as [|n].
      + cbn [NewTab.runListeners] in Hn. injection Hn as <- _. reflexivity.
      + rewrite Hev by lia. reflexivity. }
  apply Hrun; reflexivity.
Qed.

(** The link with the rel attribute, after an injection and a second run
    of [processLinks]: two listeners, two assignments. *)
Lemma dispatchClick_once_per_listener_witness :
  let p := NewTab.processLinks (snd (NewTab.inject linkPage)) in
  NewTab.clickListeners p = 2
  ∧ ∃ ev p1, NewTab.dispatchClick (mkEvent 5 false false) p = Some (ev, p1)
             ∧ NewTab.location p1 = ["https://example.org/"; "https://example.org/"].
Proof.
  intros p. split; [vm_compute; reflexivity|].
  assert (He : elementOf (NewTab.dom p) 5
               = Some (linkElement "ext" [("href", "https://example.org/");
                                          ("rel", "noopener noreferrer")]))
    by (vm_compute; reflexivity).
  assert (Hbody : target (mkEvent 5 false false) ≠ body (NewTab.dom p))
    by (vm_compute; discriminate).
  assert (Hne : "https://example.org/" ≠ EmptyString) by discriminate.
  destruct (dispatchClick_once_per_listener (mkEvent 5 false false) p _
              "https://example.org/" Hbody He eq_refl eq_refl eq_refl Hne eq_refl)
    as (ev & p1 & Hrun & Hloc & _).
  exists ev, p1. split; [exact Hrun|]. rewrite Hloc. vm_compute. reflexivity.
Defined.

Section Observer.

Import NewTab.

Lemma scanAdded_true (doc : Document) (added : list NodeRef) (should : bool) :
  scanAdded doc added should = true
  ↔ should = true
    ∨ ∃ node, node ∈ added ∧ is_Some (elementOf doc node)
              ∧ (isAnchor doc node = true ∨ containsAnchor doc node = true).
Proof.
  induction added as [|node rest IH]; cbn [scanAdded].
  - split; [auto|]. intros [H|(node & Hin & _)]; [exact H|].
    apply elem_of_nil in Hin. contradiction.
  - destruct (elementOf doc node) as [e|] eqn:He.
    + destruct (isAnchor doc node || containsAnchor doc node) eqn:Hhit.
      * split; [|reflexivity]. intros _. right. exists node.
        split; [apply elem_of_cons; auto|]. split; [rewrite He; eauto|].
        apply orb_true_iff. exact Hhit.
      * rewrite IH. split; (intros [H|(x & Hin & Hx & Hcase)]; [left; exact H|right]).
        -- exists x. split; [apply elem_of_cons; auto|]. auto.
        -- apply elem_of_cons in Hin as [->|Hin]; [|exists x; auto].
           apply orb_true_iff in Hcase. congruence.
    + rewrite IH. split; (intros [H|(x & Hin & Hx & Hcase)]; [left; exact H|right]).
      * exists x. split; [apply elem_of_cons; auto|]. auto.
      * apply elem_of_cons in Hin as [->|Hin]; [|exists x; auto].
        rewrite He in Hx. destruct Hx as [? Hx]. discriminate.
Qed.

Lemma fold_scanAdded (doc : Document) (mutations : list MutationRecord) (should : bool) :
  fold_left
    (fun should mutation =>
       if (0 <? length (addedNodes mutation))%nat
       then scanAdded doc (addedNodes mutation) should
       else should)
    mutations should = true
  ↔ should = true
    ∨ ∃ mutation node,
        mutation ∈ mutations ∧ node ∈ addedNodes mutation
        ∧ is_Some (elementOf doc node)
        ∧ (isAnchor doc node = true ∨ containsAnchor doc node = true).
Proof.
  revert should. induction mutations as [|m mutations IH]; intros should; cbn [fold_left].
  - split; [auto|]. intros [H|(m & node & Hin & _)]; [exact H|].
    apply elem_of_nil in Hin. contradiction.
  - rewrite IH. destruct (0 <? length (addedNodes m))%nat eqn:Hlength.
    + rewrite scanAdded_true. split.
      * intros [[H|(node & Hin & Hx)]|(m' & node & Hm & Hx)]; [left; exact H|right..].
        -- exists m, node. split; [apply elem_of_cons; auto|]. auto.
        -- exists m', node. split; [apply elem_of_cons; auto|]. exact Hx.
      * intros [H|(m' & node & Hm & Hin & Hx)]; [left; left; exact H|].
        apply elem_of_cons in Hm as [->|Hm].
        -- left. right. exists node. auto.
        -- right. exists m', node. auto.
    + split.
      * intros [H|(m' & node & Hm & Hx)]; [left; exact H|right].
        exists m', node. split; [apply elem_of_cons; auto|]. exact Hx.
      * intros [H|(m' & node & Hm & Hin & Hx)]; [left; exact H|].
        apply elem_of_cons in Hm as [->|Hm]; [|right; exists m', node; auto].
        apply Nat.ltb_ge in Hlength. destruct (addedNodes m); [|simpl in Hlength; lia].
        apply elem_of_nil in Hin. contradiction.
Qed.

Lemma inject_effect (p : Page) :
  _preventNewTabsSetupDone p = false →
  inject p
  = (Str "New tab prevention script injected successfully",
     observe (processLinks
                (log "[Inject] Modifying links to prevent opening in new tabs"
                   (setDone true p)))).
Proof. intros Hflag. unfold inject. rewrite Hflag. reflexivity. Qed.

Lemma processLinks_frame (p : Page) :
  _preventNewTabsSetupDone (processLinks p) = _preventNewTabsSetupDone p
  ∧ observers (processLinks p) = observers p
  ∧ location (processLinks p) = location p
  ∧ clickListeners (processLinks p) = S (clickListeners p).
Proof.
  unfold processLinks.
  destruct (fold_processLink (querySelectorAll p) p)
    as (_ & _ & _ & _ & _ & _ & Hf & _ & Hl & Ho & Hloc).
  cbn [_preventNewTabsSetupDone observers location clickListeners addClickListener].
  rewrite Hf, Hl, Ho, Hloc. repeat split.
Qed.

Lemma pageStep_guarded (step : PageStep) (p : Page) :
  observers p ≤ 1 → (_preventNewTabsSetupDone p = false → observers p = 0) →
  let p1 := pageStep step p in
  observers p1 ≤ 1 ∧ (_preventNewTabsSetupDone p1 = false → observers p1 = 0)
  ∧ (_preventNewTabsSetupDone p = true → _preventNewTabsSetupDone p1 = true)
  ∧ clickListeners p ≤ clickListeners p1 ≤ S (clickListeners p)
  ∧ location p1 = location p.
Proof.
  intros Hone Hzero. destruct step as [|mutations|doc]; cbn [pageStep].
  - destruct (_preventNewTabsSetupDone p) eqn:Hflag.
    + unfold inject. rewrite Hflag. cbn [snd]. rewrite Hflag. repeat split; auto; lia.
    + rewrite inject_effect by exact Hflag. cbn [snd observe observers
        _preventNewTabsSetupDone clickListeners location].
      match goal with
      | |- context [processLinks ?q] =>
          destruct (processLinks_frame q) as (Hf & Ho & Hloc & Hl)
      end.
      rewrite Hf, Ho, Hloc, Hl. cbn [setDone log observers _preventNewTabsSetupDone
        clickListeners location]. rewrite (Hzero eq_refl).
      repeat split; auto; try lia; discriminate.
  - unfold observerCallback.
    destruct (observers p) as [|[|n]] eqn:Hobservers; [| |lia]; unfold Nat.iter; cbn [nat_rect].
    + rewrite ?Hobservers. repeat split; auto; lia.
    + destruct (shouldProcessLinks (dom p) mutations).
      * destruct (processLinks_frame p) as (Hf & Ho & Hloc & Hl).
        rewrite Hf, Ho, Hloc, Hl, Hobservers. repeat split; auto; try lia;
          intros H; specialize (Hzero H); discriminate.
      * rewrite ?Hobservers. repeat split; auto; try lia;
          intros H; specialize (Hzero H); discriminate.
  - cbn [withDom observers _preventNewTabsSetupDone clickListeners location].
    repeat split; auto; lia.
Qed.

End Observer.

(** X21. The observer runs [processLinks] exactly when some mutation
    record lists, among its added nodes, an element that is an [a] or has
    an [a] among its descendants; otherwise its callback changes
    nothing. *)
Theorem observer_reprocesses (mutations : list NewTab.MutationRecord) (p : NewTab.Page) :
  (NewTab.shouldProcessLinks (NewTab.dom p) mutations = true
   ↔ ∃ mutation node,
       mutation ∈ mutations ∧ node ∈ NewTab.addedNodes mutation
       ∧ is_Some (elementOf (NewTab.dom p) node)
       ∧ (NewTab.isAnchor (NewTab.dom p) node = true
          ∨ NewTab.containsAnchor (NewTab.dom p) node = true))
  ∧ NewTab.observerCallback mutations p
    = if NewTab.shouldProcessLinks (NewTab.dom p) mutations
      then NewTab.processLinks p else p.
Proof.
  split; [|reflexivity]. unfold NewTab.shouldProcessLinks. rewrite fold_scanAdded.
  split; [intros [H|H]; [discriminate|exact H]|auto].
Qed.

(** X22. On a page where the script has at most one observer, and none
    before its flag is set: whatever happens (injections, deliveries of
    mutation records, changes of the document by the page), there is at
    most one observer, the flag stays set once it is set, each step adds
    at most one click listener and none is ever removed, nothing is
    assigned to [window.location.href], and a further injection returns
    [undefined] and changes nothing. *)
Theorem newTab_guarded (steps : list PageStep) (p : NewTab.Page) :
  NewTab.observers p ≤ 1 →
  (NewTab._preventNewTabsSetupDone p = false → NewTab.observers p = 0) →
  let p1 := pageSteps steps p in
  NewTab.observers p1 ≤ 1
  ∧ (NewTab._preventNewTabsSetupDone p = true → NewTab._preventNewTabsSetupDone p1 = true)
  ∧ NewTab.clickListeners p ≤ NewTab.clickListeners p1
    ≤ NewTab.clickListeners p + length steps
  ∧ NewTab.location p1 = NewTab.location p
  ∧ NewTab.inject (snd (NewTab.inject p1)) = (Undefined, snd (NewTab.inject p1)).
Proof.
  intros Hone Hzero p1.
  assert (H1 : NewTab.observers p1 ≤ 1
               ∧ (NewTab._preventNewTabsSetupDone p1 = false → NewTab.observers p1 = 0)
               ∧ (NewTab._preventNewTabsSetupDone p = true
                  → NewTab._preventNewTabsSetupDone p1 = true)
               ∧ NewTab.clickListeners p ≤ NewTab.clickListeners p1
                 ≤ NewTab.clickListeners p + length steps
               ∧ NewTab.location p1 = NewTab.location p).
  { unfold p1. clear p1. revert p Hone Hzero.
    induction steps as [|step steps IH]; intros p Hone Hzero.
    - cbn [pageSteps fold_left length]. repeat split; auto; lia.
    - destruct (pageStep_guarded step p Hone Hzero) as (Ho & Hz & Hf & Hl & Hloc).
      destruct (IH (pageStep step p) Ho Hz) as (Ho' & Hz' & Hf' & Hl' & Hloc').
      cbn [pageSteps fold_left length]. fold (pageSteps steps (pageStep step p)).
      split; [exact Ho'|]. split; [exact Hz'|]. split; [auto|].
      split; [lia|congruence]. }
  destruct H1 as (Ho & _ & Hf & Hl & Hloc).
  split; [exact Ho|]. split; [exact Hf|]. split; [exact Hl|]. split; [exact Hloc|].
  destruct (NewTab._preventNewTabsSetupDone p1) eqn:Hflag.
  - unfold NewTab.inject. rewrite Hflag. cbn [snd]. rewrite Hflag. reflexivity.
  - rewrite (inject_effect p1 Hflag). cbn [snd]. unfold NewTab.inject.
    cbn [NewTab._preventNewTabsSetupDone NewTab.observe].
    rewrite (proj1 (processLinks_frame _)). reflexivity.
Qed.

(** The page with links: the script is injected twice, the page adds
    nodes and a record with the first link is delivered. *)
Lemma newTab_guarded_witness :
  let steps := [InjectNewTab; InjectNewTab; Mutations [NewTab.mkMutation [3]]] in
  let p1 := pageSteps steps linkPage in
  NewTab.observers p1 = 1 ∧ NewTab.clickListeners p1 = 2 ∧ NewTab.location p1 = [].
Proof.
  intros steps p1.
  assert (Hone : NewTab.observers linkPage ≤ 1) by (simpl; lia).
  destruct (newTab_guarded steps linkPage Hone (fun _ => eq_refl))
    as (_ & _ & _ & Hloc & _).
  split; [vm_compute; reflexivity|]. split; [vm_compute; reflexivity|]. exact Hloc.
Defined.

Section Reach.

Import NewTab.

Variable doc : Document.

Lemma descendants_child (fuel : nat) (root parent x : NodeRef) (n : Node) :
  parent ∈ descendants fuel doc root → nodes doc !! parent = Some n → x ∈ childNodes n →
  x ∈ descendants (S fuel) doc root.
Proof.
  revert root. induction fuel as [|fuel IH]; intros root Hparent Hn Hx.
  - apply elem_of_nil in Hparent. contradiction.
  - cbn [descendants] in Hparent. remember (S fuel) as fuel' eqn:Hfuel.
    cbn [descendants]. destruct (nodes doc !! root) as [rn|];
      [|apply elem_of_nil in Hparent; contradiction].
    apply list_elem_of_In, in_flat_map in Hparent as (child & Hchild & Hparent).
    apply list_elem_of_In, in_flat_map. exists child. split; [exact Hchild|].
    apply list_elem_of_In. apply list_elem_of_In in Hparent.
    apply elem_of_cons. right. apply elem_of_cons in Hparent as [->|Hparent].
    + subst fuel'. cbn [descendants]. rewrite Hn.
      apply list_elem_of_In, in_flat_map. exists x.
      split; [apply list_elem_of_In; exact Hx|]. left. reflexivity.
    + subst fuel'. apply IH; assumption.
Qed.

Lemma descendants_more (fuel : nat) (root x : NodeRef) :
  x ∈ descendants fuel doc root → x ∈ descendants (S fuel) doc root.
Proof.
  revert root. induction fuel as [|fuel IH]; intros root Hx.
  - apply elem_of_nil in Hx. contradiction.
  - cbn [descendants] in Hx. remember (S fuel) as fuel' eqn:Hfuel. cbn [descendants].
    destruct (nodes doc !! root) as [rn|]; [|exact Hx].
    apply list_elem_of_In, in_flat_map in Hx as (child & Hchild & Hx).
    apply list_elem_of_In, in_flat_map. exists child. split; [exact Hchild|].
    destruct Hx as [Hx|Hx]; [left; exact Hx|right].
    apply list_elem_of_In. subst fuel'. apply IH. apply list_elem_of_In. exact Hx.
Qed.

Lemma descendants_mono (fuel fuel' : nat) (root x : NodeRef) :
  fuel ≤ fuel' → x ∈ descendants fuel doc root → x ∈ descendants fuel' doc root.
Proof.
  intros Hle Hx. induction Hle as [|fuel' Hle IH]; [exact Hx|].
  apply descendants_more. exact IH.
Qed.

Variable root : NodeRef.
Hypothesis root_only :
  ∀ r n, nodes doc !! r = Some n → nodeType n = DOCUMENT_NODE → parentNode n = None →
         r = root.

Lemma ancestry_descendants (k : nat) (x : NodeRef) :
  ancestry (S k) doc x = true → x ∈ descendants (S k) doc root.
Proof.
  revert x. induction k as [|k IH]; intros x Hx; cbn [ancestry] in Hx;
    destruct (nodes doc !! x) as [n|] eqn:Hn; try discriminate;
    destruct (parentNode n) as [parent|] eqn:Hparent; try discriminate;
    destruct (nodes doc !! parent) as [pn|] eqn:Hpn; try discriminate;
    apply andb_true_iff in Hx as [Hchild Hup]; apply bool_decide_eq_true_1 in Hchild.
  - apply andb_true_iff in Hup as [Htype Hnone].
    apply bool_decide_eq_true_1 in Htype, Hnone.
    assert (Hroot : parent = root) by (apply (root_only _ _ Hpn); assumption).
    subst parent. cbn [descendants]. rewrite Hpn.
    apply list_elem_of_In, in_flat_map. exists x.
    split; [apply list_elem_of_In; exact Hchild|]. left. reflexivity.
  - apply (descendants_child (S k) root parent x pn); [|exact Hpn|exact Hchild].
    apply IH. cbn [ancestry]. rewrite Hpn. exact Hup.
Qed.

End Reach.

(** X23. On a page whose only parentless document node is the document
    node: every [a] element attached under the document that the selector
    matches (target _blank, or rel noopener, or rel noreferrer) is found
    by [processLinks], and afterwards has neither a target nor a rel
    attribute, so the click listener of the script no longer intercepts a
    click on it. *)
Theorem processLinks_reaches_attached (p : NewTab.Page) (x : NodeRef) (e : Element) :
  (∀ r n, nodes (NewTab.dom p) !! r = Some n → nodeType n = DOCUMENT_NODE →
          parentNode n = None → r = NewTab.documentNode p) →
  attached (NewTab.dom p) x → elementOf (NewTab.dom p) x = Some e →
  NewTab.matchesSelector e = true →
  x ∈ NewTab.querySelectorAll p
  ∧ ∃ e1, elementOf (NewTab.dom (NewTab.processLinks p)) x = Some e1
          ∧ NewTab.getAttribute "target" e1 = None ∧ NewTab.getAttribute "rel" e1 = None
          ∧ NewTab.opensNewTab e1 = false.
Proof.
  intros Hroot [k Hk] He Hselected.
  assert (Hin : x ∈ NewTab.querySelectorAll p).
  { unfold NewTab.querySelectorAll. apply list_elem_of_filter.
    split; [unfold NewTab.selected; rewrite He; exact Hselected|].
    destruct k as [|k].
    - cbn [ancestry] in Hk. unfold elementOf in He.
      destruct (nodes (NewTab.dom p) !! x) as [n|]; [|discriminate].
      apply andb_true_iff in Hk as [Htype _]. apply bool_decide_eq_true_1 in Htype.
      unfold nodeType in Htype. destruct (data n); discriminate.
    - apply (descendants_mono _ (S k)); [pose proof (ancestry_size _ _ _ Hk); lia|].
      apply ancestry_descendants; assumption. }
  split; [exact Hin|].
  destruct (fold_processLink (NewTab.querySelectorAll p) p) as (He1 & _).
  destruct (strip_attributes e) as (Ht & Hr & _ & _ & Hopens & _).
  eexists. split.
  - unfold NewTab.processLinks. cbn [NewTab.dom NewTab.addClickListener].
    rewrite He1, He, bool_decide_eq_true_2 by exact Hin. reflexivity.
  - split; [exact Ht|]. split; [exact Hr|exact Hopens].
Qed.

(** The first link of the page with links. *)
Lemma processLinks_reaches_attached_witness :
  3 ∈ NewTab.querySelectorAll linkPage
  ∧ ∃ e1, elementOf (NewTab.dom (NewTab.processLinks linkPage)) 3 = Some e1
          ∧ NewTab.getAttribute "target" e1 = None ∧ NewTab.getAttribute "href" e1 = Some "/next".
Proof.
  assert (Hroot : ∀ r n, nodes (NewTab.dom linkPage) !! r = Some n →
                         nodeType n = DOCUMENT_NODE → parentNode n = None →
                         r = NewTab.documentNode linkPage).
  { intros r n Hn Htype Hparent. apply elem_of_list_to_map_2 in Hn.
    repeat (apply elem_of_cons in Hn as [Hn|Hn];
            [injection Hn as -> ->; first [reflexivity|discriminate]|]).
    apply elem_of_nil in Hn. contradiction. }
  assert (Hattached : attached (NewTab.dom linkPage) 3) by (exists 3; vm_compute; reflexivity).
  destruct (processLinks_reaches_attached linkPage 3 _ Hroot Hattached eq_refl eq_refl)
    as (Hin & e1 & He1 & Htarget & _).
  split; [exact Hin|]. exists e1. split; [exact He1|]. split; [exact Htarget|].
  vm_compute in He1. injection He1 as <-. reflexivity.
Defined.

(** ** The input suppressor *)

(** X24. With annotation mode on, the keydown listener calls
    [preventDefault] and [stopImmediatePropagation] on an event whose
    target is an INPUT, a TEXTAREA or a content-editable element, and
    leaves an event at any other element as it is; the mousedown listener
    does so for a target that is a SELECT, and leaves an event at any
    other element as it is; the change listener stops the propagation of
    every event, and the event leaves it cancelled if and only if it is
    cancelable or was cancelled before. With the mode off the three
    listeners leave every event as it is. *)
Theorem suppressors_by_mode (w : World) (event : Event) :
  (_annotationMode (session w) = true →
   (∀ e, elementOf (document w) (target event) = Some e →
         InputSuppressor._annotationKeydownListener event w
         = if bool_decide (tagName e = "INPUT" ∨ tagName e = "TEXTAREA"
                           ∨ isContentEditable e = true)
           then stopImmediatePropagation (preventDefault event)
           else event)
   ∧ (∀ e, elementOf (document w) (target event) = Some e →
           InputSuppressor._annotationSelectListener event w
           = if bool_decide (tagName e = "SELECT")
             then stopImmediatePropagation (preventDefault event)
             else event)
   ∧ (∀ cancelable,
        let ev := InputSuppressor._annotationChangeListener cancelable event w in
        propagationStopped ev = true
        ∧ defaultPrevented ev = cancelable || defaultPrevented event
        ∧ target ev = target event))
  ∧ (_annotationMode (session w) = false →
     InputSuppressor._annotationKeydownListener event w = event
     ∧ InputSuppressor._annotationSelectListener event w = event
     ∧ ∀ cancelable, InputSuppressor._annotationChangeListener cancelable event w = event).
Proof.
  split; intros Hmode;
    unfold InputSuppressor._annotationKeydownListener,
      InputSuppressor._annotationSelectListener,
      InputSuppressor._annotationChangeListener;
    rewrite Hmode; [|repeat split].
  split; [|split].
  - intros e He. rewrite He.
    destruct (String.eqb (tagName e) "INPUT") eqn:Hinput;
      [apply String.eqb_eq in Hinput; rewrite bool_decide_eq_true_2 by auto; reflexivity|].
    destruct (String.eqb (tagName e) "TEXTAREA") eqn:Harea;
      [apply String.eqb_eq in Harea; rewrite bool_decide_eq_true_2 by auto; reflexivity|].
    apply String.eqb_neq in Hinput, Harea. cbn [orb].
    destruct (isContentEditable e) eqn:Hedit.
    + rewrite bool_decide_eq_true_2 by auto. reflexivity.
    + rewrite bool_decide_eq_false_2; [reflexivity|].
      intros [H|[H|H]]; [contradiction|contradiction|discriminate].
  - intros e He. rewrite He.
    destruct (String.eqb (tagName e) "SELECT") eqn:Hselect.
    + apply String.eqb_eq in Hselect. rewrite bool_decide_eq_true_2 by exact Hselect.
      reflexivity.
    + apply String.eqb_neq in Hselect. rewrite bool_decide_eq_false_2 by exact Hselect.
      reflexivity.
  - intros cancelable. cbv zeta. destruct cancelable; repeat split.
Qed.

(** A key pressed in the input of the sample page, a press on its
    select, and a change event of the browser at the input. *)
Lemma suppressors_by_mode_witness :
  let w := setMode true (freshWorld sampleDocument) in
  InputSuppressor._annotationKeydownListener (mkEvent 11 false false) w
  = mkEvent 11 true true
  ∧ InputSuppressor._annotationSelectListener (mkEvent 12 false false) w
    = mkEvent 12 true true
  ∧ propagationStopped
      (InputSuppressor._annotationChangeListener false (mkEvent 11 false false) w) = true
  ∧ InputSuppressor._annotationChangeListener false (mkEvent 11 false false)
      (freshWorld sampleDocument)
    = mkEvent 11 false false.
Proof.
  intros w.
  destruct (suppressors_by_mode w (mkEvent 11 false false)) as [Hon _].
  destruct (Hon eq_refl) as (Hkey & _ & Hchange).
  destruct (suppressors_by_mode w (mkEvent 12 false false)) as [Hon' _].
  destruct (Hon' eq_refl) as (_ & Hselect & _).
  destruct (suppressors_by_mode (freshWorld sampleDocument) (mkEvent 11 false false))
    as [_ Hoff].
  split; [|split; [|split]].
  - rewrite (Hkey (sampleElement "INPUT" EmptyString) eq_refl). reflexivity.
  - rewrite (Hselect (sampleElement "SELECT" EmptyString) eq_refl). reflexivity.
  - apply (proj1 (Hchange false)).
  - apply (proj2 (proj2 (Hoff eq_refl))).
Defined.
